(** * Project-WorldVision: the aggregation passes of [automated_analysis.py]

    A shallow embedding of the tallying code of [src/automated_analysis.py]
    (engagement counts, repeat participations, demographic distributions,
    theme distributions and message samples) together with the properties
    the specification states about them.  Line numbers refer to that file.
    The data of its maps and graphs and the two contact scripts,
    [src/export_weekly_ad_contacts.py] and [src/export_contact_lists.py],
    follow, with the properties their code shows.

    Python dictionaries are insertion-ordered association lists, exceptions
    are an explicit [Raise] outcome threaded through a small error monad, and
    the percentages are IEEE binary64 numbers (Rocq's primitive floats).
    The script is one sequence of statements; each of its passes is a
    function here, and an exception a pass raises ends the run. *)

From Stdlib Require Import ZArith String Ascii List Bool Arith Lia.
From Stdlib Require Import DecimalString.
From Stdlib Require Import PrimFloat FloatOps SpecFloat.
Import ListNotations.

Set Implicit Arguments.
Local Open Scope string_scope.
Local Open Scope list_scope.

(* ================================================================= *)
(** ** Exceptions and the error monad *)

(** The exceptions the modelled code can raise.  Assertion messages are not
    part of any output and are dropped. *)
Inductive exn : Type :=
| KeyError (key : string)
| AssertionError
| ZeroDivisionError
| TypeError
| ValueError.

Inductive result (A : Type) : Type :=
| Ok (a : A)
| Raise (e : exn).

Arguments Ok {A} a.
Arguments Raise {A} e.

Definition bind {A B : Type} (r : result A) (k : A -> result B) : result B :=
  match r with
  | Ok a => k a
  | Raise e => Raise e
  end.

Notation "x <- e ;; k" := (bind e (fun x => k))
  (at level 61, e at next level, right associativity).
Notation "e ;;; k" := (bind e (fun _ => k))
  (at level 61, right associativity).

Definition raises {A : Type} (r : result A) : Prop := exists e, r = Raise e.

(** [assert cond] *)
Definition py_assert (cond : bool) : result unit :=
  if cond then Ok tt else Raise AssertionError.

(** A [for x in xs: body] loop over a state [S]; the first exception stops it. *)
Fixpoint for_each {A S : Type} (xs : list A) (body : A -> S -> result S) (s : S)
  : result S :=
  match xs with
  | [] => Ok s
  | x :: xs' => s' <- body x s ;; for_each xs' body s'
  end.

(* ================================================================= *)
(** ** Insertion-ordered dictionaries *)

Class PyKey (K : Type) : Type := {
  keqb : K -> K -> bool;
  keqb_eq : forall a b, keqb a b = true <-> a = b;
  krepr : K -> string
}.

#[export] Instance PyKey_string : PyKey string := {
  keqb := String.eqb;
  keqb_eq := String.eqb_eq;
  krepr := fun s => s
}.

#[export] Instance PyKey_nat : PyKey nat := {
  keqb := Nat.eqb;
  keqb_eq := Nat.eqb_eq;
  krepr := fun n => NilEmpty.string_of_uint (Nat.to_uint n)
}.

Module OrderedDict.
Section dict.
Context {K V : Type} `{PyKey K}.

Definition t : Type := list (K * V).

Definition empty : t := [].

(** [d.get(k)] *)
Fixpoint get (k : K) (d : t) : option V :=
  match d with
  | [] => None
  | (k', v) :: d' => if keqb k k' then Some v else get k d'
  end.

(** [d[k] = v]: an existing key keeps its position. *)
Fixpoint set (k : K) (v : V) (d : t) : t :=
  match d with
  | [] => [(k, v)]
  | (k', v') :: d' =>
      if keqb k k' then (k', v) :: d' else (k', v') :: set k v d'
  end.

(** [d[k]] *)
Definition getitem (k : K) (d : t) : result V :=
  match get k d with
  | Some v => Ok v
  | None => Raise (KeyError (krepr k))
  end.

(** [k in d] *)
Definition contains (k : K) (d : t) : bool :=
  match get k d with Some _ => true | None => false end.

Definition keys (d : t) : list K := map fst d.
Definition values (d : t) : list V := map snd d.
End dict.
Arguments t : clear implicits.
End OrderedDict.

Definition dict (K V : Type) : Type := OrderedDict.t K V.

(* ================================================================= *)
(** ** Numbers: Python [int], [float], [/] and [round(x, 1)] *)

Local Open Scope Z_scope.

(** [float(n)] for an integer: the nearest binary64 number. *)
Definition float_of_Z (z : Z) : float :=
  SF2Prim (binary_normalize prec emax z 0 false).

Definition float_of_nat (n : nat) : float := float_of_Z (Z.of_nat n).

(** An integer as an exact, unrounded binary number. *)
Definition spec_of_nat (n : nat) : spec_float :=
  match n with
  | O => S754_zero false
  | S _ => S754_finite false (Pos.of_nat n) 0
  end.

(** [a / b] on two integers, [b <> 0]: Python's true division returns the
    float nearest to the exact quotient. *)
Definition int_truediv (a b : nat) : float :=
  SF2Prim (SFdiv prec emax (spec_of_nat a) (spec_of_nat b)).

(** Quotient of [n] by [d > 0] rounded to the nearest integer, ties to even. *)
Definition div_half_even (n d : Z) : Z :=
  let q := n / d in
  let r := n mod d in
  match 2 * r ?= d with
  | Lt => q
  | Gt => q + 1
  | Eq => if Z.even q then q else q + 1
  end.

(** [round(x, 1)] on a float.  CPython rounds the exact binary value of [x]
    to one decimal digit, ties to even, and returns the float nearest to that
    decimal.  A float with a non-negative exponent is an integer and is its
    own rounding; infinities, NaN and zeros are returned unchanged. *)
Definition py_round1 (x : float) : float :=
  match Prim2SF x with
  | S754_finite s m e =>
      if 0 <=? e then x
      else
        match div_half_even (10 * Z.pos m) (2 ^ (- e)) with
        | Z.pos tenths =>
            SF2Prim (SFdiv prec emax (S754_finite s tenths 0) (S754_finite false 10 0))
        | _ => SF2Prim (S754_zero s)
        end
  | _ => x
  end.

Local Close Scope Z_scope.

Definition float_is_zero (f : float) : bool := PrimFloat.eqb f PrimFloat.zero.

(** [round(count / total * 100, 1)] for two integers with [total <> 0]. *)
Definition percentage (count total : nat) : float :=
  py_round1 (PrimFloat.mul (int_truediv count total) (float_of_nat 100)).

(** The values that appear in the cells of the output tables. *)
Inductive cell : Type :=
| CInt (n : nat)
| CFloat (f : float)
| CStr (s : string)
| CNone.

(** [c == 0] *)
Definition cell_eq_zero (c : cell) : bool :=
  match c with
  | CInt n => Nat.eqb n 0
  | CFloat f => float_is_zero f
  | CStr _ | CNone => false
  end.

(** [c += 1] *)
Definition cell_incr (c : cell) : result cell :=
  match c with
  | CInt n => Ok (CInt (S n))
  | CFloat f => Ok (CFloat (PrimFloat.add f PrimFloat.one))
  | CStr _ | CNone => Raise TypeError
  end.

Definition cell_to_float (c : cell) : result float :=
  match c with
  | CInt n => Ok (float_of_nat n)
  | CFloat f => Ok f
  | CStr _ | CNone => Raise TypeError
  end.

(** [round(a / b * 100, 1)] on two integers. *)
Definition int_percentage (a b : nat) : result float :=
  if Nat.eqb b 0 then Raise ZeroDivisionError else Ok (percentage a b).

(** [round(a / b * 100, 1)] on two cells. *)
Definition cell_percentage (a b : cell) : result cell :=
  match a, b with
  | CInt x, CInt y => f <- int_percentage x y ;; Ok (CFloat f)
  | _, _ =>
      x <- cell_to_float a ;;
      y <- cell_to_float b ;;
      if float_is_zero y then Raise ZeroDivisionError
      else Ok (CFloat (py_round1 (PrimFloat.mul (PrimFloat.div x y) (float_of_nat 100))))
  end.

(* ================================================================= *)
(** ** Code schemes, coding plans and records *)

(** The constants of [core_data_modules.cleaners.Codes] the script uses. *)
Module Codes.
Definition TRUE : string := "true".
Definition FALSE : string := "false".
Definition STOP : string := "STOP".
End Codes.

Inductive CodeTypes : Type := NORMAL | CONTROL | META.

Definition CodeTypes_eqb (a b : CodeTypes) : bool :=
  match a, b with
  | NORMAL, NORMAL | CONTROL, CONTROL | META, META => true
  | _, _ => false
  end.

Record Code : Type := {
  code_id : string;
  string_value : string;
  code_type : CodeTypes;
  control_code : option string
}.

Record CodeScheme : Type := {
  name : string;
  codes : list Code
}.

(** [scheme.get_code_with_code_id(code_id)]: the first code with that id, a
    [KeyError] when there is none. *)
Definition get_code_with_code_id (scheme : CodeScheme) (id : string) : result Code :=
  match find (fun c => String.eqb (code_id c) id) (codes scheme) with
  | Some c => Ok c
  | None => Raise (KeyError id)
  end.

(** [code.control_code == Codes.STOP] *)
Definition is_stop (c : Code) : bool :=
  match control_code c with
  | Some s => String.eqb s Codes.STOP
  | None => false
  end.

(** [code.code_type == CodeTypes.NORMAL] *)
Definition is_normal (c : Code) : bool := CodeTypes_eqb (code_type c) NORMAL.

Inductive CodingModes : Type := SINGLE | MULTIPLE.

Definition CodingModes_eqb (a b : CodingModes) : bool :=
  match a, b with
  | SINGLE, SINGLE | MULTIPLE, MULTIPLE => true
  | _, _ => false
  end.

Record CodingConfiguration : Type := {
  coded_field : string;
  code_scheme : CodeScheme;
  coding_mode : CodingModes;
  analysis_file_key : option string
}.

Record CodingPlan : Type := {
  dataset_name : string;
  raw_field : string;
  coding_configurations : list CodingConfiguration
}.

(** The three plan catalogues, class attributes of [PipelineConfiguration]. *)
Record PipelineConfiguration : Type := {
  RQA_CODING_PLANS : list CodingPlan;
  DEMOG_CODING_PLANS : list CodingPlan;
  SURVEY_CODING_PLANS : list CodingPlan
}.

(** A label as stored in a record: only its [CodeID] is read. *)
Record Label : Type := { CodeID : string }.

(** The values a record holds under the keys the script reads: a string (the
    consent flag, the uid, a raw response), one label (SINGLE coding) or a
    list of labels (MULTIPLE coding). *)
Inductive value : Type :=
| VStr (s : string)
| VLabel (l : Label)
| VLabels (ls : list Label).

Definition TracedData : Type := dict string value.

Definition CONSENT_WITHDRAWN_KEY : string := "consent_withdrawn".

(** [v == s] for a string constant [s] *)
Definition value_eq_str (v : value) (s : string) : bool :=
  match v with
  | VStr x => String.eqb x s
  | _ => false
  end.

(** [v["CodeID"]] *)
Definition subscript_CodeID (v : value) : result string :=
  match v with
  | VLabel l => Ok (CodeID l)
  | VStr _ | VLabels _ => Raise TypeError
  end.

(** The labels a [for label in v: ... label["CodeID"] ...] loop visits.  On a
    list they are its elements; iterating an empty string visits nothing;
    iterating a non-empty string or a label's dict yields strings, whose
    ["CodeID"] subscript is a [TypeError] on the first iteration. *)
Definition iter_labels (v : value) : result (list Label) :=
  match v with
  | VLabels ls => Ok ls
  | VStr EmptyString => Ok []
  | VStr _ | VLabel _ => Raise TypeError
  end.

(** The formatting of an optional key inside an f-string. *)
Definition fstr (o : option string) : string :=
  match o with
  | Some s => s
  | None => "None"
  end.

(** The functions of the repository's [AnalysisUtils] module that the script
    calls, as an interface: the properties below hold whatever they compute. *)
Record AnalysisUtils : Type := {
  filter_opt_ins : list TracedData -> string -> list CodingPlan -> result (list TracedData);
  filter_fully_labelled : list TracedData -> string -> list CodingPlan -> result (list TracedData);
  filter_partially_labelled : list TracedData -> string -> list CodingPlan -> result (list TracedData);
  filter_relevant : list TracedData -> string -> list CodingPlan -> result (list TracedData);
  opt_in : TracedData -> string -> CodingPlan -> result bool
}.

(* ================================================================= *)
(** ** Engagement counts (lines 84-123) *)

Record EngagementRow : Type := {
  Episode : string;
  Total_Messages : cell;
  Total_Messages_with_Opt_Ins : cell;
  Total_Labelled_Messages : cell;
  Total_Relevant_Messages : cell;
  Total_Participants : cell;
  Total_Participants_with_Opt_Ins : cell;
  Total_Relevant_Participants : cell
}.

(** [len(f(records, CONSENT_WITHDRAWN_KEY, plans))] *)
Definition len_of (f : list TracedData -> string -> list CodingPlan -> result (list TracedData))
  (records : list TracedData) (plans : list CodingPlan) : result cell :=
  l <- f records CONSENT_WITHDRAWN_KEY plans ;; Ok (CInt (length l)).

Definition episode_engagement_row (U : AnalysisUtils) (messages individuals : list TracedData)
  (plan : CodingPlan) : result EngagementRow :=
  m_opt <- len_of (filter_opt_ins U) messages [plan] ;;
  m_lab <- len_of (filter_fully_labelled U) messages [plan] ;;
  m_rel <- len_of (filter_relevant U) messages [plan] ;;
  i_opt <- len_of (filter_opt_ins U) individuals [plan] ;;
  i_rel <- len_of (filter_relevant U) individuals [plan] ;;
  Ok {| Episode := dataset_name plan;
        Total_Messages := CStr "-";
        Total_Messages_with_Opt_Ins := m_opt;
        Total_Labelled_Messages := m_lab;
        Total_Relevant_Messages := m_rel;
        Total_Participants := CStr "-";
        Total_Participants_with_Opt_Ins := i_opt;
        Total_Relevant_Participants := i_rel |}.

Definition total_engagement_row (U : AnalysisUtils) (P : PipelineConfiguration)
  (messages individuals : list TracedData) : result EngagementRow :=
  m_opt <- len_of (filter_opt_ins U) messages (RQA_CODING_PLANS P) ;;
  m_lab <- len_of (filter_partially_labelled U) messages (RQA_CODING_PLANS P) ;;
  m_rel <- len_of (filter_relevant U) messages (RQA_CODING_PLANS P) ;;
  i_opt <- len_of (filter_opt_ins U) individuals (RQA_CODING_PLANS P) ;;
  i_rel <- len_of (filter_relevant U) individuals (RQA_CODING_PLANS P) ;;
  Ok {| Episode := "Total";
        Total_Messages := CInt (length messages);
        Total_Messages_with_Opt_Ins := m_opt;
        Total_Labelled_Messages := m_lab;
        Total_Relevant_Messages := m_rel;
        Total_Participants := CInt (length individuals);
        Total_Participants_with_Opt_Ins := i_opt;
        Total_Relevant_Participants := i_rel |}.

(** The [engagement_counts] dictionary, of episode name to row. *)
Definition engagement_counts (U : AnalysisUtils) (P : PipelineConfiguration)
  (messages individuals : list TracedData) : result (dict string EngagementRow) :=
  counts <- for_each (RQA_CODING_PLANS P)
              (fun plan counts =>
                 row <- episode_engagement_row U messages individuals plan ;;
                 Ok (OrderedDict.set (dataset_name plan) row counts))
              OrderedDict.empty ;;
  total <- total_engagement_row U P messages individuals ;;
  Ok (OrderedDict.set "Total" total counts).

(** The rows written to [engagement_counts.csv]. *)
Definition engagement_rows (U : AnalysisUtils) (P : PipelineConfiguration)
  (messages individuals : list TracedData) : result (list EngagementRow) :=
  counts <- engagement_counts U P messages individuals ;;
  Ok (OrderedDict.values counts).

(* ================================================================= *)
(** ** Repeat participations (lines 125-159) *)

Record RepeatRow : Type := {
  Episodes_Participated_In : nat;
  Number_of_Individuals : nat;
  Pct_of_Individuals : cell
}.

(** One empty row for every [i] in [range(1, len(RQA_CODING_PLANS) + 1)]. *)
Definition init_repeat_participations (P : PipelineConfiguration) : dict nat RepeatRow :=
  fold_left
    (fun rp i =>
       OrderedDict.set i {| Episodes_Participated_In := i;
                            Number_of_Individuals := 0;
                            Pct_of_Individuals := CNone |} rp)
    (seq 1 (length (RQA_CODING_PLANS P))) OrderedDict.empty.

(** The number of plans whose raw field is a key of the record. *)
Definition weeks_participated (plans : list CodingPlan) (ind : TracedData) : nat :=
  fold_left
    (fun weeks plan => if OrderedDict.contains (raw_field plan) ind then S weeks else weeks)
    plans 0.

(** The body of the loop over the individuals.  The assertion message reads
    [ind['uid']], so a failing assertion on a record without uid is a
    [KeyError]. *)
Definition count_participation (P : PipelineConfiguration) (ind : TracedData)
  (rp : dict nat RepeatRow) : result (dict nat RepeatRow) :=
  flag <- OrderedDict.getitem "consent_withdrawn" ind ;;
  if value_eq_str flag Codes.FALSE then
    let weeks := weeks_participated (RQA_CODING_PLANS P) ind in
    (if Nat.eqb weeks 0
     then OrderedDict.getitem "uid" ind ;;; Raise AssertionError
     else Ok tt) ;;;
    row <- OrderedDict.getitem weeks rp ;;
    Ok (OrderedDict.set weeks
          {| Episodes_Participated_In := Episodes_Participated_In row;
             Number_of_Individuals := S (Number_of_Individuals row);
             Pct_of_Individuals := Pct_of_Individuals row |} rp)
  else Ok rp.

Definition repeat_participation_counts (P : PipelineConfiguration)
  (individuals : list TracedData) : result (dict nat RepeatRow) :=
  for_each individuals (count_participation P) (init_repeat_participations P).

(** [len([td for td in individuals if td[key] == s])] *)
Fixpoint count_flag (key s : string) (individuals : list TracedData) : result nat :=
  match individuals with
  | [] => Ok 0
  | td :: rest =>
      flag <- OrderedDict.getitem key td ;;
      n <- count_flag key s rest ;;
      Ok (if value_eq_str flag s then S n else n)
  end.

(** The percentage loop over [repeat_participations.values()]. *)
Fixpoint set_repeat_percentages (total_individuals : nat) (rp : dict nat RepeatRow)
  : result (dict nat RepeatRow) :=
  match rp with
  | [] => Ok []
  | (i, row) :: rest =>
      pct <- int_percentage (Number_of_Individuals row) total_individuals ;;
      rest' <- set_repeat_percentages total_individuals rest ;;
      Ok ((i, {| Episodes_Participated_In := Episodes_Participated_In row;
                 Number_of_Individuals := Number_of_Individuals row;
                 Pct_of_Individuals := CFloat pct |}) :: rest')
  end.

(** The whole pass: the rows written to [repeat_participations.csv]. *)
Definition repeat_participations (P : PipelineConfiguration)
  (individuals : list TracedData) : result (list RepeatRow) :=
  rp <- repeat_participation_counts P individuals ;;
  total_individuals <- count_flag "consent_withdrawn" Codes.FALSE individuals ;;
  rp' <- set_repeat_percentages total_individuals rp ;;
  Ok (OrderedDict.values rp').

(* ================================================================= *)
(** ** Demographic distributions (lines 161-223) *)

(** [demographic_distributions] (analysis_file_key -> code id -> number of
    individuals) and [total_relevant] (analysis_file_key -> number of relevant
    individuals). *)
Record DemographicTallies : Type := {
  demographic_distributions : dict string (dict string nat);
  total_relevant : dict string nat
}.

(** The zero counts of one scheme: every code but the STOP ones. *)
Definition init_code_counts (scheme : CodeScheme) : dict string nat :=
  fold_left
    (fun counts code =>
       if is_stop code then counts else OrderedDict.set (code_id code) 0 counts)
    (codes scheme) OrderedDict.empty.

Definition init_demographic_configuration (st : DemographicTallies)
  (cc : CodingConfiguration) : DemographicTallies :=
  match analysis_file_key cc with
  | None => st
  | Some key =>
      {| demographic_distributions :=
           OrderedDict.set key (init_code_counts (code_scheme cc))
             (demographic_distributions st);
         total_relevant := OrderedDict.set key 0 (total_relevant st) |}
  end.

Definition init_demographic_tallies (P : PipelineConfiguration) : DemographicTallies :=
  fold_left
    (fun st plan => fold_left init_demographic_configuration (coding_configurations plan) st)
    (DEMOG_CODING_PLANS P)
    {| demographic_distributions := OrderedDict.empty;
       total_relevant := OrderedDict.empty |}.

(** The innermost body of the loop over the individuals. *)
Definition count_demographic (ind : TracedData) (cc : CodingConfiguration)
  (st : DemographicTallies) : result DemographicTallies :=
  match analysis_file_key cc with
  | None => Ok st
  | Some key =>
      py_assert (CodingModes_eqb (coding_mode cc) SINGLE) ;;;
      v <- OrderedDict.getitem (coded_field cc) ind ;;
      id <- subscript_CodeID v ;;
      code <- get_code_with_code_id (code_scheme cc) id ;;
      counts <- OrderedDict.getitem key (demographic_distributions st) ;;
      n <- OrderedDict.getitem (code_id code) counts ;;
      let dd := OrderedDict.set key (OrderedDict.set (code_id code) (S n) counts)
                  (demographic_distributions st) in
      if is_normal code then
        t <- OrderedDict.getitem key (total_relevant st) ;;
        Ok {| demographic_distributions := dd;
              total_relevant := OrderedDict.set key (S t) (total_relevant st) |}
      else
        Ok {| demographic_distributions := dd; total_relevant := total_relevant st |}
  end.

Definition count_demographics_of (P : PipelineConfiguration) (ind : TracedData)
  (st : DemographicTallies) : result DemographicTallies :=
  flag <- OrderedDict.getitem "consent_withdrawn" ind ;;
  if value_eq_str flag Codes.TRUE then Ok st
  else
    for_each (DEMOG_CODING_PLANS P)
      (fun plan st => for_each (coding_configurations plan) (count_demographic ind) st)
      st.

(** The tallying pass. *)
Definition demographic_pass (P : PipelineConfiguration) (individuals : list TracedData)
  : result DemographicTallies :=
  for_each individuals (count_demographics_of P) (init_demographic_tallies P).

Record DemographicRow : Type := {
  row_Demographic : string;
  row_Code : string;
  row_Participants_with_Opt_Ins : nat;
  row_Percent : cell
}.

(** The row of one code, [None] for a STOP code. *)
Definition demographic_row (st : DemographicTallies) (key : string) (i : nat) (code : Code)
  : result (option DemographicRow) :=
  if is_stop code then Ok None
  else
    counts <- OrderedDict.getitem key (demographic_distributions st) ;;
    participants_with_opt_ins <- OrderedDict.getitem (code_id code) counts ;;
    percent <- (if is_normal code then
                  t <- OrderedDict.getitem key (total_relevant st) ;;
                  f <- int_percentage participants_with_opt_ins t ;;
                  Ok (CFloat f)
                else Ok (CStr "")) ;;
    Ok (Some {| row_Demographic := if Nat.eqb i 0 then key else "";
                row_Code := string_value code;
                row_Participants_with_Opt_Ins := participants_with_opt_ins;
                row_Percent := percent |}).

Fixpoint demographic_rows_from (st : DemographicTallies) (key : string) (i : nat)
  (cs : list Code) : result (list DemographicRow) :=
  match cs with
  | [] => Ok []
  | code :: rest =>
      r <- demographic_row st key i code ;;
      rows <- demographic_rows_from st key (S i) rest ;;
      Ok (match r with Some row => row :: rows | None => rows end)
  end.

(** The rows one configuration contributes to [demographic_distributions.csv]. *)
Definition demographic_configuration_rows (st : DemographicTallies)
  (cc : CodingConfiguration) : result (list DemographicRow) :=
  match analysis_file_key cc with
  | None => Ok []
  | Some key => demographic_rows_from st key 0 (codes (code_scheme cc))
  end.

Fixpoint concat_rows {A B : Type} (f : A -> result (list B)) (xs : list A)
  : result (list B) :=
  match xs with
  | [] => Ok []
  | x :: rest =>
      rows <- f x ;;
      rows' <- concat_rows f rest ;;
      Ok (rows ++ rows')
  end.

Definition export_demographic_distributions (P : PipelineConfiguration)
  (st : DemographicTallies) : result (list DemographicRow) :=
  concat_rows
    (fun plan => concat_rows (demographic_configuration_rows st) (coding_configurations plan))
    (DEMOG_CODING_PLANS P).

(** Tallying followed by the export. *)
Definition demographic_distributions_csv (P : PipelineConfiguration)
  (individuals : list TracedData) : result (list DemographicRow) :=
  st <- demographic_pass P individuals ;;
  export_demographic_distributions P st.

(* ================================================================= *)
(** ** Theme distributions (lines 225-332) *)

(** A survey-counts row: column name -> cell. *)
Definition SurveyCounts : Type := dict string cell.

(** [f"{cc.analysis_file_key}:{code.string_value}"] *)
Definition survey_key (key : string) (code : Code) : string :=
  key ++ ":" ++ string_value code.

(** [f"{cc.analysis_file_key}:{code.string_value} %"] *)
Definition survey_pct_key (key : string) (code : Code) : string :=
  key ++ ":" ++ string_value code ++ " %".

Definition make_survey_counts_configuration (survey_counts : SurveyCounts)
  (cc : CodingConfiguration) : SurveyCounts :=
  match analysis_file_key cc with
  | None => survey_counts
  | Some key =>
      fold_left
        (fun sc code =>
           if is_stop code then sc
           else OrderedDict.set (survey_pct_key key code) CNone
                  (OrderedDict.set (survey_key key code) (CInt 0) sc))
        (codes (code_scheme cc)) survey_counts
  end.

Definition make_survey_counts_dict (P : PipelineConfiguration) : SurveyCounts :=
  fold_left
    (fun sc plan => fold_left make_survey_counts_configuration (coding_configurations plan) sc)
    (SURVEY_CODING_PLANS P)
    (OrderedDict.set "Total Participants %" CNone
       (OrderedDict.set "Total Participants" (CInt 0) OrderedDict.empty)).

(** [d[k] += 1] on a row of cells. *)
Definition incr_item (k : string) (d : SurveyCounts) : result SurveyCounts :=
  c <- OrderedDict.getitem k d ;;
  c' <- cell_incr c ;;
  Ok (OrderedDict.set k c' d).

(** [[f(x) for x in xs]] *)
Fixpoint map_m {A B : Type} (f : A -> result B) (xs : list A) : result (list B) :=
  match xs with
  | [] => Ok []
  | x :: rest => y <- f x ;; ys <- map_m f rest ;; Ok (y :: ys)
  end.

(** The codes a record holds for a configuration, in either coding mode. *)
Definition assigned_codes (cc : CodingConfiguration) (td : TracedData) : result (list Code) :=
  match coding_mode cc with
  | SINGLE =>
      v <- OrderedDict.getitem (coded_field cc) td ;;
      id <- subscript_CodeID v ;;
      code <- get_code_with_code_id (code_scheme cc) id ;;
      Ok [code]
  | MULTIPLE =>
      v <- OrderedDict.getitem (coded_field cc) td ;;
      labels <- iter_labels v ;;
      map_m (fun label => get_code_with_code_id (code_scheme cc) (CodeID label)) labels
  end.

Definition update_survey_counts_configuration (td : TracedData) (cc : CodingConfiguration)
  (survey_counts : SurveyCounts) : result SurveyCounts :=
  match analysis_file_key cc with
  | None => Ok survey_counts
  | Some key =>
      cs <- assigned_codes cc td ;;
      for_each cs
        (fun code sc => if is_stop code then Ok sc else incr_item (survey_key key code) sc)
        survey_counts
  end.

Definition update_survey_counts (P : PipelineConfiguration) (survey_counts : SurveyCounts)
  (td : TracedData) : result SurveyCounts :=
  for_each (SURVEY_CODING_PLANS P)
    (fun plan sc =>
       for_each (coding_configurations plan) (update_survey_counts_configuration td) sc)
    survey_counts.

(** [set_survey_percentages(survey_counts, total_survey_counts)].  The function
    writes into [survey_counts] while it reads [total_survey_counts]; the
    script also calls it with one dictionary passed for both.  [aliased] says
    so, and then every read of the totals sees the writes made so far. *)
Definition totals_seen (aliased : bool) (survey_counts total_survey_counts : SurveyCounts)
  : SurveyCounts :=
  if aliased then survey_counts else total_survey_counts.

Definition set_percentage (aliased : bool) (total_survey_counts : SurveyCounts)
  (count_key pct_key : string) (survey_counts : SurveyCounts) : result SurveyCounts :=
  code_count <- OrderedDict.getitem count_key survey_counts ;;
  code_total <- OrderedDict.getitem count_key
                  (totals_seen aliased survey_counts total_survey_counts) ;;
  if cell_eq_zero code_total then Ok (OrderedDict.set pct_key (CStr "-") survey_counts)
  else
    pct <- cell_percentage code_count code_total ;;
    Ok (OrderedDict.set pct_key pct survey_counts).

Definition set_survey_percentages_configuration (aliased : bool)
  (total_survey_counts : SurveyCounts) (cc : CodingConfiguration)
  (survey_counts : SurveyCounts) : result SurveyCounts :=
  match analysis_file_key cc with
  | None => Ok survey_counts
  | Some key =>
      for_each (codes (code_scheme cc))
        (fun code sc =>
           if is_stop code then Ok sc
           else set_percentage aliased total_survey_counts
                  (survey_key key code) (survey_pct_key key code) sc)
        survey_counts
  end.

Definition set_survey_percentages (P : PipelineConfiguration) (aliased : bool)
  (survey_counts total_survey_counts : SurveyCounts) : result SurveyCounts :=
  total <- OrderedDict.getitem "Total Participants"
             (totals_seen aliased survey_counts total_survey_counts) ;;
  sc <- (if cell_eq_zero total
         then Ok (OrderedDict.set "Total Participants %" (CStr "-") survey_counts)
         else
           count <- OrderedDict.getitem "Total Participants" survey_counts ;;
           pct <- cell_percentage count total ;;
           Ok (OrderedDict.set "Total Participants %" pct survey_counts)) ;;
  for_each (SURVEY_CODING_PLANS P)
    (fun plan sc =>
       for_each (coding_configurations plan)
         (set_survey_percentages_configuration aliased total_survey_counts) sc)
    sc.

(** The themes of one episode: theme name -> survey-counts row. *)
Definition Themes : Type := dict string SurveyCounts.

Definition TOTAL_RELEVANT : string := "Total Relevant Participants".

(** [f"{cc.analysis_file_key}{code.string_value}"] *)
Definition theme_key (cc : CodingConfiguration) (code : Code) : string :=
  fstr (analysis_file_key cc) ++ string_value code.

(** The empty rows of one episode. *)
Definition init_themes_configuration (P : PipelineConfiguration) (cc : CodingConfiguration)
  (themes : Themes) : result Themes :=
  py_assert (CodingModes_eqb (coding_mode cc) MULTIPLE) ;;;
  Ok (fold_left
        (fun th code =>
           if is_stop code then th
           else OrderedDict.set (theme_key cc code) (make_survey_counts_dict P) th)
        (codes (code_scheme cc))
        (OrderedDict.set TOTAL_RELEVANT (make_survey_counts_dict P) themes)).

Definition init_themes (P : PipelineConfiguration) (episode_plan : CodingPlan)
  : result Themes :=
  for_each (coding_configurations episode_plan) (init_themes_configuration P)
    OrderedDict.empty.

(** [themes[theme]["Total Participants"] += 1] followed by
    [update_survey_counts(themes[theme], td)]. *)
Definition count_in_theme (P : PipelineConfiguration) (theme : string) (td : TracedData)
  (themes : Themes) : result Themes :=
  row <- OrderedDict.getitem theme themes ;;
  row1 <- incr_item "Total Participants" row ;;
  row2 <- update_survey_counts P row1 td ;;
  Ok (OrderedDict.set theme row2 themes).

(** The loop over the labels of one configuration; the state carries the
    [relevant_participant] flag. *)
Definition count_label (P : PipelineConfiguration) (cc : CodingConfiguration)
  (td : TracedData) (label : Label) (st : Themes * bool) : result (Themes * bool) :=
  code <- get_code_with_code_id (code_scheme cc) (CodeID label) ;;
  if is_stop code then Ok st
  else
    themes <- count_in_theme P (theme_key cc code) td (fst st) ;;
    Ok (themes, if is_normal code then true else snd st).

Definition count_themes_configuration (P : PipelineConfiguration) (td : TracedData)
  (cc : CodingConfiguration) (st : Themes * bool) : result (Themes * bool) :=
  py_assert (CodingModes_eqb (coding_mode cc) MULTIPLE) ;;;
  v <- OrderedDict.getitem (coded_field cc) td ;;
  labels <- iter_labels v ;;
  for_each labels (count_label P cc td) st.

Definition count_themes_of (P : PipelineConfiguration) (episode_plan : CodingPlan)
  (td : TracedData) (themes : Themes) : result Themes :=
  flag <- OrderedDict.getitem "consent_withdrawn" td ;;
  if value_eq_str flag Codes.TRUE then Ok themes
  else
    st <- for_each (coding_configurations episode_plan)
            (count_themes_configuration P td) (themes, false) ;;
    if snd st then count_in_theme P TOTAL_RELEVANT td (fst st) else Ok (fst st).

(** The percentages of one NORMAL code's theme. *)
Definition finalize_theme (P : PipelineConfiguration) (cc : CodingConfiguration)
  (code : Code) (themes : Themes) : result Themes :=
  if negb (is_normal code) then Ok themes
  else
    theme <- OrderedDict.getitem (theme_key cc code) themes ;;
    total <- OrderedDict.getitem TOTAL_RELEVANT themes ;;
    theme' <- set_survey_percentages P (String.eqb (theme_key cc code) TOTAL_RELEVANT)
                theme total ;;
    Ok (OrderedDict.set (theme_key cc code) theme' themes).

Definition finalize_themes_configuration (P : PipelineConfiguration)
  (cc : CodingConfiguration) (themes : Themes) : result Themes :=
  py_assert (CodingModes_eqb (coding_mode cc) MULTIPLE) ;;;
  for_each (codes (code_scheme cc)) (finalize_theme P cc) themes.

(** The counting part of one episode: empty rows, then the individuals. *)
Definition episode_theme_counts (P : PipelineConfiguration) (episode_plan : CodingPlan)
  (individuals : list TracedData) : result Themes :=
  themes <- init_themes P episode_plan ;;
  for_each individuals (count_themes_of P episode_plan) themes.

(** The percentages of one episode. *)
Definition episode_theme_percentages (P : PipelineConfiguration) (episode_plan : CodingPlan)
  (themes : Themes) : result Themes :=
  total <- OrderedDict.getitem TOTAL_RELEVANT themes ;;
  total' <- set_survey_percentages P true total total ;;
  for_each (coding_configurations episode_plan) (finalize_themes_configuration P)
    (OrderedDict.set TOTAL_RELEVANT total' themes).

Definition episode_themes (P : PipelineConfiguration) (episode_plan : CodingPlan)
  (individuals : list TracedData) : result Themes :=
  themes <- episode_theme_counts P episode_plan individuals ;;
  episode_theme_percentages P episode_plan themes.

(** The whole pass: [episodes], of raw field -> themes. *)
Definition theme_pass (P : PipelineConfiguration) (individuals : list TracedData)
  : result (dict string Themes) :=
  for_each (RQA_CODING_PLANS P)
    (fun episode_plan episodes =>
       themes <- episode_themes P episode_plan individuals ;;
       Ok (OrderedDict.set (raw_field episode_plan) themes episodes))
    OrderedDict.empty.

(* ================================================================= *)
(** ** Sample messages (lines 350-378) *)

(** [random.sample(population, k)] draws from the generator's state, which the
    embedding threads explicitly.  The library function returns [k] elements
    when [k] does not exceed the population and raises [ValueError]
    otherwise. *)
Record Random : Type := {
  rng : Type;
  draw : rng -> list value -> nat -> list value * rng;
  draw_length : forall g population k,
      k <= length population -> length (fst (draw g population k)) = k
}.

Definition random_sample (R : Random) (g : rng R) (population : list value) (k : nat)
  : result (list value * rng R) :=
  if Nat.leb k (length population) then Ok (draw R g population k)
  else Raise ValueError.

Record SampleRow : Type := {
  sample_Episode : string;
  sample_Code_Scheme : string;
  sample_Code : string;
  sample_Message : value
}.

(** [code_to_messages], with an empty list for every code's string value. *)
Definition init_code_to_messages (scheme : CodeScheme) : dict string (list value) :=
  fold_left
    (fun d code => OrderedDict.set (string_value code) [] d)
    (codes scheme) OrderedDict.empty.

(** [code_to_messages[code.string_value].append(msg[plan.raw_field])] for one
    label of a message. *)
Definition collect_label (plan : CodingPlan) (cc : CodingConfiguration) (msg : TracedData)
  (label : Label) (code_to_messages : dict string (list value))
  : result (dict string (list value)) :=
  code <- get_code_with_code_id (code_scheme cc) (CodeID label) ;;
  pool <- OrderedDict.getitem (string_value code) code_to_messages ;;
  raw <- OrderedDict.getitem (raw_field plan) msg ;;
  Ok (OrderedDict.set (string_value code) (pool ++ [raw]) code_to_messages).

Definition collect_message (U : AnalysisUtils) (plan : CodingPlan) (cc : CodingConfiguration)
  (msg : TracedData) (code_to_messages : dict string (list value))
  : result (dict string (list value)) :=
  opted_in <- opt_in U msg CONSENT_WITHDRAWN_KEY plan ;;
  if negb opted_in then Ok code_to_messages
  else
    v <- OrderedDict.getitem (coded_field cc) msg ;;
    labels <- iter_labels v ;;
    for_each labels (collect_label plan cc msg) code_to_messages.

Definition collect_messages (U : AnalysisUtils) (plan : CodingPlan) (cc : CodingConfiguration)
  (messages : list TracedData) : result (dict string (list value)) :=
  for_each messages (collect_message U plan cc) (init_code_to_messages (code_scheme cc)).

(** The sample of one code: at most 100 of its messages. *)
Definition sample_code (R : Random) (plan : CodingPlan) (cc : CodingConfiguration)
  (entry : string * list value) (st : list SampleRow * rng R)
  : result (list SampleRow * rng R) :=
  let sample_size := Nat.min 100 (length (snd entry)) in
  drawn <- random_sample R (snd st) (snd entry) sample_size ;;
  Ok (fst st ++ map (fun msg => {| sample_Episode := dataset_name plan;
                                   sample_Code_Scheme := name (code_scheme cc);
                                   sample_Code := fst entry;
                                   sample_Message := msg |}) (fst drawn),
      snd drawn).

(** The rows one configuration of one plan appends to [samples]. *)
Definition sample_configuration (U : AnalysisUtils) (R : Random) (messages : list TracedData)
  (plan : CodingPlan) (cc : CodingConfiguration) (st : list SampleRow * rng R)
  : result (list SampleRow * rng R) :=
  code_to_messages <- collect_messages U plan cc messages ;;
  for_each code_to_messages (sample_code R plan cc) st.

(** The rows written to [sample_messages.csv]. *)
Definition sample_messages (U : AnalysisUtils) (R : Random) (P : PipelineConfiguration)
  (messages : list TracedData) (g : rng R) : result (list SampleRow * rng R) :=
  for_each (RQA_CODING_PLANS P)
    (fun plan st =>
       for_each (coding_configurations plan) (sample_configuration U R messages plan) st)
    ([], g).

(* ================================================================= *)
(** ** The theme distributions file (lines 334-348) *)

(** [csv.DictWriter.writerow(row)] with the default [extrasaction]: a key of
    the row that is not a field name is a [ValueError]; the cells are written
    in the order of the field names, an absent one as the empty string. *)
Definition writerow (fieldnames : list string) (row : dict string cell) : result (list cell) :=
  if forallb (fun k => existsb (String.eqb k) fieldnames) (OrderedDict.keys row)
  then Ok (map (fun h => match OrderedDict.get h row with
                         | Some c => c
                         | None => CStr ""
                         end) fieldnames)
  else Raise ValueError.

(** [row.update(d)] *)
Definition dict_update (row d : dict string cell) : dict string cell :=
  fold_left (fun r entry => OrderedDict.set (fst entry) (snd entry) r) d row.

(** [["Question", "Variable"] + list(make_survey_counts_dict().keys())] *)
Definition theme_headers (P : PipelineConfiguration) : list string :=
  "Question" :: "Variable" :: OrderedDict.keys (make_survey_counts_dict P).

(** The row of one theme; the state carries the written rows and
    [last_row_episode]. *)
Definition export_theme (P : PipelineConfiguration) (episode : string)
  (entry : string * SurveyCounts) (st : list (list cell) * option string)
  : result (list (list cell) * option string) :=
  let question :=
    match snd st with
    | Some last => if String.eqb episode last then "" else episode
    | None => episode
    end in
  let row := dict_update [("Question", CStr question); ("Variable", CStr (fst entry))]
               (snd entry) in
  cells <- writerow (theme_headers P) row ;;
  Ok (fst st ++ [cells], Some episode).

(** The rows written to [theme_distributions.csv], below the header. *)
Definition theme_distributions_csv (P : PipelineConfiguration) (episodes : dict string Themes)
  : result (list (list cell)) :=
  st <- for_each episodes
          (fun episode st => for_each (snd episode) (export_theme P (fst episode)) st)
          ([], None) ;;
  Ok (fst st).

(* ================================================================= *)
(** ** Maps and graphs (lines 388-691) *)

(** The schemes of [configuration/code_schemes.py] the script names itself. *)
Module CodeSchemes.
Record t : Type := {
  KENYA_CONSTITUENCY : CodeScheme;
  KENYA_COUNTY : CodeScheme;
  GENDER : CodeScheme
}.
End CodeSchemes.

(** [Codes.MATRIX_1] *)
Definition MATRIX_1 : string := "1".

(** The frequencies of the NORMAL codes of [scheme], read from the counts
    stored under [key] (lines 398-403 with "county", 467-470 and 519-523 with
    "constituency"). *)
Definition normal_frequencies (scheme : CodeScheme) (key : string)
  (dd : dict string (dict string nat)) : result (dict string nat) :=
  for_each (codes scheme)
    (fun code frequencies =>
       if is_normal code then
         counts <- OrderedDict.getitem key dd ;;
         n <- OrderedDict.getitem (code_id code) counts ;;
         Ok (OrderedDict.set (string_value code) n frequencies)
       else Ok frequencies)
    OrderedDict.empty.

(** The frequencies of the NORMAL codes of [scheme] read from the survey
    columns of one theme row (lines 418-424, 445-449, 486-490 and 543-548). *)
Definition survey_frequencies (scheme : CodeScheme) (key : string) (row : SurveyCounts)
  : result (dict string cell) :=
  for_each (codes scheme)
    (fun code frequencies =>
       if is_normal code then
         c <- OrderedDict.getitem (survey_key key code) row ;;
         Ok (OrderedDict.set (string_value code) c frequencies)
       else Ok frequencies)
    OrderedDict.empty.

(** The data of the bar chart of one demographic configuration (lines
    579-598): [None] when the configuration is skipped. *)
Definition demographic_graph_data (dd : dict string (dict string nat))
  (cc : CodingConfiguration) : result (option (list (string * nat))) :=
  match analysis_file_key cc with
  | None => Ok None
  | Some key =>
      if Nat.ltb 200 (length (codes (code_scheme cc))) then Ok None
      else
        data <- for_each (codes (code_scheme cc))
                  (fun code data =>
                     if is_stop code then Ok data
                     else
                       counts <- OrderedDict.getitem key dd ;;
                       n <- OrderedDict.getitem (code_id code) counts ;;
                       Ok (data ++ [(string_value code, n)]))
                  [] ;;
        Ok (Some data)
  end.

(** The element of a record used as a dictionary key or a set member: a
    string hashes; a label (a dict) and a list of labels do not. *)
Definition hashable (v : value) : result string :=
  match v with
  | VStr s => Ok s
  | VLabel _ | VLabels _ => Raise TypeError
  end.

(** [label_counts], with a zero for every code's string value. *)
Definition init_label_counts (scheme : CodeScheme) : dict string nat :=
  fold_left (fun d code => OrderedDict.set (string_value code) 0 d)
    (codes scheme) OrderedDict.empty.

(** [label_counts[ind[key]] += 1] *)
Definition count_single_label (key : string) (ind : TracedData) (label_counts : dict string nat)
  : result (dict string nat) :=
  v <- OrderedDict.getitem key ind ;;
  k <- hashable v ;;
  n <- OrderedDict.getitem k label_counts ;;
  Ok (OrderedDict.set k (S n) label_counts).

(** The loop over the codes for one individual of a multi-select variable. *)
Definition count_matrix_labels (key : string) (scheme : CodeScheme) (ind : TracedData)
  (label_counts : dict string nat) : result (dict string nat) :=
  for_each (codes scheme)
    (fun code lc =>
       v <- OrderedDict.getitem (key ++ string_value code)%string ind ;;
       if value_eq_str v MATRIX_1 then
         n <- OrderedDict.getitem (string_value code) lc ;;
         Ok (OrderedDict.set (string_value code) (S n) lc)
       else Ok lc)
    label_counts.

(** The per-season distribution of one configuration (lines 600-630): [None]
    when the configuration is skipped. *)
Definition season_distribution (dd : dict string (dict string nat))
  (individuals : list TracedData) (cc : CodingConfiguration)
  : result (option (dict string nat)) :=
  match analysis_file_key cc with
  | None => Ok None
  | Some key =>
      if OrderedDict.contains key dd then Ok None
      else
        label_counts <-
          match coding_mode cc with
          | SINGLE =>
              for_each individuals (count_single_label key)
                (init_label_counts (code_scheme cc))
          | MULTIPLE =>
              for_each individuals (count_matrix_labels key (code_scheme cc))
                (init_label_counts (code_scheme cc))
          end ;;
        Ok (Some label_counts)
  end.

Definition season_distributions (P : PipelineConfiguration)
  (dd : dict string (dict string nat)) (individuals : list TracedData)
  : result (list (option (dict string nat))) :=
  concat_rows
    (fun plan => map_m (season_distribution dd individuals) (coding_configurations plan))
    (RQA_CODING_PLANS P ++ SURVEY_CODING_PLANS P).

(** The data of the gender pie chart (lines 632-646). *)
Definition normal_gender_distribution (S : CodeSchemes.t)
  (dd : dict string (dict string nat)) : result (list (string * nat)) :=
  gender_distribution <- OrderedDict.getitem "gender" dd ;;
  for_each (codes (CodeSchemes.GENDER S))
    (fun code data =>
       if is_normal code then
         n <- OrderedDict.getitem (code_id code) gender_distribution ;;
         Ok (data ++ [(string_value code, n)])
       else Ok data)
    [].

(** [a / b] on two cells. *)
Definition cell_truediv (a b : cell) : result cell :=
  match a, b with
  | CInt x, CInt y =>
      if Nat.eqb y 0 then Raise ZeroDivisionError else Ok (CFloat (int_truediv x y))
  | _, _ =>
      x <- cell_to_float a ;;
      y <- cell_to_float b ;;
      if float_is_zero y then Raise ZeroDivisionError else Ok (CFloat (PrimFloat.div x y))
  end.

(** The umbrella themes left out of the graphs by gender. *)
Definition UMBRELLA_THEMES : list string := ["knowledge"; "attitude"; "behaviour"].

(** [normal_themes[code.string_value] = episode[f"{cc.analysis_file_key}{code.string_value}"]] *)
Definition collect_normal_theme (episode : Themes) (cc : CodingConfiguration) (code : Code)
  (normal_themes : dict string SurveyCounts) : result (dict string SurveyCounts) :=
  if is_normal code && negb (existsb (String.eqb (string_value code)) UMBRELLA_THEMES)
  then
    row <- OrderedDict.getitem (theme_key cc code) episode ;;
    Ok (OrderedDict.set (string_value code) row normal_themes)
  else Ok normal_themes.

Definition normal_themes_of (plan : CodingPlan) (episode : Themes)
  : result (dict string SurveyCounts) :=
  for_each (coding_configurations plan)
    (fun cc normal_themes =>
       for_each (codes (code_scheme cc)) (collect_normal_theme episode cc) normal_themes)
    OrderedDict.empty.

Record GenderRow : Type := {
  RQA_Theme : string;
  Gender : string;
  Number_of_Participants : cell;
  Fraction_of_Relevant_Participants : cell
}.

(** One element of [normal_by_gender]. *)
Definition gender_row (episode : Themes) (theme : string) (demographic_counts : SurveyCounts)
  (gender_code : Code) : result GenderRow :=
  total <- OrderedDict.getitem TOTAL_RELEVANT episode ;;
  total_relevant_gender <- OrderedDict.getitem (survey_key "gender" gender_code) total ;;
  number <- OrderedDict.getitem (survey_key "gender" gender_code) demographic_counts ;;
  fraction <- (if cell_eq_zero total_relevant_gender then Ok CNone
               else
                 count <- OrderedDict.getitem (survey_key "gender" gender_code)
                            demographic_counts ;;
                 cell_truediv count total_relevant_gender) ;;
  Ok {| RQA_Theme := theme;
        Gender := string_value gender_code;
        Number_of_Participants := number;
        Fraction_of_Relevant_Participants := fraction |}.

Definition normal_by_gender (S : CodeSchemes.t) (episode : Themes)
  (normal_themes : dict string SurveyCounts) : result (list GenderRow) :=
  for_each normal_themes
    (fun entry rows =>
       for_each (codes (CodeSchemes.GENDER S))
         (fun gender_code rows =>
            if negb (is_normal gender_code) then Ok rows
            else
              row <- gender_row episode (fst entry) (snd entry) gender_code ;;
              Ok (rows ++ [row]))
         rows)
    [].

(** The data of the two graphs by gender of one episode (lines 648-679):
    [None] when the episode is skipped. *)
Definition themes_by_gender (S : CodeSchemes.t) (episodes : dict string Themes)
  (plan : CodingPlan) : result (option (list GenderRow)) :=
  episode <- OrderedDict.getitem (raw_field plan) episodes ;;
  normal_themes <- normal_themes_of plan episode ;;
  if Nat.eqb (length normal_themes) 0 then Ok None
  else
    rows <- normal_by_gender S episode normal_themes ;;
    Ok (Some rows).

(* ================================================================= *)
(** ** Contact lists: [export_weekly_ad_contacts.py] and [export_contact_lists.py] *)

(** A Python [set] of strings, as the duplicate-free list of its members in
    the order they were first added.  Python leaves the iteration order of a
    set unspecified; the properties below do not depend on it. *)
Module PySet.
Definition t : Type := list string.

Definition empty : t := [].

(** [x in s] *)
Definition contains (x : string) (s : t) : bool := existsb (String.eqb x) s.

(** [s.add(x)] *)
Definition add (x : string) (s : t) : t := if contains x s then s else s ++ [x].

(** [s.remove(x)], for a member [x] *)
Definition remove (x : string) (s : t) : t :=
  filter (fun y => negb (String.eqb y x)) s.
End PySet.

(** [FirestoreUuidTable.uuid_to_data_batch], of the [id_infrastructure]
    library, as an interface: the table answers with a dictionary that holds
    the phone number of the uuids it can re-identify. *)
Record UuidTable : Type := {
  uuid_to_data_batch : PySet.t -> result (dict string string)
}.

(** The body of the conversion loop (lines 97-102 of
    [export_weekly_ad_contacts.py], 102-107 of [export_contact_lists.py]);
    the state is [(phone_numbers, skipped_uuids)]. *)
Definition reidentify (uuid_phone_number_lut : dict string string) (uuid : string)
  (st : PySet.t * PySet.t) : PySet.t * PySet.t :=
  match OrderedDict.get uuid uuid_phone_number_lut with
  | Some number => (PySet.add ("+" ++ number)%string (fst st), snd st)
  | None => (fst st, PySet.add uuid (snd st))
  end.

(** "Convert the uuids to phone numbers" *)
Definition uuids_to_phone_numbers (T : UuidTable) (uuids : PySet.t)
  : result (PySet.t * PySet.t) :=
  uuid_phone_number_lut <- uuid_to_data_batch T uuids ;;
  Ok (fold_left (fun st uuid => reidentify uuid_phone_number_lut uuid st) uuids
        (PySet.empty, PySet.empty)).

(** A row of the contacts file, with the field names "URN:Tel" and "Name". *)
Record ContactRow : Type := {
  URN_Tel : string;
  Name : string
}.

(** "Export contacts CSV": a row holds a phone number and no name. *)
Definition contact_rows (phone_numbers : PySet.t) : list ContactRow :=
  map (fun n => {| URN_Tel := n; Name := "" |}) phone_numbers.

(** *** [export_weekly_ad_contacts.py] *)

(** The body of the loop over the records of a file (lines 69-73). *)
Definition add_opted_in_uuid (td : TracedData) (uuids : PySet.t) : result PySet.t :=
  flag <- OrderedDict.getitem "consent_withdrawn" td ;;
  if value_eq_str flag Codes.TRUE then Ok uuids
  else
    v <- OrderedDict.getitem "uid" td ;;
    uid <- hashable v ;;
    Ok (PySet.add uid uuids).

(** The loop over the traced data files (lines 60-73). *)
Definition load_uuids (files : list (list TracedData)) : result PySet.t :=
  for_each files (fun data uuids => for_each data add_opted_in_uuid uuids) PySet.empty.

(** The body of the loop over the exclusion list (lines 86-89); the state is
    [(removed, uuids)]. *)
Definition exclude_uuid (uuid : string) (st : nat * PySet.t) : nat * PySet.t :=
  if PySet.contains uuid (snd st) then (S (fst st), PySet.remove uuid (snd st)) else st.

(** "Remove any uuids in the exclusion list": the exclusion list is a JSON
    array of strings. *)
Definition remove_exclusions (exclusion_list : list string) (uuids : PySet.t)
  : nat * PySet.t :=
  fold_left (fun st uuid => exclude_uuid uuid st) exclusion_list (0, uuids).

Record WeeklyAdContacts : Type := {
  weekly_uuids : PySet.t;
  weekly_phone_numbers : PySet.t;
  weekly_skipped_uuids : PySet.t;
  weekly_rows : list ContactRow
}.

(** The script, from the loaded files to the rows of the contacts file; the
    exclusion list is optional. *)
Definition export_weekly_ad_contacts (T : UuidTable) (exclusion_list : option (list string))
  (files : list (list TracedData)) : result WeeklyAdContacts :=
  loaded <- load_uuids files ;;
  let uuids :=
    match exclusion_list with
    | Some l => snd (remove_exclusions l loaded)
    | None => loaded
    end in
  converted <- uuids_to_phone_numbers T uuids ;;
  Ok {| weekly_uuids := uuids;
        weekly_phone_numbers := fst converted;
        weekly_skipped_uuids := snd converted;
        weekly_rows := contact_rows (fst converted) |}.

(** *** [export_contact_lists.py] *)

(** The constants of [core_data_modules.cleaners.codes.KenyaCodes] the script
    uses. *)
Module KenyaCodes.
Definition KITUI : string := "kitui".
Definition MAKUENI : string := "makueni".
End KenyaCodes.

Definition TARGET_COUNTIES : PySet.t := [KenyaCodes.KITUI; KenyaCodes.MAKUENI].

(** [{county: 0 for county in TARGET_COUNTIES}] *)
Definition zero_county_counts : dict string nat :=
  fold_left (fun d county => OrderedDict.set county 0 d) TARGET_COUNTIES OrderedDict.empty.

(** [if uid not in seen: counts[county] += 1; seen.add(uid)] *)
Definition count_contact (county uid : string) (st : PySet.t * dict string nat)
  : result (PySet.t * dict string nat) :=
  if PySet.contains uid (fst st) then Ok st
  else
    n <- OrderedDict.getitem county (snd st) ;;
    Ok (PySet.add uid (fst st), OrderedDict.set county (S n) (snd st)).

(** The sets and counts of the search: those of the file being read and the
    running ones. *)
Record ContactSearch : Type := {
  file_uuids : PySet.t;
  file_county_counts : dict string nat;
  uuids : PySet.t;
  county_counts : dict string nat
}.

(** The body of the loop over the records of a file (lines 81-92). *)
Definition search_record (code_scheme : CodeScheme) (td : TracedData) (st : ContactSearch)
  : result ContactSearch :=
  county_coded <- OrderedDict.getitem "county_coded" td ;;
  if value_eq_str county_coded Codes.STOP then Ok st
  else
    id <- subscript_CodeID county_coded ;;
    code <- get_code_with_code_id code_scheme id ;;
    let county := string_value code in
    if PySet.contains county TARGET_COUNTIES then
      v <- OrderedDict.getitem "uid" td ;;
      uid <- hashable v ;;
      in_file <- count_contact county uid (file_uuids st, file_county_counts st) ;;
      running <- count_contact county uid (uuids st, county_counts st) ;;
      Ok {| file_uuids := fst in_file; file_county_counts := snd in_file;
            uuids := fst running; county_counts := snd running |}
    else Ok st.

(** One traced data file (lines 79-92): the file's own set and counts start
    empty. *)
Definition search_file (code_scheme : CodeScheme) (data : list TracedData) (st : ContactSearch)
  : result ContactSearch :=
  for_each data (search_record code_scheme)
    {| file_uuids := PySet.empty; file_county_counts := zero_county_counts;
       uuids := uuids st; county_counts := county_counts st |}.

(** The loop over the traced data files (lines 68-95). *)
Definition search_contacts (code_scheme : CodeScheme) (files : list (list TracedData))
  : result ContactSearch :=
  for_each files (search_file code_scheme)
    {| file_uuids := PySet.empty; file_county_counts := zero_county_counts;
       uuids := PySet.empty; county_counts := zero_county_counts |}.

(** The script, from the loaded files to the rows of the contacts file. *)
Definition export_contact_lists (T : UuidTable) (code_scheme : CodeScheme)
  (files : list (list TracedData)) : result (ContactSearch * list ContactRow) :=
  found <- search_contacts code_scheme files ;;
  converted <- uuids_to_phone_numbers T (uuids found) ;;
  Ok (found, contact_rows (fst converted)).

(* ================================================================= *)
(** ** The vocabulary of the properties *)

(** *** Engagement counts *)

(** The row stored under the name [k] is the row of an episode: it carries
    the "-" sentinel in both raw-total columns and [k] names an RQA plan. *)
Definition episode_row_of (P : PipelineConfiguration) (k : string) (row : EngagementRow)
  : Prop :=
  Episode row = k /\ Total_Messages row = CStr "-" /\ Total_Participants row = CStr "-" /\
  exists plan, In plan (RQA_CODING_PLANS P) /\ dataset_name plan = k.

(** *** Repeat participations *)

(** The individual has not withdrawn consent: [ind["consent_withdrawn"] == Codes.FALSE]. *)
Definition opted_in (ind : TracedData) : bool :=
  match OrderedDict.get "consent_withdrawn" ind with
  | Some flag => value_eq_str flag Codes.FALSE
  | None => false
  end.

(** The individual is opted in and has the raw field of exactly [i] plans. *)
Definition participated_in (P : PipelineConfiguration) (i : nat) (ind : TracedData) : bool :=
  opted_in ind && Nat.eqb (weeks_participated (RQA_CODING_PLANS P) ind) i.

(** The row a bucket starts with. *)
Definition empty_repeat_row (i : nat) : RepeatRow :=
  {| Episodes_Participated_In := i; Number_of_Individuals := 0; Pct_of_Individuals := CNone |}.

(** The state of the buckets after the individuals [seen]. *)
Definition buckets_of (P : PipelineConfiguration) (seen : list TracedData)
  (rp : dict nat RepeatRow) : Prop :=
  OrderedDict.keys rp = seq 1 (length (RQA_CODING_PLANS P)) /\
  forall i row, OrderedDict.get i rp = Some row ->
    Number_of_Individuals row = length (filter (participated_in P i) seen).

(** *** Demographic distributions *)

(** The configurations the two nested loops over the DEMOG plans visit. *)
Definition demog_configurations (P : PipelineConfiguration) : list CodingConfiguration :=
  flat_map coding_configurations (DEMOG_CODING_PLANS P).

(** The analysis file keys of a list of configurations. *)
Definition analysis_keys (ccs : list CodingConfiguration) : list string :=
  flat_map (fun cc => match analysis_file_key cc with Some k => [k] | None => [] end) ccs.

(** [ind["consent_withdrawn"] == Codes.TRUE] *)
Definition withdrawn (ind : TracedData) : bool :=
  match OrderedDict.get "consent_withdrawn" ind with
  | Some flag => value_eq_str flag Codes.TRUE
  | None => false
  end.

(** A NORMAL code carries no control code (the schemes are read with
    [CodeScheme.from_firebase_map], which only gives a control code to the
    codes of type CONTROL). *)
Definition well_formed_code (c : Code) : Prop :=
  code_type c = NORMAL -> control_code c = None.

(** All the codes of a scheme are well formed. *)
Definition well_formed_scheme (scheme : CodeScheme) : Prop :=
  Forall well_formed_code (codes scheme).

(** The shape the tallies keep during the pass: every exported key holds the
    counts of the codes its scheme was given at the start, and a total. *)
Definition tallies_shape (P : PipelineConfiguration) (st : DemographicTallies) : Prop :=
  forall cc key, In cc (demog_configurations P) -> analysis_file_key cc = Some key ->
    (exists counts,
        OrderedDict.get key (demographic_distributions st) = Some counts /\
        OrderedDict.keys counts = OrderedDict.keys (init_code_counts (code_scheme cc))) /\
    OrderedDict.get key (total_relevant st) <> None.

(** The number of individuals counted under one key. *)
Definition counted (counts : dict string nat) : nat := list_sum (OrderedDict.values counts).

(** The sum of the counts stored under [key]. *)
Definition counted_at (key : string) (st : DemographicTallies) : nat :=
  match OrderedDict.get key (demographic_distributions st) with
  | Some counts => counted counts
  | None => 0
  end.

(** Whether a configuration is exported under [key]. *)
Definition key_hits (key : string) (cc : CodingConfiguration) : nat :=
  match analysis_file_key cc with
  | Some k => if String.eqb k key then 1 else 0
  | None => 0
  end.

(** The individuals the demographic and theme loops do not skip. *)
Definition not_withdrawn (ind : TracedData) : bool := negb (withdrawn ind).

(** The coded field holds one label, which resolves in the scheme. *)
Definition resolves_single (cc : CodingConfiguration) (ind : TracedData) : Prop :=
  coding_mode cc = SINGLE /\
  exists l c,
    OrderedDict.get (coded_field cc) ind = Some (VLabel l) /\
    get_code_with_code_id (code_scheme cc) (CodeID l) = Ok c.

(** The codes of a scheme that get a row: all but the STOP ones. *)
Definition exported_codes (scheme : CodeScheme) : list Code :=
  filter (fun c => negb (is_stop c)) (codes scheme).

(** What an exported row says about its code. *)
Definition row_of_code (st : DemographicTallies) (key : string)
  (row : DemographicRow) (c : Code) : Prop :=
  row_Code row = string_value c /\
  (exists counts,
      OrderedDict.get key (demographic_distributions st) = Some counts /\
      OrderedDict.get (code_id c) counts = Some (row_Participants_with_Opt_Ins row)) /\
  if is_normal c
  then exists t,
      OrderedDict.get key (total_relevant st) = Some t /\ t <> 0 /\
      row_Percent row = CFloat (percentage (row_Participants_with_Opt_Ins row) t)
  else row_Percent row = CStr "".

(** *** Theme distributions *)

(** The column names built from an analysis key contain a colon, so none of
    them is the "Total Participants" column. *)
Fixpoint mentions_colon (s : string) : bool :=
  match s with
  | EmptyString => false
  | String c s' => Ascii.eqb c ":"%char || mentions_colon s'
  end.

(** The "Total Participants" cell of a row. *)
Definition total_cell (row : SurveyCounts) : option cell :=
  OrderedDict.get "Total Participants" row.

(** The code a label resolves to in the scheme of a configuration. *)
Definition label_code (cc : CodingConfiguration) (label : Label) : option Code :=
  match get_code_with_code_id (code_scheme cc) (CodeID label) with
  | Ok c => Some c
  | Raise _ => None
  end.

(** The labels a record holds in the coded field of a configuration. *)
Definition field_labels (cc : CodingConfiguration) (td : TracedData) : list Label :=
  match OrderedDict.get (coded_field cc) td with
  | Some v => match iter_labels v with Ok ls => ls | Raise _ => [] end
  | None => []
  end.

(** One for a label whose code is not STOP and belongs to the theme [K]. *)
Definition label_hits (cc : CodingConfiguration) (K : string) (label : Label) : nat :=
  match label_code cc label with
  | Some c => if is_stop c then 0 else if String.eqb (theme_key cc c) K then 1 else 0
  | None => 0
  end.

(** The labels of one coded field that count for the theme [K]. *)
Definition config_hits (td : TracedData) (K : string) (cc : CodingConfiguration) : nat :=
  list_sum (map (label_hits cc K) (field_labels cc td)).

(** The label assignments of one individual to the theme [K] in an episode. *)
Definition individual_hits (plan : CodingPlan) (K : string) (td : TracedData) : nat :=
  if withdrawn td then 0
  else list_sum (map (config_hits td K) (coding_configurations plan)).

(** The label assignments of all non-withdrawn individuals to the theme [K]. *)
Definition theme_assignments (plan : CodingPlan) (K : string)
  (individuals : list TracedData) : nat :=
  list_sum (map (individual_hits plan K) individuals).

(** The label sets [relevant_participant]: its code is not STOP and NORMAL. *)
Definition label_relevant (cc : CodingConfiguration) (label : Label) : bool :=
  match label_code cc label with
  | Some c => negb (is_stop c) && is_normal c
  | None => false
  end.

(** Some label of the coded field sets [relevant_participant]. *)
Definition config_relevant (td : TracedData) (cc : CodingConfiguration) : bool :=
  existsb (label_relevant cc) (field_labels cc td).

(** The individual did not withdraw and is marked relevant for the episode. *)
Definition relevant_participant (plan : CodingPlan) (td : TracedData) : bool :=
  negb (withdrawn td) && existsb (config_relevant td) (coding_configurations plan).

(** The individual did not withdraw and holds, in one of the episode's
    configurations, a label whose code is NORMAL. *)
Definition has_normal_code (plan : CodingPlan) (td : TracedData) : bool :=
  negb (withdrawn td) &&
  existsb
    (fun cc =>
       existsb
         (fun label => match label_code cc label with Some c => is_normal c | None => false end)
         (field_labels cc td))
    (coding_configurations plan).

(** The integer in the "Total Participants" cell of the theme [K], 0 when
    there is no such theme or cell. *)
Definition tp_count (K : string) (themes : Themes) : nat :=
  match OrderedDict.get K themes with
  | Some row => match total_cell row with Some (CInt n) => n | _ => 0 end
  | None => 0
  end.

(** Every row holds an integer in its "Total Participants" cell. *)
Definition counting_rows (themes : Themes) : Prop :=
  forall K row, OrderedDict.get K themes = Some row ->
    exists n, total_cell row = Some (CInt n).

(** What a relevant individual adds to the theme [K]: one for the synthetic
    row, nothing for the others. *)
Definition relevant_hits (plan : CodingPlan) (K : string) (td : TracedData) : nat :=
  if String.eqb K TOTAL_RELEVANT then (if relevant_participant plan td then 1 else 0) else 0.

(** Every theme holds an untouched survey-counts row. *)
Definition fresh_rows (P : PipelineConfiguration) (themes : Themes) : Prop :=
  forall K row, OrderedDict.get K themes = Some row -> row = make_survey_counts_dict P.

(** The "Total Participants" cell of the theme [K], if the theme exists. *)
Definition theme_total (K : string) (themes : Themes) : option (option cell) :=
  option_map total_cell (OrderedDict.get K themes).

(** *** Sample messages *)

(** The raw response a label of an opted-in message adds to the pool of the
    string value [sv]. *)
Definition label_responses (plan : CodingPlan) (cc : CodingConfiguration) (sv : string)
  (msg : TracedData) (label : Label) : list value :=
  match label_code cc label with
  | Some c =>
      if String.eqb (string_value c) sv
      then match OrderedDict.get (raw_field plan) msg with
           | Some raw => [raw]
           | None => []
           end
      else []
  | None => []
  end.

(** The raw responses one message adds to the pool of [sv]: none unless the
    message is opted in to the plan. *)
Definition responses_of (U : AnalysisUtils) (plan : CodingPlan) (cc : CodingConfiguration)
  (sv : string) (msg : TracedData) : list value :=
  match opt_in U msg CONSENT_WITHDRAWN_KEY plan with
  | Ok true => flat_map (label_responses plan cc sv msg) (field_labels cc msg)
  | _ => []
  end.

(** The opt-in raw responses assigned the code with string value [sv], one
    for every label that carries it. *)
Definition pool (U : AnalysisUtils) (plan : CodingPlan) (cc : CodingConfiguration)
  (messages : list TracedData) (sv : string) : list value :=
  flat_map (responses_of U plan cc sv) messages.

(** The number of exported rows that carry the code [sv]. *)
Definition rows_with (sv : string) (rows : list SampleRow) : nat :=
  length (filter (fun r => String.eqb (sample_Code r) sv) rows).

(** What the rows sampled for one entry of [code_to_messages] look like. *)
Definition sampled_for (plan : CodingPlan) (cc : CodingConfiguration) (r : SampleRow) : Prop :=
  sample_Episode r = dataset_name plan /\ sample_Code_Scheme r = name (code_scheme cc).

(** The number of rows an entry of [code_to_messages] contributes to [sv]. *)
Definition entry_size (sv : string) (entry : string * list value) : nat :=
  if String.eqb (fst entry) sv then Nat.min 100 (length (snd entry)) else 0.

(** The (plan, configuration) pairs of the RQA catalogue, in loop order. *)
Definition rqa_configurations (P : PipelineConfiguration)
  : list (CodingPlan * CodingConfiguration) :=
  flat_map (fun plan => map (pair plan) (coding_configurations plan)) (RQA_CODING_PLANS P).

(** The rows sampled for one configuration of one plan: for every code of the
    scheme, min(100, size of its pool) rows carry its string value. *)
Definition sample_block (U : AnalysisUtils) (messages : list TracedData)
  (block : list SampleRow) (pc : CodingPlan * CodingConfiguration) : Prop :=
  Forall (sampled_for (fst pc) (snd pc)) block /\
  forall c, In c (codes (code_scheme (snd pc))) ->
    rows_with (string_value c) block
    = Nat.min 100 (length (pool U (fst pc) (snd pc) messages (string_value c))).

(** *** Contact lists *)

(** The uid of a record, when it is a string. *)
Definition uid_of (td : TracedData) : option string :=
  match OrderedDict.get "uid" td with
  | Some (VStr u) => Some u
  | _ => None
  end.

(** Some record of the loaded files carries the uid [u] and has not withdrawn
    consent. *)
Definition opted_in_contact (files : list (list TracedData)) (u : string) : Prop :=
  exists data td, In data files /\ In td data /\ withdrawn td = false /\ uid_of td = Some u.

(** The uuid is on the exclusion list, when there is one. *)
Definition excluded (exclusion_list : option (list string)) (u : string) : Prop :=
  match exclusion_list with
  | Some l => In u l
  | None => False
  end.

(** The county label of the record resolves to a code of a target county. *)
Definition in_target_county (code_scheme : CodeScheme) (td : TracedData) : bool :=
  match OrderedDict.get "county_coded" td with
  | Some (VLabel l) =>
      match get_code_with_code_id code_scheme (CodeID l) with
      | Ok c => PySet.contains (string_value c) TARGET_COUNTIES
      | Raise _ => false
      end
  | _ => false
  end.

(** Some record of the loaded files carries the uid [u] and a target county. *)
Definition target_contact (code_scheme : CodeScheme) (files : list (list TracedData))
  (u : string) : Prop :=
  exists data td,
    In data files /\ In td data /\ in_target_county code_scheme td = true /\
    uid_of td = Some u.

(** The table does not know the uuid. *)
Definition unknown_to (lut : dict string string) (u : string) : bool :=
  negb (OrderedDict.contains u lut).

(** The counts add up to the size of the set they count the members of. *)
Definition counts_members (s : PySet.t) (counts : dict string nat) : Prop :=
  NoDup s /\ counted counts = length s.

(** The record is selected by the search and carries the uid [u]. *)
Definition selects (code_scheme : CodeScheme) (td : TracedData) (u : string) : Prop :=
  in_target_county code_scheme td = true /\ uid_of td = Some u.

(** *** The exported histogram *)

(** The row of a bucket once its percentage is set. *)
Definition with_percentage (total : nat) (row : RepeatRow) : RepeatRow :=
  {| Episodes_Participated_In := Episodes_Participated_In row;
     Number_of_Individuals := Number_of_Individuals row;
     Pct_of_Individuals := CFloat (percentage (Number_of_Individuals row) total) |}.

(** Every bucket is stored under the number of episodes it stands for. *)
Definition keyed_by_episodes (rp : dict nat RepeatRow) : Prop :=
  forall i row, In (i, row) rp -> Episodes_Participated_In row = i.

(** *** The tallies of one demographic code *)

(** The count stored for the code id [id] under [key], 0 when there is none. *)
Definition count_of (key id : string) (st : DemographicTallies) : nat :=
  match OrderedDict.get key (demographic_distributions st) with
  | Some counts => match OrderedDict.get id counts with Some n => n | None => 0 end
  | None => 0
  end.

(** The total stored under [key], 0 when there is none. *)
Definition total_of (key : string) (st : DemographicTallies) : nat :=
  match OrderedDict.get key (total_relevant st) with
  | Some t => t
  | None => 0
  end.

(** The label the individual holds for the configuration carries the code id [id]. *)
Definition labelled (id : string) (ind : TracedData) (cc : CodingConfiguration) : bool :=
  match OrderedDict.get (coded_field cc) ind with
  | Some (VLabel l) => String.eqb (CodeID l) id
  | _ => false
  end.

(** The label the individual holds for the configuration resolves to a
    NORMAL code. *)
Definition labelled_normal (ind : TracedData) (cc : CodingConfiguration) : bool :=
  match OrderedDict.get (coded_field cc) ind with
  | Some (VLabel l) =>
      match label_code cc l with
      | Some c => is_normal c
      | None => false
      end
  | _ => false
  end.

(** One for a configuration exported under [key] that satisfies [w]. *)
Definition weighted_hits (w : CodingConfiguration -> bool) (key : string)
  (cc : CodingConfiguration) : nat :=
  if w cc then key_hits key cc else 0.

(** The individual did not withdraw and is labelled with the code id [id]. *)
Definition coded_as (cc : CodingConfiguration) (id : string) (ind : TracedData) : bool :=
  not_withdrawn ind && labelled id ind cc.

(** The individual did not withdraw and is labelled with a NORMAL code. *)
Definition coded_normal (cc : CodingConfiguration) (ind : TracedData) : bool :=
  not_withdrawn ind && labelled_normal ind cc.

(** The NORMAL codes of a scheme. *)
Definition normal_codes (scheme : CodeScheme) : list Code := filter is_normal (codes scheme).

(** *** The rows of the theme distributions *)

(** The configurations the two nested loops over the SURVEY plans visit. *)
Definition survey_configurations (P : PipelineConfiguration) : list CodingConfiguration :=
  flat_map coding_configurations (SURVEY_CODING_PLANS P).

(** The code [c] has a count column and a percentage column under [key]. *)
Definition survey_column (P : PipelineConfiguration) (key : string) (c : Code) : Prop :=
  exists cc,
    In cc (survey_configurations P) /\ analysis_file_key cc = Some key /\
    In c (codes (code_scheme cc)) /\ is_stop c = false.

(** The row has the columns of a fresh survey-counts row, in the same order. *)
Definition header_row (P : PipelineConfiguration) (row : SurveyCounts) : Prop :=
  OrderedDict.keys row = OrderedDict.keys (make_survey_counts_dict P).

(** Every row of the themes satisfies [I]. *)
Definition every_row (I : SurveyCounts -> Prop) (themes : Themes) : Prop :=
  forall K row, In (K, row) themes -> I row.

(** The cells written for one theme: the question, the theme, then the cells
    of its row. *)
Definition theme_cells (question theme : string) (row : SurveyCounts) : list cell :=
  CStr question :: CStr theme :: OrderedDict.values row.

(** The rows of one episode: its name is written on the first row only. *)
Definition episode_block (episode : string * Themes) : list (list cell) :=
  match snd episode with
  | [] => []
  | first :: rest =>
      theme_cells (fst episode) (fst first) (snd first)
      :: map (fun entry => theme_cells "" (fst entry) (snd entry)) rest
  end.

(** The cell of a percentage of [count] out of [total]: the "-" sentinel when
    the total is zero. *)
Definition percentage_cell (count total : nat) : cell :=
  if Nat.eqb total 0 then CStr "-" else CFloat (percentage count total).

(** The "Total Participants %" cell of a row. *)
Definition pct_cell (row : SurveyCounts) : option cell :=
  OrderedDict.get "Total Participants %" row.

(** The row holds an integer in its "Total Participants" cell. *)
Definition int_total (row : SurveyCounts) : Prop :=
  exists n, total_cell row = Some (CInt n).

(** The theme [K] has a row whose "Total Participants %" cell is the
    percentage of its "Total Participants" cell out of [total]. *)
Definition percentage_set (K : string) (total : nat) (themes : Themes) : Prop :=
  exists row n,
    OrderedDict.get K themes = Some row /\
    total_cell row = Some (CInt n) /\
    pct_cell row = Some (percentage_cell n total).

(** No count column of the survey catalogue carries the name of a percentage
    column. *)
Definition columns_apart (P : PipelineConfiguration) : Prop :=
  forall key c key' c',
    survey_column P key c -> survey_column P key' c' ->
    survey_key key c <> survey_pct_key key' c'.

(** Every count column of the row holds an integer. *)
Definition int_columns (P : PipelineConfiguration) (row : SurveyCounts) : Prop :=
  forall key c, survey_column P key c ->
    exists n, OrderedDict.get (survey_key key c) row = Some (CInt n).

(** The integer in the count column of the code [c] under [key], 0 when the
    cell is absent or holds something else. *)
Definition column_count (key : string) (c : Code) (row : SurveyCounts) : nat :=
  match OrderedDict.get (survey_key key c) row with
  | Some (CInt n) => n
  | _ => 0
  end.

(** The fraction of [count] out of [total]: [None] when the total is zero. *)
Definition fraction_cell (count total : nat) : cell :=
  if Nat.eqb total 0 then CNone else CFloat (int_truediv count total).

(** The element of [normal_by_gender] for a theme and a gender code, read
    from the theme's row and from the row of the relevant participants. *)
Definition gender_row_of (total : SurveyCounts) (entry : string * SurveyCounts)
  (gender_code : Code) : GenderRow :=
  {| RQA_Theme := fst entry;
     Gender := string_value gender_code;
     Number_of_Participants := CInt (column_count "gender" gender_code (snd entry));
     Fraction_of_Relevant_Participants :=
       fraction_cell (column_count "gender" gender_code (snd entry))
         (column_count "gender" gender_code total) |}.

(** Every row of [normal_themes] is a row of the episode. *)
Definition rows_of (episode : Themes) (normal_themes : dict string SurveyCounts) : Prop :=
  forall sv row, In (sv, row) normal_themes -> exists K, In (K, row) episode.

(** *** The season distributions *)

(** The cell of the individual under [key] is the string [sv]. *)
Definition holds (key sv : string) (ind : TracedData) : bool :=
  match OrderedDict.get key ind with
  | Some v => value_eq_str v sv
  | None => false
  end.

(** The matrix cell of the individual for the string value [sv] is "1". *)
Definition selected (key sv : string) (ind : TracedData) : bool :=
  holds (key ++ sv) MATRIX_1 ind.

(** The counts of the labels after the individuals [seen]. *)
Definition labels_counted (f : string -> TracedData -> bool) (seen : list TracedData)
  (label_counts : dict string nat) : Prop :=
  forall sv n, OrderedDict.get sv label_counts = Some n -> n = length (filter (f sv) seen).

(** The "Total Participants %" cell of the row has not been set. *)
Definition percentage_unset (row : SurveyCounts) : Prop := pct_cell row = Some CNone.

(** *** The cells of the cross-tabulation *)

(** The value of [m] on the row of the theme [K], 0 when there is no row. *)
Definition measure_at (m : SurveyCounts -> nat) (K : string) (themes : Themes) : nat :=
  match OrderedDict.get K themes with
  | Some row => m row
  | None => 0
  end.

(** The codes a record holds for a survey configuration that are counted in
    the column [k]. *)
Definition configuration_hits (k : string) (td : TracedData) (cc : CodingConfiguration)
  : nat :=
  match analysis_file_key cc with
  | None => 0
  | Some key =>
      match assigned_codes cc td with
      | Ok cs =>
          length (filter (fun c => negb (is_stop c) && String.eqb (survey_key key c) k) cs)
      | Raise _ => 0
      end
  end.

(** The number of times [update_survey_counts] increments the column [k]
    for a record. *)
Definition survey_hits (P : PipelineConfiguration) (k : string) (td : TracedData) : nat :=
  list_sum (map (configuration_hits k td) (survey_configurations P)).

(** The number of times the row of the theme [K] is updated for an
    individual: once for every label assignment to the theme and, for the
    synthetic row, once if the individual is relevant. *)
Definition theme_updates (plan : CodingPlan) (K : string) (td : TracedData) : nat :=
  individual_hits plan K td + relevant_hits plan K td.

(** The cell of the percentage column of the code [c] under [key]. *)
Definition column_pct (key : string) (c : Code) (row : SurveyCounts) : option cell :=
  OrderedDict.get (survey_pct_key key c) row.

(** The theme [K] has a row whose [pct] cell is the percentage of its [count]
    out of [total]. *)
Definition cell_set (count : SurveyCounts -> nat) (pct : SurveyCounts -> option cell)
  (K : string) (total : nat) (themes : Themes) : Prop :=
  exists row,
    OrderedDict.get K themes = Some row /\
    pct row = Some (percentage_cell (count row) total).

(** Every row satisfies [I] and the row of the relevant participants counts
    [total]. *)
Definition totals_fixed (I : SurveyCounts -> Prop) (count : SurveyCounts -> nat)
  (total : nat) (themes : Themes) : Prop :=
  every_row I themes /\
  exists row, OrderedDict.get TOTAL_RELEVANT themes = Some row /\ count row = total.

(* ================================================================= *)
(** ** A small pipeline, used to run the passes on concrete data *)

(** Shorthand for a code. *)
Definition code (id text : string) (type : CodeTypes) (control : option string) : Code :=
  {| code_id := id; string_value := text; code_type := type; control_code := control |}.

Definition S01E01 : CodeScheme :=
  {| name := "s01e01";
     codes := [ code "code-water" "water" NORMAL None;
                code "code-food" "food" NORMAL None;
                code "code-NC" "NC" CONTROL (Some "NC");
                code "code-STOP" "STOP" CONTROL (Some "STOP") ] |}.

Definition S01E02 : CodeScheme :=
  {| name := "s01e02";
     codes := [ code "code-school" "school" NORMAL None;
                code "code-NC" "NC" CONTROL (Some "NC");
                code "code-STOP" "STOP" CONTROL (Some "STOP") ] |}.

Definition GENDER : CodeScheme :=
  {| name := "gender";
     codes := [ code "code-male" "male" NORMAL None;
                code "code-female" "female" NORMAL None;
                code "code-NC" "NC" CONTROL (Some "NC");
                code "code-STOP" "STOP" CONTROL (Some "STOP") ] |}.

Definition s01e01_configuration : CodingConfiguration :=
  {| coded_field := "rqa_s01e01_coded"; code_scheme := S01E01;
     coding_mode := MULTIPLE; analysis_file_key := Some "rqa_s01e01_" |}.

Definition s01e01_plan : CodingPlan :=
  {| dataset_name := "s01e01";
     raw_field := "rqa_s01e01_raw";
     coding_configurations := [ s01e01_configuration ] |}.

Definition s01e02_plan : CodingPlan :=
  {| dataset_name := "s01e02";
     raw_field := "rqa_s01e02_raw";
     coding_configurations :=
       [ {| coded_field := "rqa_s01e02_coded"; code_scheme := S01E02;
            coding_mode := MULTIPLE; analysis_file_key := Some "rqa_s01e02_" |} ] |}.

Definition gender_configuration : CodingConfiguration :=
  {| coded_field := "gender_coded"; code_scheme := GENDER;
     coding_mode := SINGLE; analysis_file_key := Some "gender" |}.

Definition gender_plan : CodingPlan :=
  {| dataset_name := "gender";
     raw_field := "gender_raw";
     coding_configurations := [ gender_configuration ] |}.

Definition pipeline : PipelineConfiguration :=
  {| RQA_CODING_PLANS := [ s01e01_plan; s01e02_plan ];
     DEMOG_CODING_PLANS := [ gender_plan ];
     SURVEY_CODING_PLANS := [ gender_plan ] |}.

Definition labels (ids : list string) : value := VLabels (map Build_Label ids).

Definition label (id : string) : value := VLabel (Build_Label id).

(** Three individuals: the first answered both episodes, the second only the
    first one, the third withdrew consent. *)
Definition amina : TracedData :=
  [ ("uid", VStr "avf-uuid-1"); ("consent_withdrawn", VStr "false");
    ("rqa_s01e01_raw", VStr "we need water and food");
    ("rqa_s01e01_coded", labels ["code-water"; "code-food"]);
    ("rqa_s01e02_raw", VStr "the school is far");
    ("rqa_s01e02_coded", labels ["code-school"]);
    ("gender_raw", VStr "woman"); ("gender_coded", label "code-female") ].

Definition baraka : TracedData :=
  [ ("uid", VStr "avf-uuid-2"); ("consent_withdrawn", VStr "false");
    ("rqa_s01e01_raw", VStr "water");
    ("rqa_s01e01_coded", labels ["code-water"]);
    ("rqa_s01e02_coded", labels []);
    ("gender_raw", VStr "m"); ("gender_coded", label "code-male") ].

Definition chausiku : TracedData :=
  [ ("uid", VStr "avf-uuid-3"); ("consent_withdrawn", VStr "true");
    ("rqa_s01e01_raw", VStr "STOP");
    ("rqa_s01e01_coded", labels ["code-STOP"]);
    ("rqa_s01e02_coded", labels ["code-STOP"]);
    ("gender_coded", label "code-STOP") ].

Definition population : list TracedData := [ amina; baraka; chausiku ].

(** A simple implementation of the [AnalysisUtils] interface for the examples:
    a record is opted in to a plan when its consent flag is not "true" and it
    holds the plan's raw field. *)
Definition simple_opt_in (td : TracedData) (key : string) (plan : CodingPlan) : result bool :=
  flag <- OrderedDict.getitem key td ;;
  Ok (negb (value_eq_str flag Codes.TRUE) && OrderedDict.contains (raw_field plan) td).

Definition keep_if (test : TracedData -> string -> CodingPlan -> result bool)
  (records : list TracedData) (key : string) (plans : list CodingPlan)
  : result (list TracedData) :=
  flags <- map_m (fun td => tests <- map_m (test td key) plans ;; Ok (existsb id tests))
             records ;;
  Ok (map fst (filter snd (combine records flags))).

Definition simple_labelled (td : TracedData) (key : string) (plan : CodingPlan) : result bool :=
  opted_in <- simple_opt_in td key plan ;;
  Ok (opted_in &&
      forallb (fun cc => OrderedDict.contains (coded_field cc) td)
              (coding_configurations plan)).

Definition simple_relevant (td : TracedData) (key : string) (plan : CodingPlan) : result bool :=
  opted_in <- simple_opt_in td key plan ;;
  if negb opted_in then Ok false
  else
    found <- map_m (fun cc => cs <- assigned_codes cc td ;; Ok (existsb is_normal cs))
               (coding_configurations plan) ;;
    Ok (existsb id found).

Definition simple_utils : AnalysisUtils :=
  {| filter_opt_ins := keep_if simple_opt_in;
     filter_fully_labelled := keep_if simple_labelled;
     filter_partially_labelled := keep_if simple_labelled;
     filter_relevant := keep_if simple_relevant;
     opt_in := simple_opt_in |}.

(** A generator that always draws the first [k] elements. *)
Definition first_k : Random :=
  {| rng := unit;
     draw := fun g population k => (firstn k population, g);
     draw_length := fun _ population k Hk => firstn_length_le population Hk |}.

(** An opted-in individual that holds no raw field of any episode. *)
Definition dalia : TracedData :=
  [ ("uid", VStr "avf-uuid-4"); ("consent_withdrawn", VStr "false");
    ("gender_raw", VStr "f"); ("gender_coded", label "code-female") ].

(** An individual that did not withdraw consent but whose gender label is the
    STOP code of the scheme. *)
Definition erasto : TracedData :=
  [ ("uid", VStr "avf-uuid-5"); ("consent_withdrawn", VStr "false");
    ("rqa_s01e01_raw", VStr "water please");
    ("rqa_s01e01_coded", labels ["code-water"]);
    ("rqa_s01e02_coded", labels []);
    ("gender_raw", VStr "stop"); ("gender_coded", label "code-STOP") ].

(** An individual whose coded field holds the same code in two labels. *)
Definition faraja : TracedData :=
  [ ("uid", VStr "avf-uuid-6"); ("consent_withdrawn", VStr "false");
    ("rqa_s01e01_raw", VStr "water, clean water");
    ("rqa_s01e01_coded", labels ["code-water"; "code-water"]);
    ("gender_raw", VStr "man"); ("gender_coded", label "code-male") ].

(** An opted-in individual whose gender could not be coded. *)
Definition gasira : TracedData :=
  [ ("uid", VStr "avf-uuid-7"); ("consent_withdrawn", VStr "false");
    ("rqa_s01e01_raw", VStr "food");
    ("rqa_s01e01_coded", labels ["code-food"]);
    ("gender_raw", VStr "??"); ("gender_coded", label "code-NC") ].







(** Messages of the first episode: 5 about water, 150 about food, and one
    from a participant that withdrew consent. *)
Definition water_message : TracedData :=
  [ ("uid", VStr "avf-uuid-1"); ("consent_withdrawn", VStr "false");
    ("rqa_s01e01_raw", VStr "we need water");
    ("rqa_s01e01_coded", labels ["code-water"]) ].

Definition food_message : TracedData :=
  [ ("uid", VStr "avf-uuid-2"); ("consent_withdrawn", VStr "false");
    ("rqa_s01e01_raw", VStr "food is expensive");
    ("rqa_s01e01_coded", labels ["code-food"]) ].

Definition stop_message : TracedData :=
  [ ("uid", VStr "avf-uuid-3"); ("consent_withdrawn", VStr "true");
    ("rqa_s01e01_raw", VStr "STOP");
    ("rqa_s01e01_coded", labels ["code-STOP"]) ].

Definition s01e01_messages : list TracedData :=
  repeat water_message 5 ++ [stop_message] ++ repeat food_message 150.

(** A uuid table that knows two participants. *)
Definition phone_directory : dict string string :=
  [ ("avf-uuid-1", "254000000001"); ("avf-uuid-2", "254000000002") ].

Definition phone_table : UuidTable :=
  {| uuid_to_data_batch :=
       fun uuids => Ok (filter (fun entry => PySet.contains (fst entry) uuids) phone_directory) |}.

(** A county scheme and four records coded with it; the last one holds the
    string "STOP" in place of a label. *)
Definition KENYA_COUNTY : CodeScheme :=
  {| name := "kenya_county";
     codes := [ code "code-kitui" "kitui" NORMAL None;
                code "code-makueni" "makueni" NORMAL None;
                code "code-nairobi" "nairobi" NORMAL None;
                code "code-NC" "NC" CONTROL (Some "NC");
                code "code-STOP" "STOP" CONTROL (Some "STOP") ] |}.

Definition kitui_contact : TracedData :=
  [ ("uid", VStr "avf-uuid-1"); ("consent_withdrawn", VStr "false");
    ("county_coded", label "code-kitui") ].

Definition makueni_contact : TracedData :=
  [ ("uid", VStr "avf-uuid-2"); ("consent_withdrawn", VStr "true");
    ("county_coded", label "code-makueni") ].

Definition nairobi_contact : TracedData :=
  [ ("uid", VStr "avf-uuid-8"); ("consent_withdrawn", VStr "false");
    ("county_coded", label "code-nairobi") ].

Definition moved_contact : TracedData :=
  [ ("uid", VStr "avf-uuid-1"); ("consent_withdrawn", VStr "false");
    ("county_coded", label "code-makueni") ].

Definition stopped_contact : TracedData :=
  [ ("uid", VStr "avf-uuid-9"); ("consent_withdrawn", VStr "true");
    ("county_coded", VStr "STOP") ].

Definition unknown_contact : TracedData :=
  [ ("uid", VStr "avf-uuid-10"); ("consent_withdrawn", VStr "false");
    ("county_coded", label "code-kitui") ].

Definition contact_files : list (list TracedData) :=
  [ [ kitui_contact; makueni_contact; nairobi_contact ];
    [ moved_contact; stopped_contact; unknown_contact ] ].

(** The schemes the script names itself, for the examples. *)
Definition KENYA_CONSTITUENCY : CodeScheme :=
  {| name := "kenya_constituency";
     codes := [ code "code-kitui-central" "kitui_central" NORMAL None;
                code "code-kibwezi-east" "kibwezi_east" NORMAL None;
                code "code-NC" "NC" CONTROL (Some "NC");
                code "code-STOP" "STOP" CONTROL (Some "STOP") ] |}.

Definition code_schemes : CodeSchemes.t :=
  {| CodeSchemes.KENYA_CONSTITUENCY := KENYA_CONSTITUENCY;
     CodeSchemes.KENYA_COUNTY := KENYA_COUNTY;
     CodeSchemes.GENDER := GENDER |}.

(** Two variables that are not demographics, with individuals in the format
    of the analysis file: a single-select age category and the multi-select
    themes of the first episode. *)
Definition AGE_CATEGORY : CodeScheme :=
  {| name := "age_category";
     codes := [ code "code-18-35" "18 to 35" NORMAL None;
                code "code-36-54" "36 to 54" NORMAL None;
                code "code-NC" "NC" CONTROL (Some "NC");
                code "code-STOP" "STOP" CONTROL (Some "STOP") ] |}.

Definition age_category_configuration : CodingConfiguration :=
  {| coded_field := "age_category_coded"; code_scheme := AGE_CATEGORY;
     coding_mode := SINGLE; analysis_file_key := Some "age_category" |}.

Definition analysis_row (uid consent age water food nc stop : string) : TracedData :=
  [ ("uid", VStr uid); ("consent_withdrawn", VStr consent);
    ("age_category", VStr age);
    ("rqa_s01e01_water", VStr water); ("rqa_s01e01_food", VStr food);
    ("rqa_s01e01_NC", VStr nc); ("rqa_s01e01_STOP", VStr stop) ].

Definition analysis_rows : list TracedData :=
  [ analysis_row "avf-uuid-1" "false" "18 to 35" "1" "1" "0" "0";
    analysis_row "avf-uuid-2" "false" "36 to 54" "1" "0" "0" "0";
    analysis_row "avf-uuid-3" "true" "STOP" "0" "0" "0" "1" ].

(* ================================================================= *)
(** * Properties *)

Unset Implicit Arguments.

(** ** The error monad and loops *)

Lemma bind_Ok_inv {A B : Type} (r : result A) (k : A -> result B) (b : B) :
  bind r k = Ok b -> exists a, r = Ok a /\ k a = Ok b.
Proof.
  destruct r as [a|e]; simpl; intros Hb; [eauto | discriminate].
Qed.

Lemma raises_bind_l {A B : Type} (r : result A) (k : A -> result B) :
  raises r -> raises (bind r k).
Proof.
  intros [e ->]. exists e. reflexivity.
Qed.

Lemma Ok_or_raises {A : Type} (r : result A) : (exists a, r = Ok a) \/ raises r.
Proof.
  destruct r as [a|e]; [left; eauto | right; exists e; reflexivity].
Qed.

Lemma not_raises_Ok {A : Type} (a : A) : ~ raises (Ok a).
Proof.
  intros [e He]. discriminate.
Qed.

Ltac inv_bind H :=
  let a := fresh "a" in
  let Ha := fresh "H" a in
  apply bind_Ok_inv in H; destruct H as (a & Ha & H).

Tactic Notation "inv_bind_as" hyp(H) ident(x) ident(Hx) :=
  apply bind_Ok_inv in H; destruct H as (x & Hx & H).

Lemma for_each_app {A S : Type} (xs ys : list A) (body : A -> S -> result S) (s : S) :
  for_each (xs ++ ys) body s = (s' <- for_each xs body s ;; for_each ys body s').
Proof.
  revert s. induction xs as [|x xs IH]; intros s; simpl; [reflexivity|].
  destruct (body x s) as [s1|e]; simpl; [apply IH | reflexivity].
Qed.

(** An invariant of the loop body holds when the loop ends. *)
Lemma for_each_invariant {A S : Type} (I : S -> Prop) (xs : list A)
  (body : A -> S -> result S) :
  (forall x s s', In x xs -> I s -> body x s = Ok s' -> I s') ->
  forall s s', I s -> for_each xs body s = Ok s' -> I s'.
Proof.
  induction xs as [|x xs IH]; intros Hstep s s' Hs Hrun; simpl in Hrun.
  - injection Hrun as <-. exact Hs.
  - inv_bind Hrun. eapply IH; [ | | exact Hrun].
    + intros y t t' Hy. apply Hstep. right. exact Hy.
    + eapply Hstep; [left; reflexivity | exact Hs | exact Ha].
Qed.

(** A loop raises as soon as one element raises in every state the invariant
    allows. *)
Lemma for_each_raises {A S : Type} (I : S -> Prop) (xs : list A)
  (body : A -> S -> result S) (x : A) :
  (forall y s s', I s -> body y s = Ok s' -> I s') ->
  In x xs ->
  (forall s, I s -> raises (body x s)) ->
  forall s, I s -> raises (for_each xs body s).
Proof.
  intros Hstep Hin Hx. induction xs as [|y xs IH]; intros s Hs; [destruct Hin|].
  simpl. destruct Hin as [-> | Hin].
  - apply raises_bind_l. apply Hx. exact Hs.
  - destruct (body y s) as [s1|e] eqn:Hy; simpl.
    + apply IH; [exact Hin | eapply Hstep; eauto].
    + exists e. reflexivity.
Qed.

(** Nested loops run over the flattened list. *)
Lemma for_each_flat_map {A B S : Type} (f : A -> list B) (xs : list A)
  (body : B -> S -> result S) (s : S) :
  for_each xs (fun x st => for_each (f x) body st) s = for_each (flat_map f xs) body s.
Proof.
  revert s. induction xs as [|x xs IH]; intros s; simpl; [reflexivity|].
  rewrite for_each_app. destruct (for_each (f x) body s); simpl; [apply IH | reflexivity].
Qed.

Lemma fold_left_flat_map {A B S : Type} (f : A -> list B) (xs : list A)
  (step : S -> B -> S) (s : S) :
  fold_left (fun st x => fold_left step (f x) st) xs s = fold_left step (flat_map f xs) s.
Proof.
  revert s. induction xs as [|x xs IH]; intros s; simpl; [reflexivity|].
  rewrite fold_left_app. apply IH.
Qed.

(** ** Dictionaries *)

Section dict_facts.
Context {K V : Type} `{PyKey K}.

Lemma keqb_refl (k : K) : keqb k k = true.
Proof. apply keqb_eq. reflexivity. Qed.

Lemma keqb_neq (k k' : K) : k <> k' -> keqb k k' = false.
Proof.
  intros Hne. destruct (keqb k k') eqn:E; [|reflexivity].
  apply keqb_eq in E. contradiction.
Qed.

Lemma get_set_same (k : K) (v : V) (d : dict K V) :
  OrderedDict.get k (OrderedDict.set k v d) = Some v.
Proof.
  induction d as [|[k' v'] d IH]; simpl.
  - rewrite keqb_refl. reflexivity.
  - destruct (keqb k k') eqn:E; simpl; rewrite E; [reflexivity | exact IH].
Qed.

Lemma get_set_other (k k' : K) (v : V) (d : dict K V) :
  k <> k' -> OrderedDict.get k' (OrderedDict.set k v d) = OrderedDict.get k' d.
Proof.
  intros Hne. induction d as [|[k1 v1] d IH]; simpl.
  - rewrite keqb_neq; [reflexivity | congruence].
  - destruct (keqb k k1) eqn:E; simpl.
    + apply keqb_eq in E. subst k1.
      rewrite keqb_neq; [reflexivity | congruence].
    + rewrite IH. reflexivity.
Qed.

Lemma getitem_Ok (k : K) (d : dict K V) (v : V) :
  OrderedDict.getitem k d = Ok v <-> OrderedDict.get k d = Some v.
Proof.
  unfold OrderedDict.getitem. destruct (OrderedDict.get k d); split; congruence.
Qed.

Lemma getitem_None (k : K) (d : dict K V) :
  OrderedDict.get k d = None -> OrderedDict.getitem k d = Raise (KeyError (krepr k)).
Proof.
  unfold OrderedDict.getitem. intros ->. reflexivity.
Qed.

Lemma In_set (k k' : K) (v v' : V) (d : dict K V) :
  In (k', v') (OrderedDict.set k v d) -> (k' = k /\ v' = v) \/ In (k', v') d.
Proof.
  induction d as [|[k1 v1] d IH]; simpl.
  - intros [E | []]. left. split; congruence.
  - destruct (keqb k k1) eqn:E; simpl.
    + apply keqb_eq in E. subst k1. intros [E1 | Hin]; [left; split; congruence | auto].
    + intros [E1 | Hin]; [auto | destruct (IH Hin); auto].
Qed.

Lemma keys_set_present (k : K) (v : V) (d : dict K V) :
  OrderedDict.get k d <> None -> OrderedDict.keys (OrderedDict.set k v d) = OrderedDict.keys d.
Proof.
  unfold OrderedDict.keys.
  induction d as [|[k1 v1] d IH]; simpl; [congruence|].
  destruct (keqb k k1) eqn:E; simpl; intros Hg; [reflexivity|].
  rewrite IH; auto.
Qed.

Lemma keys_set_absent (k : K) (v : V) (d : dict K V) :
  OrderedDict.get k d = None ->
  OrderedDict.keys (OrderedDict.set k v d) = OrderedDict.keys d ++ [k].
Proof.
  unfold OrderedDict.keys.
  induction d as [|[k1 v1] d IH]; simpl; [reflexivity|].
  destruct (keqb k k1) eqn:E; simpl; intros Hg; [discriminate|].
  rewrite IH; auto.
Qed.

Lemma set_absent (k : K) (v : V) (d : dict K V) :
  OrderedDict.get k d = None -> OrderedDict.set k v d = d ++ [(k, v)].
Proof.
  induction d as [|[k1 v1] d IH]; simpl; [reflexivity|].
  destruct (keqb k k1) eqn:E; simpl; intros Hg; [discriminate|].
  rewrite IH; auto.
Qed.

Lemma get_In_keys (k : K) (d : dict K V) :
  OrderedDict.get k d <> None <-> In k (OrderedDict.keys d).
Proof.
  unfold OrderedDict.keys.
  induction d as [|[k1 v1] d IH]; simpl; [tauto|].
  destruct (keqb k k1) eqn:E.
  - apply keqb_eq in E. subst. split; [auto | congruence].
  - rewrite IH. split; [auto|]. intros [E1 | Hin]; [|exact Hin].
    subst. rewrite keqb_refl in E. discriminate.
Qed.

Lemma get_In (k : K) (v : V) (d : dict K V) :
  OrderedDict.get k d = Some v -> In (k, v) d.
Proof.
  induction d as [|[k1 v1] d IH]; simpl; [discriminate|].
  destruct (keqb k k1) eqn:E.
  - apply keqb_eq in E. subst. intros [= ->]. left. reflexivity.
  - intros Hg. right. auto.
Qed.

Lemma NoDup_keys_set (k : K) (v : V) (d : dict K V) :
  NoDup (OrderedDict.keys d) -> NoDup (OrderedDict.keys (OrderedDict.set k v d)).
Proof.
  intros Hnd. destruct (OrderedDict.get k d) eqn:Hg.
  - rewrite keys_set_present; [exact Hnd | congruence].
  - rewrite keys_set_absent by exact Hg.
    apply NoDup_rev in Hnd. rewrite <- (rev_involutive (_ ++ _)).
    apply NoDup_rev. rewrite rev_app_distr. simpl. constructor; [|exact Hnd].
    rewrite <- in_rev. intros Hin. apply get_In_keys in Hin. congruence.
Qed.

Lemma In_NoDup_get (k : K) (v : V) (d : dict K V) :
  NoDup (OrderedDict.keys d) -> In (k, v) d -> OrderedDict.get k d = Some v.
Proof.
  unfold OrderedDict.keys.
  induction d as [|[k1 v1] d IH]; simpl; intros Hnd Hin; [destruct Hin|].
  inversion Hnd as [|? ? Hnotin Hnd']; subst.
  destruct Hin as [E | Hin].
  - injection E as -> ->. rewrite keqb_refl. reflexivity.
  - destruct (keqb k k1) eqn:E.
    + apply keqb_eq in E. subst. exfalso. apply Hnotin.
      apply (in_map fst) in Hin. exact Hin.
    + auto.
Qed.

End dict_facts.

Lemma In_values {K V : Type} (v : V) (d : dict K V) :
  In v (OrderedDict.values d) <-> exists k, In (k, v) d.
Proof.
  unfold OrderedDict.values. rewrite in_map_iff. split.
  - intros [[k v'] [E Hin]]. simpl in E. subst. eauto.
  - intros [k Hin]. exists (k, v). auto.
Qed.

Lemma In_set_same {K V : Type} `{PyKey K} (k : K) (v v' : V) (d : dict K V) :
  NoDup (OrderedDict.keys d) -> In (k, v') (OrderedDict.set k v d) -> v' = v.
Proof.
  intros Hnd Hin.
  apply In_NoDup_get in Hin; [|apply NoDup_keys_set; exact Hnd].
  rewrite get_set_same in Hin. congruence.
Qed.

Lemma In_set_keys {K V : Type} `{PyKey K} (k k' : K) (v : V) (d : dict K V) :
  In k' (OrderedDict.keys d) -> In k' (OrderedDict.keys (OrderedDict.set k v d)).
Proof.
  intros Hin. destruct (OrderedDict.get k d) eqn:Hg.
  - rewrite keys_set_present; [exact Hin | congruence].
  - rewrite keys_set_absent by exact Hg. apply in_or_app. left. exact Hin.
Qed.

Lemma In_key_set {K V : Type} `{PyKey K} (k : K) (v : V) (d : dict K V) :
  In k (OrderedDict.keys (OrderedDict.set k v d)).
Proof.
  apply get_In_keys. rewrite get_set_same. discriminate.
Qed.

(** ** Engagement counts *)

Lemma episode_engagement_row_columns U messages individuals plan row :
  episode_engagement_row U messages individuals plan = Ok row ->
  Episode row = dataset_name plan /\
  Total_Messages row = CStr "-" /\ Total_Participants row = CStr "-".
Proof.
  unfold episode_engagement_row. intros Hrow.
  do 5 inv_bind Hrow. injection Hrow as <-. simpl. auto.
Qed.

Lemma total_engagement_row_columns U P messages individuals row :
  total_engagement_row U P messages individuals = Ok row ->
  Episode row = "Total" /\
  Total_Messages row = CInt (length messages) /\
  Total_Participants row = CInt (length individuals).
Proof.
  unfold total_engagement_row. intros Hrow.
  do 5 inv_bind Hrow. injection Hrow as <-. simpl. auto.
Qed.

Lemma episode_rows_loop U P messages individuals plans counts counts' :
  incl plans (RQA_CODING_PLANS P) ->
  NoDup (OrderedDict.keys counts) ->
  (forall k row, In (k, row) counts -> episode_row_of P k row) ->
  for_each plans
    (fun plan counts =>
       row <- episode_engagement_row U messages individuals plan ;;
       Ok (OrderedDict.set (dataset_name plan) row counts)) counts = Ok counts' ->
  NoDup (OrderedDict.keys counts') /\
  (forall k row, In (k, row) counts' -> episode_row_of P k row) /\
  (forall k, In k (OrderedDict.keys counts) \/ In k (map dataset_name plans) ->
             In k (OrderedDict.keys counts')).
Proof.
  revert counts. induction plans as [|plan plans IH]; intros counts Hincl Hnd Hrows Hrun;
    simpl in Hrun.
  - injection Hrun as <-. split; [exact Hnd | split; [exact Hrows|]].
    intros k [Hk | []]. exact Hk.
  - inv_bind Hrun. inv_bind Ha. injection Ha as <-.
    apply episode_engagement_row_columns in Ha0. destruct Ha0 as (HE & HM & HP).
    apply IH in Hrun.
    + destruct Hrun as (Hnd' & Hrows' & Hkeys').
      split; [exact Hnd' | split; [exact Hrows'|]].
      intros k [Hk | [Hk | Hk]]; apply Hkeys'.
      * left. apply In_set_keys. exact Hk.
      * left. subst k. apply In_key_set.
      * right. exact Hk.
    + intros p Hp. apply Hincl. right. exact Hp.
    + apply NoDup_keys_set. exact Hnd.
    + intros k row Hin. apply In_set in Hin. destruct Hin as [[-> ->] | Hin]; auto.
      repeat split; auto. exists plan. split; [apply Hincl; left|]; reflexivity.
Qed.

(** C7: every row of the engagement counts other than the Total row carries
    the "-" sentinel in its raw-total columns and belongs to an RQA plan; every
    plan has a row; the Total row exists and reports the sizes of the whole
    messages and individuals collections; and it is the last row when no plan
    is itself named "Total". *)
Theorem engagement_counts_raw_totals U P messages individuals rows :
  engagement_rows U P messages individuals = Ok rows ->
  (forall row, In row rows -> Episode row <> "Total" ->
     Total_Messages row = CStr "-" /\ Total_Participants row = CStr "-" /\
     exists plan, In plan (RQA_CODING_PLANS P) /\ dataset_name plan = Episode row) /\
  (forall plan, In plan (RQA_CODING_PLANS P) ->
     exists row, In row rows /\ Episode row = dataset_name plan) /\
  (exists total, In total rows /\ Episode total = "Total") /\
  (forall row, In row rows -> Episode row = "Total" ->
     Total_Messages row = CInt (length messages) /\
     Total_Participants row = CInt (length individuals)) /\
  ((forall plan, In plan (RQA_CODING_PLANS P) -> dataset_name plan <> "Total") ->
   exists episode_rows total, rows = episode_rows ++ [total] /\ Episode total = "Total").
Proof.
  unfold engagement_rows, engagement_counts. intros Hrows.
  inv_bind Hrows. injection Hrows as <-.
  inv_bind Ha. inv_bind Ha. injection Ha as <-.
  apply total_engagement_row_columns in Ha1. destruct Ha1 as (HE & HM & HP).
  apply episode_rows_loop with (P := P) in Ha0;
    [ | apply incl_refl | constructor | intros k row [] ].
  destruct Ha0 as (Hnd & Hepi & Hkeys).
  assert (Hsplit : forall row, In row (OrderedDict.values (OrderedDict.set "Total" a1 a0)) ->
            row = a1 \/ exists k, k <> "Total" /\ episode_row_of P k row).
  { intros row Hin. apply In_values in Hin. destruct Hin as [k Hin].
    destruct (string_dec k "Total") as [-> | Hne].
    - left. exact (@In_set_same _ _ _ "Total" a1 row a0 Hnd Hin).
    - right. exists k. split; [exact Hne|]. apply Hepi.
      apply In_set in Hin. destruct Hin as [[-> _] | Hin]; [contradiction | exact Hin]. }
  split; [|split; [|split; [|split]]].
  - intros row Hin Hne. destruct (Hsplit row Hin) as [-> | (k & _ & Hk)]; [contradiction|].
    destruct Hk as (Hk & HM' & HP' & plan & Hplan & Hname).
    repeat split; auto. exists plan. split; [exact Hplan | congruence].
  - intros plan Hplan.
    assert (Hin : In (dataset_name plan)
                    (OrderedDict.keys (OrderedDict.set "Total" a1 a0))).
    { apply In_set_keys. apply Hkeys. right. apply in_map. exact Hplan. }
    unfold OrderedDict.keys in Hin. apply in_map_iff in Hin.
    destruct Hin as [[k row] [Hk Hin]]. simpl in Hk. subst k.
    exists row. split; [apply In_values; eauto|].
    apply In_set in Hin. destruct Hin as [[E ->] | Hin]; [congruence|].
    apply Hepi in Hin. apply Hin.
  - exists a1. split; [|exact HE]. apply In_values. exists "Total".
    apply get_In. apply get_set_same.
  - intros row Hin Hrow. destruct (Hsplit row Hin) as [-> | (k & Hne & Hk)]; [auto|].
    destruct Hk as (Hk & _). congruence.
  - intros Hnames. exists (OrderedDict.values a0), a1. split; [|exact HE].
    rewrite set_absent.
    + unfold OrderedDict.values. rewrite map_app. reflexivity.
    + destruct (OrderedDict.get "Total" a0) eqn:Hg; [|reflexivity].
      apply get_In in Hg. apply Hepi in Hg.
      destruct Hg as (_ & _ & _ & plan & Hplan & Hname).
      exfalso. eapply Hnames; eauto.
Qed.

Lemma engagement_counts_raw_totals_witness :
  exists rows,
    engagement_rows simple_utils pipeline s01e01_messages population = Ok rows /\
    map Episode rows = ["s01e01"; "s01e02"; "Total"] /\
    map Total_Messages rows = [CStr "-"; CStr "-"; CInt 156] /\
    map Total_Participants rows = [CStr "-"; CStr "-"; CInt 3] /\
    (forall row, In row rows -> Episode row = "Total" ->
       Total_Messages row = CInt (length s01e01_messages) /\
       Total_Participants row = CInt (length population)).
Proof.
  eexists. split; [vm_compute; reflexivity|].
  split; [reflexivity|]. split; [reflexivity|]. split; [reflexivity|].
  apply (engagement_counts_raw_totals simple_utils pipeline s01e01_messages population).
  vm_compute. reflexivity.
Defined.

(** ** Repeat participations *)

Lemma keys_fold_set_fresh {V : Type} (f : nat -> V) (ks : list nat) (d : dict nat V) :
  NoDup (OrderedDict.keys d ++ ks) ->
  OrderedDict.keys (fold_left (fun rp i => OrderedDict.set i (f i) rp) ks d)
  = OrderedDict.keys d ++ ks.
Proof.
  revert d. induction ks as [|i ks IH]; intros d Hnd; simpl.
  - rewrite app_nil_r. reflexivity.
  - assert (Hfresh : OrderedDict.get i d = None).
    { destruct (OrderedDict.get i d) eqn:Hg; [|reflexivity]. exfalso.
      apply NoDup_remove_2 in Hnd. apply Hnd. apply in_or_app. left.
      apply get_In_keys. congruence. }
    rewrite IH; rewrite keys_set_absent by exact Hfresh.
    + rewrite <- app_assoc. reflexivity.
    + rewrite <- app_assoc. exact Hnd.
Qed.

Lemma get_fold_set {V : Type} (f : nat -> V) (ks : list nat) (d : dict nat V) (i : nat) :
  OrderedDict.get i (fold_left (fun rp i => OrderedDict.set i (f i) rp) ks d)
  = if in_dec Nat.eq_dec i ks then Some (f i) else OrderedDict.get i d.
Proof.
  revert d. induction ks as [|j ks IH]; intros d; simpl; [reflexivity|].
  rewrite IH. destruct (in_dec Nat.eq_dec i ks) as [Hin | Hnin].
  - destruct (Nat.eq_dec j i); reflexivity.
  - destruct (Nat.eq_dec j i) as [-> | Hne].
    + apply get_set_same.
    + apply get_set_other. exact Hne.
Qed.

Lemma init_repeat_participations_keys P :
  OrderedDict.keys (init_repeat_participations P) = seq 1 (length (RQA_CODING_PLANS P)).
Proof.
  unfold init_repeat_participations.
  rewrite (keys_fold_set_fresh empty_repeat_row); [reflexivity|].
  simpl. apply seq_NoDup.
Qed.

Lemma init_repeat_participations_get P i row :
  OrderedDict.get i (init_repeat_participations P) = Some row -> row = empty_repeat_row i.
Proof.
  unfold init_repeat_participations. rewrite (get_fold_set empty_repeat_row).
  destruct (in_dec Nat.eq_dec i _); simpl; congruence.
Qed.

Lemma weeks_participated_acc plans ind n :
  fold_left
    (fun weeks plan => if OrderedDict.contains (raw_field plan) ind then S weeks else weeks)
    plans n
  = n + weeks_participated plans ind.
Proof.
  unfold weeks_participated. revert n.
  induction plans as [|plan plans IH]; intros n; simpl; [lia|].
  rewrite IH.
  rewrite (IH (if OrderedDict.contains (raw_field plan) ind then 1 else 0)).
  destruct (OrderedDict.contains (raw_field plan) ind); lia.
Qed.

Lemma weeks_participated_le plans ind : weeks_participated plans ind <= length plans.
Proof.
  induction plans as [|plan plans IH]; [unfold weeks_participated; simpl; lia|].
  unfold weeks_participated. simpl. rewrite weeks_participated_acc.
  destruct (OrderedDict.contains (raw_field plan) ind); simpl; lia.
Qed.

Lemma filter_snoc_length {A : Type} (f : A -> bool) (l : list A) (x : A) :
  length (filter f (l ++ [x])) = length (filter f l) + (if f x then 1 else 0).
Proof.
  rewrite filter_app, length_app. simpl. destruct (f x); reflexivity.
Qed.

Lemma count_participation_buckets P seen ind rp rp' :
  buckets_of P seen rp ->
  count_participation P ind rp = Ok rp' ->
  buckets_of P (seen ++ [ind]) rp' /\
  (opted_in ind = true -> weeks_participated (RQA_CODING_PLANS P) ind <> 0).
Proof.
  intros [Hkeys Hnum] Hstep. unfold count_participation in Hstep.
  inv_bind Hstep. apply getitem_Ok in Ha.
  assert (Hopt : opted_in ind = value_eq_str a Codes.FALSE).
  { unfold opted_in. rewrite Ha. reflexivity. }
  destruct (value_eq_str a Codes.FALSE) eqn:Hflag.
  - inv_bind Hstep.
    destruct (Nat.eqb (weeks_participated (RQA_CODING_PLANS P) ind) 0) eqn:Hw.
    { inv_bind Ha0. discriminate. }
    apply Nat.eqb_neq in Hw.
    inv_bind_as Hstep row0 Hrow0. injection Hstep as <-. apply getitem_Ok in Hrow0.
    split; [|intros _; exact Hw]. split.
    + rewrite keys_set_present; [exact Hkeys | congruence].
    + intros i row Hget. rewrite filter_snoc_length. unfold participated_in at 2.
      rewrite Hopt. simpl.
      destruct (Nat.eq_dec (weeks_participated (RQA_CODING_PLANS P) ind) i) as [<- | Hne].
      * rewrite get_set_same in Hget. injection Hget as <-. simpl.
        rewrite Nat.eqb_refl. rewrite (Hnum _ _ Hrow0). lia.
      * rewrite get_set_other in Hget by exact Hne.
        apply Nat.eqb_neq in Hne. rewrite Hne. rewrite (Hnum _ _ Hget). lia.
  - injection Hstep as <-. split; [|congruence]. split; [exact Hkeys|].
    intros i row Hget. rewrite filter_snoc_length. unfold participated_in at 2.
    rewrite Hopt. simpl. rewrite (Hnum _ _ Hget). lia.
Qed.

Lemma repeat_participation_loop P individuals seen rp rp' :
  buckets_of P seen rp ->
  for_each individuals (count_participation P) rp = Ok rp' ->
  buckets_of P (seen ++ individuals) rp' /\
  (forall ind, In ind individuals -> opted_in ind = true ->
     weeks_participated (RQA_CODING_PLANS P) ind <> 0).
Proof.
  revert seen rp. induction individuals as [|ind individuals IH]; intros seen rp Hinv Hrun;
    simpl in Hrun.
  - injection Hrun as <-. rewrite app_nil_r. split; [exact Hinv | intros ind []].
  - inv_bind Hrun. destruct (count_participation_buckets _ _ _ _ _ Hinv Ha) as [Hinv' Hind].
    destruct (IH _ _ Hinv' Hrun) as [Hfinal Hrest].
    rewrite <- app_assoc in Hfinal. split; [exact Hfinal|].
    intros x [<- | Hx]; auto.
Qed.

(** The failed assertion: an [AssertionError], or the [KeyError] of the
    message's [ind['uid']] when the record has no uid. *)
Lemma count_participation_fails P ind rp :
  opted_in ind = true ->
  weeks_participated (RQA_CODING_PLANS P) ind = 0 ->
  count_participation P ind rp
  = if OrderedDict.contains "uid" ind then Raise AssertionError else Raise (KeyError "uid").
Proof.
  unfold opted_in, count_participation, OrderedDict.getitem, OrderedDict.contains.
  intros Hopt Hweeks.
  destruct (OrderedDict.get "consent_withdrawn" ind) as [flag|]; [|discriminate].
  simpl. rewrite Hopt, Hweeks. simpl.
  destruct (OrderedDict.get "uid" ind); reflexivity.
Qed.

Lemma count_participation_raises P ind rp :
  opted_in ind = true ->
  weeks_participated (RQA_CODING_PLANS P) ind = 0 ->
  raises (count_participation P ind rp).
Proof.
  intros Hopt Hweeks. rewrite (count_participation_fails P ind rp Hopt Hweeks).
  destruct (OrderedDict.contains "uid" ind); eexists; reflexivity.
Qed.

Lemma count_participation_total P seen ind rp :
  buckets_of P seen rp ->
  OrderedDict.get "consent_withdrawn" ind <> None ->
  (opted_in ind = true -> weeks_participated (RQA_CODING_PLANS P) ind <> 0) ->
  exists rp', count_participation P ind rp = Ok rp'.
Proof.
  intros [Hkeys _] Hflag Hweeks. unfold count_participation, OrderedDict.getitem.
  unfold opted_in in Hweeks.
  destruct (OrderedDict.get "consent_withdrawn" ind) as [flag|]; [|congruence].
  simpl. destruct (value_eq_str flag Codes.FALSE); [|eauto].
  specialize (Hweeks eq_refl). apply Nat.eqb_neq in Hweeks. rewrite Hweeks. simpl.
  apply Nat.eqb_neq in Hweeks.
  destruct (OrderedDict.get (weeks_participated (RQA_CODING_PLANS P) ind) rp) eqn:Hg;
    simpl; [eauto|].
  exfalso. assert (Hin : In (weeks_participated (RQA_CODING_PLANS P) ind)
                            (OrderedDict.keys rp)).
  { rewrite Hkeys. apply in_seq.
    pose proof (weeks_participated_le (RQA_CODING_PLANS P) ind). lia. }
  apply get_In_keys in Hin. congruence.
Qed.

(** C6: the counting loop of the repeat-participation pass.  An opted-in
    individual without any plan's raw field fails the assertion of the loop
    body (an [AssertionError]; the [KeyError] of the assertion message when
    the record has no uid) and makes the pass raise; when the
    pass returns, the buckets are exactly 1..number of plans, every opted-in
    individual has between 1 and that many plans, and bucket [i] holds the
    number of opted-in individuals that have the raw field of exactly [i]
    plans, so each of them is counted once, in the bucket of its own number;
    and the pass does return when every record carries the consent flag and
    every opted-in individual has at least one raw field. *)
Theorem repeat_participation_buckets P individuals :
  (forall ind, In ind individuals -> opted_in ind = true ->
     weeks_participated (RQA_CODING_PLANS P) ind = 0 ->
     (forall rp,
         count_participation P ind rp
         = if OrderedDict.contains "uid" ind
           then Raise AssertionError else Raise (KeyError "uid")) /\
     raises (repeat_participation_counts P individuals)) /\
  (forall rp, repeat_participation_counts P individuals = Ok rp ->
     OrderedDict.keys rp = seq 1 (length (RQA_CODING_PLANS P)) /\
     (forall ind, In ind individuals -> opted_in ind = true ->
        1 <= weeks_participated (RQA_CODING_PLANS P) ind <= length (RQA_CODING_PLANS P)) /\
     (forall i row, OrderedDict.get i rp = Some row ->
        Number_of_Individuals row = length (filter (participated_in P i) individuals))) /\
  ((forall ind, In ind individuals -> OrderedDict.get "consent_withdrawn" ind <> None) ->
   (forall ind, In ind individuals -> opted_in ind = true ->
      weeks_participated (RQA_CODING_PLANS P) ind <> 0) ->
   exists rp, repeat_participation_counts P individuals = Ok rp).
Proof.
  assert (Hinit : buckets_of P [] (init_repeat_participations P)).
  { split; [apply init_repeat_participations_keys|].
    intros i row Hget. apply init_repeat_participations_get in Hget. subst. reflexivity. }
  unfold repeat_participation_counts. split; [|split].
  - intros ind Hin Hopt Hweeks. split.
    + intros rp. apply count_participation_fails; assumption.
    + apply for_each_raises with (I := fun _ => True) (x := ind); auto.
      intros s _. apply count_participation_raises; assumption.
  - intros rp Hrun.
    destruct (repeat_participation_loop _ _ _ _ _ Hinit Hrun) as [[Hkeys Hnum] Hweeks].
    split; [exact Hkeys|]. split; [|exact Hnum].
    intros ind Hin Hopt. specialize (Hweeks ind Hin Hopt).
    pose proof (weeks_participated_le (RQA_CODING_PLANS P) ind). lia.
  - revert Hinit. generalize (init_repeat_participations P). generalize (@nil TracedData).
    induction individuals as [|ind individuals IH]; intros seen rp Hinv Hflags Hweeks; simpl.
    + eauto.
    + destruct (count_participation_total P seen ind rp Hinv) as [rp' Hstep].
      * apply Hflags. left. reflexivity.
      * apply Hweeks. left. reflexivity.
      * rewrite Hstep. simpl.
        apply (IH (seen ++ [ind]) rp').
        -- eapply count_participation_buckets; eauto.
        -- intros x Hx. apply Hflags. right. exact Hx.
        -- intros x Hx. apply Hweeks. right. exact Hx.
Qed.

Lemma repeat_participation_buckets_witness :
  ((forall rp, count_participation pipeline dalia rp = Raise AssertionError) /\
   raises (repeat_participation_counts pipeline [amina; dalia])) /\
  exists rp,
    repeat_participation_counts pipeline population = Ok rp /\
    map Number_of_Individuals (OrderedDict.values rp) = [1; 1] /\
    (forall i row, OrderedDict.get i rp = Some row ->
       Number_of_Individuals row = length (filter (participated_in pipeline i) population)).
Proof.
  split.
  - apply (proj1 (repeat_participation_buckets pipeline [amina; dalia]) dalia).
    + simpl. auto.
    + reflexivity.
    + reflexivity.
  - eexists. split; [vm_compute; reflexivity|]. split; [reflexivity|].
    apply (proj1 (proj2 (repeat_participation_buckets pipeline population))).
    vm_compute. reflexivity.
Defined.

(** Two plans, one individual in both and one only in the first: one
    individual (50.0%) in each bucket. *)
Example repeat_participations_two_plans :
  repeat_participations pipeline population
  = Ok [ {| Episodes_Participated_In := 1; Number_of_Individuals := 1;
            Pct_of_Individuals := CFloat 50%float |};
         {| Episodes_Participated_In := 2; Number_of_Individuals := 1;
            Pct_of_Individuals := CFloat 50%float |} ].
Proof. vm_compute. reflexivity. Qed.

(** ** Demographic distributions *)

Lemma normal_not_stop c : well_formed_code c -> is_normal c = true -> is_stop c = false.
Proof.
  unfold well_formed_code, is_normal, is_stop. intros Hwf Hn.
  destruct (code_type c); try discriminate. rewrite Hwf; reflexivity.
Qed.

Lemma init_demographic_tallies_fold P :
  init_demographic_tallies P
  = fold_left init_demographic_configuration (demog_configurations P)
      {| demographic_distributions := OrderedDict.empty;
         total_relevant := OrderedDict.empty |}.
Proof.
  unfold init_demographic_tallies, demog_configurations. apply fold_left_flat_map.
Qed.

Lemma init_fold_other_key ccs st key :
  ~ In key (analysis_keys ccs) ->
  OrderedDict.get key
    (demographic_distributions (fold_left init_demographic_configuration ccs st))
  = OrderedDict.get key (demographic_distributions st) /\
  OrderedDict.get key (total_relevant (fold_left init_demographic_configuration ccs st))
  = OrderedDict.get key (total_relevant st).
Proof.
  revert st. induction ccs as [|cc ccs IH]; intros st Hnotin; simpl; [auto|].
  simpl in Hnotin. rewrite in_app_iff in Hnotin.
  destruct (IH (init_demographic_configuration st cc)) as [Hd Ht]; [tauto|].
  rewrite Hd, Ht. unfold init_demographic_configuration.
  destruct (analysis_file_key cc) as [k|]; [|auto]. simpl.
  assert (k <> key) by (intros ->; apply Hnotin; left; left; reflexivity).
  rewrite !get_set_other by assumption. auto.
Qed.

Lemma init_fold_key ccs st cc key :
  NoDup (analysis_keys ccs) ->
  In cc ccs -> analysis_file_key cc = Some key ->
  OrderedDict.get key
    (demographic_distributions (fold_left init_demographic_configuration ccs st))
  = Some (init_code_counts (code_scheme cc)) /\
  OrderedDict.get key (total_relevant (fold_left init_demographic_configuration ccs st))
  = Some 0.
Proof.
  revert st. induction ccs as [|c ccs IH]; intros st Hnd Hin Hkey; [destruct Hin|].
  simpl in Hnd. apply NoDup_app_remove_l in Hnd as Hnd'.
  simpl. destruct Hin as [-> | Hin].
  - assert (Hfresh : ~ In key (analysis_keys ccs)).
    { rewrite Hkey in Hnd. simpl in Hnd. inversion Hnd. assumption. }
    destruct (init_fold_other_key ccs (init_demographic_configuration st cc) key Hfresh)
      as [Hd Ht].
    rewrite Hd, Ht. unfold init_demographic_configuration. rewrite Hkey. simpl.
    rewrite !get_set_same. auto.
  - apply IH; assumption.
Qed.

(** The keys of a scheme's zero counts: the ids of its codes other than STOP. *)
Lemma init_code_counts_get_acc cs d id :
  OrderedDict.get id
    (fold_left (fun counts code =>
                  if is_stop code then counts else OrderedDict.set (code_id code) 0 counts)
       cs d)
  = if existsb (fun c => negb (is_stop c) && String.eqb (code_id c) id) cs
    then Some 0 else OrderedDict.get id d.
Proof.
  revert d. induction cs as [|c cs IH]; intros d; simpl; [reflexivity|].
  rewrite IH. destruct (existsb _ cs); [rewrite orb_true_r; reflexivity|].
  rewrite orb_false_r. destruct (is_stop c); simpl; [reflexivity|].
  destruct (String.eqb (code_id c) id) eqn:E.
  - apply String.eqb_eq in E. subst. apply get_set_same.
  - apply String.eqb_neq in E. apply get_set_other. exact E.
Qed.

Lemma init_code_counts_get scheme id :
  OrderedDict.get id (init_code_counts scheme)
  = if existsb (fun c => negb (is_stop c) && String.eqb (code_id c) id) (codes scheme)
    then Some 0 else None.
Proof.
  unfold init_code_counts. rewrite init_code_counts_get_acc. reflexivity.
Qed.

Lemma init_code_counts_present scheme c :
  In c (codes scheme) -> is_stop c = false ->
  OrderedDict.get (code_id c) (init_code_counts scheme) = Some 0.
Proof.
  intros Hin Hstop. rewrite init_code_counts_get.
  replace (existsb _ (codes scheme)) with true; [reflexivity|].
  symmetry. apply existsb_exists. exists c. split; [exact Hin|].
  rewrite Hstop, String.eqb_refl. reflexivity.
Qed.

Lemma NoDup_map_eq {A B : Type} (f : A -> B) (l : list A) (x y : A) :
  NoDup (map f l) -> In x l -> In y l -> f x = f y -> x = y.
Proof.
  induction l as [|a l IH]; simpl; intros Hnd Hx Hy Hf; [destruct Hx|].
  inversion Hnd as [|? ? Hnotin Hnd']; subst.
  destruct Hx as [-> | Hx], Hy as [-> | Hy]; auto.
  - exfalso. apply Hnotin. rewrite Hf. apply in_map. exact Hy.
  - exfalso. apply Hnotin. rewrite <- Hf. apply in_map. exact Hx.
Qed.

Lemma init_code_counts_stop_absent scheme c :
  NoDup (map code_id (codes scheme)) ->
  In c (codes scheme) -> is_stop c = true ->
  OrderedDict.get (code_id c) (init_code_counts scheme) = None.
Proof.
  intros Hnd Hin Hstop. rewrite init_code_counts_get.
  destruct (existsb _ (codes scheme)) eqn:E; [|reflexivity].
  apply existsb_exists in E. destruct E as (c' & Hin' & Hc').
  apply andb_prop in Hc'. destruct Hc' as [Hns Hid]. apply String.eqb_eq in Hid.
  assert (c' = c) by (eapply NoDup_map_eq; eauto). subst c'.
  rewrite Hstop in Hns. discriminate.
Qed.

Lemma get_code_with_code_id_In scheme id c :
  get_code_with_code_id scheme id = Ok c -> In c (codes scheme) /\ code_id c = id.
Proof.
  unfold get_code_with_code_id.
  destruct (find _ (codes scheme)) eqn:Hf; [|discriminate].
  intros [= ->]. apply find_some in Hf. destruct Hf as [Hin Hid].
  apply String.eqb_eq in Hid. auto.
Qed.

Lemma init_tallies_shape P :
  NoDup (analysis_keys (demog_configurations P)) ->
  tallies_shape P (init_demographic_tallies P).
Proof.
  intros Hnd cc key Hin Hkey. rewrite init_demographic_tallies_fold.
  destruct (init_fold_key (demog_configurations P)
              {| demographic_distributions := OrderedDict.empty;
                 total_relevant := OrderedDict.empty |} cc key Hnd Hin Hkey) as [Hd Ht].
  rewrite Hd, Ht. split; [eauto | discriminate].
Qed.

Lemma count_demographic_shape P ind cc st st' :
  tallies_shape P st -> count_demographic ind cc st = Ok st' -> tallies_shape P st'.
Proof.
  intros Hshape Hstep. unfold count_demographic in Hstep.
  destruct (analysis_file_key cc) as [k|] eqn:Hk; [|injection Hstep as <-; exact Hshape].
  inv_bind_as Hstep u Hu. inv_bind_as Hstep v Hv. inv_bind_as Hstep id Hid.
  inv_bind_as Hstep c Hc. inv_bind_as Hstep counts Hcounts. inv_bind_as Hstep n Hn.
  apply getitem_Ok in Hcounts, Hn.
  assert (Hdd : forall cc0 key, In cc0 (demog_configurations P) ->
            analysis_file_key cc0 = Some key ->
            exists counts0,
              OrderedDict.get key
                (OrderedDict.set k (OrderedDict.set (code_id c) (S n) counts)
                   (demographic_distributions st)) = Some counts0 /\
              OrderedDict.keys counts0
              = OrderedDict.keys (init_code_counts (code_scheme cc0))).
  { intros cc0 key Hin Hkey. destruct (Hshape cc0 key Hin Hkey) as [(counts0 & Hg & Hkeys) _].
    destruct (string_dec k key) as [-> | Hne].
    - rewrite get_set_same. eexists. split; [reflexivity|].
      rewrite keys_set_present by congruence. congruence.
    - rewrite get_set_other by exact Hne. eauto. }
  destruct (is_normal c).
  - inv_bind_as Hstep t Ht. injection Hstep as <-.
    intros cc0 key Hin Hkey. simpl. split; [apply Hdd; assumption|].
    destruct (Hshape cc0 key Hin Hkey) as [_ Htr].
    destruct (string_dec k key) as [-> | Hne].
    + rewrite get_set_same. discriminate.
    + rewrite get_set_other by exact Hne. exact Htr.
  - injection Hstep as <-.
    intros cc0 key Hin Hkey. simpl. split; [apply Hdd; assumption|].
    apply (Hshape cc0 key Hin Hkey).
Qed.

Lemma count_demographics_of_unfold P ind st :
  count_demographics_of P ind st
  = (flag <- OrderedDict.getitem "consent_withdrawn" ind ;;
     if value_eq_str flag Codes.TRUE then Ok st
     else for_each (demog_configurations P) (count_demographic ind) st).
Proof.
  unfold count_demographics_of, demog_configurations.
  destruct (OrderedDict.getitem "consent_withdrawn" ind); simpl; [|reflexivity].
  destruct (value_eq_str a Codes.TRUE); [reflexivity|].
  apply for_each_flat_map.
Qed.

Lemma count_demographics_of_shape P ind st st' :
  tallies_shape P st -> count_demographics_of P ind st = Ok st' -> tallies_shape P st'.
Proof.
  intros Hshape. rewrite count_demographics_of_unfold. intros Hstep.
  inv_bind_as Hstep flag Hflag. destruct (value_eq_str flag Codes.TRUE).
  - injection Hstep as <-. exact Hshape.
  - revert Hstep. apply for_each_invariant; [|exact Hshape].
    intros cc s s' _. apply count_demographic_shape.
Qed.

Lemma for_each_total {A S : Type} (I : S -> Prop) (xs : list A) (body : A -> S -> result S) :
  (forall x s, In x xs -> I s -> exists s', body x s = Ok s' /\ I s') ->
  forall s, I s -> exists s', for_each xs body s = Ok s' /\ I s'.
Proof.
  induction xs as [|x xs IH]; intros Hstep s Hs; simpl; [eauto|].
  destruct (Hstep x s) as (s1 & Hx & Hs1); [left; reflexivity | exact Hs |].
  rewrite Hx. simpl. apply IH; [|exact Hs1].
  intros y t Hy. apply Hstep. right. exact Hy.
Qed.

Lemma for_each_Ok_In {A S : Type} (xs : list A) (body : A -> S -> result S) (s s' : S) x :
  for_each xs body s = Ok s' -> In x xs -> exists s1 s2, body x s1 = Ok s2.
Proof.
  revert s. induction xs as [|y xs IH]; intros s Hrun Hin; [destruct Hin|].
  simpl in Hrun. inv_bind_as Hrun s1 Hs1. destruct Hin as [-> | Hin]; eauto.
Qed.

Lemma counted_set id m (counts : dict string nat) :
  counted (OrderedDict.set id m counts)
  + match OrderedDict.get id counts with Some n => n | None => 0 end
  = counted counts + m.
Proof.
  unfold counted, OrderedDict.values.
  induction counts as [|[k v] counts IH]; simpl; [lia|].
  destruct (String.eqb id k); simpl; lia.
Qed.

Lemma counted_init_code_counts scheme : counted (init_code_counts scheme) = 0.
Proof.
  unfold init_code_counts.
  assert (Hacc : forall cs d, counted d = 0 ->
            counted (fold_left
                       (fun counts code =>
                          if is_stop code then counts
                          else OrderedDict.set (code_id code) 0 counts) cs d) = 0).
  { induction cs as [|c cs IH]; intros d Hd; simpl; [exact Hd|].
    apply IH. destruct (is_stop c); [exact Hd|].
    pose proof (counted_set (code_id c) 0 d). lia. }
  apply Hacc. reflexivity.
Qed.

Lemma count_demographic_counted key ind cc st st' :
  count_demographic ind cc st = Ok st' ->
  counted_at key st' = counted_at key st + key_hits key cc.
Proof.
  unfold count_demographic, key_hits. intros Hstep.
  destruct (analysis_file_key cc) as [k|] eqn:Hk; [|injection Hstep as <-; lia].
  inv_bind_as Hstep u Hu. inv_bind_as Hstep v Hv. inv_bind_as Hstep id Hid.
  inv_bind_as Hstep c Hc. inv_bind_as Hstep counts Hcounts. inv_bind_as Hstep n Hn.
  apply getitem_Ok in Hcounts, Hn.
  assert (Hdd : counted_at key
                  {| demographic_distributions :=
                       OrderedDict.set k (OrderedDict.set (code_id c) (S n) counts)
                         (demographic_distributions st);
                     total_relevant := total_relevant st |}
                = counted_at key st + (if String.eqb k key then 1 else 0)).
  { unfold counted_at. simpl. destruct (String.eqb k key) eqn:E.
    - apply String.eqb_eq in E. subst key. rewrite get_set_same, Hcounts.
      pose proof (counted_set (code_id c) (S n) counts) as Hsum.
      rewrite Hn in Hsum. lia.
    - apply String.eqb_neq in E. rewrite get_set_other by exact E. lia. }
  destruct (is_normal c).
  - inv_bind_as Hstep t Ht. injection Hstep as <-. exact Hdd.
  - injection Hstep as <-. exact Hdd.
Qed.

Lemma count_demographic_loop_counted key ind ccs st st' :
  for_each ccs (count_demographic ind) st = Ok st' ->
  counted_at key st' = counted_at key st + list_sum (map (key_hits key) ccs).
Proof.
  revert st. induction ccs as [|cc ccs IH]; intros st Hrun; simpl in Hrun.
  - injection Hrun as <-. simpl. lia.
  - inv_bind_as Hrun st1 Hst1. apply IH in Hrun.
    apply (count_demographic_counted key) in Hst1. simpl. lia.
Qed.

Lemma demographic_loop_counted P key individuals st st' :
  for_each individuals (count_demographics_of P) st = Ok st' ->
  counted_at key st'
  = counted_at key st
    + length (filter not_withdrawn individuals)
      * list_sum (map (key_hits key) (demog_configurations P)).
Proof.
  revert st. induction individuals as [|ind individuals IH]; intros st Hrun; simpl in Hrun.
  - injection Hrun as <-. simpl. lia.
  - inv_bind_as Hrun st1 Hst1. apply IH in Hrun. rewrite Hrun.
    rewrite count_demographics_of_unfold in Hst1.
    inv_bind_as Hst1 flag Hflag. apply getitem_Ok in Hflag.
    simpl. unfold not_withdrawn at 2, withdrawn. rewrite Hflag.
    destruct (value_eq_str flag Codes.TRUE); simpl.
    + injection Hst1 as <-. lia.
    + apply (count_demographic_loop_counted key) in Hst1. lia.
Qed.

Lemma key_hits_absent key ccs :
  ~ In key (analysis_keys ccs) -> list_sum (map (key_hits key) ccs) = 0.
Proof.
  induction ccs as [|c ccs IH]; simpl; intros Hnotin; [reflexivity|].
  rewrite in_app_iff in Hnotin. rewrite IH by tauto.
  unfold key_hits. destruct (analysis_file_key c) as [k|]; [|reflexivity].
  destruct (String.eqb k key) eqn:E; [|reflexivity].
  apply String.eqb_eq in E. subst. exfalso. apply Hnotin. left. left. reflexivity.
Qed.

Lemma key_hits_unique key cc ccs :
  NoDup (analysis_keys ccs) -> In cc ccs -> analysis_file_key cc = Some key ->
  list_sum (map (key_hits key) ccs) = 1.
Proof.
  induction ccs as [|c ccs IH]; intros Hnd Hin Hkey; [destruct Hin|].
  simpl in Hnd. apply NoDup_app_remove_l in Hnd as Hnd'. simpl.
  destruct Hin as [-> | Hin].
  - rewrite key_hits_absent.
    + unfold key_hits. rewrite Hkey, String.eqb_refl. reflexivity.
    + rewrite Hkey in Hnd. simpl in Hnd. inversion Hnd. assumption.
  - rewrite IH by assumption.
    unfold key_hits. destruct (analysis_file_key c) as [k|] eqn:Hk; [|reflexivity].
    destruct (String.eqb k key) eqn:E; [|reflexivity].
    apply String.eqb_eq in E. subst k. exfalso.
    simpl in Hnd. inversion Hnd as [|? ? Hnotin _]; subst. apply Hnotin.
    unfold analysis_keys. apply in_flat_map. exists cc. rewrite Hkey. simpl. auto.
Qed.

Lemma count_demographic_resolves ind cc key st st' :
  analysis_file_key cc = Some key ->
  count_demographic ind cc st = Ok st' -> resolves_single cc ind.
Proof.
  unfold count_demographic. intros -> Hstep.
  inv_bind_as Hstep u Hu. inv_bind_as Hstep v Hv. inv_bind_as Hstep id Hid.
  inv_bind_as Hstep c Hc. apply getitem_Ok in Hv.
  split.
  - destruct (coding_mode cc); [reflexivity | discriminate].
  - destruct v as [s | l | ls]; try discriminate. injection Hid as <-. eauto.
Qed.

(** What a returned tally holds under the key of a configuration. *)
Lemma demographic_counts_sum_of_run P individuals st cc key :
  demographic_pass P individuals = Ok st ->
  NoDup (analysis_keys (demog_configurations P)) ->
  In cc (demog_configurations P) ->
  analysis_file_key cc = Some key ->
  exists counts,
    OrderedDict.get key (demographic_distributions st) = Some counts /\
    list_sum (OrderedDict.values counts) = length (filter not_withdrawn individuals) /\
    ((forall ind, In ind individuals -> withdrawn ind = true \/ opted_in ind = true) ->
     list_sum (OrderedDict.values counts) = length (filter opted_in individuals)) /\
    (forall ind, In ind individuals -> not_withdrawn ind = true -> resolves_single cc ind).
Proof.
  intros Hrun Hnd Hin Hkey. unfold demographic_pass in Hrun.
  pose proof (demographic_loop_counted P key _ _ _ Hrun) as Hsum.
  rewrite (key_hits_unique key cc _ Hnd Hin Hkey), Nat.mul_1_r in Hsum.
  assert (Hshape : tallies_shape P st).
  { revert Hrun. apply for_each_invariant; [|apply init_tallies_shape; exact Hnd].
    intros ind s s' _. apply count_demographics_of_shape. }
  destruct (Hshape cc key Hin Hkey) as [(counts & Hget & _) _].
  destruct (init_tallies_shape P Hnd cc key Hin Hkey) as [(counts0 & Hget0 & _) _].
  assert (Hzero : counted_at key (init_demographic_tallies P) = 0).
  { rewrite init_demographic_tallies_fold in *.
    destruct (init_fold_key (demog_configurations P)
                {| demographic_distributions := OrderedDict.empty;
                   total_relevant := OrderedDict.empty |} cc key Hnd Hin Hkey) as [Hd _].
    unfold counted_at. rewrite Hd. apply counted_init_code_counts. }
  unfold counted_at in Hsum at 1. rewrite Hget, Hzero in Hsum. unfold counted in Hsum.
  simpl in Hsum.
  exists counts. split; [exact Hget|]. split; [exact Hsum|]. split.
  - intros Hflags. rewrite Hsum. f_equal. apply filter_ext_in.
    intros ind Hind. unfold not_withdrawn. destruct (Hflags ind Hind) as [Hw | Ho].
    + rewrite Hw. unfold withdrawn in Hw. unfold opted_in.
      destruct (OrderedDict.get "consent_withdrawn" ind) as [[s| |]|]; try discriminate.
      simpl in *. apply String.eqb_eq in Hw. subst. reflexivity.
    + rewrite Ho. unfold opted_in in Ho. unfold withdrawn.
      destruct (OrderedDict.get "consent_withdrawn" ind) as [[s| |]|]; try discriminate.
      simpl in *. apply String.eqb_eq in Ho. subst. reflexivity.
  - intros ind Hind Hnw.
    destruct (for_each_Ok_In _ _ _ _ ind Hrun Hind) as (s1 & s2 & Hstep).
    rewrite count_demographics_of_unfold in Hstep.
    inv_bind_as Hstep flag Hflag. apply getitem_Ok in Hflag.
    unfold not_withdrawn, withdrawn in Hnw. rewrite Hflag in Hnw.
    destruct (value_eq_str flag Codes.TRUE); [discriminate|].
    destruct (for_each_Ok_In _ _ _ _ cc Hstep Hin) as (s3 & s4 & Hcc).
    eapply count_demographic_resolves; eauto.
Qed.

(** The tally of one individual for one configuration fails on a missing key
    when the coded field resolves to a STOP code. *)
Lemma count_demographic_stop P ind cc key l stop st :
  tallies_shape P st ->
  NoDup (map code_id (codes (code_scheme cc))) ->
  In cc (demog_configurations P) ->
  analysis_file_key cc = Some key ->
  OrderedDict.get (coded_field cc) ind = Some (VLabel l) ->
  get_code_with_code_id (code_scheme cc) (CodeID l) = Ok stop ->
  is_stop stop = true ->
  count_demographic ind cc st
  = match coding_mode cc with
    | SINGLE => Raise (KeyError (code_id stop))
    | MULTIPLE => Raise AssertionError
    end.
Proof.
  intros Hshape Hids Hin Hkey Hfield Hcode Hstop.
  unfold count_demographic. rewrite Hkey.
  destruct (coding_mode cc); simpl; [|reflexivity].
  unfold OrderedDict.getitem at 1. rewrite Hfield. simpl. rewrite Hcode. simpl.
  destruct (Hshape cc key Hin Hkey) as [(counts & Hget & Hkeys) _].
  unfold OrderedDict.getitem at 1. rewrite Hget. simpl.
  apply get_code_with_code_id_In in Hcode. destruct Hcode as [Hc _].
  assert (Habsent : OrderedDict.get (code_id stop) counts = None).
  { destruct (OrderedDict.get (code_id stop) counts) eqn:Hg; [|reflexivity].
    exfalso. assert (Hk : In (code_id stop) (OrderedDict.keys counts)).
    { apply get_In_keys. congruence. }
    rewrite Hkeys in Hk. apply get_In_keys in Hk. apply Hk.
    apply init_code_counts_stop_absent; assumption. }
  unfold OrderedDict.getitem. rewrite Habsent. reflexivity.
Qed.

(** C9: with unique analysis keys and unique code ids, a STOP code of the
    scheme has no entry in the pre-populated tally; the tally of a
    non-withdrawn individual whose coded field resolves to it raises the
    [KeyError] of the code's id in every state the pass can be in (an
    [AssertionError] if the configuration is not single-select), and so the
    whole pass raises. *)
Theorem demographic_pass_stop_code P individuals ind cc key l stop :
  NoDup (analysis_keys (demog_configurations P)) ->
  NoDup (map code_id (codes (code_scheme cc))) ->
  In ind individuals ->
  withdrawn ind = false ->
  In cc (demog_configurations P) ->
  analysis_file_key cc = Some key ->
  OrderedDict.get (coded_field cc) ind = Some (VLabel l) ->
  get_code_with_code_id (code_scheme cc) (CodeID l) = Ok stop ->
  is_stop stop = true ->
  (exists counts,
      OrderedDict.get key (demographic_distributions (init_demographic_tallies P))
      = Some counts /\
      OrderedDict.get (code_id stop) counts = None) /\
  (forall st, tallies_shape P st ->
     count_demographic ind cc st
     = match coding_mode cc with
       | SINGLE => Raise (KeyError (code_id stop))
       | MULTIPLE => Raise AssertionError
       end) /\
  raises (demographic_pass P individuals).
Proof.
  intros Hnd Hids Hind Hw Hin Hkey Hfield Hcode Hstop.
  assert (Hstep : forall st, tallies_shape P st ->
            count_demographic ind cc st
            = match coding_mode cc with
              | SINGLE => Raise (KeyError (code_id stop))
              | MULTIPLE => Raise AssertionError
              end).
  { intros st Hshape. eapply count_demographic_stop; eauto. }
  split; [|split; [exact Hstep|]].
  - rewrite init_demographic_tallies_fold.
    destruct (init_fold_key (demog_configurations P)
                {| demographic_distributions := OrderedDict.empty;
                   total_relevant := OrderedDict.empty |} cc key Hnd Hin Hkey) as [Hd _].
    rewrite Hd. eexists. split; [reflexivity|].
    apply get_code_with_code_id_In in Hcode.
    apply init_code_counts_stop_absent; tauto.
  - unfold demographic_pass.
    apply for_each_raises with (I := tallies_shape P) (x := ind).
    + intros y s s' Hs. apply count_demographics_of_shape. exact Hs.
    + exact Hind.
    + intros s Hs. rewrite count_demographics_of_unfold.
      unfold withdrawn in Hw. unfold OrderedDict.getitem.
      destruct (OrderedDict.get "consent_withdrawn" ind) as [flag|]; simpl;
        [|eexists; reflexivity].
      rewrite Hw.
      apply for_each_raises with (I := tallies_shape P) (x := cc).
      * intros y t t'. apply count_demographic_shape.
      * exact Hin.
      * intros t Ht. rewrite (Hstep t Ht). destruct (coding_mode cc); eexists; reflexivity.
      * exact Hs.
    + apply init_tallies_shape. exact Hnd.
Qed.

Lemma demographic_pass_stop_code_witness :
  (exists counts,
      OrderedDict.get "gender"
        (demographic_distributions (init_demographic_tallies pipeline)) = Some counts /\
      OrderedDict.get "code-STOP" counts = None) /\
  (forall st, tallies_shape pipeline st ->
     count_demographic erasto gender_configuration st = Raise (KeyError "code-STOP")) /\
  raises (demographic_pass pipeline [amina; erasto]).
Proof.
  apply (demographic_pass_stop_code pipeline [amina; erasto] erasto gender_configuration
           "gender" (Build_Label "code-STOP")
           (code "code-STOP" "STOP" CONTROL (Some "STOP"))).
  - repeat constructor. simpl. tauto.
  - repeat constructor; simpl; intuition discriminate.
  - simpl. auto.
  - reflexivity.
  - simpl. auto.
  - reflexivity.
  - reflexivity.
  - reflexivity.
  - reflexivity.
Defined.

Example demographic_pass_stop_code_run :
  demographic_pass pipeline [amina; erasto] = Raise (KeyError "code-STOP").
Proof. vm_compute. reflexivity. Qed.

(** The converse: the pass returns when every record has a consent flag and
    every non-withdrawn individual's coded field resolves, for every exported
    configuration, to one code of the scheme that is not STOP. *)
Lemma demographic_pass_total P individuals :
  NoDup (analysis_keys (demog_configurations P)) ->
  (forall ind, In ind individuals -> OrderedDict.get "consent_withdrawn" ind <> None) ->
  (forall ind cc key, In ind individuals -> withdrawn ind = false ->
     In cc (demog_configurations P) -> analysis_file_key cc = Some key ->
     coding_mode cc = SINGLE /\
     exists l c,
       OrderedDict.get (coded_field cc) ind = Some (VLabel l) /\
       get_code_with_code_id (code_scheme cc) (CodeID l) = Ok c /\
       is_stop c = false) ->
  exists st, demographic_pass P individuals = Ok st.
Proof.
  intros Hnd Hflags Hres. unfold demographic_pass.
  destruct (for_each_total (tallies_shape P) individuals (count_demographics_of P))
    with (s := init_demographic_tallies P) as (st & Hst & _);
    [ | apply init_tallies_shape; exact Hnd | eauto ].
  intros ind s Hind Hs. rewrite count_demographics_of_unfold.
  specialize (Hflags ind Hind). specialize (Hres ind).
  unfold withdrawn in Hres. unfold OrderedDict.getitem.
  destruct (OrderedDict.get "consent_withdrawn" ind) as [flag|]; [|congruence]. simpl.
  destruct (value_eq_str flag Codes.TRUE); [eauto|].
  apply for_each_total; [|exact Hs].
  intros cc t Hcc Ht.
  assert (Hok : exists t', count_demographic ind cc t = Ok t').
  { unfold count_demographic. destruct (analysis_file_key cc) as [key|] eqn:Hkey; [|eauto].
    destruct (Hres cc key Hind eq_refl Hcc Hkey) as (Hmode & l & c & Hfield & Hcode & Hstop).
    rewrite Hmode. simpl. unfold OrderedDict.getitem at 1. rewrite Hfield. simpl.
    rewrite Hcode. simpl.
    destruct (Ht cc key Hcc Hkey) as [(counts & Hget & Hkeys) Htr].
    unfold OrderedDict.getitem at 1. rewrite Hget. simpl.
    apply get_code_with_code_id_In in Hcode. destruct Hcode as [Hc _].
    assert (Hpresent : OrderedDict.get (code_id c) counts <> None).
    { apply get_In_keys. rewrite Hkeys. apply get_In_keys.
      rewrite init_code_counts_present by assumption. discriminate. }
    unfold OrderedDict.getitem.
    destruct (OrderedDict.get (code_id c) counts); [|congruence]. simpl.
    destruct (is_normal c); [|eauto].
    destruct (OrderedDict.get key (total_relevant t)); [|congruence]. simpl. eauto. }
  destruct Hok as [t' Ht']. exists t'. split; [exact Ht'|].
  eapply count_demographic_shape; eauto.
Qed.

(** C3: for a DEMOG configuration with an analysis key (keys being unique
    among the configurations), whenever the tallying pass returns, the counts
    stored under the key add up to the number of individuals that did not
    withdraw consent, which is the number of individuals whose flag is false
    when every flag is true or false, and every such individual's coded field
    did resolve to one single-select code of the scheme; and the pass does
    return when every record has a consent flag and every non-withdrawn
    individual's coded field resolves, for every exported configuration, to
    one code of its scheme other than STOP. *)
Theorem demographic_counts_sum P individuals cc key :
  NoDup (analysis_keys (demog_configurations P)) ->
  In cc (demog_configurations P) ->
  analysis_file_key cc = Some key ->
  (forall st, demographic_pass P individuals = Ok st ->
     exists counts,
       OrderedDict.get key (demographic_distributions st) = Some counts /\
       list_sum (OrderedDict.values counts) = length (filter not_withdrawn individuals) /\
       ((forall ind, In ind individuals -> withdrawn ind = true \/ opted_in ind = true) ->
        list_sum (OrderedDict.values counts) = length (filter opted_in individuals)) /\
       (forall ind, In ind individuals -> not_withdrawn ind = true ->
          resolves_single cc ind)) /\
  ((forall ind, In ind individuals -> OrderedDict.get "consent_withdrawn" ind <> None) ->
   (forall ind cc' key', In ind individuals -> withdrawn ind = false ->
      In cc' (demog_configurations P) -> analysis_file_key cc' = Some key' ->
      coding_mode cc' = SINGLE /\
      exists l c,
        OrderedDict.get (coded_field cc') ind = Some (VLabel l) /\
        get_code_with_code_id (code_scheme cc') (CodeID l) = Ok c /\
        is_stop c = false) ->
   exists st, demographic_pass P individuals = Ok st).
Proof.
  intros Hnd Hin Hkey. split.
  - intros st Hrun. apply (demographic_counts_sum_of_run P individuals st cc key); assumption.
  - intros Hflags Hres. apply demographic_pass_total; assumption.
Qed.

Lemma demographic_counts_sum_witness :
  exists st counts,
    demographic_pass pipeline population = Ok st /\
    OrderedDict.get "gender" (demographic_distributions st) = Some counts /\
    counts = [("code-male", 1); ("code-female", 1); ("code-NC", 0)] /\
    list_sum (OrderedDict.values counts) = length (filter not_withdrawn population) /\
    list_sum (OrderedDict.values counts) = length (filter opted_in population).
Proof.
  destruct (demographic_counts_sum pipeline population gender_configuration "gender")
    as [Hsum Htotal].
  - repeat constructor. simpl. tauto.
  - simpl. auto.
  - reflexivity.
  - destruct Htotal as [st Hst].
    + intros ind [<- | [<- | [<- | []]]]; discriminate.
    + intros ind cc' key' [<- | [<- | [<- | []]]] Hw [<- | []] Hkey';
        try discriminate;
        (split; [reflexivity|]; do 2 eexists; repeat split; reflexivity).
    + destruct (Hsum st Hst) as (counts & Hget & Hn & Hfalse & _).
      exists st, counts. split; [exact Hst|]. split; [exact Hget|].
      split; [|split; [exact Hn|]].
      * vm_compute in Hst. injection Hst as <-. vm_compute in Hget. congruence.
      * apply Hfalse. intros ind [<- | [<- | [<- | []]]]; auto.
Defined.

(** A configuration that is not single-select makes the tally of any
    non-withdrawn individual fail. *)
Lemma demographic_pass_multiple_raises P individuals ind cc key :
  In cc (demog_configurations P) ->
  analysis_file_key cc = Some key ->
  coding_mode cc = MULTIPLE ->
  In ind individuals ->
  withdrawn ind = false ->
  raises (demographic_pass P individuals).
Proof.
  intros Hcc Hkey Hmode Hind Hw. unfold demographic_pass.
  apply for_each_raises with (I := fun _ => True) (x := ind); auto.
  intros s _. rewrite count_demographics_of_unfold.
  unfold withdrawn in Hw. unfold OrderedDict.getitem.
  destruct (OrderedDict.get "consent_withdrawn" ind) as [flag|]; simpl;
    [|eexists; reflexivity].
  rewrite Hw.
  apply for_each_raises with (I := fun _ => True) (x := cc); auto.
  intros t _. unfold count_demographic. rewrite Hkey, Hmode. simpl.
  eexists. reflexivity.
Qed.

Lemma int_percentage_Ok a b f :
  int_percentage a b = Ok f <-> b <> 0 /\ f = percentage a b.
Proof.
  unfold int_percentage. destruct (Nat.eqb b 0) eqn:E.
  - apply Nat.eqb_eq in E. split; [discriminate | intros [Hb _]; contradiction].
  - apply Nat.eqb_neq in E. split; [intros [= <-]; auto | intros [_ ->]; reflexivity].
Qed.

Lemma int_percentage_zero a : int_percentage a 0 = Raise ZeroDivisionError.
Proof. reflexivity. Qed.

Lemma demographic_row_stop st key i c r :
  demographic_row st key i c = Ok r ->
  match r with
  | None => is_stop c = true
  | Some row => is_stop c = false /\ row_of_code st key row c
  end.
Proof.
  unfold demographic_row. destruct (is_stop c); [intros [= <-]; reflexivity|].
  intros Hrow. inv_bind_as Hrow counts Hcounts. inv_bind_as Hrow n Hn.
  inv_bind_as Hrow percent Hpercent. injection Hrow as <-.
  apply getitem_Ok in Hcounts, Hn. split; [reflexivity|].
  unfold row_of_code. simpl. split; [reflexivity|]. split; [eauto|].
  destruct (is_normal c).
  - inv_bind_as Hpercent t Ht. inv_bind_as Hpercent f Hf. injection Hpercent as <-.
    apply getitem_Ok in Ht. apply int_percentage_Ok in Hf. destruct Hf as [Hnz ->].
    eauto.
  - injection Hpercent as <-. reflexivity.
Qed.

Lemma demographic_rows_from_codes st key i cs rows :
  demographic_rows_from st key i cs = Ok rows ->
  Forall2 (row_of_code st key) rows (filter (fun c => negb (is_stop c)) cs).
Proof.
  revert i rows. induction cs as [|c cs IH]; intros i rows Hrows; simpl in Hrows.
  - injection Hrows as <-. constructor.
  - inv_bind_as Hrows r Hr. inv_bind_as Hrows rest Hrest. injection Hrows as <-.
    apply demographic_row_stop in Hr. apply IH in Hrest. simpl.
    destruct r as [row|].
    + destruct Hr as [-> Hrow]. simpl. constructor; assumption.
    + rewrite Hr. simpl. exact Hrest.
Qed.

(** C4: for a DEMOG configuration with an analysis key (keys being unique and
    NORMAL codes carrying no control code), the tally starts with a zero for
    every NORMAL code and holds an entry exactly for the ids of the codes that
    are not STOP; the exported rows are, in order, those of the codes that are
    not STOP, and a row's Percent is the rounded percentage when its code is
    NORMAL and the empty string otherwise. *)
Theorem demographic_distribution_rows P cc key :
  NoDup (analysis_keys (demog_configurations P)) ->
  In cc (demog_configurations P) ->
  analysis_file_key cc = Some key ->
  well_formed_scheme (code_scheme cc) ->
  (exists counts,
      OrderedDict.get key (demographic_distributions (init_demographic_tallies P))
      = Some counts /\
      (forall c, In c (codes (code_scheme cc)) -> is_normal c = true ->
         OrderedDict.get (code_id c) counts = Some 0) /\
      (forall id, OrderedDict.get id counts <> None <->
         exists c, In c (codes (code_scheme cc)) /\ is_stop c = false /\ code_id c = id)) /\
  (forall st rows, demographic_configuration_rows st cc = Ok rows ->
     Forall2 (row_of_code st key) rows (exported_codes (code_scheme cc))).
Proof.
  intros Hnd Hin Hkey Hwf. split.
  - rewrite init_demographic_tallies_fold.
    destruct (init_fold_key (demog_configurations P)
                {| demographic_distributions := OrderedDict.empty;
                   total_relevant := OrderedDict.empty |} cc key Hnd Hin Hkey) as [Hd _].
    rewrite Hd. eexists. split; [reflexivity|]. split.
    + intros c Hc Hnormal. apply init_code_counts_present; [exact Hc|].
      apply normal_not_stop; [|exact Hnormal].
      unfold well_formed_scheme in Hwf. rewrite Forall_forall in Hwf. auto.
    + intros id. rewrite init_code_counts_get.
      destruct (existsb _ (codes (code_scheme cc))) eqn:E.
      * apply existsb_exists in E. destruct E as (c & Hc & Hcid).
        apply andb_prop in Hcid. destruct Hcid as [Hns Hid].
        apply String.eqb_eq in Hid. apply negb_true_iff in Hns.
        split; [eauto | discriminate].
      * split; [congruence|]. intros (c & Hc & Hns & Hid). exfalso.
        assert (Ht : existsb (fun c => negb (is_stop c) && String.eqb (code_id c) id)
                       (codes (code_scheme cc)) = true).
        { apply existsb_exists. exists c. rewrite Hns, Hid, String.eqb_refl. auto. }
        congruence.
  - intros st rows. unfold demographic_configuration_rows. rewrite Hkey.
    apply demographic_rows_from_codes.
Qed.

Lemma demographic_distribution_rows_witness :
  (exists counts,
      OrderedDict.get "gender"
        (demographic_distributions (init_demographic_tallies pipeline)) = Some counts /\
      (forall c, In c (codes GENDER) -> is_normal c = true ->
         OrderedDict.get (code_id c) counts = Some 0) /\
      (forall id, OrderedDict.get id counts <> None <->
         exists c, In c (codes GENDER) /\ is_stop c = false /\ code_id c = id)) /\
  (forall st rows, demographic_configuration_rows st gender_configuration = Ok rows ->
     Forall2 (row_of_code st "gender") rows (exported_codes GENDER)).
Proof.
  apply (demographic_distribution_rows pipeline gender_configuration "gender").
  - repeat constructor. simpl. tauto.
  - simpl. auto.
  - reflexivity.
  - repeat constructor; unfold well_formed_code; simpl; congruence.
Defined.

(** The exported rows of the example population: no row for STOP, a blank
    Percent for the control code NC. *)
Example demographic_distributions_csv_run :
  demographic_distributions_csv pipeline population
  = Ok [ {| row_Demographic := "gender"; row_Code := "male";
            row_Participants_with_Opt_Ins := 1; row_Percent := CFloat 50%float |};
         {| row_Demographic := ""; row_Code := "female";
            row_Participants_with_Opt_Ins := 1; row_Percent := CFloat 50%float |};
         {| row_Demographic := ""; row_Code := "NC";
            row_Participants_with_Opt_Ins := 0; row_Percent := CStr "" |} ].
Proof. vm_compute. reflexivity. Qed.

(** ** Theme distributions *)

Lemma mentions_colon_app a b : mentions_colon (a ++ ":" ++ b) = true.
Proof.
  induction a as [|c a IH]; simpl in *; [reflexivity|].
  rewrite IH. apply orb_true_r.
Qed.

Lemma survey_key_not_total key c : survey_key key c <> "Total Participants".
Proof.
  unfold survey_key. intros E.
  pose proof (mentions_colon_app key (string_value c)) as Hc.
  rewrite E in Hc. discriminate.
Qed.

Lemma survey_pct_key_not_total key c : survey_pct_key key c <> "Total Participants".
Proof.
  unfold survey_pct_key. intros E.
  pose proof (mentions_colon_app key (string_value c ++ " %")) as Hc.
  rewrite E in Hc. discriminate.
Qed.

Lemma make_survey_counts_dict_total P :
  total_cell (make_survey_counts_dict P) = Some (CInt 0).
Proof.
  unfold make_survey_counts_dict. rewrite fold_left_flat_map.
  assert (Hacc : forall ccs sc,
            total_cell (fold_left make_survey_counts_configuration ccs sc) = total_cell sc).
  { induction ccs as [|cc ccs IH]; intros sc; simpl; [reflexivity|].
    rewrite IH. unfold make_survey_counts_configuration.
    destruct (analysis_file_key cc) as [key|]; [|reflexivity].
    generalize (codes (code_scheme cc)). intros cs. revert sc.
    induction cs as [|c cs IHc]; intros sc; simpl; [reflexivity|].
    rewrite IHc. destruct (is_stop c); [reflexivity|].
    unfold total_cell. rewrite !get_set_other; [reflexivity | |].
    - apply survey_key_not_total.
    - apply survey_pct_key_not_total. }
  rewrite Hacc. reflexivity.
Qed.

Lemma incr_item_other k k' row row' :
  k <> k' -> incr_item k row = Ok row' ->
  OrderedDict.get k' row' = OrderedDict.get k' row.
Proof.
  unfold incr_item. intros Hne Hrow.
  inv_bind_as Hrow c Hc. inv_bind_as Hrow c' Hc'. injection Hrow as <-.
  apply get_set_other. exact Hne.
Qed.

Lemma incr_item_total row row' n :
  total_cell row = Some (CInt n) ->
  incr_item "Total Participants" row = Ok row' ->
  total_cell row' = Some (CInt (S n)).
Proof.
  unfold incr_item, total_cell, OrderedDict.getitem. intros -> Hrow. simpl in Hrow.
  injection Hrow as <-. apply get_set_same.
Qed.

Lemma update_survey_counts_unfold P sc td :
  update_survey_counts P sc td
  = for_each (flat_map coding_configurations (SURVEY_CODING_PLANS P))
      (update_survey_counts_configuration td) sc.
Proof.
  unfold update_survey_counts. apply for_each_flat_map.
Qed.

Lemma update_survey_counts_total P row td row' :
  update_survey_counts P row td = Ok row' -> total_cell row' = total_cell row.
Proof.
  rewrite update_survey_counts_unfold.
  apply (for_each_invariant (fun sc => total_cell sc = total_cell row)); [|reflexivity].
  intros cc sc sc' _ Hsc. unfold update_survey_counts_configuration.
  destruct (analysis_file_key cc) as [key|]; [|intros [= <-]; exact Hsc].
  intros Hrun. inv_bind_as Hrun cs Hcs. revert Hrun.
  apply (for_each_invariant (fun s => total_cell s = total_cell row)); [|exact Hsc].
  intros c s s' _ Hs. destruct (is_stop c); [intros [= <-]; exact Hs|].
  intros Hincr. unfold total_cell.
  rewrite (incr_item_other _ "Total Participants" _ _ (survey_key_not_total key c) Hincr).
  exact Hs.
Qed.

Lemma set_percentage_total aliased total count_key pct_key sc sc' :
  pct_key <> "Total Participants" ->
  set_percentage aliased total count_key pct_key sc = Ok sc' ->
  total_cell sc' = total_cell sc.
Proof.
  unfold set_percentage. intros Hne Hrun.
  inv_bind_as Hrun code_count Hcount. inv_bind_as Hrun code_total Htotal.
  unfold total_cell. destruct (cell_eq_zero code_total).
  - injection Hrun as <-. apply get_set_other. exact Hne.
  - inv_bind_as Hrun pct Hpct. injection Hrun as <-. apply get_set_other. exact Hne.
Qed.

Lemma set_survey_percentages_total P aliased sc total sc' :
  set_survey_percentages P aliased sc total = Ok sc' -> total_cell sc' = total_cell sc.
Proof.
  unfold set_survey_percentages. intros Hrun.
  inv_bind_as Hrun t Ht. inv_bind_as Hrun sc1 Hsc1.
  assert (H1 : total_cell sc1 = total_cell sc).
  { unfold total_cell. destruct (cell_eq_zero t).
    - injection Hsc1 as <-. apply get_set_other. discriminate.
    - inv_bind_as Hsc1 count Hcount. inv_bind_as Hsc1 pct Hpct. injection Hsc1 as <-.
      apply get_set_other. discriminate. }
  rewrite for_each_flat_map in Hrun. revert Hrun.
  apply (for_each_invariant (fun s => total_cell s = total_cell sc)); [|exact H1].
  intros cc s s' _ Hs. unfold set_survey_percentages_configuration.
  destruct (analysis_file_key cc) as [key|]; [|intros [= <-]; exact Hs].
  apply (for_each_invariant (fun s => total_cell s = total_cell sc)); [|exact Hs].
  intros c u u' _ Hu. destruct (is_stop c); [intros [= <-]; exact Hu|].
  intros Hset.
  rewrite (set_percentage_total _ _ _ _ _ _ (survey_pct_key_not_total key c) Hset).
  exact Hu.
Qed.

(** *** What the counting loop is expected to count *)

(** *** The "Total Participants" cells during the pass *)

Lemma count_in_theme_spec P K td themes themes' :
  counting_rows themes ->
  count_in_theme P K td themes = Ok themes' ->
  counting_rows themes' /\
  forall K', tp_count K' themes' = tp_count K' themes + (if String.eqb K' K then 1 else 0).
Proof.
  intros Hrows Hrun. unfold count_in_theme in Hrun.
  inv_bind_as Hrun row Hrow. inv_bind_as Hrun row1 Hrow1. inv_bind_as Hrun row2 Hrow2.
  injection Hrun as <-. apply getitem_Ok in Hrow.
  destruct (Hrows K row Hrow) as [n Hn].
  pose proof (incr_item_total _ _ _ Hn Hrow1) as Hn1.
  pose proof (update_survey_counts_total _ _ _ _ Hrow2) as Hn2. rewrite Hn1 in Hn2.
  split.
  - intros K' row' Hget. destruct (string_dec K K') as [<- | Hne].
    + rewrite get_set_same in Hget. injection Hget as <-. eauto.
    + rewrite get_set_other in Hget by exact Hne. eauto.
  - intros K'. unfold tp_count. destruct (String.eqb K' K) eqn:E.
    + apply String.eqb_eq in E. subst K'. rewrite get_set_same, Hrow, Hn, Hn2. lia.
    + apply String.eqb_neq in E. rewrite get_set_other by congruence. lia.
Qed.

Lemma count_label_spec P cc td label st st' :
  counting_rows (fst st) ->
  count_label P cc td label st = Ok st' ->
  counting_rows (fst st') /\
  (forall K, tp_count K (fst st') = tp_count K (fst st) + label_hits cc K label) /\
  snd st' = snd st || label_relevant cc label.
Proof.
  intros Hrows Hrun. unfold count_label in Hrun. inv_bind_as Hrun c Hc.
  unfold label_hits, label_relevant, label_code. rewrite Hc.
  destruct (is_stop c).
  - injection Hrun as <-. split; [exact Hrows|]. split; [intros K; lia|].
    simpl. rewrite orb_false_r. reflexivity.
  - inv_bind_as Hrun themes Hthemes. injection Hrun as <-. simpl.
    destruct (count_in_theme_spec _ _ _ _ _ Hrows Hthemes) as [Hrows' Hcount].
    split; [exact Hrows'|]. split.
    + intros K. rewrite Hcount, (String.eqb_sym K). reflexivity.
    + destruct (is_normal c); [rewrite orb_true_r | rewrite orb_false_r]; reflexivity.
Qed.

Lemma count_labels_spec P cc td labels st st' :
  counting_rows (fst st) ->
  for_each labels (count_label P cc td) st = Ok st' ->
  counting_rows (fst st') /\
  (forall K, tp_count K (fst st')
             = tp_count K (fst st) + list_sum (map (label_hits cc K) labels)) /\
  snd st' = snd st || existsb (label_relevant cc) labels.
Proof.
  revert st. induction labels as [|label labels IH]; intros st Hrows Hrun; simpl in Hrun.
  - injection Hrun as <-. split; [exact Hrows|]. split; [intros K; simpl; lia|].
    simpl. rewrite orb_false_r. reflexivity.
  - inv_bind_as Hrun st1 Hst1.
    destruct (count_label_spec _ _ _ _ _ _ Hrows Hst1) as (Hrows1 & Hcount1 & Hflag1).
    destruct (IH _ Hrows1 Hrun) as (Hrows' & Hcount' & Hflag').
    split; [exact Hrows'|]. split.
    + intros K. rewrite Hcount', Hcount1. simpl. lia.
    + rewrite Hflag', Hflag1. simpl. rewrite orb_assoc. reflexivity.
Qed.

Lemma count_themes_configuration_spec P td cc st st' :
  counting_rows (fst st) ->
  count_themes_configuration P td cc st = Ok st' ->
  counting_rows (fst st') /\
  (forall K, tp_count K (fst st') = tp_count K (fst st) + config_hits td K cc) /\
  snd st' = snd st || config_relevant td cc.
Proof.
  intros Hrows Hrun. unfold count_themes_configuration in Hrun.
  inv_bind_as Hrun u Hu. inv_bind_as Hrun v Hv. inv_bind_as Hrun labels Hlabels.
  apply getitem_Ok in Hv.
  unfold config_hits, config_relevant, field_labels. rewrite Hv, Hlabels.
  apply (count_labels_spec P cc td labels st st' Hrows Hrun).
Qed.

Lemma count_themes_configurations_spec P td ccs st st' :
  counting_rows (fst st) ->
  for_each ccs (count_themes_configuration P td) st = Ok st' ->
  counting_rows (fst st') /\
  (forall K, tp_count K (fst st')
             = tp_count K (fst st) + list_sum (map (config_hits td K) ccs)) /\
  snd st' = snd st || existsb (config_relevant td) ccs.
Proof.
  revert st. induction ccs as [|cc ccs IH]; intros st Hrows Hrun; simpl in Hrun.
  - injection Hrun as <-. split; [exact Hrows|]. split; [intros K; simpl; lia|].
    simpl. rewrite orb_false_r. reflexivity.
  - inv_bind_as Hrun st1 Hst1.
    destruct (count_themes_configuration_spec _ _ _ _ _ Hrows Hst1)
      as (Hrows1 & Hcount1 & Hflag1).
    destruct (IH _ Hrows1 Hrun) as (Hrows' & Hcount' & Hflag').
    split; [exact Hrows'|]. split.
    + intros K. rewrite Hcount', Hcount1. simpl. lia.
    + rewrite Hflag', Hflag1. simpl. rewrite orb_assoc. reflexivity.
Qed.

Lemma count_themes_of_spec P plan td themes themes' :
  counting_rows themes ->
  count_themes_of P plan td themes = Ok themes' ->
  counting_rows themes' /\
  forall K, tp_count K themes'
            = tp_count K themes + individual_hits plan K td + relevant_hits plan K td.
Proof.
  intros Hrows Hrun. unfold count_themes_of in Hrun.
  inv_bind_as Hrun flag Hflag. apply getitem_Ok in Hflag.
  unfold individual_hits, relevant_hits, relevant_participant, withdrawn. rewrite Hflag.
  destruct (value_eq_str flag Codes.TRUE).
  - injection Hrun as <-. split; [exact Hrows|]. intros K. simpl.
    destruct (String.eqb K TOTAL_RELEVANT); lia.
  - inv_bind_as Hrun st Hst.
    destruct (count_themes_configurations_spec _ _ _ (themes, false) _ Hrows Hst)
      as (Hrows1 & Hcount1 & Hflag1).
    simpl in Hcount1, Hflag1. rewrite <- Hflag1. simpl.
    destruct (snd st).
    + destruct (count_in_theme_spec _ _ _ _ _ Hrows1 Hrun) as [Hrows' Hcount'].
      split; [exact Hrows'|]. intros K. rewrite Hcount', Hcount1. reflexivity.
    + injection Hrun as <-. split; [exact Hrows1|]. intros K. rewrite Hcount1.
      destruct (String.eqb K TOTAL_RELEVANT); lia.
Qed.

Lemma count_themes_loop_spec P plan individuals themes themes' :
  counting_rows themes ->
  for_each individuals (count_themes_of P plan) themes = Ok themes' ->
  counting_rows themes' /\
  forall K, tp_count K themes'
            = tp_count K themes + theme_assignments plan K individuals
              + list_sum (map (relevant_hits plan K) individuals).
Proof.
  revert themes. induction individuals as [|td individuals IH]; intros themes Hrows Hrun;
    simpl in Hrun.
  - injection Hrun as <-. split; [exact Hrows|]. intros K. unfold theme_assignments.
    simpl. lia.
  - inv_bind_as Hrun themes1 Hthemes1.
    destruct (count_themes_of_spec _ _ _ _ _ Hrows Hthemes1) as [Hrows1 Hcount1].
    destruct (IH _ Hrows1 Hrun) as [Hrows' Hcount'].
    split; [exact Hrows'|]. intros K. rewrite Hcount', Hcount1.
    unfold theme_assignments. simpl. lia.
Qed.

(** *** The empty rows *)

Lemma fresh_rows_set P K themes :
  fresh_rows P themes -> fresh_rows P (OrderedDict.set K (make_survey_counts_dict P) themes).
Proof.
  intros Hfresh K' row Hget. destruct (string_dec K K') as [<- | Hne].
  - rewrite get_set_same in Hget. congruence.
  - rewrite get_set_other in Hget by exact Hne. eauto.
Qed.

Lemma init_themes_fresh P plan themes :
  init_themes P plan = Ok themes -> fresh_rows P themes.
Proof.
  unfold init_themes. apply (for_each_invariant (fresh_rows P)).
  - intros cc s s' _ Hs Hrun. unfold init_themes_configuration in Hrun.
    inv_bind_as Hrun u Hu. injection Hrun as <-.
    generalize (codes (code_scheme cc)).
    assert (Hs1 : fresh_rows P (OrderedDict.set TOTAL_RELEVANT (make_survey_counts_dict P) s))
      by (apply fresh_rows_set; exact Hs).
    revert Hs1. generalize (OrderedDict.set TOTAL_RELEVANT (make_survey_counts_dict P) s).
    intros t Ht cs. revert t Ht. induction cs as [|c cs IH]; intros t Ht; simpl; [exact Ht|].
    apply IH. destruct (is_stop c); [exact Ht | apply fresh_rows_set; exact Ht].
  - intros K row Hget. discriminate.
Qed.

Lemma fresh_rows_counting P themes :
  fresh_rows P themes -> counting_rows themes /\ forall K, tp_count K themes = 0.
Proof.
  intros Hfresh. split.
  - intros K row Hget. rewrite (Hfresh K row Hget). exists 0.
    apply make_survey_counts_dict_total.
  - intros K. unfold tp_count. destruct (OrderedDict.get K themes) as [row|] eqn:Hget;
      [|reflexivity].
    rewrite (Hfresh K row Hget), make_survey_counts_dict_total. reflexivity.
Qed.

(** *** The percentages leave the counts alone *)

Lemma theme_total_set K row row' themes :
  OrderedDict.get K themes = Some row ->
  total_cell row' = total_cell row ->
  forall K', theme_total K' (OrderedDict.set K row' themes) = theme_total K' themes.
Proof.
  intros Hget Htotal K'. unfold theme_total. destruct (string_dec K K') as [<- | Hne].
  - rewrite get_set_same, Hget. simpl. congruence.
  - rewrite get_set_other by exact Hne. reflexivity.
Qed.

Lemma finalize_theme_total P cc c themes themes' :
  finalize_theme P cc c themes = Ok themes' ->
  forall K, theme_total K themes' = theme_total K themes.
Proof.
  unfold finalize_theme. destruct (negb (is_normal c)); [intros [= <-]; reflexivity|].
  intros Hrun. inv_bind_as Hrun theme Htheme. inv_bind_as Hrun total Htotal.
  inv_bind_as Hrun theme' Htheme'. injection Hrun as <-.
  apply getitem_Ok in Htheme. apply theme_total_set with (row := theme); [exact Htheme|].
  eapply set_survey_percentages_total. exact Htheme'.
Qed.

Lemma episode_theme_percentages_total P plan themes themes' :
  episode_theme_percentages P plan themes = Ok themes' ->
  forall K, theme_total K themes' = theme_total K themes.
Proof.
  unfold episode_theme_percentages. intros Hrun.
  inv_bind_as Hrun total Htotal. inv_bind_as Hrun total' Htotal'.
  apply getitem_Ok in Htotal.
  assert (H1 : forall K, theme_total K (OrderedDict.set TOTAL_RELEVANT total' themes)
                         = theme_total K themes).
  { apply theme_total_set with (row := total); [exact Htotal|].
    eapply set_survey_percentages_total. exact Htotal'. }
  revert Hrun.
  apply (for_each_invariant (fun s => forall K, theme_total K s = theme_total K themes));
    [|exact H1].
  intros cc s s' _ Hs Hcc. unfold finalize_themes_configuration in Hcc.
  inv_bind_as Hcc u Hu. revert Hcc.
  apply (for_each_invariant (fun s => forall K, theme_total K s = theme_total K themes));
    [|exact Hs].
  intros c t t' _ Ht Hc K. rewrite (finalize_theme_total _ _ _ _ _ Hc K). apply Ht.
Qed.

(** The "Total Participants" cell of every row of an episode. *)
Lemma episode_themes_totals P plan individuals themes :
  episode_themes P plan individuals = Ok themes ->
  (exists row, OrderedDict.get TOTAL_RELEVANT themes = Some row) /\
  forall K row, OrderedDict.get K themes = Some row ->
    total_cell row
    = Some (CInt (theme_assignments plan K individuals
                  + list_sum (map (relevant_hits plan K) individuals))).
Proof.
  unfold episode_themes, episode_theme_counts. intros Hrun.
  inv_bind_as Hrun counts Hcounts. inv_bind_as Hcounts themes0 Hinit.
  apply init_themes_fresh in Hinit. apply fresh_rows_counting in Hinit.
  destruct Hinit as [Hrows0 Hzero].
  destruct (count_themes_loop_spec _ _ _ _ _ Hrows0 Hcounts) as [Hrows Hcount].
  pose proof (episode_theme_percentages_total _ _ _ _ Hrun) as Hsame.
  split.
  - unfold episode_theme_percentages in Hrun. inv_bind_as Hrun total Htotal.
    apply getitem_Ok in Htotal. specialize (Hsame TOTAL_RELEVANT).
    unfold theme_total in Hsame. rewrite Htotal in Hsame.
    destruct (OrderedDict.get TOTAL_RELEVANT themes); [eauto | discriminate].
  - intros K row Hget. specialize (Hsame K). unfold theme_total in Hsame.
    rewrite Hget in Hsame. specialize (Hcount K). rewrite Hzero in Hcount.
    unfold tp_count in Hcount.
    destruct (OrderedDict.get K counts) as [row0|] eqn:Hget0; [|discriminate].
    simpl in Hsame. injection Hsame as Hsame. rewrite Hsame.
    destruct (Hrows K row0 Hget0) as [n Hn]. rewrite Hn in *. simpl in Hcount.
    rewrite Hcount. reflexivity.
Qed.

Lemma relevant_hits_other plan K individuals :
  K <> TOTAL_RELEVANT -> list_sum (map (relevant_hits plan K) individuals) = 0.
Proof.
  intros Hne. apply String.eqb_neq in Hne.
  induction individuals as [|td individuals IH]; simpl; [reflexivity|].
  rewrite IH. unfold relevant_hits. rewrite Hne. reflexivity.
Qed.

Lemma list_sum_In_le {A : Type} (f : A -> nat) (l : list A) (x : A) :
  In x l -> f x <= list_sum (map f l).
Proof.
  induction l as [|y l IH]; intros Hin; [destruct Hin|].
  simpl. destruct Hin as [-> | Hin]; [lia | specialize (IH Hin); lia].
Qed.

(** An individual whose coded field holds the same code in two labels is two
    label assignments to that code's theme. *)
Lemma same_code_twice plan individuals td cc l c :
  In td individuals ->
  withdrawn td = false ->
  In cc (coding_configurations plan) ->
  OrderedDict.get (coded_field cc) td = Some (VLabels [l; l]) ->
  label_code cc l = Some c ->
  is_stop c = false ->
  2 <= individual_hits plan (theme_key cc c) td /\
  individual_hits plan (theme_key cc c) td
  <= theme_assignments plan (theme_key cc c) individuals.
Proof.
  intros Htd Hw Hcc Hfield Hcode Hstop. split.
  - unfold individual_hits. rewrite Hw.
    apply Nat.le_trans with (m := config_hits td (theme_key cc c) cc).
    + unfold config_hits, field_labels. rewrite Hfield. simpl.
      unfold label_hits. rewrite Hcode, Hstop, String.eqb_refl. lia.
    + apply (list_sum_In_le (config_hits td (theme_key cc c))). exact Hcc.
  - unfold theme_assignments.
    apply (list_sum_In_le (individual_hits plan (theme_key cc c))). exact Htd.
Qed.

(** C10: when the pass over an episode returns, the "Total Participants" cell
    of every theme row but the synthetic one holds the number of label
    assignments to that theme: one for every label, of every non-withdrawn
    individual and every configuration of the episode, whose code is not STOP
    and carries the theme's name.  A non-withdrawn individual whose coded
    field holds the same code, not STOP, in two labels alone accounts for two
    of them. *)
Theorem theme_rows_count_label_assignments P plan individuals themes :
  episode_themes P plan individuals = Ok themes ->
  (forall K row,
      K <> TOTAL_RELEVANT ->
      OrderedDict.get K themes = Some row ->
      total_cell row = Some (CInt (theme_assignments plan K individuals))) /\
  (forall td cc l c,
      In td individuals ->
      withdrawn td = false ->
      In cc (coding_configurations plan) ->
      OrderedDict.get (coded_field cc) td = Some (VLabels [l; l]) ->
      label_code cc l = Some c ->
      is_stop c = false ->
      2 <= individual_hits plan (theme_key cc c) td /\
      individual_hits plan (theme_key cc c) td
      <= theme_assignments plan (theme_key cc c) individuals).
Proof.
  intros Hrun. split.
  - intros K row Hne Hget.
    destruct (episode_themes_totals _ _ _ _ Hrun) as [_ Htotals].
    rewrite (Htotals K row Hget), (relevant_hits_other _ _ _ Hne), Nat.add_0_r.
    reflexivity.
  - intros td cc l c. apply same_code_twice.
Qed.

Lemma theme_rows_count_label_assignments_witness :
  exists themes,
    episode_themes pipeline s01e01_plan [faraja] = Ok themes /\
    (exists row, OrderedDict.get "rqa_s01e01_water" themes = Some row /\
                 total_cell row = Some (CInt 2)) /\
    (forall K row,
        K <> TOTAL_RELEVANT ->
        OrderedDict.get K themes = Some row ->
        total_cell row = Some (CInt (theme_assignments s01e01_plan K [faraja]))) /\
    2 <= individual_hits s01e01_plan "rqa_s01e01_water" faraja.
Proof.
  eexists. split; [vm_compute; reflexivity|].
  split; [eexists; split; reflexivity|].
  destruct (theme_rows_count_label_assignments pipeline s01e01_plan [faraja] _ eq_refl)
    as [Hrows Htwice].
  split; [exact Hrows|].
  apply (Htwice faraja s01e01_configuration (Build_Label "code-water")
           (code "code-water" "water" NORMAL None)).
  - simpl. auto.
  - reflexivity.
  - simpl. auto.
  - reflexivity.
  - reflexivity.
  - reflexivity.
Defined.

Lemma label_code_In cc label c :
  label_code cc label = Some c -> In c (codes (code_scheme cc)).
Proof.
  unfold label_code.
  destruct (get_code_with_code_id (code_scheme cc) (CodeID label)) eqn:Hc; [|discriminate].
  intros [= <-]. apply (get_code_with_code_id_In _ _ _ Hc).
Qed.

Lemma theme_assignments_reserved plan individuals :
  (forall cc c, In cc (coding_configurations plan) -> In c (codes (code_scheme cc)) ->
     is_stop c = false -> theme_key cc c <> TOTAL_RELEVANT) ->
  theme_assignments plan TOTAL_RELEVANT individuals = 0.
Proof.
  intros Hfree. unfold theme_assignments.
  induction individuals as [|td individuals IH]; simpl; [reflexivity|].
  rewrite IH, Nat.add_0_r. unfold individual_hits.
  destruct (withdrawn td); [reflexivity|].
  assert (Hccs : forall ccs, incl ccs (coding_configurations plan) ->
            list_sum (map (config_hits td TOTAL_RELEVANT) ccs) = 0).
  { induction ccs as [|cc ccs IHc]; intros Hincl; simpl; [reflexivity|].
    rewrite IHc by (intros x Hx; apply Hincl; right; exact Hx).
    rewrite Nat.add_0_r. unfold config_hits.
    induction (field_labels cc td) as [|label ls IHl]; simpl; [reflexivity|].
    rewrite IHl, Nat.add_0_r. unfold label_hits.
    destruct (label_code cc label) as [c|] eqn:Hc; [|reflexivity].
    destruct (is_stop c) eqn:Hstop; [reflexivity|].
    destruct (String.eqb (theme_key cc c) TOTAL_RELEVANT) eqn:E; [|reflexivity].
    apply String.eqb_eq in E. exfalso.
    apply (Hfree cc c); auto.
    - apply Hincl. left. reflexivity.
    - apply (label_code_In _ _ _ Hc). }
  apply Hccs. apply incl_refl.
Qed.

Lemma relevant_hits_reserved plan individuals :
  list_sum (map (relevant_hits plan TOTAL_RELEVANT) individuals)
  = length (filter (relevant_participant plan) individuals).
Proof.
  induction individuals as [|td individuals IH]; simpl; [reflexivity|].
  rewrite IH. unfold relevant_hits. rewrite String.eqb_refl.
  destruct (relevant_participant plan td); reflexivity.
Qed.

Lemma existsb_pointwise {A : Type} (f g : A -> bool) (l : list A) :
  (forall x, In x l -> f x = g x) -> existsb f l = existsb g l.
Proof.
  induction l as [|x l IH]; intros Hfg; simpl; [reflexivity|].
  rewrite Hfg by (left; reflexivity). rewrite IH; [reflexivity|].
  intros y Hy. apply Hfg. right. exact Hy.
Qed.

Lemma relevant_participant_normal plan td :
  (forall cc, In cc (coding_configurations plan) -> well_formed_scheme (code_scheme cc)) ->
  relevant_participant plan td = has_normal_code plan td.
Proof.
  intros Hwf. unfold relevant_participant, has_normal_code. f_equal.
  assert (Hccs : forall ccs, incl ccs (coding_configurations plan) ->
            existsb (config_relevant td) ccs
            = existsb
                (fun cc =>
                   existsb
                     (fun label =>
                        match label_code cc label with
                        | Some c => is_normal c
                        | None => false
                        end) (field_labels cc td)) ccs).
  { induction ccs as [|cc ccs IH]; intros Hincl; simpl; [reflexivity|].
    rewrite IH by (intros x Hx; apply Hincl; right; exact Hx). f_equal.
    unfold config_relevant. apply existsb_pointwise. intros label _. unfold label_relevant.
    destruct (label_code cc label) as [c|] eqn:Hc; [|reflexivity].
    destruct (is_normal c) eqn:Hn; [|apply andb_false_r].
    rewrite normal_not_stop; [reflexivity | | exact Hn].
    assert (Hs : well_formed_scheme (code_scheme cc)) by (apply Hwf, Hincl; left; reflexivity).
    unfold well_formed_scheme in Hs. rewrite Forall_forall in Hs.
    apply Hs. apply (label_code_In _ _ _ Hc). }
  apply Hccs. apply incl_refl.
Qed.

(** C2: when the pass over an episode returns (no theme of a code being named
    like the synthetic row, and NORMAL codes carrying no control code), the
    "Total Relevant Participants" row exists and its "Total Participants" cell
    holds the number of individuals that did not withdraw and hold at least
    one NORMAL code in the episode's configurations, each counted once. *)
Theorem total_relevant_participants_distinct P plan individuals themes :
  episode_themes P plan individuals = Ok themes ->
  (forall cc c, In cc (coding_configurations plan) -> In c (codes (code_scheme cc)) ->
     is_stop c = false -> theme_key cc c <> TOTAL_RELEVANT) ->
  (forall cc, In cc (coding_configurations plan) -> well_formed_scheme (code_scheme cc)) ->
  exists row,
    OrderedDict.get TOTAL_RELEVANT themes = Some row /\
    total_cell row = Some (CInt (length (filter (has_normal_code plan) individuals))).
Proof.
  intros Hrun Hfree Hwf.
  destruct (episode_themes_totals _ _ _ _ Hrun) as [[row Hrow] Htotals].
  exists row. split; [exact Hrow|].
  rewrite (Htotals _ _ Hrow), (theme_assignments_reserved _ _ Hfree),
    relevant_hits_reserved. simpl. do 2 f_equal.
  f_equal. apply filter_ext. intros td. apply relevant_participant_normal. exact Hwf.
Qed.

Lemma total_relevant_participants_distinct_witness :
  exists themes,
    episode_themes pipeline s01e01_plan population = Ok themes /\
    (exists row,
        OrderedDict.get TOTAL_RELEVANT themes = Some row /\
        total_cell row
        = Some (CInt (length (filter (has_normal_code s01e01_plan) population)))) /\
    length (filter (has_normal_code s01e01_plan) population) = 2 /\
    map (fun K => tp_count K themes) ["rqa_s01e01_water"; "rqa_s01e01_food"; "rqa_s01e01_NC"]
    = [2; 1; 0].
Proof.
  eexists. split; [vm_compute; reflexivity|]. split; [|split; reflexivity].
  apply (total_relevant_participants_distinct pipeline s01e01_plan population).
  - vm_compute. reflexivity.
  - intros cc c [<- | []] Hc _. simpl in Hc.
    destruct Hc as [<- | [<- | [<- | [<- | []]]]]; discriminate.
  - intros cc [<- | []]. repeat constructor; unfold well_formed_code; simpl; congruence.
Defined.

(** *** The episodes of the whole pass *)

Lemma theme_pass_other_key P individuals plans acc episodes k :
  for_each plans
    (fun episode_plan episodes =>
       themes <- episode_themes P episode_plan individuals ;;
       Ok (OrderedDict.set (raw_field episode_plan) themes episodes)) acc = Ok episodes ->
  ~ In k (map raw_field plans) ->
  OrderedDict.get k episodes = OrderedDict.get k acc.
Proof.
  revert acc. induction plans as [|plan plans IH]; intros acc Hrun Hk; simpl in Hrun.
  - injection Hrun as <-. reflexivity.
  - inv_bind_as Hrun acc1 Hacc1. inv_bind_as Hacc1 themes Hthemes. injection Hacc1 as <-.
    simpl in Hk. rewrite (IH _ Hrun) by tauto.
    apply get_set_other. tauto.
Qed.

(** When the theme pass returns, every RQA plan was processed by
    [episode_themes], and its themes are stored under the plan's raw field
    (raw fields being unique). *)
Lemma theme_pass_episodes P individuals episodes :
  theme_pass P individuals = Ok episodes ->
  forall plan, In plan (RQA_CODING_PLANS P) ->
    exists themes,
      episode_themes P plan individuals = Ok themes /\
      (NoDup (map raw_field (RQA_CODING_PLANS P)) ->
       OrderedDict.get (raw_field plan) episodes = Some themes).
Proof.
  unfold theme_pass. generalize (@OrderedDict.empty string Themes).
  induction (RQA_CODING_PLANS P) as [|p plans IH]; intros acc Hrun plan Hplan;
    [destruct Hplan|].
  simpl in Hrun. inv_bind_as Hrun acc1 Hacc1. inv_bind_as Hacc1 themes Hthemes.
  injection Hacc1 as <-. destruct Hplan as [-> | Hplan].
  - exists themes. split; [exact Hthemes|]. intros Hnd. simpl in Hnd.
    inversion Hnd as [|? ? Hnotin _]; subst.
    rewrite (theme_pass_other_key _ _ _ _ _ _ Hrun Hnotin). apply get_set_same.
  - destruct (IH _ Hrun plan Hplan) as (themes' & Hthemes' & Hget).
    exists themes'. split; [exact Hthemes'|]. intros Hnd. apply Hget.
    simpl in Hnd. inversion Hnd. assumption.
Qed.

(** *** Coding modes *)

Lemma init_themes_mode_raises P plan cc :
  In cc (coding_configurations plan) ->
  coding_mode cc <> MULTIPLE ->
  raises (init_themes P plan).
Proof.
  intros Hcc Hmode. unfold init_themes.
  apply for_each_raises with (I := fun _ => True) (x := cc); auto.
  intros s _. unfold init_themes_configuration.
  destruct (coding_mode cc); [|contradiction]. simpl. eexists. reflexivity.
Qed.

Lemma theme_pass_mode_raises P individuals plan cc :
  In plan (RQA_CODING_PLANS P) ->
  In cc (coding_configurations plan) ->
  coding_mode cc <> MULTIPLE ->
  raises (theme_pass P individuals).
Proof.
  intros Hplan Hcc Hmode. unfold theme_pass.
  apply for_each_raises with (I := fun _ => True) (x := plan); auto.
  intros episodes _. apply raises_bind_l.
  unfold episode_themes. apply raises_bind_l.
  unfold episode_theme_counts. apply raises_bind_l.
  apply (init_themes_mode_raises P plan cc Hcc Hmode).
Qed.

(** Where the coding mode is checked.  For a configuration of an RQA plan
    that is not multi-select, the preparation of the episode's rows fails its
    assertion and the theme pass raises, whatever the individuals are; for a
    multi-select configuration of a DEMOG plan with an analysis key, the
    tally of an individual fails its assertion, and the demographic pass
    raises as soon as one individual has not withdrawn consent. *)
Lemma unsupported_coding_mode_raises P individuals :
  (forall plan cc,
      In plan (RQA_CODING_PLANS P) ->
      In cc (coding_configurations plan) ->
      coding_mode cc <> MULTIPLE ->
      (forall themes, init_themes_configuration P cc themes = Raise AssertionError) /\
      raises (theme_pass P individuals)) /\
  (forall cc key,
      In cc (demog_configurations P) ->
      analysis_file_key cc = Some key ->
      coding_mode cc = MULTIPLE ->
      (forall ind st, count_demographic ind cc st = Raise AssertionError) /\
      (forall ind, In ind individuals -> withdrawn ind = false ->
         raises (demographic_pass P individuals))).
Proof.
  split.
  - intros plan cc Hplan Hcc Hmode. split.
    + intros themes. unfold init_themes_configuration.
      destruct (coding_mode cc); [reflexivity | contradiction].
    + apply (theme_pass_mode_raises P individuals plan cc); assumption.
  - intros cc key Hcc Hkey Hmode. split.
    + intros ind st. unfold count_demographic. rewrite Hkey, Hmode. reflexivity.
    + intros ind Hind Hw.
      apply (demographic_pass_multiple_raises P individuals ind cc key); assumption.
Qed.



(** ** Percentages and zero denominators *)

(** The guarded division of the theme pass: on two integer cells it never
    raises, and writes the "-" marker exactly when the total is 0. *)
Lemma set_percentage_int aliased total count_key pct_key sc count t :
  OrderedDict.get count_key sc = Some (CInt count) ->
  OrderedDict.get count_key (totals_seen aliased sc total) = Some (CInt t) ->
  set_percentage aliased total count_key pct_key sc
  = Ok (OrderedDict.set pct_key
          (if Nat.eqb t 0 then CStr "-" else CFloat (percentage count t)) sc).
Proof.
  intros Hcount Htotal. unfold set_percentage, OrderedDict.getitem.
  rewrite Hcount, Htotal. simpl. destruct (Nat.eqb t 0) eqn:E; [reflexivity|].
  unfold int_percentage. rewrite E. reflexivity.
Qed.

(** The unguarded division of the repeat-participation pass. *)
Lemma set_repeat_percentages_zero rp :
  rp <> [] -> set_repeat_percentages 0 rp = Raise ZeroDivisionError.
Proof.
  destruct rp as [|[i row] rest]; [congruence|]. reflexivity.
Qed.

Lemma set_repeat_percentages_Ok total rp rp' :
  set_repeat_percentages total rp = Ok rp' ->
  Forall2 (fun old new =>
             fst new = fst old /\
             Number_of_Individuals (snd new) = Number_of_Individuals (snd old) /\
             total <> 0 /\
             Pct_of_Individuals (snd new)
             = CFloat (percentage (Number_of_Individuals (snd old)) total)) rp rp'.
Proof.
  revert rp'. induction rp as [|[i row] rest IH]; intros rp' Hrun; simpl in Hrun.
  - injection Hrun as <-. constructor.
  - inv_bind_as Hrun pct Hpct. inv_bind_as Hrun rest' Hrest. injection Hrun as <-.
    apply int_percentage_Ok in Hpct. destruct Hpct as [Hnz ->].
    constructor; [simpl; auto | apply IH; exact Hrest].
Qed.

Lemma count_flag_opted_in individuals :
  (forall ind, In ind individuals -> OrderedDict.get "consent_withdrawn" ind <> None) ->
  count_flag "consent_withdrawn" Codes.FALSE individuals
  = Ok (length (filter opted_in individuals)).
Proof.
  induction individuals as [|ind individuals IH]; intros Hflags; simpl; [reflexivity|].
  rewrite IH by (intros x Hx; apply Hflags; right; exact Hx).
  specialize (Hflags ind (or_introl eq_refl)).
  unfold opted_in, OrderedDict.getitem.
  destruct (OrderedDict.get "consent_withdrawn" ind) as [flag|]; [|congruence].
  simpl. destruct (value_eq_str flag Codes.FALSE); reflexivity.
Qed.

(** With at least one RQA plan and no opted-in individual, the
    repeat-participation pass cannot return: when its counting loop returns,
    the percentages divide by zero. *)
Lemma repeat_participations_no_opted_in P individuals rp :
  RQA_CODING_PLANS P <> [] ->
  repeat_participation_counts P individuals = Ok rp ->
  filter opted_in individuals = [] ->
  repeat_participations P individuals = Raise ZeroDivisionError.
Proof.
  intros Hplans Hcounts Hnone. unfold repeat_participations. rewrite Hcounts. simpl.
  rewrite count_flag_opted_in.
  - rewrite Hnone. simpl. rewrite set_repeat_percentages_zero; [reflexivity|].
    assert (Hinit : buckets_of P [] (init_repeat_participations P)).
    { split; [apply init_repeat_participations_keys|].
      intros i row Hget. apply init_repeat_participations_get in Hget. subst. reflexivity. }
    destruct (repeat_participation_loop _ _ _ _ _ Hinit Hcounts) as [[Hkeys _] _].
    intros ->. simpl in Hkeys.
    destruct (RQA_CODING_PLANS P); [congruence | discriminate].
  - intros ind Hind.
    destruct (for_each_Ok_In _ _ _ _ ind Hcounts Hind) as (s1 & s2 & Hstep).
    unfold count_participation in Hstep. inv_bind_as Hstep flag Hflag.
    apply getitem_Ok in Hflag. congruence.
Qed.

(** The unguarded division of the demographic export. *)
Lemma demographic_row_zero_total st key i c counts n :
  is_stop c = false ->
  is_normal c = true ->
  OrderedDict.get key (demographic_distributions st) = Some counts ->
  OrderedDict.get (code_id c) counts = Some n ->
  OrderedDict.get key (total_relevant st) = Some 0 ->
  demographic_row st key i c = Raise ZeroDivisionError.
Proof.
  intros Hstop Hnormal Hcounts Hn Ht. unfold demographic_row, OrderedDict.getitem.
  rewrite Hstop, Hcounts. simpl. rewrite Hn. simpl. rewrite Hnormal, Ht. reflexivity.
Qed.

(** C1: the zero denominator is caught by [set_survey_percentages] only.  The
    theme pass writes "-" in the percentage cells of an episode nobody is
    relevant to; the repeat-participation pass divides by the number of
    opted-in individuals and the demographic export by the number of relevant
    ones, and both raise [ZeroDivisionError] when that number is 0. *)
Theorem zero_denominator_percentages :
  (exists themes row,
      episode_themes pipeline s01e01_plan [chausiku] = Ok themes /\
      OrderedDict.get TOTAL_RELEVANT themes = Some row /\
      OrderedDict.get "Total Participants %" row = Some (CStr "-") /\
      OrderedDict.get "gender:male %" row = Some (CStr "-")) /\
  repeat_participations pipeline [chausiku] = Raise ZeroDivisionError /\
  demographic_distributions_csv pipeline [gasira] = Raise ZeroDivisionError.
Proof.
  split; [|split].
  - do 2 eexists. split; [vm_compute; reflexivity|]. repeat split; reflexivity.
  - vm_compute. reflexivity.
  - vm_compute. reflexivity.
Qed.

(** ** Sample messages *)

Lemma collect_label_get plan cc msg label d d' sv :
  collect_label plan cc msg label d = Ok d' ->
  OrderedDict.get sv d'
  = option_map (fun l => l ++ label_responses plan cc sv msg label) (OrderedDict.get sv d).
Proof.
  unfold collect_label. intros Hrun.
  inv_bind_as Hrun c Hc. inv_bind_as Hrun l0 Hl0. inv_bind_as Hrun raw Hraw.
  injection Hrun as <-. apply getitem_Ok in Hl0, Hraw.
  unfold label_responses, label_code. rewrite Hc, Hraw.
  destruct (String.eqb (string_value c) sv) eqn:E.
  - apply String.eqb_eq in E. subst sv. rewrite get_set_same, Hl0. reflexivity.
  - apply String.eqb_neq in E. rewrite get_set_other by exact E.
    destruct (OrderedDict.get sv d); simpl; [rewrite app_nil_r|]; reflexivity.
Qed.

Lemma collect_labels_get plan cc msg labels d d' sv :
  for_each labels (collect_label plan cc msg) d = Ok d' ->
  OrderedDict.get sv d'
  = option_map (fun l => l ++ flat_map (label_responses plan cc sv msg) labels)
      (OrderedDict.get sv d).
Proof.
  revert d. induction labels as [|label labels IH]; intros d Hrun; simpl in Hrun.
  - injection Hrun as <-. simpl.
    destruct (OrderedDict.get sv d); simpl; [rewrite app_nil_r|]; reflexivity.
  - inv_bind_as Hrun d1 Hd1. rewrite (IH _ Hrun), (collect_label_get _ _ _ _ _ _ sv Hd1).
    destruct (OrderedDict.get sv d); simpl; [rewrite <- app_assoc|]; reflexivity.
Qed.

Lemma collect_message_get U plan cc msg d d' sv :
  collect_message U plan cc msg d = Ok d' ->
  OrderedDict.get sv d'
  = option_map (fun l => l ++ responses_of U plan cc sv msg) (OrderedDict.get sv d).
Proof.
  unfold collect_message, responses_of. intros Hrun. inv_bind_as Hrun opted Hopted.
  rewrite Hopted. destruct opted; simpl in Hrun.
  - inv_bind_as Hrun v Hv. inv_bind_as Hrun labels Hlabels. apply getitem_Ok in Hv.
    unfold field_labels. rewrite Hv, Hlabels.
    apply (collect_labels_get _ _ _ _ _ _ sv Hrun).
  - injection Hrun as <-.
    destruct (OrderedDict.get sv d); simpl; [rewrite app_nil_r|]; reflexivity.
Qed.

Lemma collect_loop_get U plan cc messages d d' sv :
  for_each messages (collect_message U plan cc) d = Ok d' ->
  OrderedDict.get sv d'
  = option_map (fun l => l ++ pool U plan cc messages sv) (OrderedDict.get sv d).
Proof.
  unfold pool. revert d. induction messages as [|msg messages IH]; intros d Hrun;
    simpl in Hrun.
  - injection Hrun as <-. simpl.
    destruct (OrderedDict.get sv d); simpl; [rewrite app_nil_r|]; reflexivity.
  - inv_bind_as Hrun d1 Hd1. rewrite (IH _ Hrun), (collect_message_get _ _ _ _ _ _ sv Hd1).
    simpl. destruct (OrderedDict.get sv d); simpl; [rewrite <- app_assoc|]; reflexivity.
Qed.

Lemma collect_loop_NoDup U plan cc messages d d' :
  NoDup (OrderedDict.keys d) ->
  for_each messages (collect_message U plan cc) d = Ok d' ->
  NoDup (OrderedDict.keys d').
Proof.
  intros Hnd. apply (for_each_invariant (fun s => NoDup (OrderedDict.keys s))); [|exact Hnd].
  intros msg s s' _ Hs. unfold collect_message. intros Hrun.
  inv_bind_as Hrun opted Hopted. destruct (negb opted); [injection Hrun as <-; exact Hs|].
  inv_bind_as Hrun v Hv. inv_bind_as Hrun labels Hlabels. revert Hrun.
  apply (for_each_invariant (fun s => NoDup (OrderedDict.keys s))); [|exact Hs].
  intros label t t' _ Ht. unfold collect_label. intros Hrun.
  inv_bind_as Hrun c Hc. inv_bind_as Hrun l0 Hl0. inv_bind_as Hrun raw Hraw.
  injection Hrun as <-. apply NoDup_keys_set. exact Ht.
Qed.

Lemma init_code_to_messages_spec scheme :
  NoDup (OrderedDict.keys (init_code_to_messages scheme)) /\
  (forall sv l, OrderedDict.get sv (init_code_to_messages scheme) = Some l -> l = []) /\
  (forall c, In c (codes scheme) ->
     OrderedDict.get (string_value c) (init_code_to_messages scheme) <> None).
Proof.
  unfold init_code_to_messages.
  assert (Hacc : forall cs (d : dict string (list value)),
            NoDup (OrderedDict.keys d) ->
            (forall sv l, OrderedDict.get sv d = Some l -> l = []) ->
            let d' := fold_left (fun d code => OrderedDict.set (string_value code) [] d) cs d in
            NoDup (OrderedDict.keys d') /\
            (forall sv l, OrderedDict.get sv d' = Some l -> l = []) /\
            (forall sv, OrderedDict.get sv d <> None \/ In sv (map string_value cs) ->
                        OrderedDict.get sv d' <> None)).
  { induction cs as [|c cs IH]; intros d Hnd Hempty; simpl.
    - split; [exact Hnd|]. split; [exact Hempty|]. intros sv [Hsv | []]. exact Hsv.
    - destruct (IH (OrderedDict.set (string_value c) [] d)) as (Hnd' & Hempty' & Hin').
      + apply NoDup_keys_set. exact Hnd.
      + intros sv l. destruct (string_dec (string_value c) sv) as [<- | Hne].
        * rewrite get_set_same. congruence.
        * rewrite get_set_other by exact Hne. apply Hempty.
      + split; [exact Hnd'|]. split; [exact Hempty'|].
        intros sv Hsv. apply Hin'.
        destruct (string_dec (string_value c) sv) as [<- | Hne].
        * left. rewrite get_set_same. discriminate.
        * rewrite get_set_other by exact Hne.
          destruct Hsv as [Hsv | [Hsv | Hsv]]; [left; exact Hsv | contradiction | right; exact Hsv]. }
  destruct (Hacc (codes scheme) OrderedDict.empty) as (Hnd & Hempty & Hin).
  - constructor.
  - intros sv l Hget. discriminate.
  - split; [exact Hnd|]. split; [exact Hempty|].
    intros c Hc. apply Hin. right. apply in_map. exact Hc.
Qed.

Lemma rows_with_app sv rows rows' :
  rows_with sv (rows ++ rows') = rows_with sv rows + rows_with sv rows'.
Proof.
  unfold rows_with. rewrite filter_app, length_app. reflexivity.
Qed.

Lemma sample_code_spec R plan cc entry st :
  exists block g',
    sample_code R plan cc entry st = Ok (fst st ++ block, g') /\
    Forall (sampled_for plan cc) block /\
    forall sv, rows_with sv block = entry_size sv entry.
Proof.
  unfold sample_code, random_sample, entry_size.
  assert (Hle : Nat.min 100 (length (snd entry)) <= length (snd entry))
    by apply Nat.le_min_r.
  remember (Nat.min 100 (length (snd entry))) as k eqn:Hk. clear Hk.
  apply Nat.leb_le in Hle as Hleb. rewrite Hleb.
  pose proof (draw_length R (snd st) (snd entry) Hle) as Hlen.
  destruct (draw R (snd st) (snd entry) k) as [drawn g'].
  cbn [bind fst snd] in *.
  exists (map (fun msg => {| sample_Episode := dataset_name plan;
                             sample_Code_Scheme := name (code_scheme cc);
                             sample_Code := fst entry;
                             sample_Message := msg |}) drawn), g'.
  split; [reflexivity|]. split.
  - apply Forall_forall. intros r Hr. apply in_map_iff in Hr.
    destruct Hr as (msg & <- & _). split; reflexivity.
  - intros sv. unfold rows_with. rewrite <- Hlen. clear Hlen.
    induction drawn as [|msg drawn IH]; cbn [map filter length sample_Code].
    + destruct (String.eqb (fst entry) sv); reflexivity.
    + destruct (String.eqb (fst entry) sv); cbn [length]; rewrite IH; reflexivity.
Qed.

Lemma sample_loop_spec R plan cc (d : dict string (list value)) st :
  exists block g',
    for_each d (sample_code R plan cc) st = Ok (fst st ++ block, g') /\
    Forall (sampled_for plan cc) block /\
    forall sv, rows_with sv block = list_sum (map (entry_size sv) d).
Proof.
  revert st. induction d as [|entry d IH]; intros st; simpl.
  - exists [], (snd st). rewrite app_nil_r. destruct st. simpl.
    split; [reflexivity|]. split; [constructor | reflexivity].
  - destruct (sample_code_spec R plan cc entry st) as (b1 & g1 & Hrun1 & Hall1 & Hsize1).
    rewrite Hrun1. simpl.
    destruct (IH (fst st ++ b1, g1)) as (b2 & g2 & Hrun2 & Hall2 & Hsize2).
    simpl in Hrun2. exists (b1 ++ b2), g2. rewrite app_assoc.
    split; [exact Hrun2|]. split; [apply Forall_app; auto|].
    intros sv. rewrite rows_with_app, Hsize1, Hsize2. reflexivity.
Qed.

Lemma entry_size_unique sv l (d : dict string (list value)) :
  NoDup (OrderedDict.keys d) ->
  OrderedDict.get sv d = Some l ->
  list_sum (map (entry_size sv) d) = Nat.min 100 (length l).
Proof.
  unfold OrderedDict.keys.
  induction d as [|[k v] d IH]; simpl; intros Hnd Hget; [discriminate|].
  inversion Hnd as [|? ? Hnotin Hnd']; subst. unfold entry_size at 1. simpl.
  destruct (String.eqb sv k) eqn:E.
  - apply String.eqb_eq in E. subst k. injection Hget as <-.
    rewrite String.eqb_refl.
    assert (Hrest : list_sum (map (entry_size sv) d) = 0).
    { clear IH Hnd Hnd'. induction d as [|[k v'] d IHd]; simpl; [reflexivity|].
      simpl in Hnotin. rewrite IHd by tauto.
      unfold entry_size. simpl. destruct (String.eqb k sv) eqn:E; [|reflexivity].
      apply String.eqb_eq in E. tauto. }
    rewrite Hrest. lia.
  - rewrite String.eqb_sym, E. simpl. apply IH; assumption.
Qed.

(** The rows one configuration of one RQA plan adds to the samples. *)
Lemma sample_configuration_sizes U R messages plan cc st st' :
  sample_configuration U R messages plan cc st = Ok st' ->
  exists block, fst st' = fst st ++ block /\ sample_block U messages block (plan, cc).
Proof.
  unfold sample_configuration, collect_messages. intros Hrun.
  inv_bind_as Hrun d Hd.
  destruct (sample_loop_spec R plan cc d st) as (block & g' & Hloop & Hall & Hsize).
  rewrite Hloop in Hrun. injection Hrun as <-. exists block.
  split; [reflexivity|]. split; [exact Hall|].
  intros c Hc. simpl in *. rewrite Hsize.
  destruct (init_code_to_messages_spec (code_scheme cc)) as (Hnd & Hempty & Hkeys).
  pose proof (collect_loop_get _ _ _ _ _ _ (string_value c) Hd) as Hget.
  specialize (Hkeys c Hc).
  destruct (OrderedDict.get (string_value c) (init_code_to_messages (code_scheme cc)))
    as [l0|] eqn:Hinit; [|congruence].
  apply Hempty in Hinit. subst l0. simpl in Hget.
  apply entry_size_unique; [|exact Hget].
  apply (collect_loop_NoDup _ _ _ _ _ _ Hnd Hd).
Qed.

Lemma for_each_pairs {A B S : Type} (g : A -> list B) (body : A -> B -> S -> result S)
  (xs : list A) (s : S) :
  for_each xs (fun x st => for_each (g x) (body x) st) s
  = for_each (flat_map (fun x => map (pair x) (g x)) xs)
      (fun p => body (fst p) (snd p)) s.
Proof.
  revert s. induction xs as [|x xs IH]; intros s; simpl; [reflexivity|].
  rewrite for_each_app.
  assert (Hinner : forall ys t,
            for_each (map (pair x) ys) (fun p => body (fst p) (snd p)) t
            = for_each ys (body x) t).
  { induction ys as [|y ys IHy]; intros t; simpl; [reflexivity|].
    destruct (body x y t); simpl; [apply IHy | reflexivity]. }
  rewrite Hinner. destruct (for_each (g x) (body x) s); simpl; [apply IH | reflexivity].
Qed.

Lemma sample_blocks U R messages pairs st st' :
  for_each pairs (fun pc => sample_configuration U R messages (fst pc) (snd pc)) st = Ok st' ->
  exists blocks,
    fst st' = fst st ++ concat blocks /\ Forall2 (sample_block U messages) blocks pairs.
Proof.
  revert st. induction pairs as [|[plan cc] pairs IH]; intros st Hrun; simpl in Hrun.
  - injection Hrun as <-. exists []. simpl. rewrite app_nil_r. split; [reflexivity|constructor].
  - inv_bind_as Hrun st1 Hst1.
    destruct (sample_configuration_sizes _ _ _ _ _ _ _ Hst1) as (block & Hblock & Hspec).
    destruct (IH _ Hrun) as (blocks & Hblocks & Hall).
    exists (block :: blocks). simpl. rewrite Hblocks, Hblock, app_assoc.
    split; [reflexivity|]. constructor; assumption.
Qed.

(** C8: the rows of the sample export are the concatenation of one block per
    RQA plan and configuration, in loop order, and the block of a plan and
    configuration holds, for every code of the scheme, exactly
    min(100, size of the pool) rows carrying that code's string value, the
    pool being the raw responses of the plan's opt-in messages, one for every
    label assigned a code with that string value. *)
Theorem sample_sizes U R P messages g rows g' :
  sample_messages U R P messages g = Ok (rows, g') ->
  exists blocks,
    rows = concat blocks /\
    Forall2 (sample_block U messages) blocks (rqa_configurations P).
Proof.
  unfold sample_messages. rewrite for_each_pairs. intros Hrun.
  destruct (sample_blocks _ _ _ _ _ _ Hrun) as (blocks & Hrows & Hall).
  exists blocks. split; [exact Hrows | exact Hall].
Qed.

Lemma sample_sizes_witness :
  length (pool simple_utils s01e01_plan s01e01_configuration s01e01_messages "water") = 5 /\
  length (pool simple_utils s01e01_plan s01e01_configuration s01e01_messages "food") = 150 /\
  exists rows,
    sample_messages simple_utils first_k pipeline s01e01_messages tt = Ok (rows, tt) /\
    map (fun sv => rows_with sv rows) ["water"; "food"; "NC"; "STOP"; "school"]
    = [5; 100; 0; 0; 0] /\
    exists blocks,
      rows = concat blocks /\
      Forall2 (sample_block simple_utils s01e01_messages) blocks
        (rqa_configurations pipeline).
Proof.
  split; [vm_compute; reflexivity|]. split; [vm_compute; reflexivity|].
  eexists. split; [vm_compute; reflexivity|]. split; [vm_compute; reflexivity|].
  apply (sample_sizes simple_utils first_k pipeline s01e01_messages tt _ tt).
  vm_compute. reflexivity.
Defined.

(* ================================================================= *)
(** * Contact lists *)

(** ** Sets *)

Lemma PySet_contains_In x s : PySet.contains x s = true <-> In x s.
Proof.
  unfold PySet.contains. rewrite existsb_exists. split.
  - intros (y & Hy & E). apply String.eqb_eq in E. subst y. exact Hy.
  - intros Hx. exists x. split; [exact Hx | apply String.eqb_refl].
Qed.

Lemma PySet_contains_false x s : PySet.contains x s = false <-> ~ In x s.
Proof.
  rewrite <- PySet_contains_In. destruct (PySet.contains x s); split; intros H.
  - discriminate.
  - exfalso. apply H. reflexivity.
  - discriminate.
  - reflexivity.
Qed.

Lemma NoDup_snoc {A : Type} (l : list A) (x : A) : NoDup l -> ~ In x l -> NoDup (l ++ [x]).
Proof.
  induction l as [|a l IH]; simpl; intros Hnd Hx.
  - constructor; [intros [] | constructor].
  - inversion Hnd as [|? ? Ha Hl]; subst. constructor.
    + rewrite in_app_iff. simpl. intros [H | [H | []]].
      * exact (Ha H).
      * apply Hx. left. symmetry. exact H.
    + apply IH; [exact Hl|]. intros H. apply Hx. right. exact H.
Qed.

Lemma PySet_add_In x y s : In y (PySet.add x s) <-> y = x \/ In y s.
Proof.
  unfold PySet.add. destruct (PySet.contains x s) eqn:E.
  - apply PySet_contains_In in E. split; [auto|]. intros [-> | Hy]; assumption.
  - rewrite in_app_iff. simpl. split.
    + intros [Hy | [<- | []]]; auto.
    + intros [-> | Hy]; auto.
Qed.

Lemma PySet_add_NoDup x s : NoDup s -> NoDup (PySet.add x s).
Proof.
  unfold PySet.add. destruct (PySet.contains x s) eqn:E; intros Hnd; [exact Hnd|].
  apply NoDup_snoc; [exact Hnd | apply PySet_contains_false; exact E].
Qed.

Lemma PySet_add_new x s : ~ In x s -> PySet.add x s = s ++ [x].
Proof.
  intros Hx. apply PySet_contains_false in Hx. unfold PySet.add. rewrite Hx. reflexivity.
Qed.

Lemma PySet_add_length x s : length (PySet.add x s) <= S (length s).
Proof.
  unfold PySet.add. destruct (PySet.contains x s); [lia|].
  rewrite length_app. simpl. lia.
Qed.

Lemma PySet_remove_In x y s : In y (PySet.remove x s) <-> In y s /\ y <> x.
Proof.
  unfold PySet.remove. rewrite filter_In. split; intros [Hy H]; split; auto.
  - intros ->. rewrite String.eqb_refl in H. discriminate.
  - apply Bool.negb_true_iff. apply String.eqb_neq. exact H.
Qed.

Lemma PySet_remove_NoDup x s : NoDup s -> NoDup (PySet.remove x s).
Proof. apply NoDup_filter. Qed.

Lemma filter_keeps_all {A : Type} (f : A -> bool) (l : list A) :
  (forall x, In x l -> f x = true) -> filter f l = l.
Proof.
  induction l as [|a l IH]; simpl; intros H; [reflexivity|].
  rewrite (H a (or_introl eq_refl)). f_equal. apply IH. intros x Hx. apply H. right. exact Hx.
Qed.

Lemma PySet_remove_length x s :
  NoDup s -> In x s -> S (length (PySet.remove x s)) = length s.
Proof.
  unfold PySet.remove. induction s as [|a s IH]; simpl; intros Hnd Hx; [contradiction|].
  inversion Hnd as [|? ? Ha Hs]; subst.
  destruct (String.eqb a x) eqn:E; simpl.
  - apply String.eqb_eq in E. subst a. f_equal. f_equal. apply filter_keeps_all.
    intros y Hy. apply Bool.negb_true_iff. apply String.eqb_neq. intros ->. exact (Ha Hy).
  - destruct Hx as [-> | Hx]; [rewrite String.eqb_refl in E; discriminate|].
    f_equal. apply IH; assumption.
Qed.

Lemma filter_split_length {A : Type} (f : A -> bool) (l : list A) :
  length (filter f l) + length (filter (fun x => negb (f x)) l) = length l.
Proof.
  induction l as [|a l IH]; simpl; [reflexivity|].
  destruct (f a); simpl; lia.
Qed.

Lemma NoDup_same_length {A : Type} (l l' : list A) :
  NoDup l -> NoDup l' -> (forall x, In x l <-> In x l') -> length l = length l'.
Proof.
  intros Hl Hl' H. apply Nat.le_antisymm; apply NoDup_incl_length; try assumption;
    intros x Hx; apply H; exact Hx.
Qed.

(** ** The weekly advertisement contacts *)

Lemma withdrawn_flag td flag :
  OrderedDict.get "consent_withdrawn" td = Some flag ->
  withdrawn td = value_eq_str flag Codes.TRUE.
Proof. unfold withdrawn. intros ->. reflexivity. Qed.

Lemma add_opted_in_uuid_spec td s s' :
  add_opted_in_uuid td s = Ok s' ->
  (NoDup s -> NoDup s') /\
  forall u, In u s' <-> In u s \/ (withdrawn td = false /\ uid_of td = Some u).
Proof.
  unfold add_opted_in_uuid. intros H. inv_bind_as H flag Hflag.
  apply getitem_Ok in Hflag. rewrite (withdrawn_flag _ _ Hflag).
  destruct (value_eq_str flag Codes.TRUE).
  - injection H as <-. split; [auto|]. intros u. split; [auto|].
    intros [Hu | [Hw _]]; [exact Hu | discriminate].
  - inv_bind_as H v Hv. inv_bind_as H uid Huid. injection H as <-.
    apply getitem_Ok in Hv. destruct v as [x | l | ls]; simpl in Huid; try discriminate.
    injection Huid as ->. unfold uid_of. rewrite Hv.
    split; [apply PySet_add_NoDup|].
    intros u. rewrite PySet_add_In. split.
    + intros [-> | Hu]; [right; split; reflexivity | left; exact Hu].
    + intros [Hu | [_ E]]; [right; exact Hu | left; congruence].
Qed.

Lemma load_file_spec data s s' :
  for_each data add_opted_in_uuid s = Ok s' ->
  (NoDup s -> NoDup s') /\
  forall u, In u s' <->
    In u s \/ exists td, In td data /\ withdrawn td = false /\ uid_of td = Some u.
Proof.
  revert s. induction data as [|td data IH]; simpl; intros s H.
  - injection H as <-. split; [auto|]. intros u. split; [auto|].
    intros [Hu | (td & [] & _)]; exact Hu.
  - inv_bind_as H s1 Hs1. destruct (add_opted_in_uuid_spec _ _ _ Hs1) as [Hnd1 Hin1].
    destruct (IH _ H) as [Hnd Hin]. split; [auto|].
    intros u. rewrite Hin, Hin1. split.
    + intros [[Hu | Htd] | (td' & Htd' & Hrest)];
        [left; exact Hu | right; exists td; auto | right; exists td'; auto].
    + intros [Hu | (td' & [<- | Htd'] & Hrest)];
        [left; left; exact Hu | left; right; exact Hrest | right; exists td'; auto].
Qed.

Lemma load_files_spec files s s' :
  for_each files (fun data uuids => for_each data add_opted_in_uuid uuids) s = Ok s' ->
  (NoDup s -> NoDup s') /\
  forall u, In u s' <-> In u s \/ opted_in_contact files u.
Proof.
  unfold opted_in_contact. revert s. induction files as [|data files IH]; simpl; intros s H.
  - injection H as <-. split; [auto|]. intros u. split; [auto|].
    intros [Hu | (data & td & [] & _)]; exact Hu.
  - inv_bind_as H s1 Hs1. destruct (load_file_spec _ _ _ Hs1) as [Hnd1 Hin1].
    destruct (IH _ H) as [Hnd Hin]. split; [auto|].
    intros u. rewrite Hin, Hin1. split.
    + intros [[Hu | (td & Htd & Hrest)] | (data' & td & Hdata & Hrest)].
      * left. exact Hu.
      * right. exists data, td. auto.
      * right. exists data', td. auto.
    + intros [Hu | (data' & td & [<- | Hdata] & Htd & Hrest)].
      * left. left. exact Hu.
      * left. right. exists td. auto.
      * right. exists data', td. auto.
Qed.

Lemma load_uuids_spec files loaded :
  load_uuids files = Ok loaded ->
  NoDup loaded /\ forall u, In u loaded <-> opted_in_contact files u.
Proof.
  unfold load_uuids. intros H. destruct (load_files_spec _ _ _ H) as [Hnd Hin].
  split; [apply Hnd; constructor|].
  intros u. rewrite Hin. simpl. tauto.
Qed.

Lemma exclude_uuid_spec x (st : nat * PySet.t) :
  NoDup (snd st) ->
  NoDup (snd (exclude_uuid x st)) /\
  (forall u, In u (snd (exclude_uuid x st)) <-> In u (snd st) /\ u <> x) /\
  fst (exclude_uuid x st) + length (snd (exclude_uuid x st)) = fst st + length (snd st).
Proof.
  destruct st as [n s]. simpl. intros Hnd. unfold exclude_uuid. simpl.
  destruct (PySet.contains x s) eqn:E; simpl.
  - apply PySet_contains_In in E. split; [apply PySet_remove_NoDup; exact Hnd|].
    split; [intros u; apply PySet_remove_In|].
    pose proof (PySet_remove_length x s Hnd E). lia.
  - apply PySet_contains_false in E. split; [exact Hnd|]. split; [|reflexivity].
    intros u. split; [|intros [Hu _]; exact Hu].
    intros Hu. split; [exact Hu|]. intros ->. exact (E Hu).
Qed.

Lemma remove_exclusions_fold excl (st : nat * PySet.t) :
  NoDup (snd st) ->
  NoDup (snd (fold_left (fun st uuid => exclude_uuid uuid st) excl st)) /\
  (forall u, In u (snd (fold_left (fun st uuid => exclude_uuid uuid st) excl st)) <->
             In u (snd st) /\ ~ In u excl) /\
  fst (fold_left (fun st uuid => exclude_uuid uuid st) excl st)
  + length (snd (fold_left (fun st uuid => exclude_uuid uuid st) excl st))
  = fst st + length (snd st).
Proof.
  revert st. induction excl as [|x excl IH]; simpl; intros st Hnd.
  - split; [exact Hnd|]. split; [|reflexivity]. intros u. tauto.
  - destruct (exclude_uuid_spec x st Hnd) as (Hnd1 & Hin1 & Hlen1).
    destruct (IH _ Hnd1) as (Hnd' & Hin' & Hlen'). split; [exact Hnd'|].
    split; [|rewrite Hlen'; exact Hlen1].
    intros u. rewrite Hin', Hin1. split.
    + intros [[Hu Hne] Hni]. split; [exact Hu|].
      intros [E | Hi]; [apply Hne; symmetry; exact E | exact (Hni Hi)].
    + intros [Hu Hni]. split; [split; [exact Hu|] |].
      * intros ->. apply Hni. left. reflexivity.
      * intros Hi. apply Hni. right. exact Hi.
Qed.

(** X1: the exclusion step of [export_weekly_ad_contacts.py] leaves exactly
    the loaded uuids that are not on the exclusion list; the number it
    reports as removed and the number that remain add up to the number
    loaded, and an entry that occurs twice on the list, or that was never
    loaded, is not counted. *)
Theorem exclusion_list_removed files excl loaded removed remaining :
  load_uuids files = Ok loaded ->
  remove_exclusions excl loaded = (removed, remaining) ->
  (forall u, In u remaining <-> In u loaded /\ ~ In u excl) /\
  NoDup remaining /\
  removed + length remaining = length loaded /\
  removed = length (filter (fun u => PySet.contains u excl) loaded).
Proof.
  intros Hload Hrun. destruct (load_uuids_spec _ _ Hload) as [Hnd _].
  unfold remove_exclusions in Hrun.
  destruct (remove_exclusions_fold excl (0, loaded) Hnd) as (Hnd' & Hin & Hlen).
  rewrite Hrun in Hnd', Hin, Hlen. simpl in Hnd', Hin, Hlen.
  split; [exact Hin|]. split; [exact Hnd'|]. split; [exact Hlen|].
  pose proof (filter_split_length (fun u => PySet.contains u excl) loaded) as Hsplit.
  assert (Hsame : length remaining
                  = length (filter (fun u => negb (PySet.contains u excl)) loaded)).
  { apply NoDup_same_length; [exact Hnd' | apply NoDup_filter; exact Hnd|].
    intros u. rewrite Hin, filter_In, Bool.negb_true_iff, PySet_contains_false. tauto. }
  lia.
Qed.

Lemma exclusion_list_removed_witness :
  load_uuids [[amina; baraka; chausiku; dalia]]
  = Ok ["avf-uuid-1"; "avf-uuid-2"; "avf-uuid-4"] /\
  remove_exclusions ["avf-uuid-2"; "avf-uuid-3"; "avf-uuid-2"]
    ["avf-uuid-1"; "avf-uuid-2"; "avf-uuid-4"]
  = (1, ["avf-uuid-1"; "avf-uuid-4"]) /\
  1 + length ["avf-uuid-1"; "avf-uuid-4"] = length ["avf-uuid-1"; "avf-uuid-2"; "avf-uuid-4"].
Proof.
  split; [vm_compute; reflexivity|]. split; [vm_compute; reflexivity|].
  apply (exclusion_list_removed [[amina; baraka; chausiku; dalia]]
           ["avf-uuid-2"; "avf-uuid-3"; "avf-uuid-2"]
           ["avf-uuid-1"; "avf-uuid-2"; "avf-uuid-4"] 1 ["avf-uuid-1"; "avf-uuid-4"]);
    vm_compute; reflexivity.
Defined.

(** ** From uuids to phone numbers *)

Lemma unknown_to_get lut u : unknown_to lut u = true <-> OrderedDict.get u lut = None.
Proof.
  unfold unknown_to, OrderedDict.contains.
  destruct (OrderedDict.get u lut); simpl; split; intros H; congruence.
Qed.

Lemma unknown_to_known lut u number :
  OrderedDict.get u lut = Some number -> unknown_to lut u = false.
Proof. unfold unknown_to, OrderedDict.contains. intros ->. reflexivity. Qed.

Lemma reidentify_known lut u number (st : PySet.t * PySet.t) :
  OrderedDict.get u lut = Some number ->
  reidentify lut u st = (PySet.add ("+" ++ number)%string (fst st), snd st).
Proof. unfold reidentify. intros ->. reflexivity. Qed.

Lemma reidentify_unknown lut u (st : PySet.t * PySet.t) :
  OrderedDict.get u lut = None -> reidentify lut u st = (fst st, PySet.add u (snd st)).
Proof. unfold reidentify. intros ->. reflexivity. Qed.

Lemma reidentify_phone_numbers lut us (st : PySet.t * PySet.t) n :
  In n (fst (fold_left (fun st uuid => reidentify lut uuid st) us st)) <->
  In n (fst st) \/
  exists u number, In u us /\ OrderedDict.get u lut = Some number /\ n = ("+" ++ number)%string.
Proof.
  revert st. induction us as [|a us IH]; simpl; intros st.
  - split; [auto|]. intros [H | (u & number & [] & _)]; exact H.
  - rewrite IH. destruct (OrderedDict.get a lut) as [m|] eqn:E.
    + rewrite (reidentify_known _ _ _ _ E). simpl. rewrite PySet_add_In. split.
      * intros [[-> | H] | (u & number & Hu & Hrest)].
        -- right. exists a, m. auto.
        -- left. exact H.
        -- right. exists u, number. auto.
      * intros [H | (u & number & [<- | Hu] & Hget & ->)].
        -- left. right. exact H.
        -- left. left. congruence.
        -- right. exists u, number. auto.
    + rewrite (reidentify_unknown _ _ _ E). simpl. split.
      * intros [H | (u & number & Hu & Hrest)]; [left; exact H | right; exists u, number; auto].
      * intros [H | (u & number & [<- | Hu] & Hget & ->)];
          [left; exact H | congruence | right; exists u, number; auto].
Qed.

Lemma reidentify_phone_numbers_NoDup lut us (st : PySet.t * PySet.t) :
  NoDup (fst st) ->
  NoDup (fst (fold_left (fun st uuid => reidentify lut uuid st) us st)) /\
  length (fst (fold_left (fun st uuid => reidentify lut uuid st) us st))
  + length (filter (unknown_to lut) us) <= length (fst st) + length us.
Proof.
  revert st. induction us as [|a us IH]; simpl; intros st Hnd.
  - split; [exact Hnd | lia].
  - destruct (OrderedDict.get a lut) as [m|] eqn:E.
    + rewrite (reidentify_known _ _ _ _ E), (unknown_to_known _ _ _ E).
      destruct (IH (PySet.add ("+" ++ m)%string (fst st), snd st)) as [Hnd' Hlen];
        [apply PySet_add_NoDup; exact Hnd|].
      split; [exact Hnd'|]. cbn [fst snd] in Hlen.
      pose proof (PySet_add_length ("+" ++ m)%string (fst st)). lia.
    + rewrite (reidentify_unknown _ _ _ E).
      rewrite (proj2 (unknown_to_get lut a) E).
      destruct (IH (fst st, PySet.add a (snd st))) as [Hnd' Hlen]; [exact Hnd|].
      split; [exact Hnd'|]. cbn [fst snd length] in Hlen |- *. lia.
Qed.

Lemma reidentify_skipped_uuids lut us (st : PySet.t * PySet.t) :
  NoDup us ->
  (forall u, In u us -> ~ In u (snd st)) ->
  snd (fold_left (fun st uuid => reidentify lut uuid st) us st)
  = snd st ++ filter (unknown_to lut) us.
Proof.
  revert st. induction us as [|a us IH]; simpl; intros st Hnd Hnew.
  - rewrite app_nil_r. reflexivity.
  - inversion Hnd as [|? ? Ha Hus]; subst.
    destruct (OrderedDict.get a lut) as [m|] eqn:E.
    + rewrite (reidentify_known _ _ _ _ E), (unknown_to_known _ _ _ E).
      rewrite IH; [reflexivity | exact Hus |].
      simpl. intros u Hu. apply Hnew. right. exact Hu.
    + rewrite (reidentify_unknown _ _ _ E), (proj2 (unknown_to_get lut a) E).
      rewrite IH; [|exact Hus|]; simpl.
      * rewrite PySet_add_new; [|apply Hnew; left; reflexivity].
        rewrite <- app_assoc. reflexivity.
      * intros u Hu. rewrite PySet_add_In. intros [-> | H]; [exact (Ha Hu)|].
        exact (Hnew u (or_intror Hu) H).
Qed.

Lemma uuids_to_phone_numbers_lut T uuids phone_numbers skipped_uuids :
  NoDup uuids ->
  uuids_to_phone_numbers T uuids = Ok (phone_numbers, skipped_uuids) ->
  exists lut,
    uuid_to_data_batch T uuids = Ok lut /\
    skipped_uuids = filter (unknown_to lut) uuids /\
    (forall n, In n phone_numbers <->
       exists u number,
         In u uuids /\ OrderedDict.get u lut = Some number /\ n = ("+" ++ number)%string).
Proof.
  unfold uuids_to_phone_numbers. intros Hnd H. inv_bind_as H lut Hlut.
  injection H as Hfold. exists lut. split; [exact Hlut|].
  pose proof (reidentify_skipped_uuids lut uuids (PySet.empty, PySet.empty) Hnd) as Hs.
  rewrite Hfold in Hs. simpl in Hs. specialize (Hs (fun _ _ H => H)).
  split; [exact Hs|].
  intros n. pose proof (reidentify_phone_numbers lut uuids (PySet.empty, PySet.empty) n) as Hp.
  rewrite Hfold in Hp. simpl in Hp. tauto.
Qed.

(** X2: the conversion loop shared by the two contact scripts.  For a set of
    uuids, a uuid the table does not know never stops the run: the skipped
    uuids are exactly the uuids absent from the table's answer, the phone
    numbers are exactly the known uuids' numbers behind a "+", and the two
    counts the scripts log never add up to more than the number of uuids. *)
Theorem uuids_to_phone_numbers_partition T uuids phone_numbers skipped_uuids :
  NoDup uuids ->
  uuids_to_phone_numbers T uuids = Ok (phone_numbers, skipped_uuids) ->
  exists lut,
    uuid_to_data_batch T uuids = Ok lut /\
    skipped_uuids = filter (unknown_to lut) uuids /\
    (forall n, In n phone_numbers <->
       exists u number,
         In u uuids /\ OrderedDict.get u lut = Some number /\ n = ("+" ++ number)%string) /\
    NoDup phone_numbers /\
    length phone_numbers + length skipped_uuids <= length uuids.
Proof.
  unfold uuids_to_phone_numbers. intros Hnd H. inv_bind_as H lut Hlut.
  injection H as Hfold. exists lut. split; [exact Hlut|].
  pose proof (reidentify_skipped_uuids lut uuids (PySet.empty, PySet.empty) Hnd) as Hs.
  rewrite Hfold in Hs. simpl in Hs. specialize (Hs (fun _ _ H => H)).
  split; [exact Hs|]. split.
  - intros n.
    pose proof (reidentify_phone_numbers lut uuids (PySet.empty, PySet.empty) n) as Hp.
    rewrite Hfold in Hp. simpl in Hp. tauto.
  - destruct (reidentify_phone_numbers_NoDup lut uuids (PySet.empty, PySet.empty))
      as [Hnd' Hlen]; [constructor|].
    rewrite Hfold in Hnd', Hlen. simpl in Hnd', Hlen. split; [exact Hnd'|].
    rewrite Hs. exact Hlen.
Qed.

Lemma uuids_to_phone_numbers_partition_witness :
  NoDup ["avf-uuid-1"; "avf-uuid-4"; "avf-uuid-2"] /\
  uuids_to_phone_numbers phone_table ["avf-uuid-1"; "avf-uuid-4"; "avf-uuid-2"]
  = Ok (["+254000000001"; "+254000000002"], ["avf-uuid-4"]) /\
  exists lut,
    uuid_to_data_batch phone_table ["avf-uuid-1"; "avf-uuid-4"; "avf-uuid-2"] = Ok lut /\
    ["avf-uuid-4"] = filter (unknown_to lut) ["avf-uuid-1"; "avf-uuid-4"; "avf-uuid-2"] /\
    (forall n, In n ["+254000000001"; "+254000000002"] <->
       exists u number,
         In u ["avf-uuid-1"; "avf-uuid-4"; "avf-uuid-2"] /\
         OrderedDict.get u lut = Some number /\ n = ("+" ++ number)%string) /\
    NoDup ["+254000000001"; "+254000000002"] /\
    length ["+254000000001"; "+254000000002"] + length ["avf-uuid-4"]
    <= length ["avf-uuid-1"; "avf-uuid-4"; "avf-uuid-2"].
Proof.
  assert (Hnd : NoDup ["avf-uuid-1"; "avf-uuid-4"; "avf-uuid-2"]).
  { repeat constructor; simpl; intuition discriminate. }
  split; [exact Hnd|]. split; [vm_compute; reflexivity|].
  apply (uuids_to_phone_numbers_partition phone_table _ _ _ Hnd).
  vm_compute. reflexivity.
Defined.

(** X3: [export_weekly_ad_contacts.py] from the loaded files to the rows of
    the contacts file.  The uuids converted are exactly the uids of the
    records that have not withdrawn consent, less the exclusion list; every
    exported row holds "+" and the number the table gave for one of those
    uuids, with an empty name, and the uuids absent from the table's answer
    are the skipped ones. *)
Theorem weekly_ad_contacts_exported T exclusion_list files out :
  export_weekly_ad_contacts T exclusion_list files = Ok out ->
  (forall u, In u (weekly_uuids out) <->
     opted_in_contact files u /\ ~ excluded exclusion_list u) /\
  exists lut,
    uuid_to_data_batch T (weekly_uuids out) = Ok lut /\
    (forall row, In row (weekly_rows out) <->
       exists u number,
         In u (weekly_uuids out) /\ OrderedDict.get u lut = Some number /\
         row = {| URN_Tel := ("+" ++ number)%string; Name := "" |}) /\
    (forall u, In u (weekly_skipped_uuids out) <->
       In u (weekly_uuids out) /\ OrderedDict.get u lut = None).
Proof.
  unfold export_weekly_ad_contacts. intros H. inv_bind_as H loaded Hload.
  inv_bind_as H converted Hconv. injection H as <-. simpl.
  destruct (load_uuids_spec _ _ Hload) as [Hnd Hin].
  assert (Hkept :
    NoDup (match exclusion_list with
           | Some l => snd (remove_exclusions l loaded)
           | None => loaded
           end) /\
    forall u, In u (match exclusion_list with
                    | Some l => snd (remove_exclusions l loaded)
                    | None => loaded
                    end) <-> opted_in_contact files u /\ ~ excluded exclusion_list u).
  { destruct exclusion_list as [l|]; simpl.
    - destruct (remove_exclusions_fold l (0, loaded) Hnd) as (Hnd' & Hin' & _).
      split; [exact Hnd'|]. intros u. unfold remove_exclusions. rewrite Hin'. simpl.
      rewrite Hin. tauto.
    - split; [exact Hnd|]. intros u. rewrite Hin. tauto. }
  destruct Hkept as [Hnd' Hin']. split; [exact Hin'|].
  destruct converted as [phone_numbers skipped_uuids].
  destruct (uuids_to_phone_numbers_lut _ _ _ _ Hnd' Hconv) as (lut & Hlut & Hs & Hp).
  exists lut. split; [exact Hlut|]. simpl. split.
  - intros row. unfold contact_rows. rewrite in_map_iff. split.
    + intros (n & <- & Hn). apply Hp in Hn. destruct Hn as (u & number & Hu & Hget & ->).
      exists u, number. auto.
    + intros (u & number & Hu & Hget & ->). exists ("+" ++ number)%string.
      split; [reflexivity|]. apply Hp. exists u, number. auto.
  - intros u. rewrite Hs, filter_In, unknown_to_get. tauto.
Qed.

Lemma weekly_ad_contacts_exported_witness :
  exists out,
    export_weekly_ad_contacts phone_table (Some ["avf-uuid-2"])
      [[amina; baraka]; [chausiku; dalia]] = Ok out /\
    weekly_uuids out = ["avf-uuid-1"; "avf-uuid-4"] /\
    weekly_rows out = [ {| URN_Tel := "+254000000001"; Name := "" |} ] /\
    weekly_skipped_uuids out = ["avf-uuid-4"] /\
    forall u, In u (weekly_uuids out) <->
      opted_in_contact [[amina; baraka]; [chausiku; dalia]] u /\
      ~ excluded (Some ["avf-uuid-2"]) u.
Proof.
  eexists. split; [vm_compute; reflexivity|].
  split; [reflexivity|]. split; [reflexivity|]. split; [reflexivity|].
  apply (weekly_ad_contacts_exported phone_table (Some ["avf-uuid-2"])
           [[amina; baraka]; [chausiku; dalia]]).
  vm_compute. reflexivity.
Defined.

(** ** The contacts of the target counties *)

Lemma counted_zero_county_counts : counted zero_county_counts = 0.
Proof. reflexivity. Qed.

Lemma count_contact_spec county uid (st st' : PySet.t * dict string nat) :
  count_contact county uid st = Ok st' ->
  (counts_members (fst st) (snd st) -> counts_members (fst st') (snd st')) /\
  forall u, In u (fst st') <-> In u (fst st) \/ u = uid.
Proof.
  destruct st as [s counts]. unfold count_contact. simpl.
  destruct (PySet.contains uid s) eqn:E.
  - intros H. injection H as <-. simpl. split; [auto|].
    apply PySet_contains_In in E. intros u. split; [auto|]. intros [H | ->]; assumption.
  - intros H. inv_bind_as H n Hn. injection H as <-. simpl.
    apply getitem_Ok in Hn. apply PySet_contains_false in E. split.
    + intros [Hnd Hsum]. split; [apply PySet_add_NoDup; exact Hnd|].
      pose proof (counted_set county (S n) counts) as Hset. rewrite Hn in Hset.
      rewrite (PySet_add_new _ _ E), length_app. simpl. simpl in Hsum. lia.
    + intros u. rewrite PySet_add_In. tauto.
Qed.

Lemma search_record_spec code_scheme td st st' :
  search_record code_scheme td st = Ok st' ->
  (counts_members (uuids st) (county_counts st) ->
   counts_members (uuids st') (county_counts st')) /\
  (counts_members (file_uuids st) (file_county_counts st) ->
   counts_members (file_uuids st') (file_county_counts st')) /\
  (forall u, In u (uuids st') <-> In u (uuids st) \/ selects code_scheme td u) /\
  (forall u, In u (file_uuids st') <-> In u (file_uuids st) \/ selects code_scheme td u).
Proof.
  unfold search_record, selects, in_target_county. intros H.
  inv_bind_as H county_coded Hcc. apply getitem_Ok in Hcc. rewrite Hcc.
  assert (Hskip : forall (Q : Prop), (false = true /\ Q) <-> False)
    by (intros Q; split; [intros [E _]; discriminate | intros []]).
  destruct (value_eq_str county_coded Codes.STOP) eqn:Estop.
  - injection H as <-. destruct county_coded as [x | l | ls]; simpl in Estop; try discriminate.
    split; [auto|]. split; [auto|]. split; intros u; rewrite Hskip; tauto.
  - inv_bind_as H id Hid. inv_bind_as H c Hc.
    destruct county_coded as [x | l | ls]; simpl in Hid; try discriminate.
    injection Hid as <-. rewrite Hc.
    destruct (PySet.contains (string_value c) TARGET_COUNTIES).
    + inv_bind_as H v Hv. inv_bind_as H uid Huid.
      inv_bind_as H in_file Hfile. inv_bind_as H running Hrun. injection H as <-. simpl.
      apply getitem_Ok in Hv. destruct v as [x | l' | ls]; simpl in Huid; try discriminate.
      injection Huid as ->. unfold uid_of. rewrite Hv.
      destruct (count_contact_spec _ _ _ _ Hfile) as [Hf1 Hf2].
      destruct (count_contact_spec _ _ _ _ Hrun) as [Hr1 Hr2].
      simpl in Hf1, Hf2, Hr1, Hr2.
      split; [exact Hr1|]. split; [exact Hf1|].
      split; intros u; [rewrite Hr2 | rewrite Hf2];
        (split; intros [Hu | Hu]; [left; exact Hu | right; split; congruence
                                  | left; exact Hu | right; destruct Hu; congruence]).
    + injection H as <-. split; [auto|]. split; [auto|].
      split; intros u; rewrite Hskip; tauto.
Qed.

Lemma search_records_spec code_scheme data st st' :
  for_each data (search_record code_scheme) st = Ok st' ->
  (counts_members (uuids st) (county_counts st) ->
   counts_members (uuids st') (county_counts st')) /\
  (counts_members (file_uuids st) (file_county_counts st) ->
   counts_members (file_uuids st') (file_county_counts st')) /\
  (forall u, In u (uuids st') <->
     In u (uuids st) \/ exists td, In td data /\ selects code_scheme td u) /\
  (forall u, In u (file_uuids st') <->
     In u (file_uuids st) \/ exists td, In td data /\ selects code_scheme td u).
Proof.
  revert st. induction data as [|td data IH]; simpl; intros st H.
  - injection H as <-. split; [auto|]. split; [auto|].
    split; intros u; (split; [auto|]); intros [Hu | (td & [] & _)]; exact Hu.
  - inv_bind_as H st1 Hst1.
    destruct (search_record_spec _ _ _ _ Hst1) as (Hr1 & Hf1 & Hu1 & Hfu1).
    destruct (IH _ H) as (Hr & Hf & Hu & Hfu).
    split; [auto|]. split; [auto|].
    split; intros u; [rewrite Hu, Hu1 | rewrite Hfu, Hfu1]; (split;
      [ intros [[Hin | Hsel] | (td' & Htd' & Hsel)];
        [left; exact Hin | right; exists td; auto | right; exists td'; auto]
      | intros [Hin | (td' & [<- | Htd'] & Hsel)];
        [left; left; exact Hin | left; right; exact Hsel | right; exists td'; auto] ]).
Qed.

Lemma search_file_spec code_scheme data st st' :
  search_file code_scheme data st = Ok st' ->
  (counts_members (uuids st) (county_counts st) ->
   counts_members (uuids st') (county_counts st')) /\
  counts_members (file_uuids st') (file_county_counts st') /\
  (forall u, In u (uuids st') <->
     In u (uuids st) \/ exists td, In td data /\ selects code_scheme td u) /\
  (forall u, In u (file_uuids st') <-> exists td, In td data /\ selects code_scheme td u).
Proof.
  unfold search_file. intros H.
  destruct (search_records_spec _ _ _ _ H) as (Hr & Hf & Hu & Hfu). simpl in Hr, Hf, Hu, Hfu.
  split; [exact Hr|]. split.
  - apply Hf. split; [constructor | reflexivity].
  - split; [exact Hu|]. intros u. rewrite Hfu. simpl. tauto.
Qed.

Lemma search_files_spec code_scheme files st st' :
  for_each files (search_file code_scheme) st = Ok st' ->
  (counts_members (uuids st) (county_counts st) ->
   counts_members (uuids st') (county_counts st')) /\
  (forall u, In u (uuids st') <-> In u (uuids st) \/ target_contact code_scheme files u).
Proof.
  unfold target_contact. revert st. induction files as [|data files IH]; simpl; intros st H.
  - injection H as <-. split; [auto|]. intros u. split; [auto|].
    intros [Hu | (data & td & [] & _)]; exact Hu.
  - inv_bind_as H st1 Hst1.
    destruct (search_file_spec _ _ _ _ Hst1) as (Hr1 & _ & Hu1 & _).
    destruct (IH _ H) as (Hr & Hu). split; [auto|].
    intros u. rewrite Hu, Hu1. unfold selects. split.
    + intros [[Hin | (td & Htd & Hsel)] | (data' & td & Hdata & Hrest)].
      * left. exact Hin.
      * right. exists data, td. tauto.
      * right. exists data', td. tauto.
    + intros [Hin | (data' & td & [<- | Hdata] & Htd & Hsel)].
      * left. left. exact Hin.
      * left. right. exists td. tauto.
      * right. exists data', td. tauto.
Qed.

(** X4: the per-county counts of [export_contact_lists.py] count every
    selected contact once.  When the search returns, the running counts add
    up to the number of uuids found, and the counts of the file read last add
    up to the number of contacts found in that file, each of which is in the
    running set. *)
Theorem county_counts_add_up code_scheme files found :
  search_contacts code_scheme files = Ok found ->
  NoDup (uuids found) /\
  counted (county_counts found) = length (uuids found) /\
  NoDup (file_uuids found) /\
  counted (file_county_counts found) = length (file_uuids found) /\
  incl (file_uuids found) (uuids found).
Proof.
  unfold search_contacts. intros H.
  pose proof (for_each_invariant
                (fun st => counts_members (uuids st) (county_counts st) /\
                           counts_members (file_uuids st) (file_county_counts st) /\
                           incl (file_uuids st) (uuids st))
                files (search_file code_scheme)) as Hinv.
  destruct (Hinv) with (3 := H) as ([Hnd Hsum] & [Hfnd Hfsum] & Hincl).
  - intros data st st' _ (Hr & _ & _) Hfile.
    destruct (search_file_spec _ _ _ _ Hfile) as (Hr' & Hf' & Hu & Hfu).
    split; [exact (Hr' Hr)|]. split; [exact Hf'|].
    intros u Hin. apply Hu. right. apply Hfu. exact Hin.
  - simpl. split; [split; [constructor | reflexivity]|].
    split; [split; [constructor | reflexivity]|]. intros u [].
  - tauto.
Qed.

Lemma county_counts_add_up_witness :
  exists found,
    search_contacts KENYA_COUNTY contact_files = Ok found /\
    uuids found = ["avf-uuid-1"; "avf-uuid-2"; "avf-uuid-10"] /\
    county_counts found = [("kitui", 2); ("makueni", 1)] /\
    file_uuids found = ["avf-uuid-1"; "avf-uuid-10"] /\
    file_county_counts found = [("kitui", 1); ("makueni", 1)] /\
    counted (county_counts found) = length (uuids found).
Proof.
  eexists. split; [vm_compute; reflexivity|].
  split; [reflexivity|]. split; [reflexivity|]. split; [reflexivity|]. split; [reflexivity|].
  apply (county_counts_add_up KENYA_COUNTY contact_files). vm_compute. reflexivity.
Defined.

(* ================================================================= *)
(** * The histogram of repeat participations, as exported *)

Lemma buckets_of_init P : buckets_of P [] (init_repeat_participations P).
Proof.
  split; [apply init_repeat_participations_keys|].
  intros i row Hget. apply init_repeat_participations_get in Hget. subst. reflexivity.
Qed.

Lemma map_values_keys {K V B : Type} (f : V -> B) (g : K -> B) (d : dict K V) :
  (forall k v, In (k, v) d -> f v = g k) ->
  map f (OrderedDict.values d) = map g (OrderedDict.keys d).
Proof.
  unfold OrderedDict.values, OrderedDict.keys.
  induction d as [|[k v] d IH]; simpl; intros H; [reflexivity|].
  rewrite (H k v (or_introl eq_refl)). f_equal. apply IH.
  intros k' v' Hin. apply H. right. exact Hin.
Qed.

Lemma list_sum_map_add {A : Type} (f g : A -> nat) (l : list A) :
  list_sum (map (fun x => f x + g x) l) = list_sum (map f l) + list_sum (map g l).
Proof. induction l as [|a l IH]; simpl; [reflexivity | lia]. Qed.

Lemma list_sum_map_pointwise {A : Type} (f g : A -> nat) (l : list A) :
  (forall x, In x l -> f x = g x) -> list_sum (map f l) = list_sum (map g l).
Proof.
  induction l as [|a l IH]; simpl; intros H; [reflexivity|].
  rewrite (H a (or_introl eq_refl)), IH; [reflexivity|].
  intros x Hx. apply H. right. exact Hx.
Qed.

Lemma count_eqb_seq w a n :
  list_sum (map (fun i => if Nat.eqb w i then 1 else 0) (seq a n))
  = if Nat.leb a w && Nat.ltb w (a + n) then 1 else 0.
Proof.
  revert a. induction n as [|n IH]; intros a; simpl.
  - destruct (Nat.leb a w) eqn:E1; simpl; [|reflexivity].
    destruct (Nat.ltb w (a + 0)) eqn:E2; [|reflexivity].
    apply Nat.leb_le in E1. apply Nat.ltb_lt in E2. lia.
  - rewrite IH. destruct (Nat.eqb w a) eqn:E.
    + apply Nat.eqb_eq in E. subst a.
      replace (Nat.leb (S w) w) with false by (symmetry; apply Nat.leb_gt; lia).
      replace (Nat.leb w w) with true by (symmetry; apply Nat.leb_le; lia).
      replace (Nat.ltb w (w + S n)) with true by (symmetry; apply Nat.ltb_lt; lia).
      reflexivity.
    + apply Nat.eqb_neq in E.
      destruct (Nat.leb (S a) w) eqn:E1, (Nat.leb a w) eqn:E2;
        destruct (Nat.ltb w (S a + n)) eqn:E3, (Nat.ltb w (a + S n)) eqn:E4;
        simpl; try reflexivity; exfalso;
        repeat match goal with
               | H : Nat.leb _ _ = true |- _ => apply Nat.leb_le in H
               | H : Nat.leb _ _ = false |- _ => apply Nat.leb_gt in H
               | H : Nat.ltb _ _ = true |- _ => apply Nat.ltb_lt in H
               | H : Nat.ltb _ _ = false |- _ => apply Nat.ltb_ge in H
               end; lia.
Qed.

(** Every opted-in individual with between 1 and [n] weeks falls in exactly
    one of the buckets 1..n. *)
Lemma buckets_partition P individuals :
  (forall ind, In ind individuals -> opted_in ind = true ->
     weeks_participated (RQA_CODING_PLANS P) ind <> 0) ->
  list_sum (map (fun i => length (filter (participated_in P i) individuals))
              (seq 1 (length (RQA_CODING_PLANS P))))
  = length (filter opted_in individuals).
Proof.
  induction individuals as [|ind individuals IH]; intros Hweeks.
  - simpl. induction (seq 1 (length (RQA_CODING_PLANS P))); simpl; auto.
  - rewrite (list_sum_map_pointwise _
               (fun i => (if participated_in P i ind then 1 else 0)
                         + length (filter (participated_in P i) individuals))).
    + rewrite list_sum_map_add, IH; [|intros x Hx; apply Hweeks; right; exact Hx].
      simpl. unfold participated_in at 1.
      destruct (opted_in ind) eqn:Hopt; simpl.
      * rewrite count_eqb_seq.
        pose proof (weeks_participated_le (RQA_CODING_PLANS P) ind) as Hle.
        specialize (Hweeks ind (or_introl eq_refl) Hopt).
        replace (Nat.leb 1 (weeks_participated (RQA_CODING_PLANS P) ind)) with true
          by (symmetry; apply Nat.leb_le; lia).
        replace (Nat.ltb (weeks_participated (RQA_CODING_PLANS P) ind)
                   (1 + length (RQA_CODING_PLANS P))) with true
          by (symmetry; apply Nat.ltb_lt; lia).
        reflexivity.
      * assert (Hzero : forall l : list nat, list_sum (map (fun _ => 0) l) = 0)
          by (intros l; induction l; simpl; auto).
        rewrite Hzero. reflexivity.
    + intros i _. simpl. destruct (participated_in P i ind); simpl; lia.
Qed.

Lemma repeat_participation_counts_spec P individuals rp :
  repeat_participation_counts P individuals = Ok rp ->
  buckets_of P individuals rp /\
  (forall ind, In ind individuals -> opted_in ind = true ->
     weeks_participated (RQA_CODING_PLANS P) ind <> 0).
Proof.
  intros Hrun. exact (repeat_participation_loop _ _ _ _ _ (buckets_of_init P) Hrun).
Qed.

Lemma buckets_NoDup P seen rp : buckets_of P seen rp -> NoDup (OrderedDict.keys rp).
Proof. intros [Hkeys _]. rewrite Hkeys. apply seq_NoDup. Qed.

Lemma buckets_numbers P individuals rp :
  repeat_participation_counts P individuals = Ok rp ->
  map Number_of_Individuals (OrderedDict.values rp)
  = map (fun i => length (filter (participated_in P i) individuals))
      (seq 1 (length (RQA_CODING_PLANS P))).
Proof.
  intros Hrun. destruct (repeat_participation_counts_spec _ _ _ Hrun) as [Hb _].
  pose proof (buckets_NoDup _ _ _ Hb) as Hnd. destruct Hb as [Hkeys Hnum].
  rewrite <- Hkeys. apply map_values_keys.
  intros i row Hin. apply Hnum. apply In_NoDup_get; assumption.
Qed.

(** X5: the buckets of the repeat-participation histogram partition the
    opted-in individuals.  When the counting loop returns, the numbers of the
    buckets 1..n add up to the number of individuals whose consent flag is
    "false". *)
Theorem repeat_buckets_add_up P individuals rp :
  repeat_participation_counts P individuals = Ok rp ->
  list_sum (map Number_of_Individuals (OrderedDict.values rp))
  = length (filter opted_in individuals).
Proof.
  intros Hrun. rewrite (buckets_numbers _ _ _ Hrun).
  apply buckets_partition. apply (repeat_participation_counts_spec _ _ _ Hrun).
Qed.

Lemma repeat_buckets_add_up_witness :
  exists rp,
    repeat_participation_counts pipeline [amina; baraka; chausiku; erasto] = Ok rp /\
    map Number_of_Individuals (OrderedDict.values rp) = [2; 1] /\
    list_sum (map Number_of_Individuals (OrderedDict.values rp))
    = length (filter opted_in [amina; baraka; chausiku; erasto]).
Proof.
  eexists. split; [vm_compute; reflexivity|]. split; [reflexivity|].
  apply (repeat_buckets_add_up pipeline [amina; baraka; chausiku; erasto]).
  vm_compute. reflexivity.
Defined.

Lemma keyed_by_episodes_init P : keyed_by_episodes (init_repeat_participations P).
Proof.
  intros i row Hin. apply In_NoDup_get in Hin.
  - apply init_repeat_participations_get in Hin. subst row. reflexivity.
  - rewrite init_repeat_participations_keys. apply seq_NoDup.
Qed.

Lemma count_participation_keyed P ind rp rp' :
  keyed_by_episodes rp -> count_participation P ind rp = Ok rp' -> keyed_by_episodes rp'.
Proof.
  unfold count_participation. intros Hkeyed H. inv_bind_as H flag Hflag.
  destruct (value_eq_str flag Codes.FALSE); [|injection H as <-; exact Hkeyed].
  inv_bind_as H u Hu. inv_bind_as H row Hrow. injection H as <-.
  apply getitem_Ok in Hrow. apply get_In in Hrow.
  intros i r Hin. apply In_set in Hin. destruct Hin as [[-> ->] | Hin].
  - simpl. exact (Hkeyed _ _ Hrow).
  - exact (Hkeyed _ _ Hin).
Qed.

Lemma count_flag_Ok individuals total :
  count_flag "consent_withdrawn" Codes.FALSE individuals = Ok total ->
  total = length (filter opted_in individuals).
Proof.
  revert total. induction individuals as [|ind individuals IH]; simpl; intros total H.
  - injection H as <-. reflexivity.
  - inv_bind_as H flag Hflag. inv_bind_as H n Hn. injection H as <-.
    apply getitem_Ok in Hflag. unfold opted_in at 1. rewrite Hflag.
    rewrite (IH _ Hn). destruct (value_eq_str flag Codes.FALSE); reflexivity.
Qed.

Lemma set_repeat_percentages_values total rp rp' :
  set_repeat_percentages total rp = Ok rp' ->
  OrderedDict.values rp' = map (with_percentage total) (OrderedDict.values rp) /\
  (rp <> [] -> total <> 0).
Proof.
  unfold OrderedDict.values.
  revert rp'. induction rp as [|[i row] rest IH]; intros rp' Hrun; simpl in Hrun.
  - injection Hrun as <-. split; [reflexivity | congruence].
  - inv_bind_as Hrun pct Hpct. inv_bind_as Hrun rest' Hrest. injection Hrun as <-.
    apply int_percentage_Ok in Hpct. destruct Hpct as [Hnz ->].
    destruct (IH _ Hrest) as [Hvalues _]. simpl. rewrite Hvalues. split; [reflexivity|].
    intros _. exact Hnz.
Qed.

(** X6: the rows of [repeat_participations.csv].  When the pass returns, the
    file holds one row for each number of episodes 1..n, in that order; the
    row of [i] carries the number of opted-in individuals that hold the raw
    field of exactly [i] episodes and that number as a percentage, rounded to
    one decimal, of all the opted-in individuals, of which there is at least
    one whenever there is an episode. *)
Theorem repeat_participation_rows P individuals rows :
  repeat_participations P individuals = Ok rows ->
  rows = map (fun i =>
                {| Episodes_Participated_In := i;
                   Number_of_Individuals := length (filter (participated_in P i) individuals);
                   Pct_of_Individuals :=
                     CFloat (percentage (length (filter (participated_in P i) individuals))
                               (length (filter opted_in individuals))) |})
           (seq 1 (length (RQA_CODING_PLANS P))) /\
  (RQA_CODING_PLANS P <> [] -> filter opted_in individuals <> []).
Proof.
  unfold repeat_participations. intros H. inv_bind_as H rp Hrp.
  inv_bind_as H total Htotal. inv_bind_as H rp' Hrp'. injection H as <-.
  apply count_flag_Ok in Htotal. subst total.
  destruct (set_repeat_percentages_values _ _ _ Hrp') as [Hvalues Hnz].
  destruct (repeat_participation_counts_spec _ _ _ Hrp) as [Hb _].
  pose proof (buckets_NoDup _ _ _ Hb) as Hnd. destruct Hb as [Hkeys Hnum].
  assert (Hkeyed : keyed_by_episodes rp).
  { unfold repeat_participation_counts in Hrp.
    apply (for_each_invariant keyed_by_episodes individuals (count_participation P)
             (fun x s s' _ Hs Hstep => count_participation_keyed P x s s' Hs Hstep)
             _ _ (keyed_by_episodes_init P) Hrp). }
  split.
  - rewrite Hvalues, <- Hkeys. apply map_values_keys.
    intros i row Hin. unfold with_percentage.
    rewrite (Hkeyed _ _ Hin), (Hnum i row (In_NoDup_get _ _ _ Hnd Hin)). reflexivity.
  - intros Hplans Hnone. apply Hnz; [|rewrite Hnone; reflexivity].
    intros ->. simpl in Hkeys. destruct (RQA_CODING_PLANS P); [congruence | discriminate].
Qed.

Lemma repeat_participation_rows_witness :
  exists rows,
    repeat_participations pipeline [amina; baraka; chausiku; erasto] = Ok rows /\
    map Episodes_Participated_In rows = [1; 2] /\
    map Number_of_Individuals rows = [2; 1] /\
    map Pct_of_Individuals rows = [CFloat (percentage 2 3); CFloat (percentage 1 3)] /\
    (RQA_CODING_PLANS pipeline <> [] ->
     filter opted_in [amina; baraka; chausiku; erasto] <> []).
Proof.
  eexists. split; [vm_compute; reflexivity|].
  split; [reflexivity|]. split; [reflexivity|]. split; [vm_compute; reflexivity|].
  eapply (repeat_participation_rows pipeline [amina; baraka; chausiku; erasto]).
  vm_compute. reflexivity.
Defined.

Lemma repeat_participation_counts_total P individuals :
  (forall ind, In ind individuals -> OrderedDict.get "consent_withdrawn" ind <> None) ->
  (forall ind, In ind individuals -> opted_in ind = true ->
     weeks_participated (RQA_CODING_PLANS P) ind <> 0) ->
  exists rp, repeat_participation_counts P individuals = Ok rp.
Proof.
  unfold repeat_participation_counts.
  generalize (buckets_of_init P). generalize (init_repeat_participations P).
  generalize (@nil TracedData).
  induction individuals as [|ind individuals IH]; intros seen rp Hinv Hflags Hweeks; simpl.
  - eauto.
  - destruct (count_participation_total P seen ind rp Hinv) as [rp' Hstep].
    + apply Hflags. left. reflexivity.
    + apply Hweeks. left. reflexivity.
    + rewrite Hstep. simpl. apply (IH (seen ++ [ind]) rp').
      * eapply count_participation_buckets; eauto.
      * intros x Hx. apply Hflags. right. exact Hx.
      * intros x Hx. apply Hweeks. right. exact Hx.
Qed.

(** X7: the percentages of the repeat-participation histogram divide by the
    number of opted-in individuals without a guard.  With at least one
    episode, a dataset whose records all carry a consent flag and of which
    none is "false" makes the pass raise [ZeroDivisionError]: the counting
    loop returns and the first percentage fails. *)
Theorem repeat_participations_zero_division P individuals :
  RQA_CODING_PLANS P <> [] ->
  (forall ind, In ind individuals -> OrderedDict.get "consent_withdrawn" ind <> None) ->
  (forall ind, In ind individuals -> opted_in ind = false) ->
  (exists rp, repeat_participation_counts P individuals = Ok rp) /\
  repeat_participations P individuals = Raise ZeroDivisionError.
Proof.
  intros Hplans Hflags Hnone.
  destruct (repeat_participation_counts_total P individuals Hflags) as [rp Hrp].
  { intros ind Hin Hopt. rewrite (Hnone ind Hin) in Hopt. discriminate. }
  split; [exists rp; exact Hrp|].
  apply (repeat_participations_no_opted_in P individuals rp Hplans Hrp).
  clear Hrp Hflags. induction individuals as [|ind individuals IH]; [reflexivity|].
  simpl. rewrite (Hnone ind (or_introl eq_refl)). apply IH.
  intros x Hx. apply Hnone. right. exact Hx.
Qed.

Lemma repeat_participations_zero_division_witness :
  (exists rp, repeat_participation_counts pipeline [chausiku; stop_message] = Ok rp) /\
  repeat_participations pipeline [chausiku; stop_message] = Raise ZeroDivisionError.
Proof.
  apply (repeat_participations_zero_division pipeline [chausiku; stop_message]).
  - discriminate.
  - intros ind [<- | [<- | []]]; discriminate.
  - intros ind [<- | [<- | []]]; reflexivity.
Defined.

(* ================================================================= *)
(** * The demographic tallies, code by code *)

Lemma label_code_Ok cc l c :
  get_code_with_code_id (code_scheme cc) (CodeID l) = Ok c -> label_code cc l = Some c.
Proof. unfold label_code. intros ->. reflexivity. Qed.

Lemma count_demographic_hits key id ind cc st st' :
  count_demographic ind cc st = Ok st' ->
  count_of key id st' = count_of key id st + weighted_hits (labelled id ind) key cc /\
  total_of key st' = total_of key st + weighted_hits (labelled_normal ind) key cc.
Proof.
  unfold count_demographic, weighted_hits, key_hits. intros Hstep.
  destruct (analysis_file_key cc) as [k|] eqn:Hk.
  2:{ injection Hstep as <-. destruct (labelled id ind cc), (labelled_normal ind cc).
      all: split; lia. }
  inv_bind_as Hstep u Hu. inv_bind_as Hstep v Hv. inv_bind_as Hstep id0 Hid.
  inv_bind_as Hstep c Hc. inv_bind_as Hstep counts Hcounts. inv_bind_as Hstep n Hn.
  apply getitem_Ok in Hv, Hcounts, Hn.
  destruct v as [x | l | ls]; simpl in Hid; try discriminate. injection Hid as <-.
  destruct (get_code_with_code_id_In _ _ _ Hc) as [_ Hcid].
  unfold labelled, labelled_normal. rewrite Hv, (label_code_Ok _ _ _ Hc).
  assert (Hdd : forall tr,
             count_of key id
               {| demographic_distributions :=
                    OrderedDict.set k (OrderedDict.set (code_id c) (S n) counts)
                      (demographic_distributions st);
                  total_relevant := tr |}
             = count_of key id st
               + (if String.eqb (CodeID l) id
                  then (if String.eqb k key then 1 else 0) else 0)).
  { intros tr. unfold count_of. simpl. destruct (String.eqb k key) eqn:E.
    - apply String.eqb_eq in E. subst key. rewrite get_set_same, Hcounts.
      rewrite <- Hcid. destruct (String.eqb (code_id c) id) eqn:E'.
      + apply String.eqb_eq in E'. subst id. rewrite get_set_same, Hn. lia.
      + apply String.eqb_neq in E'. rewrite get_set_other by exact E'. lia.
    - apply String.eqb_neq in E. rewrite get_set_other by exact E.
      destruct (String.eqb (CodeID l) id); lia. }
  destruct (is_normal c).
  - inv_bind_as Hstep t Ht. injection Hstep as <-. apply getitem_Ok in Ht.
    split; [apply Hdd|]. unfold total_of. simpl.
    destruct (String.eqb k key) eqn:E.
    + apply String.eqb_eq in E. subst key. rewrite get_set_same, Ht. lia.
    + apply String.eqb_neq in E. rewrite get_set_other by exact E. lia.
  - injection Hstep as <-. split; [apply Hdd|]. unfold total_of. simpl. lia.
Qed.

Lemma count_demographic_loop_hits key id ind ccs st st' :
  for_each ccs (count_demographic ind) st = Ok st' ->
  count_of key id st'
  = count_of key id st + list_sum (map (weighted_hits (labelled id ind) key) ccs) /\
  total_of key st'
  = total_of key st + list_sum (map (weighted_hits (labelled_normal ind) key) ccs).
Proof.
  revert st. induction ccs as [|cc ccs IH]; intros st Hrun; simpl in Hrun.
  - injection Hrun as <-. simpl. split; lia.
  - inv_bind_as Hrun st1 Hst1. apply IH in Hrun.
    apply (count_demographic_hits key id) in Hst1. simpl. split; lia.
Qed.

Lemma weighted_hits_absent w key ccs :
  ~ In key (analysis_keys ccs) -> list_sum (map (weighted_hits w key) ccs) = 0.
Proof.
  intros Hnotin. pose proof (key_hits_absent key ccs Hnotin) as Hzero.
  clear Hnotin. induction ccs as [|c ccs IH]; simpl in *; [reflexivity|].
  unfold weighted_hits at 1. destruct (w c); lia.
Qed.

Lemma weighted_hits_unique w key cc ccs :
  NoDup (analysis_keys ccs) -> In cc ccs -> analysis_file_key cc = Some key ->
  list_sum (map (weighted_hits w key) ccs) = if w cc then 1 else 0.
Proof.
  induction ccs as [|c ccs IH]; intros Hnd Hin Hkey; [destruct Hin|].
  simpl in Hnd. apply NoDup_app_remove_l in Hnd as Hnd'. simpl.
  destruct Hin as [-> | Hin].
  - rewrite weighted_hits_absent.
    + unfold weighted_hits, key_hits. rewrite Hkey, String.eqb_refl.
      destruct (w cc); reflexivity.
    + rewrite Hkey in Hnd. simpl in Hnd. inversion Hnd. assumption.
  - rewrite IH by assumption.
    unfold weighted_hits, key_hits. destruct (analysis_file_key c) as [k|] eqn:Hk;
      [|destruct (w c); reflexivity].
    destruct (String.eqb k key) eqn:E; [|destruct (w c); reflexivity].
    apply String.eqb_eq in E. subst k. exfalso.
    simpl in Hnd. inversion Hnd as [|? ? Hnotin _]; subst. apply Hnotin.
    unfold analysis_keys. apply in_flat_map. exists cc. rewrite Hkey. simpl. auto.
Qed.

Lemma list_sum_indicator {A : Type} (p : A -> bool) (l : list A) :
  list_sum (map (fun x => if p x then 1 else 0) l) = length (filter p l).
Proof. induction l as [|a l IH]; simpl; [reflexivity|]. destruct (p a); simpl; lia. Qed.

Lemma demographic_loop_hits P cc key id individuals st st' :
  NoDup (analysis_keys (demog_configurations P)) ->
  In cc (demog_configurations P) ->
  analysis_file_key cc = Some key ->
  for_each individuals (count_demographics_of P) st = Ok st' ->
  count_of key id st' = count_of key id st + length (filter (coded_as cc id) individuals) /\
  total_of key st' = total_of key st + length (filter (coded_normal cc) individuals).
Proof.
  intros Hnd Hin Hkey.
  revert st. induction individuals as [|ind individuals IH]; intros st Hrun; simpl in Hrun.
  - injection Hrun as <-. simpl. split; lia.
  - inv_bind_as Hrun st1 Hst1. apply IH in Hrun. destruct Hrun as [Hc Ht].
    rewrite Hc, Ht. clear Hc Ht.
    rewrite count_demographics_of_unfold in Hst1.
    inv_bind_as Hst1 flag Hflag. apply getitem_Ok in Hflag.
    simpl. unfold coded_as at 2, coded_normal at 2, not_withdrawn, withdrawn.
    rewrite Hflag. destruct (value_eq_str flag Codes.TRUE); simpl.
    + injection Hst1 as <-. split; lia.
    + apply (count_demographic_loop_hits key id) in Hst1. destruct Hst1 as [Hc Ht].
      rewrite Hc, Ht.
      rewrite (weighted_hits_unique _ key cc _ Hnd Hin Hkey).
      rewrite (weighted_hits_unique _ key cc _ Hnd Hin Hkey).
      destruct (labelled id ind cc), (labelled_normal ind cc); simpl; split; lia.
Qed.

Lemma demographic_pass_shape P individuals st :
  NoDup (analysis_keys (demog_configurations P)) ->
  demographic_pass P individuals = Ok st -> tallies_shape P st.
Proof.
  intros Hnd Hrun. unfold demographic_pass in Hrun.
  revert Hrun. apply for_each_invariant; [|apply init_tallies_shape; exact Hnd].
  intros ind s s' _. apply count_demographics_of_shape.
Qed.

Lemma demographic_pass_counts P individuals st cc key :
  demographic_pass P individuals = Ok st ->
  NoDup (analysis_keys (demog_configurations P)) ->
  In cc (demog_configurations P) ->
  analysis_file_key cc = Some key ->
  exists counts,
    OrderedDict.get key (demographic_distributions st) = Some counts /\
    (forall c, In c (codes (code_scheme cc)) -> is_stop c = false ->
       OrderedDict.get (code_id c) counts
       = Some (length (filter (coded_as cc (code_id c)) individuals))) /\
    OrderedDict.get key (total_relevant st)
    = Some (length (filter (coded_normal cc) individuals)).
Proof.
  intros Hrun Hnd Hin Hkey.
  pose proof (demographic_pass_shape _ _ _ Hnd Hrun) as Hshape.
  destruct (Hshape cc key Hin Hkey) as [(counts & Hget & Hkeys) Htotal].
  destruct (init_fold_key (demog_configurations P)
              {| demographic_distributions := OrderedDict.empty;
                 total_relevant := OrderedDict.empty |} cc key Hnd Hin Hkey) as [Hd0 Ht0].
  rewrite <- init_demographic_tallies_fold in Hd0, Ht0.
  exists counts. split; [exact Hget|]. split.
  - intros c Hc Hstop.
    destruct (demographic_loop_hits P cc key (code_id c) _ _ _ Hnd Hin Hkey Hrun)
      as [Hcount _].
    unfold count_of in Hcount. rewrite Hget, Hd0 in Hcount.
    rewrite (init_code_counts_present _ _ Hc Hstop) in Hcount.
    assert (Hpresent : OrderedDict.get (code_id c) counts <> None).
    { apply get_In_keys. rewrite Hkeys. apply get_In_keys.
      rewrite (init_code_counts_present _ _ Hc Hstop). discriminate. }
    destruct (OrderedDict.get (code_id c) counts) as [n|]; [|congruence].
    simpl in Hcount. rewrite Hcount. reflexivity.
  - destruct (demographic_loop_hits P cc key "" _ _ _ Hnd Hin Hkey Hrun) as [_ Ht].
    unfold total_of in Ht. rewrite Ht0 in Ht.
    destruct (OrderedDict.get key (total_relevant st)) as [t|]; [|congruence].
    simpl in Ht. rewrite Ht. reflexivity.
Qed.

(** X8: what the demographic pass counts.  When the pass returns, for a
    configuration exported under a key of its own, the count of every code
    that is not the STOP code is the number of individuals that have not
    withdrawn consent and whose label carries that code's id, and the total
    under the key is the number of those whose label resolves to a NORMAL
    code. *)
Theorem demographic_tallies_count P individuals st cc key :
  demographic_pass P individuals = Ok st ->
  NoDup (analysis_keys (demog_configurations P)) ->
  In cc (demog_configurations P) ->
  analysis_file_key cc = Some key ->
  exists counts,
    OrderedDict.get key (demographic_distributions st) = Some counts /\
    (forall c, In c (codes (code_scheme cc)) -> is_stop c = false ->
       OrderedDict.get (code_id c) counts
       = Some (length (filter (coded_as cc (code_id c)) individuals))) /\
    OrderedDict.get key (total_relevant st)
    = Some (length (filter (coded_normal cc) individuals)).
Proof. exact (demographic_pass_counts P individuals st cc key). Qed.

Lemma demographic_tallies_count_witness :
  exists st counts,
    demographic_pass pipeline [amina; baraka; chausiku; gasira] = Ok st /\
    OrderedDict.get "gender" (demographic_distributions st) = Some counts /\
    counts = [("code-male", 1); ("code-female", 1); ("code-NC", 1)] /\
    (forall c, In c (codes GENDER) -> is_stop c = false ->
       OrderedDict.get (code_id c) counts
       = Some (length (filter (coded_as gender_configuration (code_id c))
                         [amina; baraka; chausiku; gasira]))) /\
    OrderedDict.get "gender" (total_relevant st) = Some 2 /\
    length (filter (coded_normal gender_configuration) [amina; baraka; chausiku; gasira]) = 2.
Proof.
  destruct (demographic_tallies_count pipeline [amina; baraka; chausiku; gasira]
              _ gender_configuration "gender" eq_refl)
    as (counts & Hget & Hcounts & Htotal).
  - repeat constructor; simpl; tauto.
  - simpl. tauto.
  - reflexivity.
  - eexists. exists counts. split; [reflexivity|]. split; [exact Hget|].
    split; [vm_compute in Hget; congruence|]. split; [exact Hcounts|].
    split; [exact Htotal | reflexivity].
Defined.

Lemma list_sum_zero {A : Type} (f : A -> nat) (l : list A) :
  (forall x, In x l -> f x = 0) -> list_sum (map f l) = 0.
Proof.
  induction l as [|a l IH]; simpl; intros H; [reflexivity|].
  rewrite (H a (or_introl eq_refl)), IH; [reflexivity|].
  intros x Hx. apply H. right. exact Hx.
Qed.

Lemma list_sum_swap {A B : Type} (f : A -> B -> nat) (la : list A) (lb : list B) :
  list_sum (map (fun a => list_sum (map (f a) lb)) la)
  = list_sum (map (fun b => list_sum (map (fun a => f a b) la)) lb).
Proof.
  induction la as [|a la IH]; simpl.
  - symmetry. apply list_sum_zero. reflexivity.
  - rewrite IH, <- list_sum_map_add. reflexivity.
Qed.

Lemma normal_id_hits id cs :
  NoDup (map code_id cs) ->
  list_sum (map (fun c => if String.eqb id (code_id c) then 1 else 0) (filter is_normal cs))
  = match find (fun c => String.eqb (code_id c) id) cs with
    | Some c0 => if is_normal c0 then 1 else 0
    | None => 0
    end.
Proof.
  induction cs as [|c cs IH]; simpl; intros Hnd; [reflexivity|].
  inversion Hnd as [|? ? Hc Hcs]; subst.
  destruct (String.eqb (code_id c) id) eqn:E.
  - apply String.eqb_eq in E. subst id.
    assert (Hrest : list_sum (map (fun c' => if String.eqb (code_id c) (code_id c')
                                             then 1 else 0) (filter is_normal cs)) = 0).
    { apply list_sum_zero. intros c' Hc'. apply filter_In in Hc'. destruct Hc' as [Hc' _].
      destruct (String.eqb (code_id c) (code_id c')) eqn:E'; [|reflexivity].
      apply String.eqb_eq in E'. exfalso. apply Hc. rewrite E'. apply in_map. exact Hc'. }
    destruct (is_normal c); simpl; [rewrite String.eqb_refl|]; lia.
  - rewrite <- (IH Hcs). destruct (is_normal c); simpl; [|reflexivity].
    rewrite String.eqb_sym, E. reflexivity.
Qed.

(** Over the NORMAL codes of the scheme, the individuals labelled with each
    code add up to the individuals labelled with a NORMAL code. *)
Lemma normal_counts_partition cc individuals :
  NoDup (map code_id (codes (code_scheme cc))) ->
  list_sum (map (fun c => length (filter (coded_as cc (code_id c)) individuals))
              (normal_codes (code_scheme cc)))
  = length (filter (coded_normal cc) individuals).
Proof.
  intros Hnd.
  rewrite (list_sum_map_pointwise _
             (fun c => list_sum (map (fun ind => if coded_as cc (code_id c) ind then 1 else 0)
                                   individuals)))
    by (intros c _; symmetry; apply list_sum_indicator).
  rewrite list_sum_swap, <- list_sum_indicator.
  apply list_sum_map_pointwise. intros ind _.
  unfold coded_as, coded_normal. destruct (not_withdrawn ind); simpl.
  - unfold labelled, labelled_normal.
    destruct (OrderedDict.get (coded_field cc) ind) as [[x | l | ls]|];
      try (apply list_sum_zero; reflexivity).
    unfold normal_codes. rewrite (normal_id_hits (CodeID l) _ Hnd).
    unfold label_code, get_code_with_code_id.
    destruct (find (fun c => String.eqb (code_id c) (CodeID l)) (codes (code_scheme cc)));
      reflexivity.
  - apply list_sum_zero. reflexivity.
Qed.

Lemma gender_pie_loop (gender_distribution : dict string nat) (g : Code -> nat) cs data :
  (forall c, In c cs -> is_normal c = true ->
     OrderedDict.get (code_id c) gender_distribution = Some (g c)) ->
  for_each cs
    (fun code data =>
       if is_normal code then
         n <- OrderedDict.getitem (code_id code) gender_distribution ;;
         Ok (data ++ [(string_value code, n)])
       else Ok data)
    data
  = Ok (data ++ map (fun c => (string_value c, g c)) (filter is_normal cs)).
Proof.
  revert data. induction cs as [|c cs IH]; simpl; intros data H.
  - rewrite app_nil_r. reflexivity.
  - destruct (is_normal c) eqn:E.
    + unfold OrderedDict.getitem. rewrite (H c (or_introl eq_refl) E). simpl.
      rewrite IH by (intros c' Hc'; apply H; right; exact Hc').
      rewrite <- app_assoc. reflexivity.
    + apply IH. intros c' Hc'. apply H. right. exact Hc'.
Qed.

(** X9: the gender pie chart shows the denominator of the gender
    percentages.  When the demographic pass returns and a configuration under
    the key "gender" uses the gender scheme, with distinct code ids and no
    NORMAL stop code, building the chart's data never fails: it holds one
    entry for each NORMAL code, in the order of the scheme, with the number
    of individuals labelled with it, and the numbers add up to the total of
    relevant individuals stored under "gender". *)
Theorem gender_pie_adds_up S P individuals st cc :
  demographic_pass P individuals = Ok st ->
  NoDup (analysis_keys (demog_configurations P)) ->
  In cc (demog_configurations P) ->
  analysis_file_key cc = Some "gender" ->
  code_scheme cc = CodeSchemes.GENDER S ->
  NoDup (map code_id (codes (CodeSchemes.GENDER S))) ->
  well_formed_scheme (CodeSchemes.GENDER S) ->
  exists data,
    normal_gender_distribution S (demographic_distributions st) = Ok data /\
    data = map (fun c => (string_value c,
                          length (filter (coded_as cc (code_id c)) individuals)))
             (normal_codes (CodeSchemes.GENDER S)) /\
    OrderedDict.get "gender" (total_relevant st) = Some (list_sum (map snd data)).
Proof.
  intros Hrun Hnd Hin Hkey Hscheme Hids Hwf.
  destruct (demographic_pass_counts _ _ _ _ _ Hrun Hnd Hin Hkey)
    as (counts & Hget & Hcounts & Htotal).
  eexists. split; [|split; [reflexivity|]].
  - unfold normal_gender_distribution, OrderedDict.getitem. rewrite Hget. simpl.
    rewrite (gender_pie_loop counts
               (fun c => length (filter (coded_as cc (code_id c)) individuals))).
    + reflexivity.
    + intros c Hc Hnormal. apply Hcounts; [rewrite Hscheme; exact Hc|].
      apply normal_not_stop; [|exact Hnormal].
      unfold well_formed_scheme in Hwf. rewrite Forall_forall in Hwf. apply Hwf. exact Hc.
  - rewrite Htotal. f_equal. rewrite map_map. simpl.
    rewrite <- Hscheme in Hids |- *. symmetry. apply normal_counts_partition. exact Hids.
Qed.

Lemma gender_pie_adds_up_witness :
  exists st data,
    demographic_pass pipeline [amina; baraka; chausiku; gasira; faraja] = Ok st /\
    normal_gender_distribution
      code_schemes (demographic_distributions st) = Ok data /\
    data = [("male", 2); ("female", 1)] /\
    OrderedDict.get "gender" (total_relevant st) = Some (list_sum (map snd data)).
Proof.
  destruct (gender_pie_adds_up code_schemes pipeline [amina; baraka; chausiku; gasira; faraja] _ gender_configuration
              eq_refl)
    as (data & Hdata & Heq & Htotal).
  - repeat constructor; simpl; tauto.
  - simpl. tauto.
  - reflexivity.
  - reflexivity.
  - repeat constructor; simpl; intuition discriminate.
  - repeat constructor; unfold well_formed_code; simpl; intros; try reflexivity; discriminate.
  - eexists. exists data. split; [reflexivity|]. split; [exact Hdata|].
    split; [rewrite Heq; vm_compute; reflexivity | exact Htotal].
Defined.

(* ================================================================= *)
(** * The demographic distributions file *)

Lemma demographic_row_columns st key i c row :
  demographic_row st key i c = Ok (Some row) ->
  is_stop c = false /\ row_Demographic row = if Nat.eqb i 0 then key else "".
Proof.
  unfold demographic_row. destruct (is_stop c); [discriminate|]. intros H.
  inv_bind_as H counts Hcounts. inv_bind_as H n Hn. inv_bind_as H percent Hpercent.
  injection H as <-. split; reflexivity.
Qed.

Lemma demographic_row_None st key i c :
  demographic_row st key i c = Ok None -> is_stop c = true.
Proof.
  unfold demographic_row. destruct (is_stop c); [reflexivity|]. intros H.
  inv_bind_as H counts Hcounts. inv_bind_as H n Hn. inv_bind_as H percent Hpercent.
  discriminate.
Qed.

Lemma demographic_rows_from_blank st key i cs rows :
  demographic_rows_from st key (S i) cs = Ok rows ->
  map row_Demographic rows = repeat "" (length (filter (fun c => negb (is_stop c)) cs)).
Proof.
  revert i rows. induction cs as [|c cs IH]; simpl; intros i rows H.
  - injection H as <-. reflexivity.
  - inv_bind_as H r Hr. inv_bind_as H rest Hrest. injection H as <-.
    apply IH in Hrest. destruct r as [row|].
    + destruct (demographic_row_columns _ _ _ _ _ Hr) as [Hstop Hname].
      rewrite Hstop. simpl. rewrite Hname, Hrest. reflexivity.
    + rewrite (demographic_row_None _ _ _ _ Hr). simpl. exact Hrest.
Qed.

(** X10: the "Demographic" column of [demographic_distributions.csv].  The
    name of a demographic is written on the row of the first code of its
    scheme and on no other row: every later row holds the empty string, and
    when the first code of the scheme is the STOP code, which has no row, the
    name does not appear at all. *)
Theorem demographic_name_on_first_code st cc key c0 cs rows :
  analysis_file_key cc = Some key ->
  codes (code_scheme cc) = c0 :: cs ->
  demographic_configuration_rows st cc = Ok rows ->
  map row_Demographic rows
  = (if is_stop c0 then [] else [key])
    ++ repeat "" (length (filter (fun c => negb (is_stop c)) cs)).
Proof.
  unfold demographic_configuration_rows. intros -> -> H. simpl in H.
  inv_bind_as H r Hr. inv_bind_as H rest Hrest. injection H as <-.
  apply demographic_rows_from_blank in Hrest. destruct r as [row|].
  - destruct (demographic_row_columns _ _ _ _ _ Hr) as [Hstop Hname].
    rewrite Hstop. simpl. rewrite Hname, Hrest. reflexivity.
  - rewrite (demographic_row_None _ _ _ _ Hr). simpl. exact Hrest.
Qed.

Lemma demographic_name_on_first_code_witness :
  exists rows,
    demographic_configuration_rows
      {| demographic_distributions :=
           [("gender", [("code-male", 1); ("code-female", 1); ("code-NC", 0)])];
         total_relevant := [("gender", 2)] |}
      gender_configuration = Ok rows /\
    map row_Demographic rows = ["gender"; ""; ""] /\
    map row_Demographic rows
    = (if is_stop (code "code-male" "male" NORMAL None) then [] else ["gender"])
      ++ repeat "" (length (filter (fun c => negb (is_stop c)) (tl (codes GENDER)))).
Proof.
  eexists. split; [vm_compute; reflexivity|]. split; [reflexivity|].
  apply (demographic_name_on_first_code
           {| demographic_distributions :=
                [("gender", [("code-male", 1); ("code-female", 1); ("code-NC", 0)])];
              total_relevant := [("gender", 2)] |}
           gender_configuration "gender"
           (code "code-male" "male" NORMAL None) (tl (codes GENDER)));
    vm_compute; reflexivity.
Defined.

Lemma demographic_rows_from_zero_total st key counts i cs :
  OrderedDict.get key (demographic_distributions st) = Some counts ->
  OrderedDict.get key (total_relevant st) = Some 0 ->
  (forall c, In c cs -> is_stop c = false -> OrderedDict.get (code_id c) counts <> None) ->
  (exists c, In c cs /\ is_normal c = true /\ is_stop c = false) ->
  demographic_rows_from st key i cs = Raise ZeroDivisionError.
Proof.
  intros Hcounts Htotal. revert i. induction cs as [|c cs IH]; intros i Hpresent Hnormal.
  - destruct Hnormal as (c & [] & _).
  - simpl. destruct (is_stop c) eqn:Hstop.
    + unfold demographic_row. rewrite Hstop. simpl. rewrite IH; [reflexivity | |].
      * intros c' Hc'. apply Hpresent. right. exact Hc'.
      * destruct Hnormal as (c' & [<- | Hc'] & Hn & Hs); [congruence|]. exists c'. auto.
    + destruct (is_normal c) eqn:Hn.
      * destruct (OrderedDict.get (code_id c) counts) as [n|] eqn:Hget.
        -- rewrite (demographic_row_zero_total st key i c counts n Hstop Hn Hcounts Hget Htotal).
           reflexivity.
        -- exfalso. exact (Hpresent c (or_introl eq_refl) Hstop Hget).
      * unfold demographic_row. rewrite Hstop, Hn.
        unfold OrderedDict.getitem. rewrite Hcounts. simpl.
        destruct (OrderedDict.get (code_id c) counts) as [n|] eqn:Hget;
          [|exfalso; exact (Hpresent c (or_introl eq_refl) Hstop Hget)].
        simpl. rewrite IH; [reflexivity | |].
        -- intros c' Hc'. apply Hpresent. right. exact Hc'.
        -- destruct Hnormal as (c' & [<- | Hc'] & Hn' & Hs); [congruence|]. exists c'. auto.
Qed.

Lemma concat_rows_raises {A B : Type} (f : A -> result (list B)) (xs : list A) (x : A) :
  In x xs -> raises (f x) -> raises (concat_rows f xs).
Proof.
  induction xs as [|a xs IH]; simpl; intros Hin Hx; [destruct Hin|].
  destruct (f a) as [rows | e] eqn:E; simpl; [|exists e; reflexivity].
  destruct Hin as [-> | Hin].
  - destruct Hx as [e He]. congruence.
  - destruct (IH Hin Hx) as [e He]. rewrite He. simpl. exists e. reflexivity.
Qed.

(** X11: the percentages of [demographic_distributions.csv] divide by the
    total of relevant individuals without a guard.  When the tallying pass
    returns and no individual that kept consent carries a NORMAL code of a
    scheme that has one, the rows of that configuration fail with
    [ZeroDivisionError] on the first NORMAL code, and the export raises. *)
Theorem demographic_export_zero_division P individuals st cc key :
  demographic_pass P individuals = Ok st ->
  NoDup (analysis_keys (demog_configurations P)) ->
  In cc (demog_configurations P) ->
  analysis_file_key cc = Some key ->
  well_formed_scheme (code_scheme cc) ->
  (exists c, In c (codes (code_scheme cc)) /\ is_normal c = true) ->
  (forall ind, In ind individuals -> coded_normal cc ind = false) ->
  demographic_configuration_rows st cc = Raise ZeroDivisionError /\
  raises (export_demographic_distributions P st).
Proof.
  intros Hrun Hnd Hin Hkey Hwf (c & Hc & Hnormal) Hnone.
  destruct (demographic_pass_counts _ _ _ _ _ Hrun Hnd Hin Hkey)
    as (counts & Hget & Hcounts & Htotal).
  assert (Hzero : filter (coded_normal cc) individuals = []).
  { clear -Hnone. induction individuals as [|ind l IH]; [reflexivity|].
    simpl. rewrite (Hnone ind (or_introl eq_refl)). apply IH.
    intros x Hx. apply Hnone. right. exact Hx. }
  rewrite Hzero in Htotal. simpl in Htotal.
  assert (Hrows : demographic_configuration_rows st cc = Raise ZeroDivisionError).
  { unfold demographic_configuration_rows. rewrite Hkey.
    apply (demographic_rows_from_zero_total st key counts 0 _ Hget Htotal).
    - intros c' Hc' Hstop. rewrite (Hcounts c' Hc' Hstop). discriminate.
    - exists c. split; [exact Hc|]. split; [exact Hnormal|].
      apply normal_not_stop; [|exact Hnormal].
      unfold well_formed_scheme in Hwf. rewrite Forall_forall in Hwf. apply Hwf. exact Hc. }
  split; [exact Hrows|].
  unfold demog_configurations in Hin. apply in_flat_map in Hin.
  destruct Hin as (plan & Hplan & Hcc). unfold export_demographic_distributions.
  apply (concat_rows_raises _ _ plan Hplan).
  apply (concat_rows_raises _ _ cc Hcc). exists ZeroDivisionError. exact Hrows.
Qed.

Lemma demographic_export_zero_division_witness :
  exists st,
    demographic_pass pipeline [gasira; chausiku] = Ok st /\
    demographic_configuration_rows st gender_configuration = Raise ZeroDivisionError /\
    raises (export_demographic_distributions pipeline st).
Proof.
  eexists. split; [vm_compute; reflexivity|].
  apply (demographic_export_zero_division pipeline [gasira; chausiku] _
           gender_configuration "gender").
  - vm_compute. reflexivity.
  - repeat constructor; simpl; tauto.
  - simpl. tauto.
  - reflexivity.
  - repeat constructor; unfold well_formed_code; simpl; intros; try reflexivity; discriminate.
  - exists (code "code-male" "male" NORMAL None). split; [simpl; tauto | reflexivity].
  - intros ind [<- | [<- | []]]; reflexivity.
Defined.

(* ================================================================= *)
(** * The rows of the theme distributions *)

(** ** What every row of an episode keeps *)

Lemma every_row_set I K row themes :
  every_row I themes -> I row -> every_row I (OrderedDict.set K row themes).
Proof.
  intros Hall Hrow K' row' Hin. apply In_set in Hin.
  destruct Hin as [[_ ->] | Hin]; [exact Hrow | exact (Hall _ _ Hin)].
Qed.

Lemma every_row_getitem I K row themes :
  every_row I themes -> OrderedDict.getitem K themes = Ok row -> I row.
Proof.
  intros Hall Hget. apply getitem_Ok in Hget. apply get_In in Hget. exact (Hall _ _ Hget).
Qed.

Section row_invariant.
Variable P : PipelineConfiguration.
Variable I : SurveyCounts -> Prop.
Hypothesis I_fresh : I (make_survey_counts_dict P).
Hypothesis I_count : forall td row row1 row2,
    I row -> incr_item "Total Participants" row = Ok row1 ->
    update_survey_counts P row1 td = Ok row2 -> I row2.
Hypothesis I_percentages : forall aliased row total row',
    I row -> set_survey_percentages P aliased row total = Ok row' -> I row'.

Lemma init_themes_every_row plan themes :
  init_themes P plan = Ok themes -> every_row I themes.
Proof.
  unfold init_themes. apply (for_each_invariant (every_row I)).
  - intros cc s s' _ Hs Hrun. unfold init_themes_configuration in Hrun.
    inv_bind_as Hrun u Hu. injection Hrun as <-.
    generalize (codes (code_scheme cc)).
    assert (Hs1 : every_row I (OrderedDict.set TOTAL_RELEVANT (make_survey_counts_dict P) s))
      by (apply every_row_set; assumption).
    revert Hs1. generalize (OrderedDict.set TOTAL_RELEVANT (make_survey_counts_dict P) s).
    intros t Ht cs. revert t Ht. induction cs as [|c cs IH]; intros t Ht; simpl; [exact Ht|].
    apply IH. destruct (is_stop c); [exact Ht | apply every_row_set; assumption].
  - intros K row [].
Qed.

Lemma count_in_theme_every_row K td themes themes' :
  every_row I themes -> count_in_theme P K td themes = Ok themes' -> every_row I themes'.
Proof.
  intros Hall Hrun. unfold count_in_theme in Hrun.
  inv_bind_as Hrun row Hrow. inv_bind_as Hrun row1 Hrow1. inv_bind_as Hrun row2 Hrow2.
  injection Hrun as <-. apply every_row_set; [exact Hall|].
  exact (I_count _ _ _ _ (every_row_getitem _ _ _ _ Hall Hrow) Hrow1 Hrow2).
Qed.

Lemma count_themes_of_every_row plan td themes themes' :
  every_row I themes -> count_themes_of P plan td themes = Ok themes' -> every_row I themes'.
Proof.
  intros Hall Hrun. unfold count_themes_of in Hrun. inv_bind_as Hrun flag Hflag.
  destruct (value_eq_str flag Codes.TRUE); [injection Hrun as <-; exact Hall|].
  inv_bind_as Hrun st Hst.
  assert (Hst' : every_row I (fst st)).
  { revert Hst. apply (for_each_invariant (fun s => every_row I (fst s))); [|exact Hall].
    intros cc s s' _ Hs Hcc. unfold count_themes_configuration in Hcc.
    inv_bind_as Hcc u Hu. inv_bind_as Hcc v Hv. inv_bind_as Hcc labels Hlabels.
    revert Hcc. apply (for_each_invariant (fun s => every_row I (fst s))); [|exact Hs].
    intros label t t' _ Ht Hlabel. unfold count_label in Hlabel.
    inv_bind_as Hlabel c Hc. destruct (is_stop c); [injection Hlabel as <-; exact Ht|].
    inv_bind_as Hlabel themes1 Hthemes1. injection Hlabel as <-. simpl.
    exact (count_in_theme_every_row _ _ _ _ Ht Hthemes1). }
  destruct (snd st); [|injection Hrun as <-; exact Hst'].
  exact (count_in_theme_every_row _ _ _ _ Hst' Hrun).
Qed.

Lemma finalize_theme_every_row cc c themes themes' :
  every_row I themes -> finalize_theme P cc c themes = Ok themes' -> every_row I themes'.
Proof.
  intros Hall Hrun. unfold finalize_theme in Hrun.
  destruct (negb (is_normal c)); [injection Hrun as <-; exact Hall|].
  inv_bind_as Hrun theme Htheme. inv_bind_as Hrun total Htotal.
  inv_bind_as Hrun theme' Htheme'. injection Hrun as <-.
  apply every_row_set; [exact Hall|].
  exact (I_percentages _ _ _ _ (every_row_getitem _ _ _ _ Hall Htheme) Htheme').
Qed.

Lemma episode_theme_percentages_every_row plan themes themes' :
  every_row I themes -> episode_theme_percentages P plan themes = Ok themes' ->
  every_row I themes'.
Proof.
  intros Hall Hrun. unfold episode_theme_percentages in Hrun.
  inv_bind_as Hrun total Htotal. inv_bind_as Hrun total' Htotal'.
  revert Hrun. apply (for_each_invariant (every_row I)).
  - intros cc s s' _ Hs Hcc. unfold finalize_themes_configuration in Hcc.
    inv_bind_as Hcc u Hu. revert Hcc. apply (for_each_invariant (every_row I)); [|exact Hs].
    intros c t t' _ Ht. apply finalize_theme_every_row. exact Ht.
  - apply every_row_set; [exact Hall|].
    exact (I_percentages _ _ _ _ (every_row_getitem _ _ _ _ Hall Htotal) Htotal').
Qed.

Lemma episode_themes_every_row plan individuals themes :
  episode_themes P plan individuals = Ok themes -> every_row I themes.
Proof.
  unfold episode_themes, episode_theme_counts. intros Hrun.
  inv_bind_as Hrun counts Hcounts. inv_bind_as Hcounts themes0 Hinit.
  apply init_themes_every_row in Hinit.
  apply (episode_theme_percentages_every_row plan counts); [|exact Hrun].
  revert Hcounts. apply (for_each_invariant (every_row I)); [|exact Hinit].
  intros td s s' _. apply count_themes_of_every_row.
Qed.

End row_invariant.

(** ** The columns of a row *)

Lemma keys_set_In {V : Type} (k k0 : string) (v : V) (d : dict string V) :
  In k (OrderedDict.keys (OrderedDict.set k0 v d)) -> k = k0 \/ In k (OrderedDict.keys d).
Proof.
  unfold OrderedDict.keys. rewrite !in_map_iff. intros ([k' v'] & <- & Hin).
  apply In_set in Hin. destruct Hin as [[-> _] | Hin]; [left; reflexivity|].
  right. exists (k', v'). split; [reflexivity | exact Hin].
Qed.

Lemma survey_key_colon key c : mentions_colon (survey_key key c) = true.
Proof. unfold survey_key. apply mentions_colon_app. Qed.

Lemma survey_pct_key_colon key c : mentions_colon (survey_pct_key key c) = true.
Proof. unfold survey_pct_key. apply mentions_colon_app. Qed.

(** What adding the columns of the codes [cs] under [key] does to the keys. *)
Lemma make_columns_keys key cs (sc : SurveyCounts) :
  let sc' := fold_left
               (fun sc code =>
                  if is_stop code then sc
                  else OrderedDict.set (survey_pct_key key code) CNone
                         (OrderedDict.set (survey_key key code) (CInt 0) sc))
               cs sc in
  (NoDup (OrderedDict.keys sc) -> NoDup (OrderedDict.keys sc')) /\
  incl (OrderedDict.keys sc) (OrderedDict.keys sc') /\
  (forall k, In k (OrderedDict.keys sc') ->
     In k (OrderedDict.keys sc) \/ mentions_colon k = true) /\
  (forall c, In c cs -> is_stop c = false ->
     In (survey_key key c) (OrderedDict.keys sc') /\
     In (survey_pct_key key c) (OrderedDict.keys sc')).
Proof.
  cbv zeta. revert sc. induction cs as [|c cs IH]; intros sc; simpl.
  - split; [auto|]. split; [apply incl_refl|]. split; [auto|]. intros c [].
  - destruct (IH (if is_stop c then sc
                  else OrderedDict.set (survey_pct_key key c) CNone
                         (OrderedDict.set (survey_key key c) (CInt 0) sc)))
      as (Hnd & Hincl & Hcolon & Hcols).
    destruct (is_stop c) eqn:Hstop.
    + split; [exact Hnd|]. split; [exact Hincl|]. split; [exact Hcolon|].
      intros c' [<- | Hc'] Hs; [congruence | exact (Hcols c' Hc' Hs)].
    + split; [|split; [|split]].
      * intros H. apply Hnd. apply NoDup_keys_set. apply NoDup_keys_set. exact H.
      * intros k Hk. apply Hincl. apply In_set_keys. apply In_set_keys. exact Hk.
      * intros k Hk. destruct (Hcolon k Hk) as [Hin | Hc]; [|right; exact Hc].
        apply keys_set_In in Hin. destruct Hin as [-> | Hin];
          [right; apply survey_pct_key_colon|].
        apply keys_set_In in Hin. destruct Hin as [-> | Hin];
          [right; apply survey_key_colon | left; exact Hin].
      * intros c' [<- | Hc'] Hs; [|exact (Hcols c' Hc' Hs)]. split; apply Hincl.
        -- apply In_set_keys. apply In_key_set.
        -- apply In_key_set.
Qed.

Lemma make_survey_counts_dict_fold P :
  make_survey_counts_dict P
  = fold_left make_survey_counts_configuration (survey_configurations P)
      [("Total Participants", CInt 0); ("Total Participants %", CNone)].
Proof. unfold make_survey_counts_dict. rewrite fold_left_flat_map. reflexivity. Qed.

Lemma make_configurations_keys ccs (sc : SurveyCounts) :
  (NoDup (OrderedDict.keys sc) ->
   NoDup (OrderedDict.keys (fold_left make_survey_counts_configuration ccs sc))) /\
  incl (OrderedDict.keys sc)
    (OrderedDict.keys (fold_left make_survey_counts_configuration ccs sc)) /\
  (forall k, In k (OrderedDict.keys (fold_left make_survey_counts_configuration ccs sc)) ->
     In k (OrderedDict.keys sc) \/ mentions_colon k = true) /\
  (forall cc key c, In cc ccs -> analysis_file_key cc = Some key ->
     In c (codes (code_scheme cc)) -> is_stop c = false ->
     In (survey_key key c)
       (OrderedDict.keys (fold_left make_survey_counts_configuration ccs sc)) /\
     In (survey_pct_key key c)
       (OrderedDict.keys (fold_left make_survey_counts_configuration ccs sc))).
Proof.
  revert sc. induction ccs as [|cc ccs IH]; intros sc; simpl.
  - split; [auto|]. split; [apply incl_refl|]. split; [auto|]. intros cc key c [].
  - destruct (IH (make_survey_counts_configuration sc cc)) as (Hnd & Hincl & Hcolon & Hcols).
    assert (Hstep :
      (NoDup (OrderedDict.keys sc) ->
       NoDup (OrderedDict.keys (make_survey_counts_configuration sc cc))) /\
      incl (OrderedDict.keys sc) (OrderedDict.keys (make_survey_counts_configuration sc cc)) /\
      (forall k, In k (OrderedDict.keys (make_survey_counts_configuration sc cc)) ->
         In k (OrderedDict.keys sc) \/ mentions_colon k = true) /\
      (forall key c, analysis_file_key cc = Some key ->
         In c (codes (code_scheme cc)) -> is_stop c = false ->
         In (survey_key key c) (OrderedDict.keys (make_survey_counts_configuration sc cc)) /\
         In (survey_pct_key key c)
           (OrderedDict.keys (make_survey_counts_configuration sc cc)))).
    { unfold make_survey_counts_configuration.
      destruct (analysis_file_key cc) as [key|].
      - destruct (make_columns_keys key (codes (code_scheme cc)) sc) as (H1 & H2 & H3 & H4).
        split; [exact H1|]. split; [exact H2|]. split; [exact H3|].
        intros key' c [= <-]. apply H4.
      - split; [auto|]. split; [apply incl_refl|]. split; [auto|]. discriminate. }
    destruct Hstep as (Hnd1 & Hincl1 & Hcolon1 & Hcols1).
    split; [auto|]. split; [intros k Hk; apply Hincl, Hincl1, Hk|]. split.
    + intros k Hk. destruct (Hcolon k Hk) as [Hin | Hc]; [|right; exact Hc].
      apply Hcolon1. exact Hin.
    + intros cc' key c [<- | Hcc'] Hkey Hc Hstop; [|exact (Hcols cc' key c Hcc' Hkey Hc Hstop)].
      destruct (Hcols1 key c Hkey Hc Hstop) as [Ha Hb]. split; apply Hincl; assumption.
Qed.

Lemma make_survey_counts_dict_keys P :
  NoDup (OrderedDict.keys (make_survey_counts_dict P)) /\
  In "Total Participants" (OrderedDict.keys (make_survey_counts_dict P)) /\
  In "Total Participants %" (OrderedDict.keys (make_survey_counts_dict P)) /\
  (forall k, In k (OrderedDict.keys (make_survey_counts_dict P)) ->
     k = "Total Participants" \/ k = "Total Participants %" \/ mentions_colon k = true) /\
  (forall key c, survey_column P key c ->
     In (survey_key key c) (OrderedDict.keys (make_survey_counts_dict P)) /\
     In (survey_pct_key key c) (OrderedDict.keys (make_survey_counts_dict P))).
Proof.
  rewrite make_survey_counts_dict_fold.
  destruct (make_configurations_keys (survey_configurations P)
              [("Total Participants", CInt 0); ("Total Participants %", CNone)])
    as (Hnd & Hincl & Hcolon & Hcols).
  split; [|split; [|split; [|split]]].
  - apply Hnd. repeat constructor; simpl; intuition discriminate.
  - apply Hincl. simpl. auto.
  - apply Hincl. simpl. auto.
  - intros k Hk. destruct (Hcolon k Hk) as [[<- | [<- | []]] | Hc]; auto.
  - intros key c (cc & Hcc & Hkey & Hc & Hstop). exact (Hcols cc key c Hcc Hkey Hc Hstop).
Qed.

Lemma header_row_has P row k :
  header_row P row -> In k (OrderedDict.keys (make_survey_counts_dict P)) ->
  OrderedDict.get k row <> None.
Proof. intros Hrow Hk. apply get_In_keys. rewrite Hrow. exact Hk. Qed.

Lemma incr_item_keys k row row' :
  incr_item k row = Ok row' -> OrderedDict.keys row' = OrderedDict.keys row.
Proof.
  unfold incr_item. intros H. inv_bind_as H c Hc. inv_bind_as H c' Hc'. injection H as <-.
  apply getitem_Ok in Hc. apply keys_set_present. congruence.
Qed.

Lemma update_survey_counts_keys P row td row' :
  update_survey_counts P row td = Ok row' -> OrderedDict.keys row' = OrderedDict.keys row.
Proof.
  rewrite update_survey_counts_unfold.
  apply (for_each_invariant (fun sc => OrderedDict.keys sc = OrderedDict.keys row));
    [|reflexivity].
  intros cc sc sc' _ Hsc. unfold update_survey_counts_configuration.
  destruct (analysis_file_key cc) as [key|]; [|intros [= <-]; exact Hsc].
  intros Hrun. inv_bind_as Hrun cs Hcs. revert Hrun.
  apply (for_each_invariant (fun s => OrderedDict.keys s = OrderedDict.keys row)); [|exact Hsc].
  intros c s s' _ Hs. destruct (is_stop c); [intros [= <-]; exact Hs|].
  intros Hincr. rewrite (incr_item_keys _ _ _ Hincr). exact Hs.
Qed.

Lemma set_percentage_keys aliased total count_key pct_key sc sc' :
  OrderedDict.get pct_key sc <> None ->
  set_percentage aliased total count_key pct_key sc = Ok sc' ->
  OrderedDict.keys sc' = OrderedDict.keys sc.
Proof.
  unfold set_percentage. intros Hpresent H.
  inv_bind_as H count Hcount. inv_bind_as H t Ht.
  destruct (cell_eq_zero t).
  - injection H as <-. apply keys_set_present. exact Hpresent.
  - inv_bind_as H pct Hpct. injection H as <-. apply keys_set_present. exact Hpresent.
Qed.

Lemma set_survey_percentages_header P aliased sc total sc' :
  header_row P sc -> set_survey_percentages P aliased sc total = Ok sc' -> header_row P sc'.
Proof.
  intros Hrow Hrun. unfold set_survey_percentages in Hrun.
  destruct (make_survey_counts_dict_keys P) as (_ & _ & Hpct & _ & Hcols).
  inv_bind_as Hrun t Ht. inv_bind_as Hrun sc1 Hsc1.
  assert (H1 : header_row P sc1).
  { unfold header_row. rewrite <- Hrow. destruct (cell_eq_zero t).
    - injection Hsc1 as <-. apply keys_set_present. exact (header_row_has _ _ _ Hrow Hpct).
    - inv_bind_as Hsc1 count Hcount. inv_bind_as Hsc1 pct Hp. injection Hsc1 as <-.
      apply keys_set_present. exact (header_row_has _ _ _ Hrow Hpct). }
  rewrite for_each_flat_map in Hrun. revert Hrun.
  apply (for_each_invariant (header_row P)); [|exact H1].
  intros cc s s' Hcc Hs. unfold set_survey_percentages_configuration.
  destruct (analysis_file_key cc) as [key|] eqn:Hkey; [|intros [= <-]; exact Hs].
  apply (for_each_invariant (header_row P)); [|exact Hs].
  intros c u u' Hc Hu. destruct (is_stop c) eqn:Hstop; [intros [= <-]; exact Hu|].
  intros Hset. unfold header_row. rewrite <- Hu.
  apply (set_percentage_keys _ _ _ _ _ _ (header_row_has _ _ _ Hu
           (proj2 (Hcols key c (ex_intro _ cc (conj Hcc (conj Hkey (conj Hc Hstop))))))) Hset).
Qed.

Lemma episode_themes_header P plan individuals themes :
  episode_themes P plan individuals = Ok themes -> every_row (header_row P) themes.
Proof.
  apply (episode_themes_every_row P (header_row P)).
  - reflexivity.
  - intros td row row1 row2 Hrow H1 H2. unfold header_row.
    rewrite (update_survey_counts_keys _ _ _ _ H2), (incr_item_keys _ _ _ H1). exact Hrow.
  - intros aliased row total row'. apply set_survey_percentages_header.
Qed.

(** ** The file *)

Lemma get_app {V : Type} (k : string) (d1 d2 : dict string V) :
  OrderedDict.get k (d1 ++ d2)
  = match OrderedDict.get k d1 with
    | Some v => Some v
    | None => OrderedDict.get k d2
    end.
Proof.
  induction d1 as [|[k' v'] d1 IH]; simpl; [reflexivity|].
  destruct (String.eqb k k'); [reflexivity | exact IH].
Qed.

Lemma dict_update_fresh (base d : dict string cell) :
  NoDup (OrderedDict.keys d) ->
  (forall k, In k (OrderedDict.keys d) -> OrderedDict.get k base = None) ->
  dict_update base d = base ++ d.
Proof.
  unfold dict_update. revert base. induction d as [|[k v] d IH]; simpl; intros base Hnd Hnew.
  - rewrite app_nil_r. reflexivity.
  - inversion Hnd as [|? ? Hk Hd]; subst.
    rewrite (set_absent k v base (Hnew k (or_introl eq_refl))).
    rewrite IH; [rewrite <- app_assoc; reflexivity | exact Hd |].
    intros k' Hk'. rewrite get_app, (Hnew k' (or_intror Hk')). simpl.
    destruct (String.eqb k' k) eqn:E; [|reflexivity].
    apply String.eqb_eq in E. subst k'. contradiction.
Qed.

Lemma map_get_keys (d : dict string cell) :
  NoDup (OrderedDict.keys d) ->
  map (fun h => match OrderedDict.get h d with Some c => c | None => CStr "" end)
    (OrderedDict.keys d)
  = OrderedDict.values d.
Proof.
  unfold OrderedDict.keys, OrderedDict.values.
  induction d as [|[k v] d IH]; simpl; intros Hnd; [reflexivity|].
  inversion Hnd as [|? ? Hk Hd]; subst. rewrite String.eqb_refl. f_equal.
  rewrite <- (IH Hd). apply map_ext_in. intros h Hh.
  destruct (String.eqb h k) eqn:E; [|reflexivity].
  apply String.eqb_eq in E. subst h. contradiction.
Qed.

Lemma forallb_existsb_refl (l : list string) :
  forallb (fun k => existsb (String.eqb k) l) l = true.
Proof.
  apply forallb_forall. intros k Hk. apply existsb_exists.
  exists k. split; [exact Hk | apply String.eqb_refl].
Qed.

Lemma theme_headers_NoDup P : NoDup (theme_headers P).
Proof.
  destruct (make_survey_counts_dict_keys P) as (Hnd & _ & _ & Hkeys & _).
  unfold theme_headers. constructor; [|constructor; [|exact Hnd]].
  - intros [E | Hin]; [discriminate|].
    destruct (Hkeys _ Hin) as [E | [E | E]]; discriminate.
  - intros Hin. destruct (Hkeys _ Hin) as [E | [E | E]]; discriminate.
Qed.

Lemma writerow_theme P question theme row :
  header_row P row ->
  writerow (theme_headers P)
    (dict_update [("Question", CStr question); ("Variable", CStr theme)] row)
  = Ok (theme_cells question theme row).
Proof.
  intros Hrow. pose proof (theme_headers_NoDup P) as Hnd.
  destruct (make_survey_counts_dict_keys P) as (Hnd' & _ & _ & Hkeys & _).
  rewrite dict_update_fresh.
  - assert (Hheaders : OrderedDict.keys
                         ([("Question", CStr question); ("Variable", CStr theme)] ++ row)
                       = theme_headers P).
    { unfold theme_headers. rewrite <- Hrow. reflexivity. }
    unfold writerow. rewrite Hheaders, forallb_existsb_refl.
    rewrite <- Hheaders at 1. rewrite map_get_keys by (rewrite Hheaders; exact Hnd).
    reflexivity.
  - rewrite Hrow. exact Hnd'.
  - intros k Hk. rewrite Hrow in Hk. simpl.
    destruct (String.eqb k "Question") eqn:E1.
    { apply String.eqb_eq in E1. subst k.
      destruct (Hkeys _ Hk) as [E | [E | E]]; discriminate. }
    destruct (String.eqb k "Variable") eqn:E2; [|reflexivity].
    apply String.eqb_eq in E2. subst k.
    destruct (Hkeys _ Hk) as [E | [E | E]]; discriminate.
Qed.

Lemma export_later_themes P episode themes rows :
  every_row (header_row P) themes ->
  for_each themes (export_theme P episode) (rows, Some episode)
  = Ok (rows ++ map (fun entry => theme_cells "" (fst entry) (snd entry)) themes,
        Some episode).
Proof.
  revert rows. induction themes as [|[theme row] themes IH]; simpl; intros rows Hall.
  - rewrite app_nil_r. reflexivity.
  - unfold export_theme at 1. simpl. rewrite String.eqb_refl.
    rewrite (writerow_theme P "" theme row (Hall theme row (or_introl eq_refl))). simpl.
    rewrite IH by (intros K r Hin; apply (Hall K r); right; exact Hin).
    rewrite <- app_assoc. reflexivity.
Qed.

Lemma export_episode P (episode : string * Themes) rows last :
  every_row (header_row P) (snd episode) ->
  last <> Some (fst episode) ->
  exists last',
    for_each (snd episode) (export_theme P (fst episode)) (rows, last)
    = Ok (rows ++ episode_block episode, last') /\
    (last' = last \/ last' = Some (fst episode)).
Proof.
  destruct episode as [name themes]. simpl. intros Hall Hlast.
  unfold episode_block. simpl. destruct themes as [|[theme row] themes]; simpl.
  - exists last. rewrite app_nil_r. auto.
  - exists (Some name). split; [|auto]. unfold export_theme at 1. simpl.
    assert (Hq : match last with
                 | Some l => if String.eqb name l then "" else name
                 | None => name
                 end = name).
    { destruct last as [l|]; [|reflexivity]. destruct (String.eqb name l) eqn:E; [|reflexivity].
      apply String.eqb_eq in E. subst l. congruence. }
    rewrite Hq, (writerow_theme P name theme row (Hall theme row (or_introl eq_refl))). simpl.
    rewrite export_later_themes by (intros K r Hin; apply (Hall K r); right; exact Hin).
    rewrite <- app_assoc. reflexivity.
Qed.

Lemma export_episodes P (episodes : dict string Themes) rows last :
  NoDup (OrderedDict.keys episodes) ->
  (forall name themes, In (name, themes) episodes -> every_row (header_row P) themes) ->
  (forall name, last = Some name -> ~ In name (OrderedDict.keys episodes)) ->
  exists last',
    for_each episodes
      (fun episode st => for_each (snd episode) (export_theme P (fst episode)) st)
      (rows, last)
    = Ok (rows ++ flat_map episode_block episodes, last').
Proof.
  unfold OrderedDict.keys.
  revert rows last. induction episodes as [|[name themes] episodes IH];
    intros rows last Hnd Hall Hlast; simpl.
  - exists last. rewrite app_nil_r. reflexivity.
  - inversion Hnd as [|? ? Hname Hrest]; subst.
    destruct (export_episode P (name, themes) rows last) as (last1 & Hrun & Hlast1).
    + exact (Hall name themes (or_introl eq_refl)).
    + simpl. intros E. apply (Hlast name E). left. reflexivity.
    + simpl in Hrun. rewrite Hrun. simpl.
      destruct (IH (rows ++ episode_block (name, themes)) last1 Hrest) as (last' & Hrun').
      * intros n t Hin. apply (Hall n t). right. exact Hin.
      * intros n E. destruct Hlast1 as [-> | ->].
        -- intros Hin. apply (Hlast n E). right. exact Hin.
        -- simpl in E. injection E as <-. exact Hname.
      * exists last'. rewrite Hrun', <- app_assoc. reflexivity.
Qed.

Lemma theme_pass_headers P individuals episodes :
  theme_pass P individuals = Ok episodes ->
  NoDup (OrderedDict.keys episodes) /\
  forall name themes, In (name, themes) episodes -> every_row (header_row P) themes.
Proof.
  unfold theme_pass.
  apply (for_each_invariant
           (fun episodes : dict string Themes =>
              NoDup (OrderedDict.keys episodes) /\
              forall name themes, In (name, themes) episodes ->
                                  every_row (header_row P) themes)).
  - intros plan s s' _ [Hnd Hall] Hrun. inv_bind_as Hrun themes Hthemes.
    injection Hrun as <-. split; [apply NoDup_keys_set; exact Hnd|].
    intros name t Hin. apply In_set in Hin. destruct Hin as [[_ ->] | Hin].
    + exact (episode_themes_header _ _ _ _ Hthemes).
    + exact (Hall _ _ Hin).
  - split; [constructor|]. intros name themes [].
Qed.

(** X12: the theme pass and the writer of [theme_distributions.csv] agree on
    the columns.  Whenever the theme pass returns, writing the file does not
    fail: no row holds a column that is missing from the header, and none
    lacks one.  The file holds one row for every theme of every episode, in
    order, made of the question, the theme and the cells of the theme's row;
    the question is the episode's raw field on the first row of the episode
    and the empty string on its other rows. *)
Theorem theme_distributions_written P individuals episodes :
  theme_pass P individuals = Ok episodes ->
  theme_distributions_csv P episodes = Ok (flat_map episode_block episodes) /\
  forall cells, In cells (flat_map episode_block episodes) ->
    length cells = length (theme_headers P).
Proof.
  intros Hrun. destruct (theme_pass_headers _ _ _ Hrun) as [Hnd Hall]. split.
  - unfold theme_distributions_csv.
    destruct (export_episodes P episodes [] None Hnd Hall) as (last' & Hexport);
      [discriminate|].
    rewrite Hexport. reflexivity.
  - intros cells Hin. apply in_flat_map in Hin. destruct Hin as ([name themes] & Hep & Hin).
    specialize (Hall name themes Hep).
    assert (Hlen : forall q theme row, In (theme, row) themes ->
                     length (theme_cells q theme row) = length (theme_headers P)).
    { intros q theme row Hrow. unfold theme_cells, theme_headers. simpl. f_equal. f_equal.
      unfold OrderedDict.values. rewrite length_map.
      rewrite <- (Hall theme row Hrow). unfold OrderedDict.keys. rewrite length_map.
      reflexivity. }
    unfold episode_block in Hin. simpl in Hin.
    destruct themes as [|[theme row] themes]; [destruct Hin|].
    destruct Hin as [<- | Hin]; [apply Hlen; left; reflexivity|].
    apply in_map_iff in Hin. destruct Hin as ([theme' row'] & <- & Hin).
    apply Hlen. right. exact Hin.
Qed.

Lemma theme_distributions_written_witness :
  exists episodes rows,
    theme_pass pipeline population = Ok episodes /\
    theme_distributions_csv pipeline episodes = Ok rows /\
    rows = flat_map episode_block episodes /\
    map (firstn 3) rows
    = [ [CStr "rqa_s01e01_raw"; CStr "Total Relevant Participants"; CInt 2];
        [CStr ""; CStr "rqa_s01e01_water"; CInt 2];
        [CStr ""; CStr "rqa_s01e01_food"; CInt 1];
        [CStr ""; CStr "rqa_s01e01_NC"; CInt 0];
        [CStr "rqa_s01e02_raw"; CStr "Total Relevant Participants"; CInt 1];
        [CStr ""; CStr "rqa_s01e02_school"; CInt 1];
        [CStr ""; CStr "rqa_s01e02_NC"; CInt 0] ].
Proof.
  eexists. eexists. split; [vm_compute; reflexivity|].
  split; [apply (theme_distributions_written pipeline population); vm_compute; reflexivity|].
  split; [reflexivity|]. vm_compute. reflexivity.
Defined.

(** ** The percentage of a theme *)

Lemma set_percentage_other aliased total count_key pct_key sc sc' k :
  k <> pct_key ->
  set_percentage aliased total count_key pct_key sc = Ok sc' ->
  OrderedDict.get k sc' = OrderedDict.get k sc.
Proof.
  unfold set_percentage. intros Hne H.
  inv_bind_as H count Hcount. inv_bind_as H t Ht.
  destruct (cell_eq_zero t).
  - injection H as <-. apply get_set_other. congruence.
  - inv_bind_as H pct Hpct. injection H as <-. apply get_set_other. congruence.
Qed.

Lemma set_survey_percentages_pct P aliased sc total sc' n t :
  total_cell sc = Some (CInt n) ->
  total_cell (totals_seen aliased sc total) = Some (CInt t) ->
  set_survey_percentages P aliased sc total = Ok sc' ->
  pct_cell sc' = Some (percentage_cell n t).
Proof.
  unfold set_survey_percentages, total_cell, pct_cell. intros Hn Ht Hrun.
  inv_bind_as Hrun t0 Ht0. apply getitem_Ok in Ht0. rewrite Ht in Ht0.
  injection Ht0 as <-. inv_bind_as Hrun sc1 Hsc1.
  assert (H1 : OrderedDict.get "Total Participants %" sc1 = Some (percentage_cell n t)).
  { unfold percentage_cell. simpl in Hsc1. destruct (Nat.eqb t 0) eqn:E.
    - injection Hsc1 as <-. apply get_set_same.
    - unfold OrderedDict.getitem in Hsc1. rewrite Hn in Hsc1. simpl in Hsc1.
      unfold int_percentage in Hsc1. rewrite E in Hsc1. simpl in Hsc1.
      injection Hsc1 as <-. apply get_set_same. }
  rewrite for_each_flat_map in Hrun. revert Hrun.
  apply (for_each_invariant
           (fun s => OrderedDict.get "Total Participants %" s = Some (percentage_cell n t)));
    [|exact H1].
  intros cc s s' _ Hs. unfold set_survey_percentages_configuration.
  destruct (analysis_file_key cc) as [key|]; [|intros [= <-]; exact Hs].
  apply (for_each_invariant
           (fun s => OrderedDict.get "Total Participants %" s = Some (percentage_cell n t)));
    [|exact Hs].
  intros c u u' _ Hu. destruct (is_stop c); [intros [= <-]; exact Hu|].
  intros Hset.
  assert (Hne : "Total Participants %" <> survey_pct_key key c).
  { intros E. pose proof (survey_pct_key_colon key c) as Hc. rewrite <- E in Hc.
    discriminate. }
  rewrite (set_percentage_other _ _ _ _ _ _ _ Hne Hset). exact Hu.
Qed.

Lemma int_total_fresh P : int_total (make_survey_counts_dict P).
Proof. exists 0. apply make_survey_counts_dict_total. Qed.

Lemma int_total_count P td row row1 row2 :
  int_total row -> incr_item "Total Participants" row = Ok row1 ->
  update_survey_counts P row1 td = Ok row2 -> int_total row2.
Proof.
  intros [n Hn] H1 H2. exists (S n).
  rewrite (update_survey_counts_total _ _ _ _ H2). exact (incr_item_total _ _ _ Hn H1).
Qed.

Lemma int_total_percentages P aliased row total row' :
  int_total row -> set_survey_percentages P aliased row total = Ok row' -> int_total row'.
Proof.
  intros [n Hn] H. exists n. rewrite (set_survey_percentages_total _ _ _ _ _ H). exact Hn.
Qed.

Lemma finalize_theme_sets_percentage P cc c themes themes' total :
  is_normal c = true ->
  every_row int_total themes ->
  theme_total TOTAL_RELEVANT themes = Some (Some (CInt total)) ->
  finalize_theme P cc c themes = Ok themes' ->
  percentage_set (theme_key cc c) total themes'.
Proof.
  unfold finalize_theme. intros Hnormal Hrows Htotal Hrun. rewrite Hnormal in Hrun.
  simpl in Hrun. inv_bind_as Hrun theme Htheme. inv_bind_as Hrun total_row Htotal_row.
  inv_bind_as Hrun theme' Htheme'. injection Hrun as <-.
  destruct (every_row_getitem _ _ _ _ Hrows Htheme) as [n Hn].
  apply getitem_Ok in Htheme, Htotal_row.
  unfold theme_total in Htotal. rewrite Htotal_row in Htotal. simpl in Htotal.
  injection Htotal as Htotal.
  exists theme', n. split; [apply get_set_same|]. split.
  - rewrite (set_survey_percentages_total _ _ _ _ _ Htheme'). exact Hn.
  - assert (Hseen : total_cell (totals_seen (String.eqb (theme_key cc c) TOTAL_RELEVANT)
                                  theme total_row) = Some (CInt total)).
    { unfold totals_seen. destruct (String.eqb (theme_key cc c) TOTAL_RELEVANT) eqn:E.
      - apply String.eqb_eq in E. rewrite E in Htheme. congruence.
      - exact Htotal. }
    exact (set_survey_percentages_pct _ _ _ _ _ _ _ Hn Hseen Htheme').
Qed.

Lemma finalize_theme_keeps_percentage P cc c K themes themes' total :
  every_row int_total themes ->
  theme_total TOTAL_RELEVANT themes = Some (Some (CInt total)) ->
  percentage_set K total themes ->
  finalize_theme P cc c themes = Ok themes' ->
  percentage_set K total themes'.
Proof.
  intros Hrows Htotal Hset Hrun. destruct (is_normal c) eqn:Hnormal.
  - destruct (string_dec (theme_key cc c) K) as [<- | Hne].
    + exact (finalize_theme_sets_percentage _ _ _ _ _ _ Hnormal Hrows Htotal Hrun).
    + unfold finalize_theme in Hrun. rewrite Hnormal in Hrun. simpl in Hrun.
      inv_bind_as Hrun theme Htheme. inv_bind_as Hrun total_row Htotal_row.
      inv_bind_as Hrun theme' Htheme'. injection Hrun as <-.
      destruct Hset as (row & n & Hget & Hn & Hpct). exists row, n.
      rewrite get_set_other by exact Hne. auto.
  - unfold finalize_theme in Hrun. rewrite Hnormal in Hrun. simpl in Hrun.
    injection Hrun as <-. exact Hset.
Qed.

Lemma for_each_establishes {A S : Type} (R Q : S -> Prop) (xs : list A)
  (body : A -> S -> result S) (x0 : A) :
  (forall x s s', R s -> body x s = Ok s' -> R s') ->
  (forall x s s', R s -> Q s -> body x s = Ok s' -> Q s') ->
  In x0 xs ->
  (forall s s', R s -> body x0 s = Ok s' -> Q s') ->
  forall s s', R s -> for_each xs body s = Ok s' -> Q s'.
Proof.
  intros HR HQ Hin Hx0. induction xs as [|x xs IH]; [destruct Hin|].
  intros s s' Hs Hrun. simpl in Hrun. inv_bind_as Hrun s1 Hs1.
  destruct Hin as [-> | Hin].
  - assert (Hboth : R s' /\ Q s').
    { revert Hrun. apply (for_each_invariant (fun s => R s /\ Q s)).
      - intros x s2 s3 _ [H2 H3] Hstep. split; [exact (HR _ _ _ H2 Hstep)|].
        exact (HQ _ _ _ H2 H3 Hstep).
      - split; [exact (HR _ _ _ Hs Hs1) | exact (Hx0 _ _ Hs Hs1)]. }
    exact (proj2 Hboth).
  - exact (IH Hin _ _ (HR _ _ _ Hs Hs1) Hrun).
Qed.

Lemma episode_theme_counts_int P plan individuals counts :
  episode_theme_counts P plan individuals = Ok counts -> every_row int_total counts.
Proof.
  unfold episode_theme_counts. intros Hrun. inv_bind_as Hrun themes0 Hinit.
  apply (init_themes_every_row P int_total (int_total_fresh P)) in Hinit.
  revert Hrun. apply (for_each_invariant (every_row int_total)); [|exact Hinit].
  intros td s s' _. apply (count_themes_of_every_row P int_total (int_total_count P)).
Qed.

Lemma finalize_theme_totals_kept P cc c themes themes' total :
  every_row int_total themes /\
  theme_total TOTAL_RELEVANT themes = Some (Some (CInt total)) ->
  finalize_theme P cc c themes = Ok themes' ->
  every_row int_total themes' /\
  theme_total TOTAL_RELEVANT themes' = Some (Some (CInt total)).
Proof.
  intros [Hrows Htotal] Hrun. split.
  - exact (finalize_theme_every_row P int_total (int_total_percentages P) _ _ _ _ Hrows Hrun).
  - rewrite (finalize_theme_total _ _ _ _ _ Hrun). exact Htotal.
Qed.

Lemma finalize_configuration_totals_kept P cc themes themes' total :
  every_row int_total themes /\
  theme_total TOTAL_RELEVANT themes = Some (Some (CInt total)) ->
  finalize_themes_configuration P cc themes = Ok themes' ->
  every_row int_total themes' /\
  theme_total TOTAL_RELEVANT themes' = Some (Some (CInt total)).
Proof.
  intros HR Hrun. unfold finalize_themes_configuration in Hrun. inv_bind_as Hrun u Hu.
  revert Hrun.
  apply (for_each_invariant
           (fun s => every_row int_total s /\
                     theme_total TOTAL_RELEVANT s = Some (Some (CInt total)))); [|exact HR].
  intros c s s' _. apply finalize_theme_totals_kept.
Qed.

Lemma finalize_configuration_keeps_percentage P cc K themes themes' total :
  every_row int_total themes /\
  theme_total TOTAL_RELEVANT themes = Some (Some (CInt total)) ->
  percentage_set K total themes ->
  finalize_themes_configuration P cc themes = Ok themes' ->
  percentage_set K total themes'.
Proof.
  intros HR HQ Hrun. unfold finalize_themes_configuration in Hrun. inv_bind_as Hrun u Hu.
  assert (Hboth : (every_row int_total themes' /\
                   theme_total TOTAL_RELEVANT themes' = Some (Some (CInt total))) /\
                  percentage_set K total themes').
  { revert Hrun.
    apply (for_each_invariant
             (fun s => (every_row int_total s /\
                        theme_total TOTAL_RELEVANT s = Some (Some (CInt total))) /\
                       percentage_set K total s)); [|split; assumption].
    intros c s s' _ [Hs HsQ] Hstep. split.
    - exact (finalize_theme_totals_kept _ _ _ _ _ _ Hs Hstep).
    - exact (finalize_theme_keeps_percentage _ _ _ _ _ _ _ (proj1 Hs) (proj2 Hs) HsQ Hstep). }
  exact (proj2 Hboth).
Qed.

Lemma finalize_configuration_sets_percentage P cc c themes themes' total :
  In c (codes (code_scheme cc)) ->
  is_normal c = true ->
  every_row int_total themes /\
  theme_total TOTAL_RELEVANT themes = Some (Some (CInt total)) ->
  finalize_themes_configuration P cc themes = Ok themes' ->
  percentage_set (theme_key cc c) total themes'.
Proof.
  intros Hc Hnormal HR Hrun. unfold finalize_themes_configuration in Hrun.
  inv_bind_as Hrun u Hu. revert Hrun.
  apply (for_each_establishes
           (fun s => every_row int_total s /\
                     theme_total TOTAL_RELEVANT s = Some (Some (CInt total)))
           (percentage_set (theme_key cc c) total)
           (codes (code_scheme cc)) (finalize_theme P cc) c).
  - intros c' s s'. apply finalize_theme_totals_kept.
  - intros c' s s' [Hs1 Hs2]. apply finalize_theme_keeps_percentage; assumption.
  - exact Hc.
  - intros s s' [Hs1 Hs2]. apply finalize_theme_sets_percentage; assumption.
  - exact HR.
Qed.

Lemma episode_themes_percentages P plan individuals themes :
  episode_themes P plan individuals = Ok themes ->
  percentage_set TOTAL_RELEVANT (tp_count TOTAL_RELEVANT themes) themes /\
  forall cc c,
    In cc (coding_configurations plan) ->
    In c (codes (code_scheme cc)) ->
    is_normal c = true ->
    percentage_set (theme_key cc c) (tp_count TOTAL_RELEVANT themes) themes.
Proof.
  unfold episode_themes. intros Hrun. inv_bind_as Hrun counts Hcounts.
  apply episode_theme_counts_int in Hcounts.
  unfold episode_theme_percentages in Hrun.
  inv_bind_as Hrun total_row Htotal_row. inv_bind_as Hrun total_row' Htotal_row'.
  destruct (every_row_getitem _ _ _ _ Hcounts Htotal_row) as [total Htotal].
  pose proof (set_survey_percentages_total _ _ _ _ _ Htotal_row') as Hsame.
  assert (HR : every_row int_total (OrderedDict.set TOTAL_RELEVANT total_row' counts) /\
               theme_total TOTAL_RELEVANT (OrderedDict.set TOTAL_RELEVANT total_row' counts)
               = Some (Some (CInt total))).
  { split.
    - apply every_row_set; [exact Hcounts|]. exists total. congruence.
    - unfold theme_total. rewrite get_set_same. simpl. congruence. }
  assert (HQ : percentage_set TOTAL_RELEVANT total
                 (OrderedDict.set TOTAL_RELEVANT total_row' counts)).
  { exists total_row', total. split; [apply get_set_same|]. split; [congruence|].
    exact (set_survey_percentages_pct P true total_row total_row total_row' total total
             Htotal Htotal Htotal_row'). }
  assert (HR' : every_row int_total themes /\
                theme_total TOTAL_RELEVANT themes = Some (Some (CInt total))).
  { revert Hrun.
    apply (for_each_invariant
             (fun s => every_row int_total s /\
                       theme_total TOTAL_RELEVANT s = Some (Some (CInt total))));
      [|exact HR].
    intros cc s s' _. apply finalize_configuration_totals_kept. }
  assert (Hcount : tp_count TOTAL_RELEVANT themes = total).
  { destruct HR' as [_ Ht]. unfold theme_total in Ht. unfold tp_count.
    destruct (OrderedDict.get TOTAL_RELEVANT themes) as [row|]; [|discriminate].
    simpl in Ht. injection Ht as ->. reflexivity. }
  rewrite Hcount. split.
  - assert (Hboth : (every_row int_total themes /\
                     theme_total TOTAL_RELEVANT themes = Some (Some (CInt total))) /\
                    percentage_set TOTAL_RELEVANT total themes).
    { revert Hrun.
      apply (for_each_invariant
               (fun s => (every_row int_total s /\
                          theme_total TOTAL_RELEVANT s = Some (Some (CInt total))) /\
                         percentage_set TOTAL_RELEVANT total s)); [|split; assumption].
      intros cc s s' _ [Hs HsQ] Hstep. split.
      - exact (finalize_configuration_totals_kept _ _ _ _ _ Hs Hstep).
      - exact (finalize_configuration_keeps_percentage _ _ _ _ _ _ Hs HsQ Hstep). }
    exact (proj2 Hboth).
  - intros cc c Hcc Hc Hnormal. revert Hrun.
    apply (for_each_establishes
             (fun s => every_row int_total s /\
                       theme_total TOTAL_RELEVANT s = Some (Some (CInt total)))
             (percentage_set (theme_key cc c) total)
             (coding_configurations plan) (finalize_themes_configuration P) cc).
    + intros cc' s s'. apply finalize_configuration_totals_kept.
    + intros cc' s s'. apply finalize_configuration_keeps_percentage.
    + exact Hcc.
    + intros s s'. apply finalize_configuration_sets_percentage; assumption.
    + exact HR.
Qed.

(** X13: the "Total Participants %" cell of a theme.  When the theme pass
    returns for an episode, the row of the synthetic "Total Relevant
    Participants" theme and the row of every NORMAL code of the episode hold,
    in that cell, the "-" sentinel if the "Total Participants" cell of the
    synthetic row is zero, and otherwise their own "Total Participants" cell
    as a percentage of it, rounded to one decimal. *)
Theorem theme_percentage_cells P plan individuals themes :
  episode_themes P plan individuals = Ok themes ->
  percentage_set TOTAL_RELEVANT (tp_count TOTAL_RELEVANT themes) themes /\
  forall cc c,
    In cc (coding_configurations plan) ->
    In c (codes (code_scheme cc)) ->
    is_normal c = true ->
    percentage_set (theme_key cc c) (tp_count TOTAL_RELEVANT themes) themes.
Proof. exact (episode_themes_percentages P plan individuals themes). Qed.

Lemma theme_percentage_cells_witness :
  exists themes,
    episode_themes pipeline s01e01_plan population = Ok themes /\
    tp_count TOTAL_RELEVANT themes = 2 /\
    map (fun K => option_map pct_cell (OrderedDict.get K themes))
      [TOTAL_RELEVANT; "rqa_s01e01_water"; "rqa_s01e01_food"; "rqa_s01e01_NC"]
    = [ Some (Some (percentage_cell 2 2)); Some (Some (percentage_cell 2 2));
        Some (Some (percentage_cell 1 2)); Some (Some CNone) ] /\
    percentage_set "rqa_s01e01_food" (tp_count TOTAL_RELEVANT themes) themes.
Proof.
  eexists. split; [vm_compute; reflexivity|]. split; [reflexivity|].
  split; [vm_compute; reflexivity|].
  apply (proj2 (theme_percentage_cells pipeline s01e01_plan population _ eq_refl)
           s01e01_configuration (code "code-food" "food" NORMAL None)).
  - simpl. tauto.
  - simpl. tauto.
  - reflexivity.
Defined.

(** ** The count columns of a row *)

Lemma make_columns_int key cs (sc : SurveyCounts) k :
  (forall c, In c cs -> is_stop c = false -> k <> survey_pct_key key c) ->
  (exists n, OrderedDict.get k sc = Some (CInt n)) ->
  exists n,
    OrderedDict.get k
      (fold_left
         (fun sc code =>
            if is_stop code then sc
            else OrderedDict.set (survey_pct_key key code) CNone
                   (OrderedDict.set (survey_key key code) (CInt 0) sc))
         cs sc) = Some (CInt n).
Proof.
  revert sc. induction cs as [|c cs IH]; simpl; intros sc Hne Hget; [exact Hget|].
  apply IH; [intros c' Hc'; apply Hne; right; exact Hc'|].
  destruct (is_stop c) eqn:Hstop; [exact Hget|].
  rewrite get_set_other by (intros E; exact (Hne c (or_introl eq_refl) Hstop (eq_sym E))).
  destruct (string_dec (survey_key key c) k) as [<- | Hk].
  - exists 0. apply get_set_same.
  - rewrite get_set_other by exact Hk. exact Hget.
Qed.

Lemma make_columns_sets key cs (sc : SurveyCounts) c :
  In c cs -> is_stop c = false ->
  (forall c', In c' cs -> is_stop c' = false -> survey_key key c <> survey_pct_key key c') ->
  exists n,
    OrderedDict.get (survey_key key c)
      (fold_left
         (fun sc code =>
            if is_stop code then sc
            else OrderedDict.set (survey_pct_key key code) CNone
                   (OrderedDict.set (survey_key key code) (CInt 0) sc))
         cs sc) = Some (CInt n).
Proof.
  revert sc. induction cs as [|c0 cs IH]; simpl; intros sc Hin Hstop Hne; [destruct Hin|].
  destruct Hin as [-> | Hin].
  - apply make_columns_int; [intros c' Hc'; apply Hne; right; exact Hc'|].
    rewrite Hstop. exists 0.
    rewrite get_set_other
      by (intros E; exact (Hne c (or_introl eq_refl) Hstop (eq_sym E))).
    apply get_set_same.
  - apply IH; [exact Hin | exact Hstop |]. intros c' Hc'. apply Hne. right. exact Hc'.
Qed.

Lemma make_configurations_int ccs (sc : SurveyCounts) k :
  (forall cc key c, In cc ccs -> analysis_file_key cc = Some key ->
     In c (codes (code_scheme cc)) -> is_stop c = false -> k <> survey_pct_key key c) ->
  (exists n, OrderedDict.get k sc = Some (CInt n)) ->
  exists n,
    OrderedDict.get k (fold_left make_survey_counts_configuration ccs sc) = Some (CInt n).
Proof.
  revert sc. induction ccs as [|cc ccs IH]; simpl; intros sc Hne Hget; [exact Hget|].
  apply IH; [intros cc' key c Hcc'; apply Hne; right; exact Hcc'|].
  unfold make_survey_counts_configuration.
  destruct (analysis_file_key cc) as [key|] eqn:Hkey; [|exact Hget].
  apply make_columns_int; [|exact Hget].
  intros c Hc Hstop. exact (Hne cc key c (or_introl eq_refl) Hkey Hc Hstop).
Qed.

Lemma make_configurations_sets ccs (sc : SurveyCounts) cc key c :
  In cc ccs -> analysis_file_key cc = Some key ->
  In c (codes (code_scheme cc)) -> is_stop c = false ->
  (forall cc' key' c', In cc' ccs -> analysis_file_key cc' = Some key' ->
     In c' (codes (code_scheme cc')) -> is_stop c' = false ->
     survey_key key c <> survey_pct_key key' c') ->
  exists n,
    OrderedDict.get (survey_key key c)
      (fold_left make_survey_counts_configuration ccs sc) = Some (CInt n).
Proof.
  revert sc. induction ccs as [|cc0 ccs IH]; simpl; intros sc Hin Hkey Hc Hstop Hne;
    [destruct Hin|].
  destruct Hin as [-> | Hin].
  - apply make_configurations_int.
    + intros cc' key' c' Hcc'. apply Hne. right. exact Hcc'.
    + unfold make_survey_counts_configuration. rewrite Hkey.
      apply make_columns_sets; [exact Hc | exact Hstop |].
      intros c' Hc' Hstop'. exact (Hne cc key c' (or_introl eq_refl) Hkey Hc' Hstop').
  - apply IH; [exact Hin | exact Hkey | exact Hc | exact Hstop |].
    intros cc' key' c' Hcc'. apply Hne. right. exact Hcc'.
Qed.

Lemma int_columns_fresh P : columns_apart P -> int_columns P (make_survey_counts_dict P).
Proof.
  intros Hapart key c Hcol. rewrite make_survey_counts_dict_fold.
  destruct Hcol as (cc & Hcc & Hkey & Hc & Hstop).
  apply (make_configurations_sets _ _ cc key c Hcc Hkey Hc Hstop).
  intros cc' key' c' Hcc' Hkey' Hc' Hstop'. apply Hapart.
  - exists cc. auto.
  - exists cc'. auto.
Qed.

Lemma int_columns_incr P k row row' :
  int_columns P row -> incr_item k row = Ok row' -> int_columns P row'.
Proof.
  unfold incr_item. intros Hrow H key c Hcol.
  inv_bind_as H c0 Hc0. inv_bind_as H c1 Hc1. injection H as <-.
  apply getitem_Ok in Hc0. destruct (Hrow key c Hcol) as [n Hn].
  destruct (string_dec k (survey_key key c)) as [-> | Hk].
  - rewrite get_set_same. rewrite Hn in Hc0. injection Hc0 as <-.
    simpl in Hc1. injection Hc1 as <-. eauto.
  - rewrite get_set_other by exact Hk. eauto.
Qed.

Lemma int_columns_count P td row row1 row2 :
  int_columns P row -> incr_item "Total Participants" row = Ok row1 ->
  update_survey_counts P row1 td = Ok row2 -> int_columns P row2.
Proof.
  intros Hrow H1 H2. apply (int_columns_incr _ _ _ _ Hrow) in H1.
  revert H2. rewrite update_survey_counts_unfold.
  apply (for_each_invariant (int_columns P)); [|exact H1].
  intros cc sc sc' _ Hsc. unfold update_survey_counts_configuration.
  destruct (analysis_file_key cc) as [key|]; [|intros [= <-]; exact Hsc].
  intros Hrun. inv_bind_as Hrun cs Hcs. revert Hrun.
  apply (for_each_invariant (int_columns P)); [|exact Hsc].
  intros c s s' _ Hs. destruct (is_stop c); [intros [= <-]; exact Hs|].
  apply int_columns_incr. exact Hs.
Qed.

Lemma int_columns_percentages P aliased row total row' :
  columns_apart P ->
  int_columns P row -> set_survey_percentages P aliased row total = Ok row' ->
  int_columns P row'.
Proof.
  intros Hapart Hrow Hrun. unfold set_survey_percentages in Hrun.
  inv_bind_as Hrun t Ht. inv_bind_as Hrun sc1 Hsc1.
  assert (H1 : int_columns P sc1).
  { intros key c Hcol. destruct (Hrow key c Hcol) as [n Hn].
    assert (Hne : "Total Participants %" <> survey_key key c).
    { intros E. pose proof (survey_key_colon key c) as Hc. rewrite <- E in Hc.
      discriminate. }
    destruct (cell_eq_zero t).
    - injection Hsc1 as <-. rewrite get_set_other by exact Hne. eauto.
    - inv_bind_as Hsc1 count Hcount. inv_bind_as Hsc1 pct Hp. injection Hsc1 as <-.
      rewrite get_set_other by exact Hne. eauto. }
  rewrite for_each_flat_map in Hrun. revert Hrun.
  apply (for_each_invariant (int_columns P)); [|exact H1].
  intros cc s s' Hcc Hs. unfold set_survey_percentages_configuration.
  destruct (analysis_file_key cc) as [key|] eqn:Hkey; [|intros [= <-]; exact Hs].
  apply (for_each_invariant (int_columns P)); [|exact Hs].
  intros c u u' Hc Hu. destruct (is_stop c) eqn:Hstop; [intros [= <-]; exact Hu|].
  intros Hset key' c' Hcol.
  rewrite (set_percentage_other _ _ _ _ _ _ (survey_key key' c')
             (Hapart key' c' key c Hcol
                (ex_intro _ cc (conj Hcc (conj Hkey (conj Hc Hstop))))) Hset).
  exact (Hu key' c' Hcol).
Qed.

Lemma episode_themes_int_columns P plan individuals themes :
  columns_apart P ->
  episode_themes P plan individuals = Ok themes -> every_row (int_columns P) themes.
Proof.
  intros Hapart. apply (episode_themes_every_row P (int_columns P)).
  - apply int_columns_fresh. exact Hapart.
  - apply int_columns_count.
  - intros aliased row total row'. apply int_columns_percentages. exact Hapart.
Qed.

(* ================================================================= *)
(** * The themes by gender *)

Lemma normal_themes_of_rows plan (episode : Themes) :
  (forall cc c, In cc (coding_configurations plan) -> In c (codes (code_scheme cc)) ->
     is_normal c = true -> OrderedDict.get (theme_key cc c) episode <> None) ->
  exists normal_themes,
    normal_themes_of plan episode = Ok normal_themes /\ rows_of episode normal_themes.
Proof.
  intros Hrows. unfold normal_themes_of.
  apply (for_each_total (rows_of episode)); [|intros sv row []].
  intros cc s Hcc Hs.
  apply (for_each_total (rows_of episode)); [|exact Hs].
  intros c t Hc Ht. unfold collect_normal_theme.
  destruct (is_normal c) eqn:Hnormal; cbn [andb]; [|eauto].
  destruct (negb (existsb (String.eqb (string_value c)) UMBRELLA_THEMES)); [|eauto].
  destruct (OrderedDict.get (theme_key cc c) episode) as [row|] eqn:Hget;
    [|exfalso; exact (Hrows cc c Hcc Hc Hnormal Hget)].
  unfold OrderedDict.getitem. rewrite Hget. cbn [bind]. eexists. split; [reflexivity|].
  intros sv r Hin. apply In_set in Hin. destruct Hin as [[_ ->] | Hin].
  - exists (theme_key cc c). apply get_In. exact Hget.
  - exact (Ht _ _ Hin).
Qed.

Lemma column_count_int P key c row :
  int_columns P row -> survey_column P key c ->
  OrderedDict.get (survey_key key c) row = Some (CInt (column_count key c row)).
Proof.
  intros Hrow Hcol. destruct (Hrow key c Hcol) as [n Hn].
  unfold column_count. rewrite Hn. reflexivity.
Qed.

Lemma gender_row_spec P (episode : Themes) total entry g :
  OrderedDict.get TOTAL_RELEVANT episode = Some total ->
  int_columns P total -> int_columns P (snd entry) ->
  survey_column P "gender" g ->
  gender_row episode (fst entry) (snd entry) g = Ok (gender_row_of total entry g).
Proof.
  intros Htotal Hint Hentry Hcol. unfold gender_row, gender_row_of, OrderedDict.getitem.
  rewrite Htotal. simpl.
  rewrite (column_count_int _ _ _ _ Hint Hcol), (column_count_int _ _ _ _ Hentry Hcol).
  simpl. unfold fraction_cell.
  destruct (Nat.eqb (column_count "gender" g total) 0); reflexivity.
Qed.

Lemma gender_codes_loop P (episode : Themes) total entry cs rows :
  OrderedDict.get TOTAL_RELEVANT episode = Some total ->
  int_columns P total -> int_columns P (snd entry) ->
  (forall g, In g cs -> is_normal g = true -> survey_column P "gender" g) ->
  for_each cs
    (fun gender_code rows =>
       if negb (is_normal gender_code) then Ok rows
       else
         row <- gender_row episode (fst entry) (snd entry) gender_code ;;
         Ok (rows ++ [row]))
    rows
  = Ok (rows ++ map (gender_row_of total entry) (filter is_normal cs)).
Proof.
  intros Htotal Hint Hentry. revert rows.
  induction cs as [|g cs IH]; simpl; intros rows Hcols.
  - rewrite app_nil_r. reflexivity.
  - destruct (is_normal g) eqn:Hnormal; simpl.
    + rewrite (gender_row_spec P episode total entry g Htotal Hint Hentry
                 (Hcols g (or_introl eq_refl) Hnormal)). simpl.
      rewrite IH by (intros g' Hg'; apply Hcols; right; exact Hg').
      rewrite <- app_assoc. reflexivity.
    + apply IH. intros g' Hg'. apply Hcols. right. exact Hg'.
Qed.

Lemma normal_by_gender_rows S P (episode : Themes) total
  (normal_themes : dict string SurveyCounts) :
  OrderedDict.get TOTAL_RELEVANT episode = Some total ->
  int_columns P total ->
  (forall sv row, In (sv, row) normal_themes -> int_columns P row) ->
  (forall g, In g (codes (CodeSchemes.GENDER S)) -> is_normal g = true ->
     survey_column P "gender" g) ->
  normal_by_gender S episode normal_themes
  = Ok (flat_map (fun entry => map (gender_row_of total entry)
                                 (normal_codes (CodeSchemes.GENDER S))) normal_themes).
Proof.
  intros Htotal Hint Hrows Hcols. unfold normal_by_gender.
  assert (Hloop : forall rows,
    for_each normal_themes
      (fun entry rows =>
         for_each (codes (CodeSchemes.GENDER S))
           (fun gender_code rows =>
              if negb (is_normal gender_code) then Ok rows
              else
                row <- gender_row episode (fst entry) (snd entry) gender_code ;;
                Ok (rows ++ [row]))
           rows)
      rows
    = Ok (rows ++ flat_map (fun entry => map (gender_row_of total entry)
                                           (normal_codes (CodeSchemes.GENDER S)))
                    normal_themes)).
  { induction normal_themes as [|[sv row] nt IH]; intros rows.
    - simpl. rewrite app_nil_r. reflexivity.
    - cbn [for_each flat_map].
      rewrite (gender_codes_loop P episode total (sv, row) _ rows Htotal Hint
                 (Hrows sv row (or_introl eq_refl)) Hcols). cbn [bind].
      rewrite IH by (intros sv' row' Hin; apply (Hrows sv' row'); right; exact Hin).
      rewrite <- app_assoc. reflexivity. }
  exact (Hloop []).
Qed.

(** X14: the data of the graphs of themes by gender.  When the theme pass
    returns, no count column shares its name with a percentage column, and
    the NORMAL codes of the gender scheme are columns of the survey catalogue
    under the key "gender", building the data of an episode never fails.
    The episode is skipped when it holds no NORMAL theme outside the three
    umbrella themes; otherwise there is one element for each such theme and
    NORMAL gender code, with the theme's count for that gender and that
    count divided by the count of the relevant participants of that gender,
    or [None] in place of the fraction when the latter is zero. *)
Theorem themes_by_gender_rows S P individuals episodes plan :
  theme_pass P individuals = Ok episodes ->
  columns_apart P ->
  NoDup (map raw_field (RQA_CODING_PLANS P)) ->
  In plan (RQA_CODING_PLANS P) ->
  (forall g, In g (codes (CodeSchemes.GENDER S)) -> is_normal g = true ->
     survey_column P "gender" g) ->
  exists episode total normal_themes,
    OrderedDict.get (raw_field plan) episodes = Some episode /\
    OrderedDict.get TOTAL_RELEVANT episode = Some total /\
    normal_themes_of plan episode = Ok normal_themes /\
    themes_by_gender S episodes plan
    = Ok (if Nat.eqb (length normal_themes) 0 then None
          else Some (flat_map (fun entry => map (gender_row_of total entry)
                                              (normal_codes (CodeSchemes.GENDER S)))
                       normal_themes)).
Proof.
  intros Hrun Hapart Hnd Hplan Hcols.
  destruct (theme_pass_episodes _ _ _ Hrun plan Hplan) as (episode & Hepisode & Hget).
  specialize (Hget Hnd).
  pose proof (episode_themes_int_columns _ _ _ _ Hapart Hepisode) as Hint.
  destruct (episode_themes_percentages _ _ _ _ Hepisode) as [Htotal Hnormal].
  destruct Htotal as (total & n & Htotal & _ & _).
  destruct (normal_themes_of_rows plan episode) as (normal_themes & Hnt & Hrows).
  { intros cc c Hcc Hc Hn. destruct (Hnormal cc c Hcc Hc Hn) as (row & m & Hrow & _).
    congruence. }
  exists episode, total, normal_themes.
  split; [exact Hget|]. split; [exact Htotal|]. split; [exact Hnt|].
  unfold themes_by_gender, OrderedDict.getitem. rewrite Hget. simpl. rewrite Hnt. simpl.
  destruct (Nat.eqb (length normal_themes) 0); [reflexivity|].
  rewrite (normal_by_gender_rows S P episode total normal_themes Htotal).
  - reflexivity.
  - apply (Hint TOTAL_RELEVANT). apply get_In. exact Htotal.
  - intros sv row Hin. destruct (Hrows sv row Hin) as [K HK]. exact (Hint K row HK).
  - exact Hcols.
Qed.

Lemma pipeline_survey_columns key c :
  survey_column pipeline key c <->
  key = "gender" /\ In c (codes GENDER) /\ is_stop c = false.
Proof.
  split.
  - intros (cc & [<- | []] & [= <-] & Hc & Hstop). auto.
  - intros (-> & Hc & Hstop). exists gender_configuration.
    split; [left; reflexivity|]. auto.
Qed.

Lemma pipeline_columns_apart : columns_apart pipeline.
Proof.
  intros key c key' c' Hc Hc'.
  apply pipeline_survey_columns in Hc, Hc'.
  destruct Hc as (-> & Hc & _). destruct Hc' as (-> & Hc' & _).
  simpl in Hc, Hc'.
  repeat match goal with
         | H : _ \/ _ |- _ => destruct H as [<- | H]
         | H : False |- _ => destruct H
         end; discriminate.
Qed.

Lemma themes_by_gender_rows_witness :
  exists episodes rows,
    theme_pass pipeline [amina; chausiku] = Ok episodes /\
    themes_by_gender code_schemes episodes s01e01_plan = Ok (Some rows) /\
    map (fun r => (RQA_Theme r, Gender r, Number_of_Participants r)) rows
    = [ ("water", "male", CInt 0); ("water", "female", CInt 1);
        ("food", "male", CInt 0); ("food", "female", CInt 1) ] /\
    map Fraction_of_Relevant_Participants rows
    = [ CNone; CFloat (int_truediv 1 1); CNone; CFloat (int_truediv 1 1) ] /\
    exists episode total normal_themes,
      OrderedDict.get (raw_field s01e01_plan) episodes = Some episode /\
      OrderedDict.get TOTAL_RELEVANT episode = Some total /\
      normal_themes_of s01e01_plan episode = Ok normal_themes /\
      themes_by_gender code_schemes episodes s01e01_plan
      = Ok (if Nat.eqb (length normal_themes) 0 then None
            else Some (flat_map (fun entry => map (gender_row_of total entry)
                                                (normal_codes (CodeSchemes.GENDER code_schemes)))
                         normal_themes)).
Proof.
  eexists. eexists. split; [vm_compute; reflexivity|].
  split; [vm_compute; reflexivity|]. split; [vm_compute; reflexivity|].
  split; [vm_compute; reflexivity|].
  apply (themes_by_gender_rows code_schemes pipeline [amina; chausiku] _ s01e01_plan).
  - vm_compute. reflexivity.
  - exact pipeline_columns_apart.
  - repeat constructor; simpl; intuition discriminate.
  - simpl. tauto.
  - intros g Hg Hnormal. apply pipeline_survey_columns.
    split; [reflexivity|]. split; [exact Hg|].
    simpl in Hg. destruct Hg as [<- | [<- | [<- | [<- | []]]]]; try reflexivity; discriminate.
Defined.

(* ================================================================= *)
(** * The season distributions *)

Lemma init_label_counts_zero scheme sv n :
  OrderedDict.get sv (init_label_counts scheme) = Some n -> n = 0.
Proof.
  unfold init_label_counts.
  assert (Hacc : forall cs (d : dict string nat),
            (forall n, OrderedDict.get sv d = Some n -> n = 0) ->
            forall n,
              OrderedDict.get sv
                (fold_left (fun d code => OrderedDict.set (string_value code) 0 d) cs d)
              = Some n -> n = 0).
  { induction cs as [|c cs IH]; simpl; intros d Hd; [exact Hd|].
    apply IH. intros m. destruct (string_dec (string_value c) sv) as [<- | Hne].
    - rewrite get_set_same. congruence.
    - rewrite get_set_other by exact Hne. apply Hd. }
  apply Hacc. intros m. discriminate.
Qed.

Lemma init_label_counts_present scheme c :
  In c (codes scheme) ->
  OrderedDict.get (string_value c) (init_label_counts scheme) = Some 0.
Proof.
  intros Hc.
  assert (Hin : In (string_value c) (OrderedDict.keys (init_label_counts scheme))).
  { unfold init_label_counts. generalize (@OrderedDict.empty string nat).
    induction (codes scheme) as [|c0 cs IH]; [destruct Hc|]. intros d. simpl.
    destruct Hc as [-> | Hc]; [|exact (IH Hc _)].
    clear IH. generalize (OrderedDict.set (string_value c) 0 d) (In_key_set (string_value c) 0 d).
    induction cs as [|c1 cs IH]; intros d' Hd'; simpl; [exact Hd'|].
    apply IH. apply In_set_keys. exact Hd'. }
  apply get_In_keys in Hin.
  destruct (OrderedDict.get (string_value c) (init_label_counts scheme)) as [n|] eqn:E;
    [|congruence].
  rewrite (init_label_counts_zero _ _ _ E). reflexivity.
Qed.

Lemma counted_init_label_counts scheme : counted (init_label_counts scheme) = 0.
Proof.
  unfold init_label_counts.
  assert (Hacc : forall cs (d : dict string nat),
            counted d = 0 ->
            counted (fold_left (fun d code => OrderedDict.set (string_value code) 0 d) cs d)
            = 0).
  { induction cs as [|c cs IH]; simpl; intros d Hd; [exact Hd|].
    apply IH. pose proof (counted_set (string_value c) 0 d) as Hset. lia. }
  apply Hacc. reflexivity.
Qed.

Lemma count_single_label_spec key ind seen label_counts label_counts' :
  labels_counted (holds key) seen label_counts ->
  count_single_label key ind label_counts = Ok label_counts' ->
  labels_counted (holds key) (seen ++ [ind]) label_counts' /\
  counted label_counts' = S (counted label_counts) /\
  OrderedDict.keys label_counts' = OrderedDict.keys label_counts /\
  exists sv, OrderedDict.get key ind = Some (VStr sv) /\
             OrderedDict.get sv label_counts <> None.
Proof.
  unfold count_single_label. intros Hseen H.
  inv_bind_as H v Hv. inv_bind_as H k Hk. inv_bind_as H n Hn. injection H as <-.
  apply getitem_Ok in Hv, Hn. destruct v as [x | l | ls]; simpl in Hk; try discriminate.
  injection Hk as ->. split; [|split; [|split]].
  - intros sv m. rewrite filter_snoc_length. unfold holds at 2. rewrite Hv. simpl.
    destruct (String.eqb k sv) eqn:E.
    + apply String.eqb_eq in E. subst sv. rewrite get_set_same. intros [= <-].
      rewrite (Hseen k n Hn). lia.
    + apply String.eqb_neq in E. rewrite get_set_other by exact E. intros Hm.
      rewrite (Hseen sv m Hm). lia.
  - pose proof (counted_set k (S n) label_counts) as Hset. rewrite Hn in Hset. lia.
  - apply keys_set_present. congruence.
  - exists k. split; [exact Hv | congruence].
Qed.

(** X15: the season distribution of a single-select variable (lines
    600-630).  For a configuration that is graphed, counting the labels
    reads the cell every individual holds under the analysis key, whether or
    not the individual withdrew consent: when it returns, the count of a
    label is the number of individuals whose cell is that label, every
    individual's cell is one of the scheme's string values, and the counts
    add up to the number of individuals. *)
Theorem season_distribution_single dd individuals cc key out :
  analysis_file_key cc = Some key ->
  coding_mode cc = SINGLE ->
  OrderedDict.contains key dd = false ->
  season_distribution dd individuals cc = Ok out ->
  exists label_counts,
    out = Some label_counts /\
    labels_counted (holds key) individuals label_counts /\
    counted label_counts = length individuals /\
    OrderedDict.keys label_counts = OrderedDict.keys (init_label_counts (code_scheme cc)) /\
    forall ind, In ind individuals ->
      exists sv, OrderedDict.get key ind = Some (VStr sv) /\
                 OrderedDict.get sv label_counts <> None.
Proof.
  unfold season_distribution. intros -> -> -> Hrun.
  inv_bind_as Hrun label_counts Hcounts. injection Hrun as <-.
  exists label_counts. split; [reflexivity|].
  assert (Hloop : forall inds seen lc lc',
    labels_counted (holds key) seen lc ->
    for_each inds (count_single_label key) lc = Ok lc' ->
    labels_counted (holds key) (seen ++ inds) lc' /\
    counted lc' = counted lc + length inds /\
    OrderedDict.keys lc' = OrderedDict.keys lc /\
    forall ind, In ind inds ->
      exists sv, OrderedDict.get key ind = Some (VStr sv) /\
                 OrderedDict.get sv lc' <> None).
  { induction inds as [|ind inds IH]; simpl; intros seen lc lc' Hseen Hrun.
    - injection Hrun as <-. rewrite app_nil_r. split; [exact Hseen|].
      split; [lia|]. split; [reflexivity|]. intros ind [].
    - inv_bind_as Hrun lc1 Hlc1.
      destruct (count_single_label_spec _ _ _ _ _ Hseen Hlc1) as (H1 & H2 & H3 & H4).
      destruct (IH _ _ _ H1 Hrun) as (H1' & H2' & H3' & H4').
      rewrite <- app_assoc in H1'. split; [exact H1'|]. split; [lia|].
      split; [congruence|]. intros x [<- | Hx]; [|exact (H4' x Hx)].
      destruct H4 as (sv & Hsv & Hpresent). exists sv. split; [exact Hsv|].
      apply get_In_keys. rewrite H3', H3. apply get_In_keys. exact Hpresent. }
  destruct (Hloop individuals [] (init_label_counts (code_scheme cc)) label_counts)
    as (H1 & H2 & H3 & H4).
  - intros sv n Hn. rewrite (init_label_counts_zero _ _ _ Hn). reflexivity.
  - exact Hcounts.
  - rewrite counted_init_label_counts in H2. auto.
Qed.

Lemma season_distribution_single_witness :
  exists label_counts,
    season_distribution [("gender", [("code-male", 1)])] analysis_rows
      age_category_configuration = Ok (Some label_counts) /\
    label_counts = [("18 to 35", 1); ("36 to 54", 1); ("NC", 0); ("STOP", 1)] /\
    counted label_counts = length analysis_rows.
Proof.
  destruct (season_distribution_single [("gender", [("code-male", 1)])] analysis_rows
              age_category_configuration "age_category"
              (Some [("18 to 35", 1); ("36 to 54", 1); ("NC", 0); ("STOP", 1)])
              eq_refl eq_refl eq_refl eq_refl)
    as (label_counts & Hout & _ & Hsum & _).
  injection Hout as <-. eexists. split; [reflexivity|]. split; [reflexivity | exact Hsum].
Defined.

Lemma count_matrix_labels_codes key ind cs (lc lc' : dict string nat) :
  NoDup (map string_value cs) ->
  for_each cs
    (fun code lc =>
       v <- OrderedDict.getitem (key ++ string_value code)%string ind ;;
       if value_eq_str v MATRIX_1 then
         n <- OrderedDict.getitem (string_value code) lc ;;
         Ok (OrderedDict.set (string_value code) (S n) lc)
       else Ok lc)
    lc = Ok lc' ->
  OrderedDict.keys lc' = OrderedDict.keys lc /\
  forall sv,
    OrderedDict.get sv lc'
    = if existsb (fun c => String.eqb (string_value c) sv) cs && selected key sv ind
      then option_map S (OrderedDict.get sv lc)
      else OrderedDict.get sv lc.
Proof.
  revert lc. induction cs as [|c cs IH]; simpl; intros lc Hnd Hrun.
  - injection Hrun as <-. split; reflexivity.
  - inversion Hnd as [|? ? Hc Hcs]; subst. inv_bind_as Hrun lc1 Hlc1.
    inv_bind_as Hlc1 v Hv. apply getitem_Ok in Hv.
    destruct (IH _ Hcs Hrun) as [Hkeys Hget].
    assert (Hnot : forall sv, sv = string_value c ->
                     existsb (fun c' => String.eqb (string_value c') sv) cs = false).
    { intros sv ->. destruct (existsb _ cs) eqn:E; [|reflexivity].
      apply existsb_exists in E. destruct E as (c' & Hc' & E).
      apply String.eqb_eq in E. exfalso. apply Hc. rewrite <- E. apply in_map. exact Hc'. }
    assert (Hsel : selected key (string_value c) ind = value_eq_str v MATRIX_1).
    { unfold selected, holds. rewrite Hv. reflexivity. }
    destruct (value_eq_str v MATRIX_1) eqn:Ev.
    + inv_bind_as Hlc1 n Hn. injection Hlc1 as <-. apply getitem_Ok in Hn. split.
      * rewrite Hkeys. apply keys_set_present. congruence.
      * intros sv. rewrite Hget. destruct (String.eqb (string_value c) sv) eqn:E; simpl.
        -- apply String.eqb_eq in E. subst sv. rewrite (Hnot _ eq_refl). simpl.
           rewrite Hsel, get_set_same, Hn. reflexivity.
        -- apply String.eqb_neq in E. rewrite get_set_other by exact E. reflexivity.
    + injection Hlc1 as <-. split; [exact Hkeys|].
      intros sv. rewrite Hget. destruct (String.eqb (string_value c) sv) eqn:E; simpl;
        [|reflexivity].
      apply String.eqb_eq in E. subst sv. rewrite (Hnot _ eq_refl). simpl.
      rewrite Hsel. reflexivity.
Qed.

(** X16: the season distribution of a multi-select variable (lines
    600-630).  For a configuration that is graphed and whose codes have
    distinct string values, when counting returns the count of every code is
    the number of individuals, withdrawn or not, whose matrix cell for that
    code is "1". *)
Theorem season_distribution_multiple dd individuals cc key out :
  analysis_file_key cc = Some key ->
  coding_mode cc = MULTIPLE ->
  OrderedDict.contains key dd = false ->
  NoDup (map string_value (codes (code_scheme cc))) ->
  season_distribution dd individuals cc = Ok out ->
  exists label_counts,
    out = Some label_counts /\
    OrderedDict.keys label_counts = OrderedDict.keys (init_label_counts (code_scheme cc)) /\
    forall c, In c (codes (code_scheme cc)) ->
      OrderedDict.get (string_value c) label_counts
      = Some (length (filter (selected key (string_value c)) individuals)).
Proof.
  unfold season_distribution. intros -> -> -> Hnd Hrun.
  inv_bind_as Hrun label_counts Hcounts. injection Hrun as <-.
  exists label_counts. split; [reflexivity|].
  assert (Hloop : forall inds seen lc lc',
    OrderedDict.keys lc = OrderedDict.keys (init_label_counts (code_scheme cc)) /\
    (forall c, In c (codes (code_scheme cc)) ->
       OrderedDict.get (string_value c) lc
       = Some (length (filter (selected key (string_value c)) seen))) ->
    for_each inds (count_matrix_labels key (code_scheme cc)) lc = Ok lc' ->
    OrderedDict.keys lc' = OrderedDict.keys (init_label_counts (code_scheme cc)) /\
    (forall c, In c (codes (code_scheme cc)) ->
       OrderedDict.get (string_value c) lc'
       = Some (length (filter (selected key (string_value c)) (seen ++ inds))))).
  { induction inds as [|ind inds IH]; simpl; intros seen lc lc' Hseen Hloop.
    - injection Hloop as <-. rewrite app_nil_r. exact Hseen.
    - inv_bind_as Hloop lc1 Hlc1. unfold count_matrix_labels in Hlc1.
      destruct (count_matrix_labels_codes _ _ _ _ _ Hnd Hlc1) as [Hkeys Hget].
      replace (seen ++ ind :: inds) with ((seen ++ [ind]) ++ inds)
        by (rewrite <- app_assoc; reflexivity).
      apply (IH (seen ++ [ind]) lc1 lc'); [|exact Hloop].
      destruct Hseen as [Hk Hc]. split; [congruence|].
      intros c Hin. rewrite Hget, (Hc c Hin), filter_snoc_length.
      assert (Hex : existsb (fun c' => String.eqb (string_value c') (string_value c))
                      (codes (code_scheme cc)) = true).
      { apply existsb_exists. exists c. split; [exact Hin | apply String.eqb_refl]. }
      rewrite Hex. simpl. destruct (selected key (string_value c) ind); simpl; f_equal; lia. }
  apply (Hloop individuals [] (init_label_counts (code_scheme cc)) label_counts);
    [|exact Hcounts].
  split; [reflexivity|]. intros c Hc. apply init_label_counts_present. exact Hc.
Qed.

Lemma season_distribution_multiple_witness :
  exists label_counts,
    season_distribution [("gender", [("code-male", 1)])] analysis_rows
      s01e01_configuration = Ok (Some label_counts) /\
    label_counts = [("water", 2); ("food", 1); ("NC", 0); ("STOP", 1)] /\
    forall c, In c (codes S01E01) ->
      OrderedDict.get (string_value c) label_counts
      = Some (length (filter (selected "rqa_s01e01_" (string_value c)) analysis_rows)).
Proof.
  destruct (season_distribution_multiple [("gender", [("code-male", 1)])] analysis_rows
              s01e01_configuration "rqa_s01e01_"
              (Some [("water", 2); ("food", 1); ("NC", 0); ("STOP", 1)])
              eq_refl eq_refl eq_refl)
    as (label_counts & Hout & _ & Hcounts).
  - repeat constructor; simpl; intuition discriminate.
  - reflexivity.
  - injection Hout as <-. eexists. split; [reflexivity|]. split; [reflexivity | exact Hcounts].
Defined.

(* ================================================================= *)
(** * Sampling and the edges of the theme pass *)

(** X17: the sample of a code never asks for more messages than its pool
    holds.  The sample size is the smaller of 100 and the size of the pool,
    so [random.sample] does not raise: when collecting the messages of every
    episode and configuration returns, the whole sampling step returns. *)
Theorem sampling_returns U R P messages g :
  (forall plan cc, In (plan, cc) (rqa_configurations P) ->
     exists code_to_messages, collect_messages U plan cc messages = Ok code_to_messages) ->
  exists rows g', sample_messages U R P messages g = Ok (rows, g').
Proof.
  intros Hcollect. unfold sample_messages. rewrite for_each_pairs.
  destruct (for_each_total (fun _ : list SampleRow * rng R => True)
              (rqa_configurations P)
              (fun pc => sample_configuration U R messages (fst pc) (snd pc)))
    with (s := (@nil SampleRow, g)) as ([rows g'] & Hrun & _).
  - intros [plan cc] st Hin _. simpl. unfold sample_configuration.
    destruct (Hcollect plan cc Hin) as [d Hd]. rewrite Hd. simpl.
    destruct (sample_loop_spec R plan cc d st) as (block & g1 & Hloop & _).
    rewrite Hloop. eauto.
  - exact I.
  - eauto.
Qed.

Lemma sampling_returns_witness :
  exists rows g', sample_messages simple_utils first_k pipeline s01e01_messages tt
                  = Ok (rows, g').
Proof.
  apply (sampling_returns simple_utils first_k pipeline s01e01_messages tt).
  intros plan cc [E | [E | []]]; injection E as <- <-; eexists; vm_compute; reflexivity.
Defined.

Lemma count_themes_of_no_configuration P plan td themes :
  coding_configurations plan = [] ->
  OrderedDict.get "consent_withdrawn" td <> None ->
  count_themes_of P plan td themes = Ok themes.
Proof.
  intros Hnone Hflag. unfold count_themes_of, OrderedDict.getitem.
  destruct (OrderedDict.get "consent_withdrawn" td) as [flag|]; [|congruence].
  simpl. destruct (value_eq_str flag Codes.TRUE); [reflexivity|].
  rewrite Hnone. reflexivity.
Qed.

(** X18: the row of the relevant participants exists only through a coding
    configuration.  For an episode whose plan has no coding configuration,
    counting changes nothing and the percentages fail on the missing row:
    when every individual carries a consent flag the episode raises
    [KeyError] for "Total Relevant Participants", and so does the theme pass
    of a catalogue that starts with such a plan. *)
Theorem episode_without_configuration P plan individuals :
  coding_configurations plan = [] ->
  (forall ind, In ind individuals -> OrderedDict.get "consent_withdrawn" ind <> None) ->
  episode_themes P plan individuals = Raise (KeyError TOTAL_RELEVANT) /\
  forall plans, RQA_CODING_PLANS P = plan :: plans ->
    theme_pass P individuals = Raise (KeyError TOTAL_RELEVANT).
Proof.
  intros Hnone Hflags.
  assert (Hcounts : episode_theme_counts P plan individuals = Ok OrderedDict.empty).
  { unfold episode_theme_counts, init_themes. rewrite Hnone. simpl.
    clear -Hnone Hflags. induction individuals as [|ind individuals IH]; [reflexivity|].
    simpl. rewrite (count_themes_of_no_configuration P plan ind _ Hnone
                      (Hflags ind (or_introl eq_refl))). simpl.
    apply IH. intros x Hx. apply Hflags. right. exact Hx. }
  assert (Hepisode : episode_themes P plan individuals = Raise (KeyError TOTAL_RELEVANT)).
  { unfold episode_themes. rewrite Hcounts. reflexivity. }
  split; [exact Hepisode|].
  intros plans Hplans. unfold theme_pass. rewrite Hplans. simpl. rewrite Hepisode.
  reflexivity.
Qed.

Lemma episode_without_configuration_witness :
  episode_themes pipeline
    {| dataset_name := "s01e03"; raw_field := "rqa_s01e03_raw";
       coding_configurations := [] |} population
  = Raise (KeyError "Total Relevant Participants").
Proof.
  apply (episode_without_configuration pipeline
           {| dataset_name := "s01e03"; raw_field := "rqa_s01e03_raw";
              coding_configurations := [] |} population).
  - reflexivity.
  - intros ind [<- | [<- | [<- | []]]]; discriminate.
Defined.

Lemma percentage_unset_fresh P : percentage_unset (make_survey_counts_dict P).
Proof.
  unfold percentage_unset, pct_cell, make_survey_counts_dict. rewrite fold_left_flat_map.
  assert (Hacc : forall ccs sc,
            OrderedDict.get "Total Participants %"
              (fold_left make_survey_counts_configuration ccs sc)
            = OrderedDict.get "Total Participants %" sc).
  { induction ccs as [|cc ccs IH]; intros sc; simpl; [reflexivity|].
    rewrite IH. unfold make_survey_counts_configuration.
    destruct (analysis_file_key cc) as [key|]; [|reflexivity].
    generalize (codes (code_scheme cc)). intros cs. revert sc.
    induction cs as [|c cs IHc]; intros sc; simpl; [reflexivity|].
    rewrite IHc. destruct (is_stop c); [reflexivity|].
    rewrite !get_set_other; [reflexivity | |].
    - intros E. pose proof (survey_key_colon key c) as Hc. rewrite E in Hc. discriminate.
    - intros E. pose proof (survey_pct_key_colon key c) as Hc. rewrite E in Hc.
      discriminate. }
  rewrite Hacc. reflexivity.
Qed.

Lemma percentage_unset_count P td row row1 row2 :
  percentage_unset row -> incr_item "Total Participants" row = Ok row1 ->
  update_survey_counts P row1 td = Ok row2 -> percentage_unset row2.
Proof.
  unfold percentage_unset, pct_cell. intros Hrow H1 H2.
  assert (Hrow1 : OrderedDict.get "Total Participants %" row1 = Some CNone).
  { rewrite (incr_item_other "Total Participants" "Total Participants %" _ _) with (2 := H1);
      [exact Hrow | discriminate]. }
  revert H2. rewrite update_survey_counts_unfold.
  apply (for_each_invariant
           (fun sc => OrderedDict.get "Total Participants %" sc = Some CNone)); [|exact Hrow1].
  intros cc sc sc' _ Hsc. unfold update_survey_counts_configuration.
  destruct (analysis_file_key cc) as [key|]; [|intros [= <-]; exact Hsc].
  intros Hrun. inv_bind_as Hrun cs Hcs. revert Hrun.
  apply (for_each_invariant
           (fun sc => OrderedDict.get "Total Participants %" sc = Some CNone)); [|exact Hsc].
  intros c s s' _ Hs. destruct (is_stop c); [intros [= <-]; exact Hs|].
  intros Hincr.
  rewrite (incr_item_other (survey_key key c) "Total Participants %" _ _) with (2 := Hincr);
    [exact Hs|].
  intros E. pose proof (survey_key_colon key c) as Hc. rewrite E in Hc. discriminate.
Qed.

Lemma episode_theme_counts_unset P plan individuals counts :
  episode_theme_counts P plan individuals = Ok counts -> every_row percentage_unset counts.
Proof.
  unfold episode_theme_counts. intros Hrun. inv_bind_as Hrun themes0 Hinit.
  apply (init_themes_every_row P percentage_unset (percentage_unset_fresh P)) in Hinit.
  revert Hrun. apply (for_each_invariant (every_row percentage_unset)); [|exact Hinit].
  intros td s s' _.
  apply (count_themes_of_every_row P percentage_unset (percentage_unset_count P)).
Qed.

Lemma finalize_theme_other_row P cc c K themes themes' :
  (is_normal c = true -> theme_key cc c <> K) ->
  finalize_theme P cc c themes = Ok themes' ->
  OrderedDict.get K themes' = OrderedDict.get K themes.
Proof.
  unfold finalize_theme. intros Hne Hrun. destruct (is_normal c); simpl in Hrun.
  - inv_bind_as Hrun theme Htheme. inv_bind_as Hrun total Htotal.
    inv_bind_as Hrun theme' Htheme'. injection Hrun as <-.
    apply get_set_other. apply Hne. reflexivity.
  - injection Hrun as <-. reflexivity.
Qed.

(** X19: the percentages of an episode are computed for the synthetic row
    and for the themes of NORMAL codes only.  When the theme pass returns
    for an episode, the row of any other theme, such as the theme of a
    control code, still holds [None] in its "Total Participants %" cell. *)
Theorem control_theme_percentage_unset P plan individuals themes K row :
  episode_themes P plan individuals = Ok themes ->
  K <> TOTAL_RELEVANT ->
  (forall cc c, In cc (coding_configurations plan) -> In c (codes (code_scheme cc)) ->
     is_normal c = true -> theme_key cc c <> K) ->
  OrderedDict.get K themes = Some row ->
  pct_cell row = Some CNone.
Proof.
  unfold episode_themes. intros Hrun HK Hother Hget. inv_bind_as Hrun counts Hcounts.
  apply episode_theme_counts_unset in Hcounts.
  assert (Hsame : OrderedDict.get K themes = OrderedDict.get K counts).
  { unfold episode_theme_percentages in Hrun.
    inv_bind_as Hrun total Htotal. inv_bind_as Hrun total' Htotal'. revert Hrun.
    apply (for_each_invariant (fun s => OrderedDict.get K s = OrderedDict.get K counts)).
    - intros cc s s' Hcc Hs Hstep. unfold finalize_themes_configuration in Hstep.
      inv_bind_as Hstep u Hu. revert Hstep.
      apply (for_each_invariant (fun s => OrderedDict.get K s = OrderedDict.get K counts));
        [|exact Hs].
      intros c t t' Hc Ht Hfin.
      rewrite (finalize_theme_other_row _ _ _ K _ _ (Hother cc c Hcc Hc) Hfin). exact Ht.
    - apply get_set_other. congruence. }
  rewrite Hsame in Hget. apply get_In in Hget. exact (Hcounts K row Hget).
Qed.

Lemma control_theme_percentage_unset_witness :
  exists themes row,
    episode_themes pipeline s01e01_plan [amina; gasira] = Ok themes /\
    OrderedDict.get "rqa_s01e01_NC" themes = Some row /\
    pct_cell row = Some CNone.
Proof.
  eexists. eexists. split; [vm_compute; reflexivity|]. split; [vm_compute; reflexivity|].
  eapply (control_theme_percentage_unset pipeline s01e01_plan [amina; gasira] _
            "rqa_s01e01_NC").
  - vm_compute. reflexivity.
  - discriminate.
  - intros cc c [<- | []] Hc Hnormal. simpl in Hc.
    destruct Hc as [<- | [<- | [<- | [<- | []]]]]; discriminate.
  - vm_compute. reflexivity.
Defined.

(* ================================================================= *)
(** * The frequencies of the maps *)

Lemma NoDup_app_snoc {A : Type} (l : list A) (x : A) (l' : list A) :
  NoDup (l ++ x :: l') -> ~ In x l /\ NoDup ((l ++ [x]) ++ l').
Proof.
  intros Hnd. split.
  - apply NoDup_remove_2 in Hnd. intros Hin. apply Hnd. apply in_or_app. left. exact Hin.
  - rewrite <- app_assoc. exact Hnd.
Qed.

Lemma normal_frequencies_loop key (dd : dict string (dict string nat)) counts
  (g : Code -> nat) cs (frequencies : dict string nat) :
  OrderedDict.get key dd = Some counts ->
  (forall c, In c cs -> is_normal c = true ->
     OrderedDict.get (code_id c) counts = Some (g c)) ->
  NoDup (OrderedDict.keys frequencies ++ map string_value (filter is_normal cs)) ->
  for_each cs
    (fun code frequencies =>
       if is_normal code then
         counts <- OrderedDict.getitem key dd ;;
         n <- OrderedDict.getitem (code_id code) counts ;;
         Ok (OrderedDict.set (string_value code) n frequencies)
       else Ok frequencies)
    frequencies
  = Ok (frequencies ++ map (fun c => (string_value c, g c)) (filter is_normal cs)).
Proof.
  intros Hcounts. revert frequencies.
  induction cs as [|c cs IH]; simpl; intros frequencies Hget Hnd.
  - rewrite app_nil_r. reflexivity.
  - destruct (is_normal c) eqn:Hnormal.
    + unfold OrderedDict.getitem at 1 2.
      rewrite Hcounts. simpl. rewrite (Hget c (or_introl eq_refl) Hnormal). simpl.
      simpl in Hnd. apply NoDup_app_snoc in Hnd. destruct Hnd as [Hnew Hnd].
      rewrite set_absent.
      * rewrite IH.
        -- rewrite <- app_assoc. reflexivity.
        -- intros c' Hc'. apply Hget. right. exact Hc'.
        -- unfold OrderedDict.keys in *. rewrite map_app. exact Hnd.
      * destruct (OrderedDict.get (string_value c) frequencies) eqn:E; [|reflexivity].
        exfalso. apply Hnew. apply get_In_keys. congruence.
    + apply IH; [|exact Hnd]. intros c' Hc'. apply Hget. right. exact Hc'.
Qed.

(** X20: the frequencies of the participation maps (lines 398-403, 467-470
    and 519-523) are the counts of the demographic pass.  When the pass
    returns, for a configuration exported under [key] whose NORMAL codes are
    not stop codes and have distinct string values, reading the frequencies
    of the scheme's NORMAL codes under [key] never fails and gives, for each
    NORMAL code in the order of the scheme, the number of individuals that
    kept consent and are labelled with it. *)
Theorem map_frequencies_of_pass P individuals st cc key :
  demographic_pass P individuals = Ok st ->
  NoDup (analysis_keys (demog_configurations P)) ->
  In cc (demog_configurations P) ->
  analysis_file_key cc = Some key ->
  well_formed_scheme (code_scheme cc) ->
  NoDup (map string_value (normal_codes (code_scheme cc))) ->
  normal_frequencies (code_scheme cc) key (demographic_distributions st)
  = Ok (map (fun c => (string_value c,
                       length (filter (coded_as cc (code_id c)) individuals)))
          (normal_codes (code_scheme cc))).
Proof.
  intros Hrun Hnd Hin Hkey Hwf Hsv.
  destruct (demographic_pass_counts _ _ _ _ _ Hrun Hnd Hin Hkey)
    as (counts & Hget & Hcounts & _).
  unfold normal_frequencies.
  rewrite (normal_frequencies_loop key _ counts
             (fun c => length (filter (coded_as cc (code_id c)) individuals))
             _ OrderedDict.empty Hget).
  - reflexivity.
  - intros c Hc Hnormal. apply Hcounts; [exact Hc|].
    apply normal_not_stop; [|exact Hnormal].
    unfold well_formed_scheme in Hwf. rewrite Forall_forall in Hwf. apply Hwf. exact Hc.
  - exact Hsv.
Qed.

Lemma map_frequencies_of_pass_witness :
  exists st,
    demographic_pass pipeline [amina; baraka; chausiku; gasira; faraja] = Ok st /\
    normal_frequencies GENDER "gender" (demographic_distributions st)
    = Ok [("male", 2); ("female", 1)].
Proof.
  eexists. split; [vm_compute; reflexivity|].
  rewrite (map_frequencies_of_pass pipeline [amina; baraka; chausiku; gasira; faraja] _
             gender_configuration "gender").
  - vm_compute. reflexivity.
  - vm_compute. reflexivity.
  - repeat constructor; simpl; tauto.
  - simpl. tauto.
  - reflexivity.
  - repeat constructor; unfold well_formed_code; simpl; intros; try reflexivity; discriminate.
  - repeat constructor; simpl; intuition discriminate.
Defined.

Lemma survey_frequencies_loop P key row cs (frequencies : dict string cell) :
  int_columns P row ->
  (forall c, In c cs -> is_normal c = true -> survey_column P key c) ->
  NoDup (OrderedDict.keys frequencies ++ map string_value (filter is_normal cs)) ->
  for_each cs
    (fun code frequencies =>
       if is_normal code then
         c <- OrderedDict.getitem (survey_key key code) row ;;
         Ok (OrderedDict.set (string_value code) c frequencies)
       else Ok frequencies)
    frequencies
  = Ok (frequencies
        ++ map (fun c => (string_value c, CInt (column_count key c row)))
             (filter is_normal cs)).
Proof.
  intros Hrow. revert frequencies.
  induction cs as [|c cs IH]; simpl; intros frequencies Hcols Hnd.
  - rewrite app_nil_r. reflexivity.
  - destruct (is_normal c) eqn:Hnormal.
    + unfold OrderedDict.getitem at 1.
      rewrite (column_count_int P key c row Hrow (Hcols c (or_introl eq_refl) Hnormal)).
      simpl. simpl in Hnd. apply NoDup_app_snoc in Hnd. destruct Hnd as [Hnew Hnd].
      rewrite set_absent.
      * rewrite IH.
        -- rewrite <- app_assoc. reflexivity.
        -- intros c' Hc'. apply Hcols. right. exact Hc'.
        -- unfold OrderedDict.keys in *. rewrite map_app. exact Hnd.
      * destruct (OrderedDict.get (string_value c) frequencies) eqn:E; [|reflexivity].
        exfalso. apply Hnew. apply get_In_keys. congruence.
    + apply IH; [|exact Hnd]. intros c' Hc'. apply Hcols. right. exact Hc'.
Qed.

(** X21: the frequencies of the per-theme maps (lines 418-424, 445-449,
    486-490 and 543-548) are read from columns that exist.  When the theme
    pass returns for an episode, no count column shares its name with a
    percentage column, and the NORMAL codes of the mapped scheme are columns
    of the survey catalogue under [key] with distinct string values, reading
    them from any row of the episode never fails and gives an integer for
    every NORMAL code, in the order of the scheme. *)
Theorem map_frequencies_of_theme P plan individuals themes scheme key K row :
  episode_themes P plan individuals = Ok themes ->
  columns_apart P ->
  (forall c, In c (codes scheme) -> is_normal c = true -> survey_column P key c) ->
  NoDup (map string_value (normal_codes scheme)) ->
  OrderedDict.get K themes = Some row ->
  survey_frequencies scheme key row
  = Ok (map (fun c => (string_value c, CInt (column_count key c row))) (normal_codes scheme)).
Proof.
  intros Hrun Hapart Hcols Hsv Hget.
  pose proof (episode_themes_int_columns _ _ _ _ Hapart Hrun K row (get_In _ _ _ Hget))
    as Hrow.
  unfold survey_frequencies.
  rewrite (survey_frequencies_loop P key row _ OrderedDict.empty Hrow Hcols Hsv).
  reflexivity.
Qed.

Lemma map_frequencies_of_theme_witness :
  exists themes row,
    episode_themes pipeline s01e01_plan [amina; baraka; faraja] = Ok themes /\
    OrderedDict.get TOTAL_RELEVANT themes = Some row /\
    survey_frequencies GENDER "gender" row = Ok [("male", CInt 2); ("female", CInt 1)].
Proof.
  eexists. eexists. split; [vm_compute; reflexivity|]. split; [vm_compute; reflexivity|].
  erewrite (map_frequencies_of_theme pipeline s01e01_plan [amina; baraka; faraja] _
              GENDER "gender" TOTAL_RELEVANT).
  - vm_compute. reflexivity.
  - vm_compute. reflexivity.
  - exact pipeline_columns_apart.
  - intros c Hc Hnormal. apply pipeline_survey_columns.
    split; [reflexivity|]. split; [exact Hc|].
    simpl in Hc. destruct Hc as [<- | [<- | [<- | [<- | []]]]]; try reflexivity; discriminate.
  - repeat constructor; simpl; intuition discriminate.
  - vm_compute. reflexivity.
Defined.

(* ================================================================= *)
(** * The graph of a demographic and the contacts file of the counties *)

Lemma demographic_graph_loop st key i cs rows data :
  demographic_rows_from st key i cs = Ok rows ->
  for_each cs
    (fun code data =>
       if is_stop code then Ok data
       else
         counts <- OrderedDict.getitem key (demographic_distributions st) ;;
         n <- OrderedDict.getitem (code_id code) counts ;;
         Ok (data ++ [(string_value code, n)]))
    data
  = Ok (data ++ map (fun r => (row_Code r, row_Participants_with_Opt_Ins r)) rows).
Proof.
  revert i rows data. induction cs as [|c cs IH]; simpl; intros i rows data H.
  - injection H as <-. rewrite app_nil_r. reflexivity.
  - inv_bind_as H r Hr. inv_bind_as H rest Hrest. injection H as <-.
    unfold demographic_row in Hr. destruct (is_stop c).
    + injection Hr as <-. exact (IH _ _ _ Hrest).
    + inv_bind_as Hr counts Hcounts. inv_bind_as Hr n Hn. inv_bind_as Hr percent Hpercent.
      injection Hr as <-. rewrite Hcounts at 1. simpl. rewrite Hn. simpl.
      rewrite (IH _ _ _ Hrest). rewrite <- app_assoc. reflexivity.
Qed.

(** X22: the bar chart of a demographic shows the numbers of the CSV file.
    For a configuration with an analysis key, a scheme of more than 200 codes
    is not graphed; otherwise, whenever the rows of the configuration were
    exported, the data of the chart is the code and the number of
    participants of each exported row, in the same order. *)
Theorem demographic_graph_matches_rows st cc key :
  analysis_file_key cc = Some key ->
  (200 < length (codes (code_scheme cc)) ->
   demographic_graph_data (demographic_distributions st) cc = Ok None) /\
  (length (codes (code_scheme cc)) <= 200 ->
   forall rows, demographic_configuration_rows st cc = Ok rows ->
     demographic_graph_data (demographic_distributions st) cc
     = Ok (Some (map (fun r => (row_Code r, row_Participants_with_Opt_Ins r)) rows))).
Proof.
  intros Hkey. unfold demographic_graph_data, demographic_configuration_rows.
  rewrite Hkey. split.
  - intros Hlong. apply Nat.ltb_lt in Hlong. rewrite Hlong. reflexivity.
  - intros Hshort rows Hrows. apply Nat.ltb_ge in Hshort. rewrite Hshort.
    rewrite (demographic_graph_loop st key 0 _ rows [] Hrows). reflexivity.
Qed.

Lemma demographic_graph_matches_rows_witness :
  demographic_graph_data
    [("gender", [("code-male", 1); ("code-female", 1); ("code-NC", 0)])]
    gender_configuration
  = Ok (Some [("male", 1); ("female", 1); ("NC", 0)]).
Proof.
  destruct (demographic_graph_matches_rows
              {| demographic_distributions :=
                   [("gender", [("code-male", 1); ("code-female", 1); ("code-NC", 0)])];
                 total_relevant := [("gender", 2)] |}
              gender_configuration "gender" eq_refl) as [_ Hshort].
  assert (Hle : length (codes (code_scheme gender_configuration)) <= 200) by (simpl; lia).
  exact (Hshort Hle _ eq_refl).
Defined.

(** X23: [export_contact_lists.py] from the loaded files to the rows of the
    contacts file.  When the script returns, the uuids it found are exactly
    the uids of the records whose county label resolves to a target county:
    the consent flag of a record is not read, and a record whose county is
    the string "STOP" is passed over.  A row is exported exactly for the
    numbers the table gave for those uuids; it holds "+" and the number, and
    an empty name. *)
Theorem contact_lists_exported T code_scheme files found rows :
  export_contact_lists T code_scheme files = Ok (found, rows) ->
  (forall u, In u (uuids found) <-> target_contact code_scheme files u) /\
  exists lut,
    uuid_to_data_batch T (uuids found) = Ok lut /\
    forall row, In row rows <->
      exists u number,
        target_contact code_scheme files u /\ OrderedDict.get u lut = Some number /\
        row = {| URN_Tel := ("+" ++ number)%string; Name := "" |}.
Proof.
  unfold export_contact_lists. intros H. inv_bind_as H st Hsearch.
  inv_bind_as H converted Hconv. injection H as <- <-.
  unfold search_contacts in Hsearch.
  destruct (search_files_spec _ _ _ _ Hsearch) as [Hmembers Hin]. simpl in Hmembers, Hin.
  destruct Hmembers as [Hnd _]; [split; [constructor | reflexivity]|].
  assert (Hsel : forall u, In u (uuids st) <-> target_contact code_scheme files u).
  { intros u. rewrite Hin. tauto. }
  split; [exact Hsel|].
  destruct converted as [phone_numbers skipped_uuids].
  destruct (uuids_to_phone_numbers_lut _ _ _ _ Hnd Hconv) as (lut & Hlut & _ & Hp).
  exists lut. split; [exact Hlut|]. simpl.
  intros row. unfold contact_rows. rewrite in_map_iff. split.
  - intros (n & <- & Hn). apply Hp in Hn. destruct Hn as (u & number & Hu & Hget & ->).
    exists u, number. rewrite <- Hsel. auto.
  - intros (u & number & Hu & Hget & ->). exists ("+" ++ number)%string.
    split; [reflexivity|]. apply Hp. exists u, number. rewrite Hsel. auto.
Qed.

Lemma contact_lists_exported_witness :
  exists found rows,
    export_contact_lists phone_table KENYA_COUNTY contact_files = Ok (found, rows) /\
    rows = [ {| URN_Tel := "+254000000001"; Name := "" |};
             {| URN_Tel := "+254000000002"; Name := "" |} ] /\
    withdrawn makueni_contact = true /\
    In "avf-uuid-2" (uuids found) /\
    ~ In "avf-uuid-9" (uuids found) /\
    forall u, In u (uuids found) <-> target_contact KENYA_COUNTY contact_files u.
Proof.
  eexists. eexists. split; [vm_compute; reflexivity|]. split; [reflexivity|].
  split; [reflexivity|]. split; [simpl; tauto|]. split; [simpl; intuition discriminate|].
  eapply (contact_lists_exported phone_table KENYA_COUNTY contact_files).
  vm_compute. reflexivity.
Defined.

(* ================================================================= *)
(** * The cells of the cross-tabulation *)

Section cell_measure.
Variable P : PipelineConfiguration.
Variable I : SurveyCounts -> Prop.
Variable m : SurveyCounts -> nat.
Variable h : TracedData -> nat.
Hypothesis fresh_measure : I (make_survey_counts_dict P) /\ m (make_survey_counts_dict P) = 0.
Hypothesis count_measure : forall td row row1 row2,
    I row -> incr_item "Total Participants" row = Ok row1 ->
    update_survey_counts P row1 td = Ok row2 -> I row2 /\ m row2 = m row + h td.
Hypothesis percentages_measure : forall aliased row total row',
    I row -> set_survey_percentages P aliased row total = Ok row' ->
    I row' /\ m row' = m row.

Lemma measure_at_set K K' row themes :
  measure_at m K' (OrderedDict.set K row themes)
  = if String.eqb K' K then m row else measure_at m K' themes.
Proof.
  unfold measure_at. destruct (String.eqb K' K) eqn:E.
  - apply String.eqb_eq in E. subst K'. rewrite get_set_same. reflexivity.
  - apply String.eqb_neq in E. rewrite get_set_other by congruence. reflexivity.
Qed.

Lemma init_themes_measure plan themes :
  init_themes P plan = Ok themes ->
  every_row I themes /\ forall K, measure_at m K themes = 0.
Proof.
  intros Hinit. split.
  - exact (init_themes_every_row P I (proj1 fresh_measure) _ _ Hinit).
  - apply init_themes_fresh in Hinit. intros K. unfold measure_at.
    destruct (OrderedDict.get K themes) as [row|] eqn:Hget; [|reflexivity].
    rewrite (Hinit K row Hget). exact (proj2 fresh_measure).
Qed.

Lemma count_in_theme_measure K td themes themes' :
  every_row I themes ->
  count_in_theme P K td themes = Ok themes' ->
  every_row I themes' /\
  forall K', measure_at m K' themes'
             = measure_at m K' themes + (if String.eqb K' K then h td else 0).
Proof.
  intros Hall Hrun. unfold count_in_theme in Hrun.
  inv_bind_as Hrun row Hrow. inv_bind_as Hrun row1 Hrow1. inv_bind_as Hrun row2 Hrow2.
  injection Hrun as <-.
  destruct (count_measure _ _ _ _ (every_row_getitem _ _ _ _ Hall Hrow) Hrow1 Hrow2)
    as [HI Hm].
  split; [apply every_row_set; assumption|].
  intros K'. rewrite measure_at_set. destruct (String.eqb K' K) eqn:E; [|lia].
  apply String.eqb_eq in E. subst K'. apply getitem_Ok in Hrow.
  unfold measure_at. rewrite Hrow. exact Hm.
Qed.

Lemma count_label_measure cc td label st st' :
  every_row I (fst st) ->
  count_label P cc td label st = Ok st' ->
  every_row I (fst st') /\
  (forall K, measure_at m K (fst st')
             = measure_at m K (fst st) + label_hits cc K label * h td) /\
  snd st' = snd st || label_relevant cc label.
Proof.
  intros Hall Hrun. unfold count_label in Hrun. inv_bind_as Hrun c Hc.
  unfold label_hits, label_relevant, label_code. rewrite Hc.
  destruct (is_stop c).
  - injection Hrun as <-. split; [exact Hall|]. split; [intros K; lia|].
    simpl. rewrite orb_false_r. reflexivity.
  - inv_bind_as Hrun themes Hthemes. injection Hrun as <-. simpl.
    destruct (count_in_theme_measure _ _ _ _ Hall Hthemes) as [Hall' Hcount].
    split; [exact Hall'|]. split.
    + intros K. rewrite Hcount, (String.eqb_sym K).
      destruct (String.eqb (theme_key cc c) K); lia.
    + destruct (is_normal c); [rewrite orb_true_r | rewrite orb_false_r]; reflexivity.
Qed.

Lemma count_labels_measure cc td labels st st' :
  every_row I (fst st) ->
  for_each labels (count_label P cc td) st = Ok st' ->
  every_row I (fst st') /\
  (forall K, measure_at m K (fst st')
             = measure_at m K (fst st) + list_sum (map (label_hits cc K) labels) * h td) /\
  snd st' = snd st || existsb (label_relevant cc) labels.
Proof.
  revert st. induction labels as [|label labels IH]; intros st Hall Hrun; simpl in Hrun.
  - injection Hrun as <-. split; [exact Hall|]. split; [intros K; simpl; lia|].
    simpl. rewrite orb_false_r. reflexivity.
  - inv_bind_as Hrun st1 Hst1.
    destruct (count_label_measure _ _ _ _ _ Hall Hst1) as (Hall1 & Hcount1 & Hflag1).
    destruct (IH _ Hall1 Hrun) as (Hall' & Hcount' & Hflag').
    split; [exact Hall'|]. split.
    + intros K. rewrite Hcount', Hcount1. simpl. lia.
    + rewrite Hflag', Hflag1. simpl. rewrite orb_assoc. reflexivity.
Qed.

Lemma count_themes_configurations_measure td ccs st st' :
  every_row I (fst st) ->
  for_each ccs (count_themes_configuration P td) st = Ok st' ->
  every_row I (fst st') /\
  (forall K, measure_at m K (fst st')
             = measure_at m K (fst st) + list_sum (map (config_hits td K) ccs) * h td) /\
  snd st' = snd st || existsb (config_relevant td) ccs.
Proof.
  revert st. induction ccs as [|cc ccs IH]; intros st Hall Hrun; simpl in Hrun.
  - injection Hrun as <-. split; [exact Hall|]. split; [intros K; simpl; lia|].
    simpl. rewrite orb_false_r. reflexivity.
  - inv_bind_as Hrun st1 Hst1.
    assert (Hstep : every_row I (fst st1) /\
                    (forall K, measure_at m K (fst st1)
                               = measure_at m K (fst st) + config_hits td K cc * h td) /\
                    snd st1 = snd st || config_relevant td cc).
    { unfold count_themes_configuration in Hst1.
      inv_bind_as Hst1 u Hu. inv_bind_as Hst1 v Hv. inv_bind_as Hst1 labels Hlabels.
      apply getitem_Ok in Hv.
      unfold config_hits, config_relevant, field_labels. rewrite Hv, Hlabels.
      exact (count_labels_measure cc td labels st st1 Hall Hst1). }
    destruct Hstep as (Hall1 & Hcount1 & Hflag1).
    destruct (IH _ Hall1 Hrun) as (Hall' & Hcount' & Hflag').
    split; [exact Hall'|]. split.
    + intros K. rewrite Hcount', Hcount1. simpl. lia.
    + rewrite Hflag', Hflag1. simpl. rewrite orb_assoc. reflexivity.
Qed.

Lemma count_themes_of_measure plan td themes themes' :
  every_row I themes ->
  count_themes_of P plan td themes = Ok themes' ->
  every_row I themes' /\
  forall K, measure_at m K themes' = measure_at m K themes + theme_updates plan K td * h td.
Proof.
  intros Hall Hrun. unfold count_themes_of in Hrun.
  inv_bind_as Hrun flag Hflag. apply getitem_Ok in Hflag.
  unfold theme_updates, individual_hits, relevant_hits, relevant_participant, withdrawn.
  rewrite Hflag. destruct (value_eq_str flag Codes.TRUE).
  - injection Hrun as <-. split; [exact Hall|]. intros K. simpl.
    destruct (String.eqb K TOTAL_RELEVANT); lia.
  - inv_bind_as Hrun st Hst.
    destruct (count_themes_configurations_measure _ _ (themes, false) _ Hall Hst)
      as (Hall1 & Hcount1 & Hflag1).
    simpl in Hcount1, Hflag1. rewrite <- Hflag1. simpl.
    destruct (snd st).
    + destruct (count_in_theme_measure _ _ _ _ Hall1 Hrun) as [Hall' Hcount'].
      split; [exact Hall'|]. intros K. rewrite Hcount', Hcount1.
      destruct (String.eqb K TOTAL_RELEVANT); lia.
    + injection Hrun as <-. split; [exact Hall1|]. intros K. rewrite Hcount1.
      destruct (String.eqb K TOTAL_RELEVANT); lia.
Qed.

Lemma count_themes_loop_measure plan individuals themes themes' :
  every_row I themes ->
  for_each individuals (count_themes_of P plan) themes = Ok themes' ->
  every_row I themes' /\
  forall K, measure_at m K themes'
            = measure_at m K themes
              + list_sum (map (fun td => theme_updates plan K td * h td) individuals).
Proof.
  revert themes. induction individuals as [|td individuals IH]; intros themes Hall Hrun;
    simpl in Hrun.
  - injection Hrun as <-. split; [exact Hall|]. intros K. simpl. lia.
  - inv_bind_as Hrun themes1 Hthemes1.
    destruct (count_themes_of_measure _ _ _ _ Hall Hthemes1) as [Hall1 Hcount1].
    destruct (IH _ Hall1 Hrun) as [Hall' Hcount'].
    split; [exact Hall'|]. intros K. rewrite Hcount', Hcount1. simpl. lia.
Qed.

Lemma finalize_theme_measure cc c themes themes' :
  every_row I themes ->
  finalize_theme P cc c themes = Ok themes' ->
  every_row I themes' /\ forall K, measure_at m K themes' = measure_at m K themes.
Proof.
  intros Hall Hrun. unfold finalize_theme in Hrun.
  destruct (negb (is_normal c)); [injection Hrun as <-; split; [exact Hall | reflexivity]|].
  inv_bind_as Hrun theme Htheme. inv_bind_as Hrun total Htotal.
  inv_bind_as Hrun theme' Htheme'. injection Hrun as <-.
  destruct (percentages_measure _ _ _ _ (every_row_getitem _ _ _ _ Hall Htheme) Htheme')
    as [HI Hm].
  split; [apply every_row_set; assumption|].
  intros K. rewrite measure_at_set. destruct (String.eqb K (theme_key cc c)) eqn:E;
    [|reflexivity].
  apply String.eqb_eq in E. subst K. apply getitem_Ok in Htheme.
  unfold measure_at. rewrite Htheme. exact Hm.
Qed.

Lemma episode_themes_measure plan individuals themes :
  episode_themes P plan individuals = Ok themes ->
  forall K, measure_at m K themes
            = list_sum (map (fun td => theme_updates plan K td * h td) individuals).
Proof.
  unfold episode_themes, episode_theme_counts. intros Hrun.
  inv_bind_as Hrun counts Hcounts. inv_bind_as Hcounts themes0 Hinit.
  destruct (init_themes_measure _ _ Hinit) as [Hall0 Hzero].
  destruct (count_themes_loop_measure _ _ _ _ Hall0 Hcounts) as [Hall Hcount].
  unfold episode_theme_percentages in Hrun.
  inv_bind_as Hrun total Htotal. inv_bind_as Hrun total' Htotal'.
  destruct (percentages_measure _ _ _ _ (every_row_getitem _ _ _ _ Hall Htotal) Htotal')
    as [HI Hm].
  assert (Hboth : every_row I themes /\
                  forall K, measure_at m K themes = measure_at m K counts).
  { revert Hrun.
    apply (for_each_invariant
             (fun s => every_row I s /\
                       forall K, measure_at m K s = measure_at m K counts)).
    - intros cc s s' _ Hs Hcc. unfold finalize_themes_configuration in Hcc.
      inv_bind_as Hcc u Hu. revert Hcc.
      apply (for_each_invariant
               (fun s => every_row I s /\
                         forall K, measure_at m K s = measure_at m K counts));
        [|exact Hs].
      intros c t t' _ [Ht1 Ht2] Hfin.
      destruct (finalize_theme_measure _ _ _ _ Ht1 Hfin) as [Ht1' Ht2'].
      split; [exact Ht1'|]. intros K. rewrite Ht2'. apply Ht2.
    - split; [apply every_row_set; assumption|].
      intros K. rewrite measure_at_set. destruct (String.eqb K TOTAL_RELEVANT) eqn:E;
        [|reflexivity].
      apply String.eqb_eq in E. subst K. apply getitem_Ok in Htotal.
      unfold measure_at. rewrite Htotal. exact Hm. }
  intros K. rewrite (proj2 Hboth), Hcount, Hzero. reflexivity.
Qed.

End cell_measure.

Lemma make_cells_zero P k n :
  OrderedDict.get k (make_survey_counts_dict P) = Some (CInt n) -> n = 0.
Proof.
  rewrite make_survey_counts_dict_fold.
  assert (Hacc : forall ccs (sc : SurveyCounts),
            (forall n, OrderedDict.get k sc = Some (CInt n) -> n = 0) ->
            forall n,
              OrderedDict.get k (fold_left make_survey_counts_configuration ccs sc)
              = Some (CInt n) -> n = 0).
  { induction ccs as [|cc ccs IH]; simpl; intros sc Hsc; [exact Hsc|].
    apply IH. unfold make_survey_counts_configuration.
    destruct (analysis_file_key cc) as [key|]; [|exact Hsc].
    generalize (codes (code_scheme cc)). intros cs. revert sc Hsc.
    induction cs as [|c cs IHc]; simpl; intros sc Hsc; [exact Hsc|].
    apply IHc. destruct (is_stop c); [exact Hsc|]. intros x.
    destruct (string_dec (survey_pct_key key c) k) as [<- | Hp].
    - rewrite get_set_same. discriminate.
    - rewrite get_set_other by exact Hp.
      destruct (string_dec (survey_key key c) k) as [<- | Hk].
      + rewrite get_set_same. congruence.
      + rewrite get_set_other by exact Hk. apply Hsc. }
  apply Hacc. intros x. simpl.
  destruct (String.eqb k "Total Participants"); [congruence|].
  destruct (String.eqb k "Total Participants %"); discriminate.
Qed.

Lemma incr_item_column P k' row row' key c :
  int_columns P row -> survey_column P key c ->
  incr_item k' row = Ok row' ->
  column_count key c row'
  = column_count key c row + (if String.eqb k' (survey_key key c) then 1 else 0).
Proof.
  unfold incr_item. intros Hrow Hcol H.
  inv_bind_as H c0 Hc0. inv_bind_as H c1 Hc1. injection H as <-.
  apply getitem_Ok in Hc0. destruct (Hrow key c Hcol) as [n Hn].
  unfold column_count. destruct (String.eqb k' (survey_key key c)) eqn:E.
  - apply String.eqb_eq in E. subst k'. rewrite get_set_same, Hn.
    rewrite Hn in Hc0. injection Hc0 as <-. simpl in Hc1. injection Hc1 as <-. lia.
  - apply String.eqb_neq in E. rewrite get_set_other by exact E. lia.
Qed.

Lemma update_codes_column P key' cs sc sc' key c :
  int_columns P sc -> survey_column P key c ->
  for_each cs
    (fun code sc => if is_stop code then Ok sc else incr_item (survey_key key' code) sc)
    sc = Ok sc' ->
  int_columns P sc' /\
  column_count key c sc'
  = column_count key c sc
    + length (filter (fun c' => negb (is_stop c')
                                && String.eqb (survey_key key' c') (survey_key key c)) cs).
Proof.
  intros Hsc Hcol. revert sc Hsc. induction cs as [|c' cs IH]; simpl; intros sc Hsc Hrun.
  - injection Hrun as <-. split; [exact Hsc | lia].
  - inv_bind_as Hrun sc1 Hsc1. destruct (is_stop c'); simpl.
    + injection Hsc1 as <-. exact (IH _ Hsc Hrun).
    + destruct (IH _ (int_columns_incr _ _ _ _ Hsc Hsc1) Hrun) as [Hint Hcount].
      split; [exact Hint|]. rewrite Hcount, (incr_item_column _ _ _ _ _ _ Hsc Hcol Hsc1).
      destruct (String.eqb (survey_key key' c') (survey_key key c)); simpl; lia.
Qed.

Lemma update_survey_counts_column P row td row' key c :
  int_columns P row -> survey_column P key c ->
  update_survey_counts P row td = Ok row' ->
  int_columns P row' /\
  column_count key c row' = column_count key c row + survey_hits P (survey_key key c) td.
Proof.
  intros Hrow Hcol. rewrite update_survey_counts_unfold. unfold survey_hits.
  fold (survey_configurations P). generalize (survey_configurations P). intros ccs.
  revert row Hrow. induction ccs as [|cc ccs IH]; simpl; intros row Hrow Hrun.
  - injection Hrun as <-. split; [exact Hrow | lia].
  - inv_bind_as Hrun sc1 Hsc1.
    assert (Hstep : int_columns P sc1 /\
                    column_count key c sc1
                    = column_count key c row + configuration_hits (survey_key key c) td cc).
    { unfold update_survey_counts_configuration in Hsc1. unfold configuration_hits.
      destruct (analysis_file_key cc) as [key'|].
      - inv_bind_as Hsc1 cs Hcs. rewrite Hcs.
        exact (update_codes_column P key' cs row sc1 key c Hrow Hcol Hsc1).
      - injection Hsc1 as <-. split; [exact Hrow | lia]. }
    destruct Hstep as [Hint1 Hcount1].
    destruct (IH _ Hint1 Hrun) as [Hint Hcount]. split; [exact Hint | lia].
Qed.

Lemma set_survey_percentages_column P aliased sc total sc' key c :
  columns_apart P -> survey_column P key c ->
  set_survey_percentages P aliased sc total = Ok sc' ->
  OrderedDict.get (survey_key key c) sc' = OrderedDict.get (survey_key key c) sc.
Proof.
  intros Hapart Hcol Hrun. unfold set_survey_percentages in Hrun.
  inv_bind_as Hrun t Ht. inv_bind_as Hrun sc1 Hsc1.
  assert (Hne : "Total Participants %" <> survey_key key c).
  { intros E. pose proof (survey_key_colon key c) as Hc. rewrite <- E in Hc. discriminate. }
  assert (H1 : OrderedDict.get (survey_key key c) sc1 = OrderedDict.get (survey_key key c) sc).
  { destruct (cell_eq_zero t).
    - injection Hsc1 as <-. apply get_set_other. exact Hne.
    - inv_bind_as Hsc1 count Hcount. inv_bind_as Hsc1 pct Hp. injection Hsc1 as <-.
      apply get_set_other. exact Hne. }
  rewrite for_each_flat_map in Hrun. revert Hrun.
  apply (for_each_invariant
           (fun s => OrderedDict.get (survey_key key c) s
                     = OrderedDict.get (survey_key key c) sc)); [|exact H1].
  intros cc s s' Hcc Hs. unfold set_survey_percentages_configuration.
  destruct (analysis_file_key cc) as [key'|] eqn:Hkey; [|intros [= <-]; exact Hs].
  apply (for_each_invariant
           (fun s => OrderedDict.get (survey_key key c) s
                     = OrderedDict.get (survey_key key c) sc)); [|exact Hs].
  intros c' u u' Hc' Hu. destruct (is_stop c') eqn:Hstop; [intros [= <-]; exact Hu|].
  intros Hset.
  rewrite (set_percentage_other _ _ _ _ _ _ (survey_key key c)
             (Hapart key c key' c' Hcol
                (ex_intro _ cc (conj Hcc (conj Hkey (conj Hc' Hstop))))) Hset).
  exact Hu.
Qed.

(** X24: the count cells of the cross-tabulation.  When the theme pass
    returns for an episode and no count column shares its name with a
    percentage column, the cell of a theme's row under the count column of a
    survey code holds, summed over the individuals, the number of times the
    row was updated for the individual (once for each of its label
    assignments to the theme; for the synthetic row, once if it is relevant;
    never if it withdrew consent) times the number of the individual's
    survey codes counted in that column. *)
Theorem cross_tabulation_cells P plan individuals themes key c K row :
  episode_themes P plan individuals = Ok themes ->
  columns_apart P ->
  survey_column P key c ->
  OrderedDict.get K themes = Some row ->
  OrderedDict.get (survey_key key c) row
  = Some (CInt (list_sum (map (fun td => theme_updates plan K td
                                         * survey_hits P (survey_key key c) td)
                            individuals))).
Proof.
  intros Hrun Hapart Hcol Hget.
  pose proof (episode_themes_measure P (int_columns P) (column_count key c)
                (survey_hits P (survey_key key c))) as Hmeasure.
  rewrite (column_count_int P key c row
             (episode_themes_int_columns _ _ _ _ Hapart Hrun K row (get_In _ _ _ Hget)) Hcol).
  f_equal. f_equal.
  rewrite <- (Hmeasure) with (4 := Hrun) (K := K).
  - unfold measure_at. rewrite Hget. reflexivity.
  - split; [apply int_columns_fresh; exact Hapart|].
    destruct (int_columns_fresh P Hapart key c Hcol) as [n Hn].
    unfold column_count. rewrite Hn. exact (make_cells_zero _ _ _ Hn).
  - intros td r r1 r2 Hr H1 H2.
    pose proof (int_columns_incr _ _ _ _ Hr H1) as Hr1.
    destruct (update_survey_counts_column _ _ _ _ _ _ Hr1 Hcol H2) as [Hr2 Hcount].
    split; [exact Hr2|]. rewrite Hcount, (incr_item_column _ _ _ _ _ _ Hr Hcol H1).
    destruct (String.eqb "Total Participants" (survey_key key c)) eqn:E; [|lia].
    apply String.eqb_eq in E. pose proof (survey_key_colon key c) as Hc.
    rewrite <- E in Hc. discriminate.
  - intros aliased r total r' Hr Hpct.
    split; [exact (int_columns_percentages _ _ _ _ _ Hapart Hr Hpct)|].
    unfold column_count.
    rewrite (set_survey_percentages_column _ _ _ _ _ _ _ Hapart Hcol Hpct). reflexivity.
Qed.

Lemma cross_tabulation_cells_witness :
  exists themes row,
    episode_themes pipeline s01e01_plan [amina; baraka; chausiku; faraja] = Ok themes /\
    OrderedDict.get "rqa_s01e01_water" themes = Some row /\
    OrderedDict.get "gender:male" row = Some (CInt 3) /\
    map (theme_updates s01e01_plan "rqa_s01e01_water") [amina; baraka; chausiku; faraja]
    = [1; 1; 0; 2] /\
    map (survey_hits pipeline "gender:male") [amina; baraka; chausiku; faraja]
    = [0; 1; 0; 1] /\
    OrderedDict.get (survey_key "gender" (code "code-male" "male" NORMAL None)) row
    = Some (CInt (list_sum
                    (map (fun td => theme_updates s01e01_plan "rqa_s01e01_water" td
                                    * survey_hits pipeline
                                        (survey_key "gender"
                                           (code "code-male" "male" NORMAL None)) td)
                       [amina; baraka; chausiku; faraja]))).
Proof.
  eexists. eexists. split; [vm_compute; reflexivity|]. split; [vm_compute; reflexivity|].
  split; [vm_compute; reflexivity|]. split; [vm_compute; reflexivity|].
  split; [vm_compute; reflexivity|].
  eapply (cross_tabulation_cells pipeline s01e01_plan [amina; baraka; chausiku; faraja] _
            "gender" (code "code-male" "male" NORMAL None) "rqa_s01e01_water").
  - vm_compute. reflexivity.
  - exact pipeline_columns_apart.
  - apply pipeline_survey_columns. split; [reflexivity|]. split; [simpl; tauto | reflexivity].
  - vm_compute. reflexivity.
Defined.

(* ================================================================= *)
(** * The percentage columns of the cross-tabulation *)

Lemma string_length_append (a b : string) :
  String.length (a ++ b) = String.length a + String.length b.
Proof. induction a as [|x a IH]; simpl; [reflexivity | rewrite IH; reflexivity]. Qed.

Lemma string_append_assoc (a b c : string) : ((a ++ b) ++ c = a ++ (b ++ c))%string.
Proof. induction a as [|x a IH]; simpl; [reflexivity | rewrite IH; reflexivity]. Qed.

Lemma string_append_cancel_r (a b s : string) : (a ++ s = b ++ s)%string -> a = b.
Proof.
  revert b. induction a as [|x a IH]; intros [|y b] H; simpl in H.
  - reflexivity.
  - apply (f_equal String.length) in H. simpl in H. rewrite string_length_append in H. lia.
  - apply (f_equal String.length) in H. simpl in H. rewrite string_length_append in H. lia.
  - injection H as -> H. f_equal. exact (IH _ H).
Qed.

(** Two percentage columns of the same name belong to count columns of the
    same name. *)
Lemma survey_pct_key_inj key c key' c' :
  survey_pct_key key c = survey_pct_key key' c' -> survey_key key c = survey_key key' c'.
Proof.
  assert (Hshape : forall k x, survey_pct_key k x = (survey_key k x ++ " %")%string).
  { intros k x. unfold survey_pct_key, survey_key.
    rewrite !string_append_assoc. reflexivity. }
  rewrite !Hshape. apply string_append_cancel_r.
Qed.

Lemma for_each_establishes_in {A S : Type} (R Q : S -> Prop) (xs : list A)
  (body : A -> S -> result S) (x0 : A) :
  (forall x s s', In x xs -> R s -> body x s = Ok s' -> R s') ->
  (forall x s s', In x xs -> R s -> Q s -> body x s = Ok s' -> Q s') ->
  In x0 xs ->
  (forall s s', R s -> body x0 s = Ok s' -> Q s') ->
  forall s s', R s -> for_each xs body s = Ok s' -> Q s'.
Proof.
  induction xs as [|x xs IH]; intros HR HQ Hin Hx0; [destruct Hin|].
  intros s s' Hs Hrun. simpl in Hrun. inv_bind_as Hrun s1 Hs1.
  destruct Hin as [-> | Hin].
  - assert (Hboth : R s' /\ Q s').
    { revert Hrun. apply (for_each_invariant (fun s => R s /\ Q s)).
      - intros x s2 s3 Hx [H2 H3] Hstep.
        split; [exact (HR _ _ _ (or_intror Hx) H2 Hstep)|].
        exact (HQ _ _ _ (or_intror Hx) H2 H3 Hstep).
      - split; [exact (HR _ _ _ (or_introl eq_refl) Hs Hs1) | exact (Hx0 _ _ Hs Hs1)]. }
    exact (proj2 Hboth).
  - apply (IH (fun y u u' Hy => HR y u u' (or_intror Hy))
              (fun y u u' Hy => HQ y u u' (or_intror Hy)) Hin Hx0 s1 s').
    + exact (HR _ _ _ (or_introl eq_refl) Hs Hs1).
    + exact Hrun.
Qed.

Lemma set_survey_percentages_column_pct P aliased sc total sc' key c :
  columns_apart P -> survey_column P key c ->
  int_columns P sc -> int_columns P (totals_seen aliased sc total) ->
  set_survey_percentages P aliased sc total = Ok sc' ->
  column_pct key c sc'
  = Some (percentage_cell (column_count key c sc)
            (column_count key c (totals_seen aliased sc total))).
Proof.
  intros Hapart Hcol Hsc Htotal Hrun. unfold set_survey_percentages in Hrun.
  inv_bind_as Hrun t Ht. inv_bind_as Hrun sc1 Hsc1.
  set (same := fun s : SurveyCounts =>
                 forall key' c', survey_column P key' c' ->
                   OrderedDict.get (survey_key key' c') s
                   = OrderedDict.get (survey_key key' c') sc).
  set (v := percentage_cell (column_count key c sc)
              (column_count key c (totals_seen aliased sc total))).
  set (body := fun key' (code : Code) (s : SurveyCounts) =>
                 if is_stop code then Ok s
                 else set_percentage aliased total
                        (survey_key key' code) (survey_pct_key key' code) s).
  assert (H1 : same sc1).
  { intros key' c' Hcol'.
    assert (Hne : "Total Participants %" <> survey_key key' c').
    { intros E. pose proof (survey_key_colon key' c') as Hc. rewrite <- E in Hc.
      discriminate. }
    destruct (cell_eq_zero t).
    - injection Hsc1 as <-. apply get_set_other. exact Hne.
    - inv_bind_as Hsc1 count Hcount. inv_bind_as Hsc1 p Hp. injection Hsc1 as <-.
      apply get_set_other. exact Hne. }
  assert (Hstep : forall cc key' c' s s',
    In cc (survey_configurations P) -> analysis_file_key cc = Some key' ->
    In c' (codes (code_scheme cc)) ->
    same s -> body key' c' s = Ok s' ->
    same s' /\
    (column_pct key c s = Some v -> column_pct key c s' = Some v) /\
    (is_stop c' = false -> survey_key key' c' = survey_key key c ->
     column_pct key c s' = Some v)).
  { intros cc key' c' s s' Hcc Hkey' Hc' Hs Hset. unfold body in Hset.
    destruct (is_stop c') eqn:Hstop'.
    { injection Hset as <-. split; [exact Hs|]. split; [auto | discriminate]. }
    assert (Hcol' : survey_column P key' c') by (exists cc; auto).
    assert (Hval : survey_pct_key key' c' = survey_pct_key key c ->
                   column_pct key c s' = Some v).
    { intros Epct. pose proof (survey_pct_key_inj _ _ _ _ Epct) as Ekey.
      rewrite Epct, Ekey in Hset.
      rewrite (set_percentage_int aliased total _ _ s (column_count key c sc)
                 (column_count key c (totals_seen aliased sc total))) in Hset.
      - injection Hset as <-. unfold column_pct. rewrite get_set_same. reflexivity.
      - rewrite (Hs key c Hcol). apply (column_count_int P); assumption.
      - unfold totals_seen in *. destruct aliased.
        + rewrite (Hs key c Hcol). apply (column_count_int P); assumption.
        + apply (column_count_int P); assumption. }
    split; [|split].
    - intros k'' c'' Hcol''.
      rewrite (set_percentage_other _ _ _ _ _ _ (survey_key k'' c'')
                 (Hapart k'' c'' key' c' Hcol'' Hcol') Hset).
      exact (Hs k'' c'' Hcol'').
    - intros Hv. destruct (string_dec (survey_pct_key key' c') (survey_pct_key key c))
        as [E | Hne]; [exact (Hval E)|].
      unfold column_pct.
      rewrite (set_percentage_other _ _ _ _ _ _ (survey_pct_key key c)
                 (fun E => Hne (eq_sym E)) Hset).
      exact Hv.
    - intros _ Ekey. apply Hval. unfold survey_pct_key, survey_key in *.
      rewrite <- !string_append_assoc. rewrite <- !string_append_assoc in Ekey.
      rewrite Ekey. reflexivity. }
  assert (Hconf : forall cc s s',
    In cc (survey_configurations P) -> same s ->
    set_survey_percentages_configuration aliased total cc s = Ok s' ->
    same s' /\ (column_pct key c s = Some v -> column_pct key c s' = Some v)).
  { intros cc s s' Hcc Hs. unfold set_survey_percentages_configuration.
    destruct (analysis_file_key cc) as [key'|] eqn:Hkey'; [|intros [= <-]; auto].
    fold (body key'). intros Hloop. split.
    - revert Hloop. apply (for_each_invariant same); [|exact Hs].
      intros c' u u' Hc' Hu Hb. exact (proj1 (Hstep cc key' c' u u' Hcc Hkey' Hc' Hu Hb)).
    - intros Hv.
      assert (Hboth : same s' /\ column_pct key c s' = Some v).
      { revert Hloop.
        apply (for_each_invariant (fun u => same u /\ column_pct key c u = Some v));
          [|split; assumption].
        intros c' u u' Hc' [Hu Hq] Hb.
        destruct (Hstep cc key' c' u u' Hcc Hkey' Hc' Hu Hb) as (Hu' & Hkeep & _).
        split; [exact Hu' | exact (Hkeep Hq)]. }
      exact (proj2 Hboth). }
  destruct Hcol as (cc0 & Hcc0 & Hkey0 & Hc0 & Hstop0).
  rewrite for_each_flat_map in Hrun. fold (survey_configurations P) in Hrun.
  revert Hrun.
  apply (for_each_establishes_in same (fun s => column_pct key c s = Some v)
           (survey_configurations P)
           (set_survey_percentages_configuration aliased total) cc0).
  - intros cc s s' Hcc Hs Hb. exact (proj1 (Hconf cc s s' Hcc Hs Hb)).
  - intros cc s s' Hcc Hs Hq Hb. exact (proj2 (Hconf cc s s' Hcc Hs Hb) Hq).
  - exact Hcc0.
  - intros s s' Hs. unfold set_survey_percentages_configuration. rewrite Hkey0.
    fold (body key).
    apply (for_each_establishes_in same (fun s => column_pct key c s = Some v)
             (codes (code_scheme cc0)) (body key) c).
    + intros c' u u' Hc' Hu Hb. exact (proj1 (Hstep cc0 key c' u u' Hcc0 Hkey0 Hc' Hu Hb)).
    + intros c' u u' Hc' Hu Hq Hb.
      exact (proj1 (proj2 (Hstep cc0 key c' u u' Hcc0 Hkey0 Hc' Hu Hb)) Hq).
    + exact Hc0.
    + intros u u' Hu Hb.
      exact (proj2 (proj2 (Hstep cc0 key c u u' Hcc0 Hkey0 Hc0 Hu Hb)) Hstop0 eq_refl).
    + exact Hs.
  - exact H1.
Qed.

Lemma totals_fixed_column P key c total (themes : Themes) :
  totals_fixed (int_columns P) (column_count key c) total themes ->
  exists total_row,
    OrderedDict.get TOTAL_RELEVANT themes = Some total_row /\
    int_columns P total_row /\ column_count key c total_row = total.
Proof.
  intros [Hrows (row & Hget & Hcount)]. exists row. split; [exact Hget|].
  split; [exact (Hrows _ _ (get_In _ _ _ Hget)) | exact Hcount].
Qed.

Lemma finalize_theme_columns_kept P cc code themes themes' key c total :
  columns_apart P -> survey_column P key c ->
  totals_fixed (int_columns P) (column_count key c) total themes ->
  finalize_theme P cc code themes = Ok themes' ->
  totals_fixed (int_columns P) (column_count key c) total themes'.
Proof.
  intros Hapart Hcol [Hrows (row & Hget & Hcount)] Hrun.
  destruct (finalize_theme_measure P (int_columns P) (column_count key c)) 
    with (2 := Hrows) (3 := Hrun) as [Hrows' Hsame].
  { intros aliased r t r' Hr Hpct.
    split; [exact (int_columns_percentages _ _ _ _ _ Hapart Hr Hpct)|].
    unfold column_count.
    rewrite (set_survey_percentages_column _ _ _ _ _ _ _ Hapart Hcol Hpct). reflexivity. }
  split; [exact Hrows'|].
  pose proof (Hsame TOTAL_RELEVANT) as Hm. unfold measure_at in Hm. rewrite Hget in Hm.
  destruct (OrderedDict.get TOTAL_RELEVANT themes') as [row'|] eqn:Hget'.
  - exists row'. split; [reflexivity | congruence].
  - exfalso. unfold finalize_theme in Hrun.
    destruct (negb (is_normal code)); [injection Hrun as <-; congruence|].
    inv_bind_as Hrun theme Htheme. inv_bind_as Hrun total_row Htotal.
    inv_bind_as Hrun theme' Htheme'. injection Hrun as <-.
    destruct (string_dec (theme_key cc code) TOTAL_RELEVANT) as [E | Hne].
    + rewrite E, get_set_same in Hget'. discriminate.
    + rewrite get_set_other in Hget' by (intros E; apply Hne; congruence). congruence.
Qed.

Lemma finalize_theme_sets_column P cc code themes themes' key c total :
  columns_apart P -> survey_column P key c ->
  is_normal code = true ->
  totals_fixed (int_columns P) (column_count key c) total themes ->
  finalize_theme P cc code themes = Ok themes' ->
  cell_set (column_count key c) (column_pct key c) (theme_key cc code) total themes'.
Proof.
  intros Hapart Hcol Hnormal HR Hrun.
  destruct (totals_fixed_column _ _ _ _ _ HR) as (total_row0 & Hget0 & Hint0 & Hcount0).
  destruct HR as [Hrows _].
  unfold finalize_theme in Hrun. rewrite Hnormal in Hrun. simpl in Hrun.
  inv_bind_as Hrun theme Htheme. inv_bind_as Hrun total_row Htotal_row.
  inv_bind_as Hrun theme' Htheme'. injection Hrun as <-.
  pose proof (every_row_getitem _ _ _ _ Hrows Htheme) as Hint.
  apply getitem_Ok in Htheme, Htotal_row.
  rewrite Hget0 in Htotal_row. injection Htotal_row as <-.
  assert (Hseen : totals_seen (String.eqb (theme_key cc code) TOTAL_RELEVANT)
                    theme total_row0 = total_row0).
  { unfold totals_seen. destruct (String.eqb (theme_key cc code) TOTAL_RELEVANT) eqn:E.
    - apply String.eqb_eq in E. rewrite E in Htheme. congruence.
    - reflexivity. }
  exists theme'. split; [apply get_set_same|].
  rewrite (set_survey_percentages_column_pct _ _ _ _ _ _ _ Hapart Hcol Hint
             (eq_ind_r (int_columns P) Hint0 Hseen) Htheme').
  rewrite Hseen, Hcount0. unfold column_count.
  rewrite (set_survey_percentages_column _ _ _ _ _ _ _ Hapart Hcol Htheme'). reflexivity.
Qed.

Lemma finalize_theme_keeps_column P cc code K themes themes' key c total :
  columns_apart P -> survey_column P key c ->
  totals_fixed (int_columns P) (column_count key c) total themes ->
  cell_set (column_count key c) (column_pct key c) K total themes ->
  finalize_theme P cc code themes = Ok themes' ->
  cell_set (column_count key c) (column_pct key c) K total themes'.
Proof.
  intros Hapart Hcol HR Hset Hrun. destruct (is_normal code) eqn:Hnormal.
  - destruct (string_dec (theme_key cc code) K) as [<- | Hne].
    + exact (finalize_theme_sets_column _ _ _ _ _ _ _ _ Hapart Hcol Hnormal HR Hrun).
    + unfold finalize_theme in Hrun. rewrite Hnormal in Hrun. simpl in Hrun.
      inv_bind_as Hrun theme Htheme. inv_bind_as Hrun total_row Htotal_row.
      inv_bind_as Hrun theme' Htheme'. injection Hrun as <-.
      destruct Hset as (row & Hget & Hpct). exists row.
      rewrite get_set_other by exact Hne. auto.
  - unfold finalize_theme in Hrun. rewrite Hnormal in Hrun. simpl in Hrun.
    injection Hrun as <-. exact Hset.
Qed.

Lemma finalize_configuration_columns_kept P cc themes themes' key c total :
  columns_apart P -> survey_column P key c ->
  totals_fixed (int_columns P) (column_count key c) total themes ->
  finalize_themes_configuration P cc themes = Ok themes' ->
  totals_fixed (int_columns P) (column_count key c) total themes'.
Proof.
  intros Hapart Hcol HR Hrun. unfold finalize_themes_configuration in Hrun.
  inv_bind_as Hrun u Hu. revert Hrun.
  apply (for_each_invariant (totals_fixed (int_columns P) (column_count key c) total));
    [|exact HR].
  intros code s s' _. apply finalize_theme_columns_kept; assumption.
Qed.

Lemma finalize_configuration_keeps_column P cc K themes themes' key c total :
  columns_apart P -> survey_column P key c ->
  totals_fixed (int_columns P) (column_count key c) total themes ->
  cell_set (column_count key c) (column_pct key c) K total themes ->
  finalize_themes_configuration P cc themes = Ok themes' ->
  cell_set (column_count key c) (column_pct key c) K total themes'.
Proof.
  intros Hapart Hcol HR HQ Hrun. unfold finalize_themes_configuration in Hrun.
  inv_bind_as Hrun u Hu.
  assert (Hboth : totals_fixed (int_columns P) (column_count key c) total themes' /\
                  cell_set (column_count key c) (column_pct key c) K total themes').
  { revert Hrun.
    apply (for_each_invariant
             (fun s => totals_fixed (int_columns P) (column_count key c) total s /\
                       cell_set (column_count key c) (column_pct key c) K total s));
      [|split; assumption].
    intros code s s' _ [Hs HsQ] Hstep. split.
    - exact (finalize_theme_columns_kept _ _ _ _ _ _ _ _ Hapart Hcol Hs Hstep).
    - exact (finalize_theme_keeps_column _ _ _ _ _ _ _ _ _ Hapart Hcol Hs HsQ Hstep). }
  exact (proj2 Hboth).
Qed.

Lemma finalize_configuration_sets_column P cc code themes themes' key c total :
  columns_apart P -> survey_column P key c ->
  In code (codes (code_scheme cc)) ->
  is_normal code = true ->
  totals_fixed (int_columns P) (column_count key c) total themes ->
  finalize_themes_configuration P cc themes = Ok themes' ->
  cell_set (column_count key c) (column_pct key c) (theme_key cc code) total themes'.
Proof.
  intros Hapart Hcol Hc Hnormal HR Hrun. unfold finalize_themes_configuration in Hrun.
  inv_bind_as Hrun u Hu. revert Hrun.
  apply (for_each_establishes
           (totals_fixed (int_columns P) (column_count key c) total)
           (cell_set (column_count key c) (column_pct key c) (theme_key cc code) total)
           (codes (code_scheme cc)) (finalize_theme P cc) code).
  - intros c' s s'. apply finalize_theme_columns_kept; assumption.
  - intros c' s s'. apply finalize_theme_keeps_column; assumption.
  - exact Hc.
  - intros s s'. apply finalize_theme_sets_column; assumption.
  - exact HR.
Qed.

(** X25: the percentage columns of the cross-tabulation.  When the theme
    pass returns for an episode and no count column shares its name with a
    percentage column, the row of the synthetic "Total Relevant Participants"
    theme and the row of every NORMAL code of the episode hold, in the
    percentage column of a survey code, the "-" sentinel if the count column
    of that code is zero in the synthetic row, and otherwise their own count
    in that column as a percentage of the synthetic row's count, rounded to
    one decimal. *)
Theorem survey_percentage_cells P plan individuals themes key c :
  episode_themes P plan individuals = Ok themes ->
  columns_apart P ->
  survey_column P key c ->
  cell_set (column_count key c) (column_pct key c) TOTAL_RELEVANT
    (measure_at (column_count key c) TOTAL_RELEVANT themes) themes /\
  forall cc code,
    In cc (coding_configurations plan) ->
    In code (codes (code_scheme cc)) ->
    is_normal code = true ->
    cell_set (column_count key c) (column_pct key c) (theme_key cc code)
      (measure_at (column_count key c) TOTAL_RELEVANT themes) themes.
Proof.
  intros Hrun Hapart Hcol. unfold episode_themes in Hrun. inv_bind_as Hrun counts Hcounts.
  assert (Hint : every_row (int_columns P) counts).
  { unfold episode_theme_counts in Hcounts. inv_bind_as Hcounts themes0 Hinit.
    apply (init_themes_every_row P (int_columns P) (int_columns_fresh P Hapart)) in Hinit.
    revert Hcounts. apply (for_each_invariant (every_row (int_columns P))); [|exact Hinit].
    intros td s s' _.
    apply (count_themes_of_every_row P (int_columns P) (int_columns_count P)). }
  unfold episode_theme_percentages in Hrun.
  inv_bind_as Hrun total_row Htotal_row. inv_bind_as Hrun total_row' Htotal_row'.
  pose proof (every_row_getitem _ _ _ _ Hint Htotal_row) as Hint_total.
  set (total := column_count key c total_row).
  assert (Hsame : column_count key c total_row' = total).
  { unfold total, column_count.
    rewrite (set_survey_percentages_column _ _ _ _ _ _ _ Hapart Hcol Htotal_row').
    reflexivity. }
  assert (HR : totals_fixed (int_columns P) (column_count key c) total
                 (OrderedDict.set TOTAL_RELEVANT total_row' counts)).
  { split.
    - apply every_row_set; [exact Hint|].
      exact (int_columns_percentages _ _ _ _ _ Hapart Hint_total Htotal_row').
    - exists total_row'. split; [apply get_set_same | exact Hsame]. }
  assert (HQ : cell_set (column_count key c) (column_pct key c) TOTAL_RELEVANT total
                 (OrderedDict.set TOTAL_RELEVANT total_row' counts)).
  { exists total_row'. split; [apply get_set_same|].
    rewrite (set_survey_percentages_column_pct P true total_row total_row total_row' key c
               Hapart Hcol Hint_total Hint_total Htotal_row').
    rewrite Hsame. reflexivity. }
  assert (HR' : totals_fixed (int_columns P) (column_count key c) total themes).
  { revert Hrun.
    apply (for_each_invariant (totals_fixed (int_columns P) (column_count key c) total));
      [|exact HR].
    intros cc s s' _. apply finalize_configuration_columns_kept; assumption. }
  assert (Hcount : measure_at (column_count key c) TOTAL_RELEVANT themes = total).
  { destruct HR' as [_ (row & Hget & Hrow)]. unfold measure_at. rewrite Hget. exact Hrow. }
  rewrite Hcount. split.
  - assert (Hboth : totals_fixed (int_columns P) (column_count key c) total themes /\
                    cell_set (column_count key c) (column_pct key c) TOTAL_RELEVANT
                      total themes).
    { revert Hrun.
      apply (for_each_invariant
               (fun s => totals_fixed (int_columns P) (column_count key c) total s /\
                         cell_set (column_count key c) (column_pct key c) TOTAL_RELEVANT
                           total s)); [|split; assumption].
      intros cc s s' _ [Hs HsQ] Hstep. split.
      - exact (finalize_configuration_columns_kept _ _ _ _ _ _ _ Hapart Hcol Hs Hstep).
      - exact (finalize_configuration_keeps_column _ _ _ _ _ _ _ _ Hapart Hcol Hs HsQ
                 Hstep). }
    exact (proj2 Hboth).
  - intros cc code Hcc Hc Hnormal. revert Hrun.
    apply (for_each_establishes
             (totals_fixed (int_columns P) (column_count key c) total)
             (cell_set (column_count key c) (column_pct key c) (theme_key cc code) total)
             (coding_configurations plan) (finalize_themes_configuration P) cc).
    + intros cc' s s'. apply finalize_configuration_columns_kept; assumption.
    + intros cc' s s'. apply finalize_configuration_keeps_column; assumption.
    + exact Hcc.
    + intros s s'. apply finalize_configuration_sets_column; assumption.
    + exact HR.
Qed.

Lemma survey_percentage_cells_witness :
  exists themes,
    episode_themes pipeline s01e01_plan [amina; baraka; chausiku; faraja] = Ok themes /\
    measure_at (column_count "gender" (code "code-male" "male" NORMAL None))
      TOTAL_RELEVANT themes = 2 /\
    map (fun K => option_map (column_pct "gender" (code "code-male" "male" NORMAL None))
                    (OrderedDict.get K themes))
      [TOTAL_RELEVANT; "rqa_s01e01_water"; "rqa_s01e01_food"; "rqa_s01e01_NC"]
    = [ Some (Some (percentage_cell 2 2)); Some (Some (percentage_cell 3 2));
        Some (Some (percentage_cell 0 2)); Some (Some CNone) ] /\
    cell_set (column_count "gender" (code "code-male" "male" NORMAL None))
      (column_pct "gender" (code "code-male" "male" NORMAL None)) "rqa_s01e01_water"
      (measure_at (column_count "gender" (code "code-male" "male" NORMAL None))
         TOTAL_RELEVANT themes) themes.
Proof.
  eexists. split; [vm_compute; reflexivity|]. split; [vm_compute; reflexivity|].
  split; [vm_compute; reflexivity|].
  eapply (proj2 (survey_percentage_cells pipeline s01e01_plan
                   [amina; baraka; chausiku; faraja] _ "gender"
                   (code "code-male" "male" NORMAL None) _ pipeline_columns_apart _)
            s01e01_configuration (code "code-water" "water" NORMAL None)).
  - left. reflexivity.
  - simpl. tauto.
  - reflexivity.
  Unshelve.
  + vm_compute. reflexivity.
  + apply pipeline_survey_columns. split; [reflexivity|]. split; [simpl; tauto | reflexivity].
Defined.
